(* ===== verification/_CoqProject ===== *)
-Q . S2P
Prelude.v
Double.v
JsonValue.v
JsonParser.v
JsonParserFacts.v
JsonGrammar.v
JsonComplete.v
JsonSound.v
JsonSerialize.v
JsonTheorems.v
FifoSpec.v
RingFifo.v
Memory.v
ByteQueue.v
CircularQueue.v
Loops.v
Finance.v
NodeJson.v
Ownership.v
HeapCopy.v
JsonValueHeap.v
AntColony.v
ParticleFilter.v
SendFile.v
Explore.v
NetworkStream.v
VideoDecoder.v
DecoderLifetime.v
Perceptron.v
StreamBuf.v
Promise.v
MotorControl.v
Uart.v
Functional.v
Radio.v
Fft.v
Egl.v
Kalman.v
AsyncInput.v
DumpSerial.v
Elves.v
EchoServers.v
WebSocketPair.v
Udp.v
ImageNetwork.v
PyRuntime.v
CodeCache.v
Traceback.v
PyCalls.v
PyIndex.v
PyModule.v
PyArgs.v
PyDictCache.v
PyVariants.v
PyIntConv.v
PyMacros.v
PyUnpickle.v
PyTypes.v
PyInit.v
PyTables.v
AsyncIO.v
NodeShared.v
ContainerSource.v
HttpClient.v
