(* ===== verification/Prelude.v ===== *)
(** * cpp-examples: a verification development

    The repository is a collection of independent C and C++ programs: two JSON
    implementations, four fixed-size queues, concurrent and networked examples,
    numerical examples, and small class studies.  The development models their
    logic as Rocq functions, state machines and heap programs, and proves what
    makes each of them correct, or the exact behaviour where it is not.

    ** Conventions

    A C++ evaluation has an [outcome]: a value, an exception, undefined
    behaviour of a named kind, or process exit.  [f x = Ok y] therefore also says
    that [f] has no undefined behaviour on [x].  Unsigned integers are reduced
    modulo their width ([u8] to [u64]); signed [int] arithmetic goes through
    [int32], which is undefined outside the range.  [double] is IEEE binary64
    with round to nearest even ([Double], on the Standard Library's SpecFloat).
    Loops and recursions that are not structural are [fuelled]; [OutOfFuel] is
    not a result of the program, and the theorems show that it does not occur.
    Libraries that are not in the repository (FFmpeg, FFTW, Eigen, the functions
    of <cmath>, the kernel, random generators, the allocator) are parameters.

    ** Files

    - [Prelude]: outcomes, machine integers, characters, numerals, fuel, step
      relations.  [Loops]: [for] loops and vectors.  [Memory]: blocks and
      [memcpy].  [Explore]: exhaustive exploration of finite state machines, and runs of them
      that follow given choices.
      [Double]: binary64, [std::stod], [std::stoll], [std::to_string].
    - middleware/src/nonworking_json.cpp: [JsonValue] (the variant and its
      accessors), [JsonParser] (the methods of the parser, one function each),
      [JsonParserFacts] (termination, progress, monotonicity in the fuel),
      [JsonGrammar] (the accepted language, declaratively), [JsonComplete] and
      [JsonSound] (both inclusions), [JsonSerialize] (the serializer and its
      place in the grammar), [JsonTheorems] (the theorems and the program's
      [main]).  The fuel of [parse] is three units per character and three more:
      every third nested call consumes a character.
    - Queues: [FifoSpec] is the contract of a bounded queue, a class with the
      simulation theorem its clients use; [RingFifo] (cjunk/ringBuffer.h)
      implements it, with the byte swap macros; [ByteQueue]
      (cjunk/practice/queue.h) implements a weaker contract, stated exactly;
      [CircularQueue] (cjunk/practice/circularqueue.cc) is a step relation over
      threads, with an invariant for one producer and one consumer.
    - Strings and trees: [NodeJson] (cjunk/practice/smallString.cc and
      cjunk/trivialJson/json.hpp, json.cpp); [NodeShared] is the storage of the same
      nodes with shared lists (cjunk/practice/json-node2.hpp, and the comparison of
      json.hpp).  [Ownership] is the visitor that two
      programs use to copy and assign trees behind [std::unique_ptr], over a heap;
      [HeapCopy] (cjunk/trivialJson/SmallMemoryModel.cpp) and [JsonValueHeap]
      (the class [JsonValue] of nonworking_json.cpp) are its instances.
    - Threads, sockets and resources: [NetworkStream], [VideoDecoder] and
      [DecoderLifetime] (cjunk/practice/networkframeStream.cpp), [SendFile]
      (cjunk/practice/sendFile.cc), [Promise]
      (cjunk/practice/chainablePromise.cc), [ParticleFilter]
      (cjunk/practice/geoParticleFilter.cc), [Egl]
      (cjunk/practice/egl/egl_test.cpp), [AsyncInput]
      (cjunk/practice/asyncStdin.cc), [AsyncIO] (cjunk/practice/asyncio.cc, whose
      [kbhit] is in [AsyncInput], and isatty.cc), [HttpClient] (cjunk/parser.cpp),
      [ContainerSource] (cjunk/tests.cpp), [EchoServers]
      (cjunk/practice/websocketBase.cpp, beastWebsocketServer.cpp), [WebSocketPair]
      (cjunk/practice/websocket-somethingsMIssing.cpp), [Udp]
      (cjunk/practice/UDPServer2.cc, UDPSocketServer.cc), [Elves] (raii.cc),
      [DumpSerial] (middleware/src/dump_serial.cpp).
    - Numerical and small programs: [Finance], [AntColony], [Perceptron],
      [MotorControl], [Fft], [Uart], [Functional], [StreamBuf], [Radio],
      [ImageNetwork] (cjunk/practice/ImageNeuralNetwork.cpp), and [Kalman]
      (cjunk/practice/kalmanFilter.cc), over a class of what the filter uses of
      Eigen: shapes and assertions, with the coefficients left open.
    - The Cython module (cjunk/cython/simple.cpp, generated code and its run-time
      helpers, for CPython 3.7 or later unless it is said otherwise): [PyRuntime]
      is the C API as events that a parameter answers, the ledger of the references the module owns, and a program
      logic; [CodeCache] the sorted cache of code objects; [Traceback] the assertion
      all functions are verified against, its symbolic execution, and tracebacks;
      [PyCalls] calls, attributes, imports and raising; [PyIndex] subscripts;
      [PyModule] the functions of the module; [PyArgs] the binding of arguments;
      [PyIntConv] integer conversions; [PyUnpickle] the wrapper that composes
      functions, arguments and conversions; [PyTypes] exception matching;
      [PyDictCache] look-ups cached under the version of a dictionary; [PyVariants]
      the helpers of other configurations; [PyMacros] indexing with any integer type
      and thread keys; [PyInit] loading the module; [PyTables] its method, member and
      type tables.  The loop
      of [second_function] has a unit of fuel for each of its 100 iterations, and an
      object is converted to an integer at most once.

    ** What is shown

    JSON: the parser accepts exactly the grammar (C1), is total, its one undefined
    behaviour being the classification of a negative character (C2), reads back
    what the serializer wrote up to the six decimals of numbers (C3), rejects bare
    integers (C4), returns a value of the type the text announces (C5), and takes
    the last of repeated keys (C36); values are copied deeply, and which
    assignments read freed memory (C6, and C20, C21 for the other program).
    Queues: refinement of abstract queues for every sequence of operations (C7,
    C9), byte swaps (C8), what the observers and setters of the byte queue do
    (C11, C12), every interleaving of a producer and a consumer (C13), and the
    slot that a consumer reads unwritten when there are two producers (C23).
    Objects and threads: each elf is constructed where none lives and destroyed
    once, at its address (C10), input on another thread (C15), descriptors (C27),
    a container read as a stream (C26), how the life of a network stream ends,
    with its data race and its exceptions, by exhaustive exploration (C28),
    session lifetimes of the Beast server (C30), and how the UDP test with a
    receiving thread ends (C40). The Cython module: it keeps its references
    balanced on every error path (C32), while it is loaded it owns what its
    variables hold and loses what they held before (C25), a loaded module is not
    loaded again (C17), its cache refines a finite map (C29), its conversions of
    integers are right on every platform (C34), it binds arguments as Python does
    (C35), its cached look-ups are those without a cache except after one that
    raised (C37), it indexes as Python does with any integer type (C31), it
    matches exceptions by inheritance (C39), and its unpickling wrapper composes
    binding, conversion and the function (C14). Functions: the best trade (C16),
    the serializer of one program read by the parser of another (C18), what the
    serial dump prints (C19), the tours of the ants (C22), resampling (C24), text
    in upper case (C33), the UART driver (C38). Theorems without a number record
    further behaviour of the same definitions: the WebSocket pair that never
    talks, the WebSocket program that never connects, the video streams of the
    network program, spent futures, promise chains, Fourier spectra, the shapes
    of the Kalman filter, matrices, perceptrons, image networks, EGL objects,
    picture planes and the lifetime of a decoder, iterators, a program that
    cannot close its files, shared nodes, keyboard polling, stream devices,
    version checks.

    ** What is not modelled

    The examples that only call a library (quicServer.cpp, fromsimd.cpp, Poco),
    the actor and the extended Kalman filter, which no compiler reads, and the
    stubs are left out; so are the handler chains of websocketBase.cpp, which read
    into string literals and use a variable they do not capture, [run] and the
    tests of the ants, which share a random engine between threads and call a
    method the class does not have, and the [write] overloads of the network
    streams, which fill a buffer of Boost. Of the Cython module, code that Python
    runs inside a call and that comes back into the module is not modelled, nor
    are the debugging hooks around references and the wrapper of C++ references,
    which nothing uses. The disabled reader of SmallMemoryModel.cpp is not
    compiled. Several files do not compile as they stand (undeclared names, an
    uncaptured variable); their models say how such a name is read, and a member
    that does not exist is a parameter. A plain [char] is signed. The indentation
    of the serializer and text positions do not overflow. *)

From Stdlib Require Import ZArith Lia Ascii.
From stdpp Require Import base list sets strings relations.
#[export] Set Warnings "-register-all,-clear-no-such-hyp".

(** The lemmas that close the recurring side conditions of the components. *)
Create HintDb cxx discriminated.

(** ** Byte strings

    A [std::string], a [char] array or a memory block is a list of 8-bit
    characters; a string literal of the source is written with [#"..."]. *)

Declare Scope cxx_scope.
Delimit Scope cxx_scope with cxx.

Definition bytes : Type := list ascii.

Definition lit (s : string) : bytes := String.list_ascii_of_string s.

Notation "# s" := (lit s%string) (at level 1, s at level 0, format "# s") : cxx_scope.
Open Scope cxx_scope.

(** ** Outcomes of a C++ evaluation

    An expression returns a value, throws, has undefined behaviour, or ends the
    process with an exit status.  The four cases are kept apart, so that a
    theorem [f x = Ok y] also says that no undefined behaviour occurred. *)

Inductive exn :=
| runtime_error (what : bytes)
| invalid_argument (what : bytes)
| out_of_range (what : bytes)
| bad_variant_access
| bad_weak_ptr
| system_error (what : bytes)
| future_error (what : bytes)
| length_error (what : bytes).

Inductive ub :=
| oob_access
| null_deref
| signed_overflow
| div_by_zero
| uninit_read
| empty_pop
| dangling
| bad_precondition.

Inductive outcome (A : Type) : Type :=
| Ok (a : A)
| Throw (e : exn)
| Undef (u : ub)
| Exit (code : Z).
Arguments Ok {A} a.
Arguments Throw {A} e.
Arguments Undef {A} u.
Arguments Exit {A} code.

#[export] Instance outcome_ret : MRet outcome := fun A a => Ok a.
#[export] Instance outcome_bind : MBind outcome := fun A B f m =>
  match m with
  | Ok a => f a
  | Throw e => Throw e
  | Undef u => Undef u
  | Exit c => Exit c
  end.

#[export] Instance outcome_fmap : FMap outcome := fun A B f m => m ≫= fun a => Ok (f a).

#[export] Instance exn_eq_dec : EqDecision exn.
Proof. solve_decision. Defined.
#[export] Instance ub_eq_dec : EqDecision ub.
Proof. solve_decision. Defined.

(** [what()] of an exception. *)
Definition what (e : exn) : bytes :=
  match e with
  | runtime_error m | invalid_argument m | out_of_range m | system_error m | future_error m | length_error m => m
  | bad_variant_access => #"std::get: wrong index for variant"
  | bad_weak_ptr => #"bad_weak_ptr"
  end.

Lemma mapM_Ok {A B} (f : A → outcome B) l k : mapM f l = Ok k → Forall2 (fun a b => f a = Ok b) l k.
Proof.
  revert k. induction l as [|a l IH]; intros k; simpl; [intros [= <-]; constructor|].
  destruct (f a) as [b| | |] eqn:Ea; try done. simpl.
  destruct (mapM f l) as [bs| | |]; try done. simpl. intros [= <-]. constructor; auto.
Qed.

Lemma fmap_Ok {A B} (f : A → B) (m : outcome A) b : f <$> m = Ok b → ∃ a, m = Ok a ∧ b = f a.
Proof. destruct m; try done. intros [= <-]. eauto. Qed.

Lemma mapM_id {A} (f : A → outcome A) l : Forall (fun a => f a = Ok a) l → mapM f l = Ok l.
Proof. induction 1 as [|a l Ha _ IH]; [done|]. simpl. rewrite Ha. simpl. by rewrite IH. Qed.

Lemma Forall2_impl_in {A B} (P Q : A → B → Prop) l k :
  Forall2 P l k → (∀ x y, x ∈ l → y ∈ k → P x y → Q x y) → Forall2 Q l k.
Proof.
  induction 1 as [|x y l k Hxy _ IH]; intros H; constructor; [apply H; set_solver|].
  apply IH. intros. apply H; set_solver.
Qed.

#[export] Instance outcome_eq_dec {A} `{EqDecision A} : EqDecision (outcome A).
Proof. solve_decision. Defined.

Definition is_ok {A} (m : outcome A) : bool :=
  match m with Ok _ => true | _ => false end.

(** The behaviours a caller can observe in a program without undefined behaviour. *)
Definition defined {A} (m : outcome A) : Prop :=
  match m with Undef _ => False | _ => True end.

Lemma bind_ok {A B} (m : outcome A) (f : A → outcome B) b :
  m ≫= f = Ok b ↔ ∃ a, m = Ok a ∧ f a = Ok b.
Proof.
  split.
  - destruct m; simpl; intros; simplify_eq; eauto.
  - intros (a & -> & Hf). exact Hf.
Qed.

Lemma bind_assoc {A B C} (m : outcome A) (f : A → outcome B) (g : B → outcome C) :
  (m ≫= f) ≫= g = m ≫= (fun a => f a ≫= g).
Proof. by destruct m. Qed.

Lemma defined_bind {A B} (m : outcome A) (f : A → outcome B) :
  defined m → (∀ a, m = Ok a → defined (f a)) → defined (m ≫= f).
Proof. destruct m; simpl; eauto. Qed.

(** Split every [m ≫= f = Ok b] hypothesis into its steps. *)
Ltac bind_inv :=
  repeat match goal with
  | H : _ ≫= _ = Ok _ |- _ =>
      let a := fresh "a" in let H1 := fresh "Hm" in let H2 := fresh "Hk" in
      apply bind_ok in H as (a & H1 & H2)
  | H : Ok _ = Ok _ |- _ => injection H as H; subst
  end.

(** Normal form of list concatenations: right-nested, without empty parts. *)
Ltac list_norm := repeat progress (simpl; rewrite <- ?app_assoc, ?app_nil_r).

(** ** Machine integers

    Unsigned arithmetic is reduced modulo the width; signed arithmetic that
    leaves the range of its type is undefined behaviour. *)

Definition u8 (x : Z) : Z := x mod 2 ^ 8.
Definition u16 (x : Z) : Z := x mod 2 ^ 16.
Definition u32 (x : Z) : Z := x mod 2 ^ 32.
Definition u64 (x : Z) : Z := x mod 2 ^ 64.

Definition int_min : Z := -2147483648.
Definition int_max : Z := 2147483647.
Definition llong_min : Z := -9223372036854775808.
Definition llong_max : Z := 9223372036854775807.

Definition in_int (x : Z) : bool := (int_min <=? x)%Z && (x <=? int_max)%Z.
Definition in_llong (x : Z) : bool := (llong_min <=? x)%Z && (x <=? llong_max)%Z.

(** The result of a signed 32-bit operation whose exact result is [x]. *)
Definition int32 (x : Z) : outcome Z := if in_int x then Ok x else Undef signed_overflow.

Lemma in_int_spec x : in_int x = true ↔ (int_min ≤ x ≤ int_max)%Z.
Proof. unfold in_int. rewrite andb_true_iff, !Z.leb_le. lia. Qed.

Lemma in_llong_spec x : in_llong x = true ↔ (llong_min ≤ x ≤ llong_max)%Z.
Proof. unfold in_llong. rewrite andb_true_iff, !Z.leb_le. lia. Qed.

Lemma int32_ok x : (int_min ≤ x ≤ int_max)%Z → int32 x = Ok x.
Proof. intros H%in_int_spec. unfold int32. by rewrite H. Qed.

Lemma u16_small x : (0 ≤ x < 2 ^ 16)%Z → u16 x = x.
Proof. apply Z.mod_small. Qed.
Lemma u32_small x : (0 ≤ x < 2 ^ 32)%Z → u32 x = x.
Proof. apply Z.mod_small. Qed.
Lemma u8_small x : (0 ≤ x < 2 ^ 8)%Z → u8 x = x.
Proof. apply Z.mod_small. Qed.
Lemma u64_small x : (0 ≤ x < 2 ^ 64)%Z → u64 x = x.
Proof. apply Z.mod_small. Qed.

(** ** Characters (the "C" locale) *)

Definition code (c : ascii) : Z := Z.of_N (N_of_ascii c).
Definition chr (z : Z) : ascii := ascii_of_N (Z.to_N z).

Definition dquote : ascii := "034"%char.
Definition backslash : ascii := "092"%char.
Definition newline : ascii := "010"%char.
Definition nul : ascii := "000"%char.

(** The characters before the first NUL, or all of them. *)
Fixpoint until_nul (l : bytes) : bytes :=
  match l with
  | [] => []
  | c :: l' => if decide (c = nul) then [] else c :: until_nul l'
  end.

Lemma until_nul_prefix l : until_nul l `prefix_of` l.
Proof.
  induction l as [|c l IH]; simpl; [done|]. case_decide; [apply prefix_nil|by apply prefix_cons].
Qed.

(** A literal in which the double quotes of the source are written ['''']. *)
Definition requote (c : ascii) : ascii := if decide (c = "'"%char) then dquote else c.
Definition qlit (s : string) : bytes := requote <$> lit s.

Definition isdigit (c : ascii) : bool := (48 <=? code c)%Z && (code c <=? 57)%Z.
Definition isspace (c : ascii) : bool :=
  ((9 <=? code c)%Z && (code c <=? 13)%Z) || (code c =? 32)%Z.
Definition toupper (c : ascii) : ascii :=
  if (97 <=? code c)%Z && (code c <=? 122)%Z then chr (code c - 32) else c.

Definition digit_val (c : ascii) : Z := code c - 48.
Definition digit_chr (d : Z) : ascii := chr (48 + d).

Lemma code_chr z : (0 ≤ z < 256)%Z → code (chr z) = z.
Proof.
  intros Hz. unfold code, chr. rewrite N_ascii_embedding by lia. lia.
Qed.

Lemma digit_chr_val d : (0 ≤ d < 10)%Z → digit_val (digit_chr d) = d.
Proof. intros. unfold digit_val, digit_chr. rewrite code_chr; lia. Qed.

Lemma digit_chr_isdigit d : (0 ≤ d < 10)%Z → isdigit (digit_chr d) = true.
Proof.
  intros. unfold isdigit, digit_chr. rewrite code_chr by lia.
  apply andb_true_iff. rewrite !Z.leb_le. lia.
Qed.

(** A digit is none of the other characters the programs test for. *)
Lemma isdigit_ne c c' : isdigit c = true → isdigit c' = false → c ≠ c'.
Proof. congruence. Qed.

Lemma isdigit_not_isspace c : isdigit c = true → isspace c = false.
Proof.
  unfold isdigit, isspace. rewrite andb_true_iff, !Z.leb_le. intros.
  rewrite orb_false_iff, andb_false_iff, !Z.leb_gt, Z.eqb_neq. lia.
Qed.

(** ** Decimal numerals: [std::to_string] on integers and its inverse *)

Definition digits_value (l : bytes) : Z :=
  fold_left (fun acc c => acc * 10 + digit_val c)%Z l 0%Z.

Fixpoint digits_fuel (fuel : nat) (n : Z) (acc : bytes) : bytes :=
  match fuel with
  | O => acc
  | S f =>
      let acc' := digit_chr (n mod 10) :: acc in
      if (n <? 10)%Z then acc' else digits_fuel f (n / 10) acc'
  end.

(** [2 ^ S (log2 n) > n], so one unit of fuel per bit is more than enough. *)
Definition digits (n : Z) : bytes := digits_fuel (S (Z.to_nat (Z.log2 n))) n [].

Definition to_string_int (z : Z) : bytes :=
  if (z <? 0)%Z then "-"%char :: digits (- z) else digits z.

Lemma fold_digits_shift l a :
  fold_left (fun acc c => acc * 10 + digit_val c)%Z l a
  = (a * 10 ^ Z.of_nat (length l) + digits_value l)%Z.
Proof.
  unfold digits_value. revert a.
  induction l as [|c l IH]; intros a; cbn [fold_left length]; [lia|].
  rewrite IH, (IH (0 * 10 + digit_val c)%Z), Nat2Z.inj_succ, Z.pow_succ_r by lia. lia.
Qed.

Lemma digits_value_cons c l :
  digits_value (c :: l) = (digit_val c * 10 ^ Z.of_nat (length l) + digits_value l)%Z.
Proof.
  unfold digits_value at 1. cbn [fold_left]. rewrite fold_digits_shift. lia.
Qed.

Lemma digits_value_snoc l c : digits_value (l ++ [c]) = (digits_value l * 10 + digit_val c)%Z.
Proof. unfold digits_value. by rewrite fold_left_app. Qed.

Lemma digits_fuel_spec fuel n acc :
  (0 ≤ n < 2 ^ Z.of_nat fuel)%Z →
  ∃ ds, digits_fuel fuel n acc = ds ++ acc ∧ digits_value ds = n ∧
        Forall (fun c => isdigit c = true) ds ∧ (0 < fuel → ds ≠ []).
Proof.
  revert n acc. induction fuel as [|f IH]; intros n acc Hn.
  { exists []. repeat split; [|constructor|lia]. change (2 ^ Z.of_nat 0)%Z with 1%Z in Hn.
    unfold digits_value; simpl; lia. }
  assert (0 ≤ n mod 10 < 10)%Z as Hm by (apply Z.mod_pos_bound; lia).
  cbn [digits_fuel]. destruct (n <? 10)%Z eqn:Hlt.
  - apply Z.ltb_lt in Hlt. exists [digit_chr (n mod 10)].
    repeat split; [| |done].
    + unfold digits_value; simpl. rewrite digit_chr_val, Z.mod_small by lia. lia.
    + constructor; [by apply digit_chr_isdigit|constructor].
  - apply Z.ltb_ge in Hlt.
    rewrite Nat2Z.inj_succ, Z.pow_succ_r in Hn by lia.
    destruct (IH (n / 10)%Z (digit_chr (n mod 10) :: acc)) as (ds & E & V & F & _).
    { pose proof (Z_div_mod_eq_full n 10). split; [apply Z.div_pos; lia|].
      apply Z.div_lt_upper_bound; lia. }
    exists (ds ++ [digit_chr (n mod 10)]). rewrite E, <- app_assoc.
    repeat split.
    + rewrite digits_value_snoc, V, digit_chr_val by done.
      pose proof (Z_div_mod_eq_full n 10). lia.
    + apply Forall_app; split; [done|].
      constructor; [by apply digit_chr_isdigit|constructor].
    + intros _. by destruct ds.
Qed.

Lemma digits_spec n :
  (0 ≤ n)%Z →
  digits_value (digits n) = n ∧ Forall (fun c => isdigit c = true) (digits n) ∧ digits n ≠ [].
Proof.
  intros Hn. unfold digits.
  destruct (digits_fuel_spec (S (Z.to_nat (Z.log2 n))) n []) as (ds & E & V & F & Ne).
  { rewrite Nat2Z.inj_succ, Z2Nat.id by apply Z.log2_nonneg.
    destruct (decide (n = 0%Z)) as [->|]; [done|].
    pose proof (Z.log2_spec n). lia. }
  rewrite E, app_nil_r. eauto with lia.
Qed.

(** ** Computations with fuel

    A loop or recursion that is not structural runs with fuel; [OutOfFuel] is a
    fifth result that every termination theorem shows not to occur. *)

Inductive fuelled (A : Type) : Type :=
| Done (r : outcome A)
| OutOfFuel.
Arguments Done {A} r.
Arguments OutOfFuel {A}.

#[export] Instance fuelled_ret : MRet fuelled := fun A a => Done (Ok a).
#[export] Instance fuelled_bind : MBind fuelled := fun A B f m =>
  match m with
  | Done (Ok a) => f a
  | Done (Throw e) => Done (Throw e)
  | Done (Undef u) => Done (Undef u)
  | Done (Exit c) => Done (Exit c)
  | OutOfFuel => OutOfFuel
  end.

Lemma fbind_ok {A B} (m : fuelled A) (f : A → fuelled B) b :
  m ≫= f = Done (Ok b) ↔ ∃ a, m = Done (Ok a) ∧ f a = Done (Ok b).
Proof.
  split.
  - destruct m as [[]|]; simpl; intros; simplify_eq; eauto.
  - intros (a & -> & Hf). exact Hf.
Qed.

Lemma fbind_ret {A B} (a : A) (f : A → fuelled B) : mret a ≫= f = f a.
Proof. done. Qed.

Lemma fbind_total {A B} (m : fuelled A) (f : A → fuelled B) :
  m ≠ OutOfFuel → (∀ a, m = Done (Ok a) → f a ≠ OutOfFuel) → m ≫= f ≠ OutOfFuel.
Proof. destruct m as [[]|]; simpl; eauto. Qed.

(** [m] is at most as defined as [m']: [m'] agrees wherever [m] has a result. *)
Definition fuel_le {A} (m m' : fuelled A) : Prop := m = OutOfFuel ∨ m = m'.

Lemma fuel_le_refl {A} (m : fuelled A) : fuel_le m m.
Proof. by right. Qed.

Lemma fuel_le_bind {A B} (m m' : fuelled A) (f f' : A → fuelled B) :
  fuel_le m m' → (∀ a, fuel_le (f a) (f' a)) → fuel_le (m ≫= f) (m' ≫= f').
Proof.
  intros [->| ->] Hf; [by left|]. destruct m' as [[]|]; simpl; auto using fuel_le_refl.
Qed.
#[export] Hint Resolve fuel_le_refl fuel_le_bind : cxx.

Lemma fuel_le_done {A} (m m' : fuelled A) r : fuel_le m m' → m = Done r → m' = Done r.
Proof. intros [->| ->]; congruence. Qed.

(** Split every successful fuelled bind into its steps. *)
Ltac fbind_inv :=
  repeat match goal with
  | H : @mbind fuelled _ _ _ _ _ = Done (Ok _) |- _ =>
      let a := fresh "a" in let H1 := fresh "Hm" in let H2 := fresh "Hk" in
      apply fbind_ok in H as (a & H1 & H2)
  | H : Done (Ok _) = Done (Ok _) |- _ => injection H as H; subst
  | H : Done _ = Done (Ok _) |- _ => injection H as H
  end.

(** ** Step relations *)

(** An invariant of the initial state that every step preserves holds in every
    reachable state. *)
Lemma rtc_preserve {S} (R : relation S) (I : S → Prop) s s' :
  (∀ s1 s2, I s1 → R s1 s2 → I s2) → I s → rtc R s s' → I s'.
Proof. intros Hstep Hs Hr. induction Hr; eauto. Qed.
