(* ===== verification/Double.v ===== *)
(** * IEEE-754 binary64: the C++ type [double] and its text conversions

    [double] is Rocq's specification float at precision 53 and exponent bound
    1024; [+ - * /], the comparisons and [sqrt] are correctly rounded, as the
    language requires of them.  [std::to_string(double)] (which prints with
    ["%f"]) and [std::stod] are computed exactly on integers, rounding to
    nearest even once at the end.  Functions whose rounding the C++ standard
    leaves to the library ([exp], [pow], [sin], ...) are parameters of the
    files that call them. *)

From Stdlib Require Import ZArith Lia Ascii.
From Stdlib Require SpecFloat.
From stdpp Require Import base list sets strings.
From S2P Require Import Prelude.

Definition double : Type := SpecFloat.spec_float.

#[export] Instance double_eq_dec : EqDecision double.
Proof. solve_decision. Defined.

Definition dadd : double → double → double := SpecFloat.SFadd 53 1024.
Definition dsub : double → double → double := SpecFloat.SFsub 53 1024.
Definition dmul : double → double → double := SpecFloat.SFmul 53 1024.
Definition ddiv : double → double → double := SpecFloat.SFdiv 53 1024.
Definition dsqrt : double → double := SpecFloat.SFsqrt 53 1024.
Definition dopp : double → double := SpecFloat.SFopp.
Definition dltb : double → double → bool := SpecFloat.SFltb.
Definition dgtb (x y : double) : bool := SpecFloat.SFltb y x.
Definition dleb : double → double → bool := SpecFloat.SFleb.

(** Conversion of an integer to [double]. *)
Definition double_of_Z (z : Z) : double := SpecFloat.binary_normalize 53 1024 z 0 false.

Definition dzero : double := SpecFloat.S754_zero false.
Definition d_one : double := double_of_Z 1.

(** [(int)d]: the fraction is cut off, and the result must fit. *)
Definition int_of_double (d : double) : outcome Z :=
  match d with
  | SpecFloat.S754_zero _ => Ok 0%Z
  | SpecFloat.S754_finite s m e =>
      let a := if (0 <=? e)%Z then (Z.pos m * 2 ^ e)%Z else (Z.pos m / 2 ^ (- e))%Z in
      let z := if s then (- a)%Z else a in
      if in_int z then Ok z else Undef bad_precondition
  | _ => Undef bad_precondition
  end.

(** [m * 10 ^ e] rounded to nearest even, with sign [s]. *)
Definition decimal_to_double (s : bool) (m : Z) (e : Z) : double :=
  if (m =? 0)%Z then SpecFloat.S754_zero s
  else if (0 <=? e)%Z then
    SpecFloat.binary_normalize 53 1024 (if s then - (m * 10 ^ e) else m * 10 ^ e)%Z 0 s
  else
    let '(mz, ez, lz) := SpecFloat.SFdiv_core_binary 53 1024 m 0 (10 ^ (- e))%Z 0 in
    SpecFloat.binary_round_aux 53 1024 s mz ez lz.

(** [m * 10 ^ e = m' * 2 ^ e'], by cross multiplication. *)
Definition decimal_exact (m e m' e' : Z) : bool :=
  (m * 10 ^ Z.max 0 e * 2 ^ Z.max 0 (- e') =? m' * 2 ^ Z.max 0 e' * 10 ^ Z.max 0 (- e))%Z.

(** ** [std::stod]

    [strtod] reads the longest prefix [sign? digits? (. digits?)? exponent?]
    with at least one mantissa digit; an exponent is read only if it has a digit.
    [stod] throws [invalid_argument] when nothing was read, and [out_of_range]
    when [strtod] reports [ERANGE]: on overflow, and (glibc) when the result is
    below the normal range and inexact.  Hexadecimal, [inf] and [nan] spellings
    are outside the modelled grammar. *)

Fixpoint span_digits (l : bytes) : bytes * bytes :=
  match l with
  | [] => ([], [])
  | c :: l' => if isdigit c then let '(d, r) := span_digits l' in (c :: d, r) else ([], l)
  end.

Definition read_sign (l : bytes) : bool * bytes :=
  match l with
  | c :: l' => if decide (c = "-"%char) then (true, l')
               else if decide (c = "+"%char) then (false, l') else (false, l)
  | [] => (false, l)
  end.

Fixpoint drop_spaces (l : bytes) : bytes :=
  match l with
  | c :: l' => if isspace c then drop_spaces l' else l
  | [] => []
  end.

Definition read_exponent (l : bytes) : Z :=
  match l with
  | c :: l' =>
      if decide (c = "e"%char ∨ c = "E"%char) then
        let '(neg, l2) := read_sign l' in
        let v := digits_value (span_digits l2).1 in
        if neg then (- v)%Z else v
      else 0%Z
  | [] => 0%Z
  end.

Definition double_min_exp (d : double) : bool :=
  match d with
  | SpecFloat.S754_zero _ => true
  | SpecFloat.S754_finite _ m _ => (Z.pos m <? 2 ^ 52)%Z
  | _ => false
  end.

Definition stod (l : bytes) : outcome double :=
  let '(s, l1) := read_sign (drop_spaces l) in
  let '(ip, l2) := span_digits l1 in
  let '(fp, l3) := match l2 with
                   | c :: r => if decide (c = "."%char) then span_digits r else ([], l2)
                   | [] => ([], l2)
                   end in
  if decide (ip ++ fp = []) then Throw (invalid_argument #"stod")
  else
    let m := digits_value (ip ++ fp) in
    let e := (read_exponent l3 - Z.of_nat (length fp))%Z in
    let d := decimal_to_double s m e in
    match d with
    | SpecFloat.S754_infinity _ => Throw (out_of_range #"stod")
    | SpecFloat.S754_zero _ => if (m =? 0)%Z then Ok d else Throw (out_of_range #"stod")
    | SpecFloat.S754_finite _ m' e' =>
        if double_min_exp d && negb (decimal_exact m e (Z.pos m') e')
        then Throw (out_of_range #"stod") else Ok d
    | SpecFloat.S754_nan => Ok d
    end.

(** ** [std::stoll], base 10 *)

Definition stoll (l : bytes) : outcome Z :=
  let '(neg, l1) := read_sign (drop_spaces l) in
  let ds := (span_digits l1).1 in
  if decide (ds = []) then Throw (invalid_argument #"stoll")
  else
    let v := if neg then (- digits_value ds)%Z else digits_value ds in
    if in_llong v then Ok v else Throw (out_of_range #"stoll").

(** [std::stoi]. *)
Definition stoi (l : bytes) : outcome Z :=
  match stoll l with
  | Ok v => if in_int v then Ok v else Throw (out_of_range #"stoi")
  | Throw (invalid_argument _) => Throw (invalid_argument #"stoi")
  | Throw _ => Throw (out_of_range #"stoi")
  | Undef u => Undef u
  | Exit c => Exit c
  end.

(** ** [std::to_string(double)]: ["%f"] *)

(** [num / den] rounded to an integer, ties to even. *)
Definition round_half_even (num den : Z) : Z :=
  let q := (num / den)%Z in
  let r := (num mod den)%Z in
  match (2 * r ?= den)%Z with
  | Lt => q
  | Gt => (q + 1)%Z
  | Eq => if Z.even q then q else (q + 1)%Z
  end.

(** The six digits after the point. *)
Definition six_digits (n : Z) : bytes :=
  let d := digits n in replicate (6 - length d) "0"%char ++ d.

(** The magnitude of a finite double in millionths, rounded. *)
Definition micros (m : positive) (e : Z) : Z :=
  if (0 <=? e)%Z then (Z.pos m * 2 ^ e * 1000000)%Z
  else round_half_even (Z.pos m * 1000000) (2 ^ (- e)).

Definition print_fixed (s : bool) (n : Z) : bytes :=
  (if s then #"-" else []) ++ digits (n / 1000000) ++ #"." ++ six_digits (n mod 1000000).

Definition to_string_double (d : double) : bytes :=
  match d with
  | SpecFloat.S754_zero s => print_fixed s 0
  | SpecFloat.S754_finite s m e => print_fixed s (micros m e)
  | SpecFloat.S754_infinity s => (if s then #"-" else []) ++ #"inf"
  | SpecFloat.S754_nan => #"nan"
  end.

(** ** Checks against known conversions *)

Example stod_85_5 : stod #"85.5" = Ok (SpecFloat.S754_finite false 6016527627190272 (-46)).
Proof. vm_compute. reflexivity. Qed.
Example stod_tenth : stod #"0.1" = Ok (SpecFloat.S754_finite false 7205759403792794 (-56)).
Proof. vm_compute. reflexivity. Qed.
Example stod_huge : stod #"1e400" = Throw (out_of_range #"stod").
Proof. vm_compute. reflexivity. Qed.
Example stod_no_digits : stod #"-.e5" = Throw (invalid_argument #"stod").
Proof. vm_compute. reflexivity. Qed.
Example stod_bare_exponent : stod #"1e" = Ok d_one.
Proof. vm_compute. reflexivity. Qed.
Example to_string_1_1 : to_string_double <$> [match stod #"1.1" with Ok d => d | _ => dzero end]
                        = [#"1.100000"].
Proof. vm_compute. reflexivity. Qed.
Example to_string_small :
  to_string_double <$> [match stod #"-1.2e-5" with Ok d => d | _ => dzero end] = [#"-0.000012"].
Proof. vm_compute. reflexivity. Qed.

(** ** Round trip of integers through text *)

Lemma span_digits_app ds l :
  Forall (fun c => isdigit c = true) ds →
  (∀ c, head l = Some c → isdigit c = false) →
  span_digits (ds ++ l) = (ds, l).
Proof.
  intros Hds Hl. induction Hds as [|c ds Hc Hds IH]; simpl.
  - destruct l as [|c l]; [done|]. simpl in *. by rewrite (Hl c).
  - by rewrite Hc, IH.
Qed.

Lemma span_digits_all ds :
  Forall (fun c => isdigit c = true) ds → span_digits ds = (ds, []).
Proof. intros H. rewrite <- (app_nil_r ds) at 1. by apply span_digits_app. Qed.

Lemma read_sign_digit c l :
  isdigit c = true → read_sign (drop_spaces (c :: l)) = (false, c :: l).
Proof.
  intros Hc. cbn [drop_spaces]. rewrite (isdigit_not_isspace _ Hc). unfold read_sign.
  rewrite !decide_False; [done|intros ->; done..].
Qed.

(** A sign and digits are read as the number they spell, or out of range. *)
Lemma stoll_signed (s : bool) q :
  (0 ≤ q)%Z →
  stoll ((if s then #"-" else []) ++ digits q) =
  if in_llong (if s then - q else q)%Z then Ok (if s then - q else q)%Z else Throw (out_of_range #"stoll").
Proof.
  intros Hq. destruct (digits_spec q Hq) as (V & F & Ne). unfold stoll.
  destruct s; simpl app.
  - change (read_sign (drop_spaces ("-"%char :: ?l))) with (true, l).
    cbn iota beta. rewrite (span_digits_all _ F), decide_False by done. cbn [fst]. by rewrite V.
  - destruct (digits q) as [|c ds] eqn:E; [done|].
    rewrite read_sign_digit by (by inversion F).
    rewrite (span_digits_all _ F), decide_False by done. cbn [fst]. by rewrite V.
Qed.

Lemma stoll_to_string z : in_llong z = true → stoll (to_string_int z) = Ok z.
Proof.
  intros Hz. unfold to_string_int. destruct (Z.ltb_spec z 0).
  - pose proof (stoll_signed true (- z)) as E. simpl in E.
    rewrite E by lia. by rewrite Z.opp_involutive, Hz.
  - pose proof (stoll_signed false z) as E. simpl in E. rewrite E by lia. by rewrite Hz.
Qed.

(** ** The shape of a printed number *)

Lemma digits_value_pad k l : digits_value (replicate k "0"%char ++ l) = digits_value l.
Proof.
  induction k as [|k IH]; [done|].
  cbn [replicate app]. rewrite digits_value_cons, IH.
  change (digit_val "0") with 0%Z. lia.
Qed.

Lemma six_digits_isdigit n : (0 ≤ n)%Z → Forall (fun c => isdigit c = true) (six_digits n).
Proof.
  intros Hn. unfold six_digits. apply Forall_app; split.
  - by apply Forall_replicate.
  - by apply digits_spec.
Qed.

Lemma six_digits_value n : (0 ≤ n)%Z → digits_value (six_digits n) = n.
Proof. intros Hn. unfold six_digits. rewrite digits_value_pad. by apply digits_spec. Qed.

Lemma round_half_even_nonneg num den : (0 ≤ num → 0 < den → 0 ≤ round_half_even num den)%Z.
Proof.
  intros Hn Hd. unfold round_half_even. pose proof (Z.div_pos num den Hn Hd).
  repeat case_match; lia.
Qed.

Lemma micros_nonneg m e : (0 ≤ micros m e)%Z.
Proof.
  unfold micros. destruct (Z.leb_spec 0 e); [lia|].
  apply round_half_even_nonneg; [lia|]. apply Z.pow_pos_nonneg; lia.
Qed.
