(* ===== verification/JsonValue.v ===== *)
(** * The JSON value type of middleware/src/nonworking_json.cpp

    [JsonValue] is the variant of the source with its seven alternatives;
    [JsonObject], a [std::map<std::string, JsonValue>], is an association list
    kept in the strict lexicographic order of its keys, the order in which the
    source iterates over it.  The [std::unique_ptr] of an array or object is
    never null in a value that was not moved from, so it is not represented
    here; the ownership of those pointers is the subject of [JsonValueHeap]. *)

From Stdlib Require Import ZArith Lia Ascii Sorting.
From stdpp Require Import base list sets strings.
From S2P Require Import Prelude Double.

(** ** Order of [std::string] keys *)

Fixpoint bytes_ltb (a b : bytes) : bool :=
  match a, b with
  | [], [] => false
  | [], _ :: _ => true
  | _ :: _, [] => false
  | x :: a', y :: b' =>
      if (code x <? code y)%Z then true
      else if (code y <? code x)%Z then false else bytes_ltb a' b'
  end.

Definition bytes_lt (a b : bytes) : Prop := bytes_ltb a b = true.

Lemma code_inj x y : code x = code y → x = y.
Proof.
  unfold code. intros H%N2Z.inj.
  by rewrite <- (ascii_N_embedding x), H, ascii_N_embedding.
Qed.

Lemma bytes_ltb_irrefl a : bytes_ltb a a = false.
Proof. induction a as [|x a IH]; [done|]. simpl. by rewrite Z.ltb_irrefl. Qed.

Lemma bytes_lt_trans : Transitive bytes_lt.
Proof.
  intros a. unfold bytes_lt.
  induction a as [|x a IH]; intros [|y b] [|z c]; simpl; try done.
  destruct (Z.ltb_spec (code x) (code y)), (Z.ltb_spec (code y) (code z)),
    (Z.ltb_spec (code x) (code z)), (Z.ltb_spec (code y) (code x)),
    (Z.ltb_spec (code z) (code y)), (Z.ltb_spec (code z) (code x));
    try done; try lia. apply IH.
Qed.

Lemma bytes_lt_total a b : a = b ∨ bytes_lt a b ∨ bytes_lt b a.
Proof.
  revert b. unfold bytes_lt.
  induction a as [|x a IH]; intros [|y b]; simpl; auto.
  destruct (Z.ltb_spec (code x) (code y)), (Z.ltb_spec (code y) (code x)); auto; try lia.
  assert (x = y) as -> by (apply code_inj; lia).
  destruct (IH b) as [->|[|]]; auto.
Qed.

(** ** Values *)

Inductive JsonValue : Type :=
| JNull
| JBool (b : bool)
| JLong (i : Z)
| JDouble (d : double)
| JString (s : bytes)
| JArray (arr : list JsonValue)
| JObject (obj : list (bytes * JsonValue)).

Abbreviation JsonArray := (list JsonValue).
Abbreviation JsonObject := (list (bytes * JsonValue)).

(** Structural induction that reaches into arrays and objects. *)
Fixpoint JsonValue_rec_nested (P : JsonValue → Prop)
    (Hnull : P JNull) (Hbool : ∀ b, P (JBool b)) (Hlong : ∀ i, P (JLong i))
    (Hdouble : ∀ d, P (JDouble d)) (Hstring : ∀ s, P (JString s))
    (Harray : ∀ arr, Forall P arr → P (JArray arr))
    (Hobject : ∀ obj, Forall (fun kv => P kv.2) obj → P (JObject obj))
    (v : JsonValue) : P v :=
  let rec := JsonValue_rec_nested P Hnull Hbool Hlong Hdouble Hstring Harray Hobject in
  match v with
  | JNull => Hnull
  | JBool b => Hbool b
  | JLong i => Hlong i
  | JDouble d => Hdouble d
  | JString s => Hstring s
  | JArray arr => Harray arr
      ((fix go (l : list JsonValue) : Forall P l :=
          match l with
          | [] => Forall_nil_2 _
          | x :: l' => Forall_cons_2 _ _ _ (rec x) (go l')
          end) arr)
  | JObject obj => Hobject obj
      ((fix go (l : JsonObject) : Forall (fun kv => P kv.2) l :=
          match l with
          | [] => Forall_nil_2 _
          | kv :: l' => Forall_cons_2 _ _ _ (rec kv.2) (go l')
          end) obj)
  end.

Definition type_name (v : JsonValue) : bytes :=
  match v with
  | JNull => #"null"
  | JBool _ => #"bool"
  | JLong _ => #"long long"
  | JDouble _ => #"double"
  | JString _ => #"string"
  | JArray _ => #"array"
  | JObject _ => #"object"
  end.

Definition is_null (v : JsonValue) : bool := match v with JNull => true | _ => false end.
Definition is_bool (v : JsonValue) : bool := match v with JBool _ => true | _ => false end.
Definition is_long (v : JsonValue) : bool := match v with JLong _ => true | _ => false end.
Definition is_double (v : JsonValue) : bool := match v with JDouble _ => true | _ => false end.
Definition is_string (v : JsonValue) : bool := match v with JString _ => true | _ => false end.
Definition is_array (v : JsonValue) : bool := match v with JArray _ => true | _ => false end.
Definition is_object (v : JsonValue) : bool := match v with JObject _ => true | _ => false end.

(** [std::get] on the wrong alternative throws [std::bad_variant_access]. *)
Definition get_bool (v : JsonValue) : outcome bool :=
  match v with JBool b => Ok b | _ => Throw bad_variant_access end.
Definition get_long (v : JsonValue) : outcome Z :=
  match v with JLong i => Ok i | _ => Throw bad_variant_access end.
Definition get_double (v : JsonValue) : outcome double :=
  match v with JDouble d => Ok d | _ => Throw bad_variant_access end.
Definition get_string (v : JsonValue) : outcome bytes :=
  match v with JString s => Ok s | _ => Throw bad_variant_access end.
Definition get_array (v : JsonValue) : outcome JsonArray :=
  match v with JArray a => Ok a | _ => Throw bad_variant_access end.
Definition get_object (v : JsonValue) : outcome JsonObject :=
  match v with JObject o => Ok o | _ => Throw bad_variant_access end.

(** ** [std::map] operations the parser uses *)

(** [obj[key] = value]: insert at the ordered position, or overwrite. *)
Fixpoint map_assign (key : bytes) (value : JsonValue) (obj : JsonObject) : JsonObject :=
  match obj with
  | [] => [(key, value)]
  | (k, v) :: rest =>
      if bytes_ltb key k then (key, value) :: obj
      else if bytes_ltb k key then (k, v) :: map_assign key value rest
      else (key, value) :: rest
  end.

Fixpoint map_find (key : bytes) (obj : JsonObject) : option JsonValue :=
  match obj with
  | [] => None
  | (k, v) :: rest => if decide (k = key) then Some v else map_find key rest
  end.

(** Strictly increasing keys: the representation invariant of [std::map]. *)
Definition keys_sorted (obj : JsonObject) : Prop := StronglySorted bytes_lt obj.*1.

Lemma map_assign_keys key value obj :
  ∀ k, k ∈ (map_assign key value obj).*1 ↔ k = key ∨ k ∈ obj.*1.
Proof.
  intros k. induction obj as [|[k0 v0] rest IH]; simpl; [set_solver|].
  destruct (bytes_ltb key k0) eqn:H1; [set_solver|].
  destruct (bytes_ltb k0 key) eqn:H2; simpl; [set_solver|].
  destruct (bytes_lt_total key k0) as [->|[H|H]]; [set_solver|congruence..].
Qed.

Lemma map_assign_sorted key value obj :
  keys_sorted obj → keys_sorted (map_assign key value obj).
Proof.
  unfold keys_sorted. induction obj as [|[k0 v0] rest IH]; intros Hs; simpl.
  { repeat constructor. }
  apply StronglySorted_inv in Hs as [Hs Hall].
  destruct (bytes_ltb key k0) eqn:H1.
  { constructor; [by constructor|]. constructor; [exact H1|].
    eapply Forall_impl; [exact Hall|]. intros k. by apply bytes_lt_trans. }
  destruct (bytes_ltb k0 key) eqn:H2; simpl.
  - constructor; [by apply IH|]. apply Forall_forall. intros k Hk.
    apply map_assign_keys in Hk as [->|Hk]; [exact H2|].
    by eapply Forall_forall in Hall.
  - destruct (bytes_lt_total key k0) as [->|[H|H]]; [|congruence..].
    by constructor.
Qed.

Lemma map_find_assign key value obj k :
  map_find k (map_assign key value obj) = if decide (k = key) then Some value else map_find k obj.
Proof.
  induction obj as [|[k0 v0] rest IH]; simpl.
  { repeat case_decide; congruence. }
  destruct (bytes_ltb key k0) eqn:H1; simpl.
  { repeat case_decide; congruence. }
  destruct (bytes_ltb k0 key) eqn:H2; simpl.
  - rewrite IH. repeat case_decide; try congruence; subst.
    all: by rewrite bytes_ltb_irrefl in H2.
  - destruct (bytes_lt_total key k0) as [->|[H|H]]; [|congruence..].
    repeat case_decide; congruence.
Qed.

(** Appending a key above all the others is how a sorted object is rebuilt. *)
Lemma map_assign_snoc key value obj :
  Forall (fun k => bytes_lt k key) obj.*1 → map_assign key value obj = obj ++ [(key, value)].
Proof.
  induction obj as [|[k0 v0] rest IH]; [done|].
  intros [Hk Hrest]%Forall_cons. simpl in *. unfold bytes_lt in Hk.
  assert (bytes_ltb key k0 = false) as ->.
  { destruct (bytes_ltb key k0) eqn:H; [|done].
    pose proof (bytes_lt_trans _ _ _ Hk H) as Hc. unfold bytes_lt in Hc.
    by rewrite bytes_ltb_irrefl in Hc. }
  rewrite Hk. by rewrite IH.
Qed.

(** ** Well-formed values: what the C++ types guarantee of any value *)

Inductive wf_value : JsonValue → Prop :=
| wf_null : wf_value JNull
| wf_bool b : wf_value (JBool b)
| wf_long i : in_llong i = true → wf_value (JLong i)
| wf_double d : wf_value (JDouble d)
| wf_string s : wf_value (JString s)
| wf_array arr : Forall wf_value arr → wf_value (JArray arr)
| wf_object obj : keys_sorted obj → Forall (fun kv => wf_value kv.2) obj → wf_value (JObject obj).

Create HintDb json discriminated.
#[export] Hint Constructors wf_value : json.

Lemma map_assign_wf key value obj :
  wf_value value → wf_value (JObject obj) → wf_value (JObject (map_assign key value obj)).
Proof.
  intros Hv Ho. inversion Ho as [| | | | | |? Hs Hall]; subst.
  constructor; [by apply map_assign_sorted|]. clear Ho Hs.
  induction obj as [|[k0 v0] rest IH]; simpl; [by repeat constructor|].
  apply Forall_cons in Hall as [? ?].
  repeat case_match; repeat constructor; auto.
Qed.
