(* ===== verification/JsonParser.v ===== *)
(** * The recursive-descent parser of middleware/src/nonworking_json.cpp

    The parser's state is the position [pos] in the fixed text [json_str]; each
    method of [JsonParser] is a function from a position to an outcome with the
    next position.  A [throw std::runtime_error(...)] is [Throw], with the
    message the source builds.  [parse_value] and the methods it calls
    recursively run with fuel; [JsonParserFacts] proves that the fuel [parse]
    gives is always enough.

    [std::isspace] and [std::isdigit] are those of the "C" locale.  They are
    called with a plain [char], which is signed, and are only defined on the
    values of [unsigned char] and [EOF]: a byte from 128 to 254 is a negative
    argument other than [EOF], and passing it is undefined behaviour. *)

From Stdlib Require Import ZArith Lia Ascii.
From stdpp Require Import base list sets strings.
From S2P Require Import Prelude Double JsonValue.

Definition eof : exn := runtime_error #"Unexpected end of input".

(** The signed [char]s that are an [unsigned char] or [EOF], which is -1. *)
Definition in_domain (c : ascii) : bool := (code c <? 128)%Z || (code c =? 255)%Z.

Definition std_isspace (c : ascii) : outcome bool :=
  if in_domain c then Ok (isspace c) else Undef bad_precondition.
Definition std_isdigit (c : ascii) : outcome bool :=
  if in_domain c then Ok (isdigit c) else Undef bad_precondition.

Section Parser.
Context (json_str : bytes).

(** [while (pos < json_str.length() && std::isspace(json_str[pos])) pos++;] *)
Fixpoint skip_spaces (rest : bytes) (pos : nat) : outcome nat :=
  match rest with
  | c :: rest' => space ← std_isspace c; if space : bool then skip_spaces rest' (S pos) else Ok pos
  | [] => Ok pos
  end.

Definition skip_whitespace (pos : nat) : outcome nat := skip_spaces (drop pos json_str) pos.

Definition peek (pos : nat) : outcome ascii :=
  match json_str !! pos with
  | Some c => Ok c
  | None => Throw eof
  end.

Definition consume (pos : nat) : outcome (ascii * nat) :=
  match json_str !! pos with
  | Some c => Ok (c, S pos)
  | None => Throw eof
  end.

Definition expect (c : ascii) (pos : nat) : outcome nat :=
  pos ← skip_whitespace pos;
  c' ← peek pos;
  if decide (c' = c) then '(_, pos) ← consume pos; Ok pos
  else
    Throw (runtime_error (#"Expected '" ++ [c] ++ #"', got '" ++ [c'] ++ #"' at position "
                          ++ to_string_int (Z.of_nat pos))).

(** The [switch] of the escape sequences. *)
Definition escape (escaped_char : ascii) : option ascii :=
  if decide (escaped_char = dquote) then Some dquote
  else if decide (escaped_char = backslash) then Some backslash
  else if decide (escaped_char = "/"%char) then Some "/"%char
  else if decide (escaped_char = "b"%char) then Some "008"%char
  else if decide (escaped_char = "f"%char) then Some "012"%char
  else if decide (escaped_char = "n"%char) then Some "010"%char
  else if decide (escaped_char = "r"%char) then Some "013"%char
  else if decide (escaped_char = "t"%char) then Some "009"%char
  else None.

(** The loop that reads until the closing quote; [rest] is the text from [pos] on. *)
Fixpoint string_loop (rest : bytes) (pos : nat) (s : bytes) : outcome (bytes * nat) :=
  match rest with
  | [] => Throw eof
  | c :: rest1 =>
      if decide (c = dquote) then Ok (s, pos)
      else if decide (c = backslash) then
        match rest1 with
        | [] => Throw eof
        | e :: rest2 =>
            match escape e with
            | Some x => string_loop rest2 (S (S pos)) (s ++ [x])
            | None => Throw (runtime_error #"Invalid escape sequence")
            end
        end
      else string_loop rest1 (S pos) (s ++ [c])
  end.

Definition parse_string (pos : nat) : outcome (bytes * nat) :=
  pos ← expect dquote pos;
  '(s, pos) ← string_loop (drop pos json_str) pos [];
  pos ← expect dquote pos;
  Ok (s, pos).

(** [while (pos < json_str.length() && std::isdigit(json_str[pos])) consume();] *)
Fixpoint digit_loop (rest : bytes) (pos : nat) : outcome nat :=
  match rest with
  | c :: rest' => digit ← std_isdigit c; if digit : bool then digit_loop rest' (S pos) else Ok pos
  | [] => Ok pos
  end.

Definition skip_digits (pos : nat) : outcome nat := digit_loop (drop pos json_str) pos.

Definition parse_number (start_pos : nat) : outcome (JsonValue * nat) :=
  c ← peek start_pos;
  pos ← skip_digits (if decide (c = "-"%char) then S start_pos else start_pos);
  c ← peek pos;
  '(is_double, pos) ←
    (if decide (c = "."%char) then pos ← skip_digits (S pos); Ok (true, pos)
     else Ok (false, pos));
  c ← peek pos;
  '(is_double, pos) ←
    (if decide (c = "e"%char ∨ c = "E"%char) then
       c ← peek (S pos);
       pos ← skip_digits (if decide (c = "+"%char ∨ c = "-"%char) then S (S pos) else S pos);
       Ok (true, pos)
     else Ok (is_double, pos));
  let num_str := take (pos - start_pos) (drop start_pos json_str) in
  if is_double : bool then d ← stod num_str; Ok (JDouble d, pos)
  else i ← stoll num_str; Ok (JLong i, pos).

Fixpoint literal_loop (literal todo : bytes) (pos : nat) : outcome nat :=
  match todo with
  | [] => Ok pos
  | expected_char :: todo' =>
      match json_str !! pos with
      | Some c =>
          if decide (c = expected_char) then literal_loop literal todo' (S pos)
          else Throw (runtime_error (#"Expected literal '" ++ literal ++ #"'"))
      | None => Throw (runtime_error (#"Expected literal '" ++ literal ++ #"'"))
      end
  end.

Definition parse_literal (literal : bytes) (value : JsonValue) (pos : nat)
    : outcome (JsonValue * nat) :=
  pos ← literal_loop literal literal pos;
  Ok (value, pos).

Fixpoint parse_value (fuel : nat) (pos : nat) {struct fuel} : fuelled (JsonValue * nat) :=
  match fuel with
  | O => OutOfFuel
  | S f =>
      pos ← Done (skip_whitespace pos);
      c ← Done (peek pos);
      if decide (c = dquote) then
        '(s, pos) ← Done (parse_string pos); mret (JString s, pos)
      else
      number ← Done (if decide (c = "-"%char) then Ok true else std_isdigit c);
      if number : bool then Done (parse_number pos)
      else if decide (c = "["%char) then parse_array f pos
      else if decide (c = "{"%char) then parse_object f pos
      else if decide (c = "t"%char) then Done (parse_literal #"true" (JBool true) pos)
      else if decide (c = "f"%char) then Done (parse_literal #"false" (JBool false) pos)
      else if decide (c = "n"%char) then Done (parse_literal #"null" JNull pos)
      else
        Done (Throw (runtime_error (#"Unexpected character: '" ++ [c] ++ #"' at position "
                                    ++ to_string_int (Z.of_nat pos))))
  end
with parse_array (fuel : nat) (pos : nat) {struct fuel} : fuelled (JsonValue * nat) :=
  match fuel with
  | O => OutOfFuel
  | S f =>
      pos ← Done (expect "["%char pos);
      pos ← Done (skip_whitespace pos);
      c ← Done (peek pos);
      '(arr, pos) ← (if decide (c = "]"%char) then mret ([], pos) else array_loop f [] pos);
      pos ← Done (expect "]"%char pos);
      mret (JArray arr, pos)
  end
with array_loop (fuel : nat) (arr : JsonArray) (pos : nat) {struct fuel}
    : fuelled (JsonArray * nat) :=
  match fuel with
  | O => OutOfFuel
  | S f =>
      '(v, pos) ← parse_value f pos;
      let arr := arr ++ [v] in
      pos ← Done (skip_whitespace pos);
      c ← Done (peek pos);
      if decide (c = ","%char) then
        '(_, pos) ← Done (consume pos); array_loop f arr pos
      else if decide (c = "]"%char) then mret (arr, pos)
      else Done (Throw (runtime_error #"Expected ',' or ']' in array"))
  end
with parse_object (fuel : nat) (pos : nat) {struct fuel} : fuelled (JsonValue * nat) :=
  match fuel with
  | O => OutOfFuel
  | S f =>
      pos ← Done (expect "{"%char pos);
      pos ← Done (skip_whitespace pos);
      c ← Done (peek pos);
      '(obj, pos) ← (if decide (c = "}"%char) then mret ([], pos) else object_loop f [] pos);
      pos ← Done (expect "}"%char pos);
      mret (JObject obj, pos)
  end
with object_loop (fuel : nat) (obj : JsonObject) (pos : nat) {struct fuel}
    : fuelled (JsonObject * nat) :=
  match fuel with
  | O => OutOfFuel
  | S f =>
      '(key, pos) ← Done (parse_string pos);
      pos ← Done (expect ":"%char pos);
      '(value, pos) ← parse_value f pos;
      let obj := map_assign key value obj in
      pos ← Done (skip_whitespace pos);
      c ← Done (peek pos);
      if decide (c = ","%char) then
        '(_, pos) ← Done (consume pos); object_loop f obj pos
      else if decide (c = "}"%char) then mret (obj, pos)
      else Done (Throw (runtime_error #"Expected ',' or '}' in object"))
  end.

(** Three nested calls per character of nesting, and three for the outermost. *)
Definition parse_fuel : nat := 3 * length json_str + 3.

Definition parse_result : fuelled JsonValue :=
  '(result, pos) ← parse_value parse_fuel 0;
  pos ← Done (skip_whitespace pos);
  if decide (pos = length json_str) then mret result
  else
    Done (Throw (runtime_error (#"Extra characters after JSON value at position "
                                ++ to_string_int (Z.of_nat pos)))).
End Parser.

(** [JsonParser(json).parse()]. *)
Definition parse (json : bytes) : fuelled JsonValue := parse_result json.

Example parse_array_123 :
  parse #"[1, 2, 3]" = Done (Ok (JArray [JLong 1; JLong 2; JLong 3])).
Proof. vm_compute. reflexivity. Qed.
Example parse_nested :
  parse (qlit "{'nested': {'object': [1, {'array_in_object': true}]}}")
  = Done (Ok (JObject [(#"nested", JObject [(#"object",
      JArray [JLong 1; JObject [(#"array_in_object", JBool true)]])])])).
Proof. vm_compute. reflexivity. Qed.
(** An o with an umlaut, in ISO 8859-1: inside a string it is kept, elsewhere the
    behaviour is undefined. *)
Example parse_umlaut : let o := ascii_of_nat 246 in
  parse [dquote; o; dquote] = Done (Ok (JString [o])) ∧
  parse [o] = Done (Undef bad_precondition) ∧
  parse ["1"%char; o] = Done (Undef bad_precondition).
Proof. vm_compute. repeat split. Qed.
Example parse_trailing_comma :
  parse #"[1, 2,]" = Done (Throw (runtime_error #"Unexpected character: ']' at position 6")).
Proof. vm_compute. reflexivity. Qed.
