(* ===== verification/JsonParserFacts.v ===== *)
(** * Correctness of the JSON parser on every input

    Progress (a successful parse consumes at least one character and stays in
    the text), termination with the fuel [parse] provides, monotonicity in the
    fuel and well-formedness of every parsed value. *)

From Stdlib Require Import ZArith Lia Ascii.
From stdpp Require Import base list sets strings.
From S2P Require Import Prelude Double JsonValue JsonParser.

(** ** The classification of characters *)

Lemma std_isspace_ok c b : std_isspace c = Ok b ↔ in_domain c = true ∧ b = isspace c.
Proof. unfold std_isspace. destruct (in_domain c); naive_solver. Qed.

Lemma std_isdigit_ok c b : std_isdigit c = Ok b ↔ in_domain c = true ∧ b = isdigit c.
Proof. unfold std_isdigit. destruct (in_domain c); naive_solver. Qed.

Lemma isspace_in_domain c : isspace c = true → in_domain c = true.
Proof.
  unfold isspace, in_domain. rewrite !orb_true_iff, andb_true_iff, !Z.leb_le, Z.ltb_lt, !Z.eqb_eq. lia.
Qed.

Lemma isdigit_in_domain c : isdigit c = true → in_domain c = true.
Proof. unfold isdigit, in_domain. rewrite orb_true_iff, andb_true_iff, !Z.leb_le, Z.ltb_lt. lia. Qed.

Section Facts.
Context (json_str : bytes).
Implicit Types (pos p : nat).
Local Abbreviation len := (length json_str).
Local Abbreviation peek := (peek json_str).
Local Abbreviation expect := (expect json_str).
Local Abbreviation skip_whitespace := (skip_whitespace json_str).

(** ** Progress of the scanning loops *)

Lemma skip_spaces_bounds rest pos q : skip_spaces rest pos = Ok q → pos ≤ q ≤ pos + length rest.
Proof.
  revert pos. induction rest as [|c rest IH]; intros pos; simpl; [intros [= ->]; lia|].
  intros (b & _ & H)%bind_ok. destruct b; [apply IH in H; lia|injection H as ->; lia].
Qed.

Lemma skip_whitespace_bounds pos q : skip_whitespace pos = Ok q → pos ≤ q ≤ pos `max` len.
Proof. intros H%skip_spaces_bounds. rewrite length_drop in H. lia. Qed.

Lemma digit_loop_bounds rest pos q : digit_loop rest pos = Ok q → pos ≤ q ≤ pos + length rest.
Proof.
  revert pos. induction rest as [|c rest IH]; intros pos; simpl; [intros [= ->]; lia|].
  intros (b & _ & H)%bind_ok. destruct b; [apply IH in H; lia|injection H as ->; lia].
Qed.

Lemma skip_digits_bounds pos q : skip_digits json_str pos = Ok q → pos ≤ q ≤ pos `max` len.
Proof. intros H%digit_loop_bounds. rewrite length_drop in H. lia. Qed.

(** A digit at [pos] is consumed. *)
Lemma skip_digits_progress pos c q :
  json_str !! pos = Some c → isdigit c = true → skip_digits json_str pos = Ok q → pos < q.
Proof.
  intros Hc Hd. unfold skip_digits. rewrite (drop_S _ c pos Hc). simpl.
  intros (b & [_ ->]%std_isdigit_ok & H)%bind_ok. rewrite Hd in H.
  apply digit_loop_bounds in H. lia.
Qed.

Lemma peek_lookup pos c : peek pos = Ok c ↔ json_str !! pos = Some c.
Proof. unfold JsonParser.peek. destruct (json_str !! pos); naive_solver. Qed.

Lemma peek_lt pos c : peek pos = Ok c → pos < len.
Proof. rewrite peek_lookup. apply lookup_lt_Some. Qed.

Lemma consume_ok pos c p : consume json_str pos = Ok (c, p) ↔ peek pos = Ok c ∧ p = S pos.
Proof. unfold consume, JsonParser.peek. destruct (json_str !! pos); naive_solver. Qed.

(** What a successful [expect] means. *)
Lemma expect_ok c pos p :
  expect c pos = Ok p ↔ ∃ q, skip_whitespace pos = Ok q ∧ peek q = Ok c ∧ p = S q.
Proof.
  unfold JsonParser.expect. split.
  - intros (q & Hq & (c' & Hc & H)%bind_ok)%bind_ok. case_decide; [subst|done].
    apply bind_ok in H as ([c' p'] & [_ ->]%consume_ok & [= <-]). eauto.
  - intros (q & -> & Hp & ->). simpl. rewrite Hp. simpl. rewrite decide_True by done.
    assert (consume json_str q = Ok (c, S q)) as -> by (by apply consume_ok). done.
Qed.

Lemma expect_progress c pos p : expect c pos = Ok p → pos < p ≤ len.
Proof.
  intros (q & Hq%skip_whitespace_bounds & Hp%peek_lt & ->)%expect_ok. lia.
Qed.

Lemma string_loop_progress rest pos s s' p :
  string_loop rest pos s = Ok (s', p) → pos ≤ p.
Proof.
  revert pos s. induction rest as [rest IH] using (induction_ltof1 _ length); unfold ltof in IH.
  intros pos s. destruct rest as [|c rest1]; simpl; [done|].
  case_decide; [naive_solver|]. case_decide.
  - destruct rest1 as [|e rest2]; [done|]. destruct (escape e); [|done].
    intros Hs%IH; simpl in *; lia.
  - intros Hs%IH; simpl in *; lia.
Qed.

Lemma parse_string_progress pos s p :
  parse_string json_str pos = Ok (s, p) → pos < p ≤ len.
Proof.
  unfold parse_string. intros H. bind_inv. destruct a0 as [s' p']. bind_inv. simplify_eq.
  apply expect_progress in Hm, Hm1. apply string_loop_progress in Hm0. lia.
Qed.

Lemma parse_number_progress pos c v p :
  peek pos = Ok c → c = "-"%char ∨ isdigit c = true →
  parse_number json_str pos = Ok (v, p) → pos < p ≤ len.
Proof.
  intros Hc Hcase H. unfold parse_number in H. rewrite Hc in H. cbn [mbind outcome_bind] in H.
  apply bind_ok in H as (p0 & H0 & H).
  assert (pos < p0) as Hp0.
  { case_decide as Hm; [apply skip_digits_bounds in H0; lia|].
    destruct Hcase as [|Hd]; [done|]. apply peek_lookup in Hc.
    by eapply skip_digits_progress. }
  apply bind_ok in H as (c1 & H1%peek_lt & H).
  apply bind_ok in H as ([is_d p1] & Hfrac & H).
  assert (p0 ≤ p1 ≤ len) as Hp1.
  { case_decide; [|naive_solver lia].
    apply bind_ok in Hfrac as (q & Hq%skip_digits_bounds & [= <- <-]). lia. }
  apply bind_ok in H as (c2 & H2%peek_lt & H).
  apply bind_ok in H as ([is_d' p2] & H3 & H).
  assert (p1 ≤ p2 ≤ len) as Hp2.
  { case_decide; [|naive_solver lia].
    apply bind_ok in H3 as (c3 & H3%peek_lt & (q & Hq%skip_digits_bounds & [= <- <-])%bind_ok).
    case_decide; lia. }
  destruct is_d'; bind_inv; simplify_eq; lia.
Qed.

Lemma literal_loop_progress literal todo pos p :
  literal_loop json_str literal todo pos = Ok p → p = pos + length todo ∧ (pos ≤ len → p ≤ len).
Proof.
  revert pos. induction todo as [|e todo IH]; intros pos; simpl; [intros [= ->]; lia|].
  destruct (json_str !! pos) eqn:Hc; [|done]. case_decide; [|done].
  apply lookup_lt_Some in Hc. intros [-> ?]%IH. lia.
Qed.

Lemma parse_literal_progress literal value pos v p :
  literal ≠ [] → pos < len → parse_literal json_str literal value pos = Ok (v, p) →
  v = value ∧ pos < p ≤ len.
Proof.
  intros Hne Hlt H. unfold parse_literal in H. bind_inv. simplify_eq.
  apply literal_loop_progress in Hm as [-> ?].
  split; [done|]. destruct literal; simpl in *; [done|lia].
Qed.

Lemma stoll_in_range l z : stoll l = Ok z → in_llong z = true.
Proof.
  unfold stoll. destruct (read_sign _) as [neg l1]. case_decide; [done|].
  destruct (in_llong _) eqn:E; naive_solver.
Qed.

Lemma parse_number_wf pos v p : parse_number json_str pos = Ok (v, p) → wf_value v.
Proof.
  unfold parse_number. intros H.
  apply bind_ok in H as (c & _ & H). apply bind_ok in H as (p0 & _ & H).
  apply bind_ok in H as (c1 & _ & H). apply bind_ok in H as ([is_d p1] & _ & H).
  apply bind_ok in H as (c2 & _ & H). apply bind_ok in H as ([is_d' p2] & _ & H).
  destruct is_d'; bind_inv; simplify_eq; constructor. by eapply stoll_in_range.
Qed.

(** The test of [parse_value] for a number. *)
Lemma number_test c :
  Done (if decide (c = "-"%char) then Ok true else std_isdigit c) = Done (Ok true) →
  c = "-"%char ∨ isdigit c = true.
Proof. case_decide; [by left|]. intros [= [_ ?]%std_isdigit_ok]. by right. Qed.

(** ** Progress and well-formedness of the recursive methods *)

Definition progress_wf (fuel : nat) : Prop :=
  (∀ pos v p, parse_value json_str fuel pos = Done (Ok (v, p)) → wf_value v ∧ pos < p ≤ len) ∧
  (∀ pos v p, parse_array json_str fuel pos = Done (Ok (v, p)) → wf_value v ∧ pos < p ≤ len) ∧
  (∀ arr pos arr' p, Forall wf_value arr →
     array_loop json_str fuel arr pos = Done (Ok (arr', p)) →
     Forall wf_value arr' ∧ pos < p ≤ len) ∧
  (∀ pos v p, parse_object json_str fuel pos = Done (Ok (v, p)) → wf_value v ∧ pos < p ≤ len) ∧
  (∀ obj pos obj' p, wf_value (JObject obj) →
     object_loop json_str fuel obj pos = Done (Ok (obj', p)) →
     wf_value (JObject obj') ∧ pos < p ≤ len).

Lemma value_progress_step f : progress_wf f →
  ∀ pos v p, parse_value json_str (S f) pos = Done (Ok (v, p)) → wf_value v ∧ pos < p ≤ len.
Proof.
  intros (_ & Ha & _ & Ho & _) pos v p H. cbn [parse_value] in H.
  apply fbind_ok in H as (q & [= Hq%skip_whitespace_bounds] & H).
  apply fbind_ok in H as (c & [= Hc] & H).
  pose proof (peek_lt _ _ Hc) as Hlt.
  case_decide as Hquote.
  { apply fbind_ok in H as ([s p'] & [= Hs] & [= <- <-]).
    apply parse_string_progress in Hs. split; [constructor|lia]. }
  apply fbind_ok in H as (number & Hnum & H). destruct number.
  { apply number_test in Hnum. injection H as H.
    destruct (parse_number_progress _ _ _ _ Hc Hnum H).
    split; [by eapply parse_number_wf|lia]. }
  clear Hnum Hquote. repeat case_decide; simplify_eq.
  - apply Ha in H as [? ?]. split; [done|lia].
  - apply Ho in H as [? ?]. split; [done|lia].
  - apply parse_literal_progress in H as [-> ?]; [|done..]. split; [constructor|lia].
  - apply parse_literal_progress in H as [-> ?]; [|done..]. split; [constructor|lia].
  - apply parse_literal_progress in H as [-> ?]; [|done..]. split; [constructor|lia].
Qed.

Lemma array_progress_step f : progress_wf f →
  (∀ pos v p, parse_array json_str (S f) pos = Done (Ok (v, p)) → wf_value v ∧ pos < p ≤ len) ∧
  (∀ arr pos arr' p, Forall wf_value arr →
     array_loop json_str (S f) arr pos = Done (Ok (arr', p)) →
     Forall wf_value arr' ∧ pos < p ≤ len).
Proof.
  intros (Hv & _ & Hl & _). split.
  - intros pos v p H. cbn [parse_array] in H.
    apply fbind_ok in H as (p1 & [= H1%expect_progress] & H).
    apply fbind_ok in H as (q & [= Hq%skip_whitespace_bounds] & H).
    apply fbind_ok in H as (c & [= Hc%peek_lt] & H).
    apply fbind_ok in H as ([arr p2] & Harr & H).
    apply fbind_ok in H as (p3 & [= H3%expect_progress] & [= <- <-]).
    assert (Forall wf_value arr ∧ q ≤ p2) as [? ?].
    { case_decide; [injection Harr as <- <-; auto|].
      apply Hl in Harr as [? ?]; [|done]. split; [done|lia]. }
    split; [by constructor|lia].
  - intros arr pos arr' p Harr H. cbn [array_loop] in H.
    apply fbind_ok in H as ([v p1] & [Hwf H1]%Hv & H).
    apply fbind_ok in H as (q & [= Hq%skip_whitespace_bounds] & H).
    apply fbind_ok in H as (c & [= Hc] & H). pose proof (peek_lt _ _ Hc).
    assert (Forall wf_value (arr ++ [v])) as Hsnoc.
    { apply Forall_app; split; [done|]. by repeat constructor. }
    repeat case_decide; [| |done].
    + apply fbind_ok in H as ([c' p2] & [= [_ ->]%consume_ok] & H).
      apply Hl in H as [? ?]; [|done]. split; [done|lia].
    + injection H as <- <-. split; [done|lia].
Qed.

Lemma object_progress_step f : progress_wf f →
  (∀ pos v p, parse_object json_str (S f) pos = Done (Ok (v, p)) → wf_value v ∧ pos < p ≤ len) ∧
  (∀ obj pos obj' p, wf_value (JObject obj) →
     object_loop json_str (S f) obj pos = Done (Ok (obj', p)) →
     wf_value (JObject obj') ∧ pos < p ≤ len).
Proof.
  intros (Hv & _ & _ & _ & Hl). split.
  - intros pos v p H. cbn [parse_object] in H.
    apply fbind_ok in H as (p1 & [= H1%expect_progress] & H).
    apply fbind_ok in H as (q & [= Hq%skip_whitespace_bounds] & H).
    apply fbind_ok in H as (c & [= Hc%peek_lt] & H).
    apply fbind_ok in H as ([obj p2] & Hobj & H).
    apply fbind_ok in H as (p3 & [= H3%expect_progress] & [= <- <-]).
    assert (wf_value (JObject []) ) as Hnil by (repeat constructor).
    assert (wf_value (JObject obj) ∧ q ≤ p2) as [? ?].
    { case_decide; [injection Hobj as <- <-; auto|].
      apply Hl in Hobj as [? ?]; [|done]. split; [done|lia]. }
    split; [done|lia].
  - intros obj pos obj' p Hobj H. cbn [object_loop] in H.
    apply fbind_ok in H as ([key p0] & [= H0%parse_string_progress] & H).
    apply fbind_ok in H as (p1 & [= H1%expect_progress] & H).
    apply fbind_ok in H as ([v p2] & [Hwf H2]%Hv & H).
    apply fbind_ok in H as (q & [= Hq%skip_whitespace_bounds] & H).
    apply fbind_ok in H as (c & [= Hc] & H). pose proof (peek_lt _ _ Hc).
    assert (wf_value (JObject (map_assign key v obj))) by (by apply map_assign_wf).
    repeat case_decide; [| |done].
    + apply fbind_ok in H as ([c' p3] & [= [_ ->]%consume_ok] & H).
      apply Hl in H as [? ?]; [|done]. split; [done|lia].
    + injection H as <- <-. split; [done|lia].
Qed.

Lemma parser_progress fuel : progress_wf fuel.
Proof.
  induction fuel as [|f IH]; [by repeat split; intros; simplify_eq|].
  repeat apply conj; try apply value_progress_step; try apply array_progress_step;
    try apply object_progress_step; done.
Qed.

(** ** Termination: the fuel bounds *)

Definition enough_fuel (fuel : nat) : Prop :=
  (∀ pos, 3 * (len - pos) + 3 ≤ fuel → parse_value json_str fuel pos ≠ OutOfFuel) ∧
  (∀ pos, 3 * (len - pos) + 2 ≤ fuel → parse_array json_str fuel pos ≠ OutOfFuel) ∧
  (∀ arr pos, 3 * (len - pos) + 4 ≤ fuel → array_loop json_str fuel arr pos ≠ OutOfFuel) ∧
  (∀ pos, 3 * (len - pos) + 2 ≤ fuel → parse_object json_str fuel pos ≠ OutOfFuel) ∧
  (∀ obj pos, 3 * (len - pos) + 4 ≤ fuel → object_loop json_str fuel obj pos ≠ OutOfFuel).

(** One step of a computation that cannot run out of fuel. *)
Local Ltac total_step :=
  lazymatch goal with
  | |- Done _ ≠ OutOfFuel => done
  | |- mret _ ≠ OutOfFuel => done
  | |- (let '(_, _) := ?x in _) ≠ OutOfFuel => destruct x
  | |- (if decide _ then _ else _) ≠ OutOfFuel => case_decide
  | |- (if ?b then _ else _) ≠ OutOfFuel => destruct b
  | |- Done _ ≫= _ ≠ OutOfFuel =>
      apply fbind_total; [done|];
      let a := fresh "a" in let H := fresh "Hs" in intros a [= H]
  end.

Lemma containers_total_step f : enough_fuel f →
  (∀ pos, 3 * (len - pos) + 2 ≤ S f → parse_array json_str (S f) pos ≠ OutOfFuel) ∧
  (∀ pos, 3 * (len - pos) + 2 ≤ S f → parse_object json_str (S f) pos ≠ OutOfFuel).
Proof.
  intros (_ & _ & Ha & _ & Ho). split; intros pos Hf; cbn [parse_array parse_object];
    total_step; apply expect_progress in Hs;
    total_step; apply skip_whitespace_bounds in Hs0; total_step; apply peek_lt in Hs1;
    (apply fbind_total; [total_step; [done|]|intros [? ?] _; repeat total_step]).
  - apply Ha. lia.
  - apply Ho. lia.
Qed.

Lemma loops_total_step f : enough_fuel f →
  (∀ arr pos, 3 * (len - pos) + 4 ≤ S f → array_loop json_str (S f) arr pos ≠ OutOfFuel) ∧
  (∀ obj pos, 3 * (len - pos) + 4 ≤ S f → object_loop json_str (S f) obj pos ≠ OutOfFuel).
Proof.
  intros (Hv & _ & Ha & _ & Ho).
  destruct (parser_progress f) as (Pv & _). split; intros acc pos Hf; cbn [array_loop object_loop].
  - apply fbind_total; [apply Hv; lia|]. intros [v p] [_ Hp]%Pv.
    total_step. apply skip_whitespace_bounds in Hs. total_step. apply peek_lt in Hs0.
    repeat total_step. apply consume_ok in Hs1 as [_ ->]. apply Ha. lia.
  - total_step. destruct a as [key p0]. apply parse_string_progress in Hs.
    total_step. apply expect_progress in Hs0.
    apply fbind_total; [apply Hv; lia|]. intros [v p] [_ Hp]%Pv.
    total_step. apply skip_whitespace_bounds in Hs1. total_step. apply peek_lt in Hs2.
    repeat total_step. apply consume_ok in Hs3 as [_ ->]. apply Ho. lia.
Qed.

Lemma value_total_step f : enough_fuel f →
  ∀ pos, 3 * (len - pos) + 3 ≤ S f → parse_value json_str (S f) pos ≠ OutOfFuel.
Proof.
  intros (_ & Ha & _ & Ho & _) pos Hf. cbn [parse_value].
  total_step. apply skip_whitespace_bounds in Hs. repeat total_step.
  all: apply Ha || apply Ho; lia.
Qed.

Lemma parser_total fuel : enough_fuel fuel.
Proof.
  induction fuel as [|f IH]; [repeat split; intros; lia|].
  destruct (containers_total_step _ IH), (loops_total_step _ IH).
  repeat apply conj; try apply value_total_step; done.
Qed.

(** ** Monotonicity in the fuel *)

Definition fuel_monotone (f f' : nat) : Prop :=
  (∀ pos, fuel_le (parse_value json_str f pos) (parse_value json_str f' pos)) ∧
  (∀ pos, fuel_le (parse_array json_str f pos) (parse_array json_str f' pos)) ∧
  (∀ arr pos, fuel_le (array_loop json_str f arr pos) (array_loop json_str f' arr pos)) ∧
  (∀ pos, fuel_le (parse_object json_str f pos) (parse_object json_str f' pos)) ∧
  (∀ obj pos, fuel_le (object_loop json_str f obj pos) (object_loop json_str f' obj pos)).

Local Ltac mono_step :=
  lazymatch goal with
  | |- fuel_le ?m ?m => apply fuel_le_refl
  | |- fuel_le (_ ≫= _) (_ ≫= _) => apply fuel_le_bind; [|intros ?]
  | |- fuel_le (if decide _ then _ else _) _ => case_decide
  | |- fuel_le (if ?b then _ else _) _ => destruct b
  | |- fuel_le (let '(_, _) := ?x in _) _ => destruct x
  | _ => eauto
  end.

Lemma parser_mono f f' : f ≤ f' → fuel_monotone f f'.
Proof.
  revert f'. induction f as [|f IH]; intros f' Hle.
  { repeat split; intros; left; done. }
  destruct f' as [|f']; [lia|].
  destruct (IH f') as (Hv & Ha & Hal & Ho & Hol); [lia|].
  repeat apply conj; intros;
    cbn [parse_value parse_array array_loop parse_object object_loop]; repeat mono_step.
Qed.
End Facts.
