(* ===== verification/JsonGrammar.v ===== *)
(** * The language the JSON parser accepts, declaratively

    [gval v t] says that the text [t] denotes the value [v]; it has no position,
    no look-ahead and no fuel.  It records what the parser of
    middleware/src/nonworking_json.cpp accepts: any escape of its table, numbers
    with any number of leading zeros, and, for a repeated key of an object, the
    last value.  [JsonParser] refines it in both directions. *)

From Stdlib Require Import ZArith Lia Ascii.
From stdpp Require Import base list sets strings.
From S2P Require Import Prelude Double JsonValue JsonParser JsonParserFacts.

Definition spaces (ws : bytes) : Prop := Forall (fun c => isspace c = true) ws.
Definition all_digits (ds : bytes) : Prop := Forall (fun c => isdigit c = true) ds.

(** [chars s t]: the text [t] between two quotes denotes the string [s]. *)
Inductive chars : bytes → bytes → Prop :=
| chars_nil : chars [] []
| chars_plain c s t : c ≠ dquote → c ≠ backslash → chars s t → chars (c :: s) (c :: t)
| chars_escape e x s t : escape e = Some x → chars s t → chars (x :: s) (backslash :: e :: t).

Definition sign_text (sg : bytes) : Prop := sg = [] ∨ sg = #"-".
Inductive fraction_text : bytes → Prop :=
| fraction_none : fraction_text []
| fraction_some ds : all_digits ds → fraction_text ("."%char :: ds).
Inductive exponent_text : bytes → Prop :=
| exponent_none : exponent_text []
| exponent_some e sg ds :
    e = "e"%char ∨ e = "E"%char → sg = [] ∨ sg = #"+" ∨ sg = #"-" → all_digits ds →
    exponent_text (e :: sg ++ ds).

Inductive gnumber : JsonValue → bytes → Prop :=
| gnumber_long sg ds z :
    sign_text sg → all_digits ds → stoll (sg ++ ds) = Ok z → gnumber (JLong z) (sg ++ ds)
| gnumber_double sg ds fr ex d :
    sign_text sg → all_digits ds → sg ++ ds ≠ [] → fraction_text fr → exponent_text ex →
    fr ++ ex ≠ [] → stod (sg ++ ds ++ fr ++ ex) = Ok d →
    gnumber (JDouble d) (sg ++ ds ++ fr ++ ex).

(** Members are assigned to the map in the order of the text. *)
Definition assign_all (obj : JsonObject) (members : list (bytes * JsonValue)) : JsonObject :=
  fold_left (fun o kv => map_assign kv.1 kv.2 o) members obj.

Inductive gval : JsonValue → bytes → Prop :=
| g_null : gval JNull #"null"
| g_true : gval (JBool true) #"true"
| g_false : gval (JBool false) #"false"
| g_number v t : gnumber v t → gval v t
| g_string s t : chars s t → gval (JString s) (dquote :: t ++ [dquote])
| g_array_empty ws : spaces ws → gval (JArray []) ("["%char :: ws ++ #"]")
| g_array arr t : gelems arr t → gval (JArray arr) ("["%char :: t ++ #"]")
| g_object_empty ws : spaces ws → gval (JObject []) ("{"%char :: ws ++ #"}")
| g_object members t :
    gmembers members t → gval (JObject (assign_all [] members)) ("{"%char :: t ++ #"}")
with gelems : list JsonValue → bytes → Prop :=
| gelems_one ws v t ws' : spaces ws → gval v t → spaces ws' → gelems [v] (ws ++ t ++ ws')
| gelems_cons ws v t ws' arr t' :
    spaces ws → gval v t → spaces ws' → gelems arr t' →
    gelems (v :: arr) (ws ++ t ++ ws' ++ ","%char :: t')
with gmembers : list (bytes * JsonValue) → bytes → Prop :=
| gmembers_one k v t : gmember k v t → gmembers [(k, v)] t
| gmembers_cons k v t members t' :
    gmember k v t → gmembers members t' → gmembers ((k, v) :: members) (t ++ ","%char :: t')
with gmember : bytes → JsonValue → bytes → Prop :=
| gmember_intro ws k kt ws1 ws2 v t ws3 :
    spaces ws → chars k kt → spaces ws1 → spaces ws2 → gval v t → spaces ws3 →
    gmember k v (ws ++ dquote :: kt ++ dquote :: ws1 ++ ":"%char :: ws2 ++ t ++ ws3).

Scheme gval_mind := Induction for gval Sort Prop
  with gelems_mind := Induction for gelems Sort Prop
  with gmembers_mind := Induction for gmembers Sort Prop
  with gmember_mind := Induction for gmember Sort Prop.
Combined Scheme grammar_ind from gval_mind, gelems_mind, gmembers_mind, gmember_mind.

Definition is_number (v : JsonValue) : bool := is_long v || is_double v.

(** The parser looks at one character past the integer part, past the fraction
    and past the exponent letter, but not past the exponent digits: a number can
    end the text only if something follows its exponent letter. *)
Inductive closed_number : JsonValue → bytes → Prop :=
| closed_number_intro sg ds fr e b d :
    sign_text sg → all_digits ds → sg ++ ds ≠ [] → fraction_text fr →
    exponent_text (e :: b) → b ≠ [] → stod (sg ++ ds ++ fr ++ e :: b) = Ok d →
    closed_number (JDouble d) (sg ++ ds ++ fr ++ e :: b).

(** A document: one value between white space. *)
Inductive gdoc (v : JsonValue) : bytes → Prop :=
| gdoc_intro ws t ws' :
    spaces ws → gval v t → spaces ws' →
    (is_number v = true → ws' = [] → closed_number v t) →
    gdoc v (ws ++ t ++ ws').

(** The characters at which the loops over white space and over digits stop. *)
Definition ends_spaces (c : ascii) : bool := in_domain c && negb (isspace c).
Definition ends_digits (c : ascii) : bool := in_domain c && negb (isdigit c).

Lemma ends_spaces_spec c : ends_spaces c = true ↔ std_isspace c = Ok false.
Proof.
  unfold ends_spaces. rewrite std_isspace_ok, andb_true_iff, negb_true_iff. intuition congruence.
Qed.

Lemma ends_digits_spec c : ends_digits c = true ↔ std_isdigit c = Ok false.
Proof.
  unfold ends_digits. rewrite std_isdigit_ok, andb_true_iff, negb_true_iff. intuition congruence.
Qed.

Lemma isdigit_ends_spaces c : isdigit c = true → ends_spaces c = true.
Proof.
  intros Hd. unfold ends_spaces. by rewrite isdigit_in_domain, isdigit_not_isspace.
Qed.

Lemma std_isspace_space c : isspace c = true → std_isspace c = Ok true.
Proof. intros H. apply std_isspace_ok. by rewrite isspace_in_domain. Qed.

Lemma std_isdigit_digit c : isdigit c = true → std_isdigit c = Ok true.
Proof. intros H. apply std_isdigit_ok. by rewrite isdigit_in_domain. Qed.

(** ** Positions and texts

    [drop pos json_str = t] reads "the text from [pos] on is [t]". *)

Section Texts.
Context (json_str : bytes).

Lemma at_lookup pos c r : drop pos json_str = c :: r → json_str !! pos = Some c.
Proof.
  intros H. pose proof (lookup_drop json_str pos 0) as L.
  rewrite H, Nat.add_0_r in L. by symmetry.
Qed.

Lemma at_peek pos c r : drop pos json_str = c :: r → peek json_str pos = Ok c.
Proof. intros H%at_lookup. unfold peek. by rewrite H. Qed.

Lemma at_shift pos a r : drop pos json_str = a ++ r → drop (pos + length a) json_str = r.
Proof. intros H. rewrite <- drop_drop, H. apply drop_app_length. Qed.

Lemma at_next pos c r : drop pos json_str = c :: r → drop (S pos) json_str = r.
Proof. intros H. apply (at_shift pos [c]) in H. by rewrite Nat.add_1_r in H. Qed.

Lemma at_end pos : drop pos json_str = [] ↔ length json_str ≤ pos.
Proof.
  split; [|apply drop_ge]. intros H.
  apply (f_equal length) in H. rewrite length_drop in H. simpl in H. lia.
Qed.

Lemma skip_spaces_app ws r pos :
  spaces ws → (∀ c, head r = Some c → ends_spaces c = true) →
  skip_spaces (ws ++ r) pos = Ok (pos + length ws).
Proof.
  intros Hws Hr. revert pos. induction Hws as [|c ws Hc _ IH]; intros pos; simpl.
  - rewrite Nat.add_0_r. destruct r as [|c r]; simpl; [done|].
    by rewrite (proj1 (ends_spaces_spec c) (Hr c eq_refl)).
  - rewrite std_isspace_space by done. simpl. rewrite IH. f_equal. lia.
Qed.

Lemma skip_at pos ws r :
  drop pos json_str = ws ++ r → spaces ws → (∀ c, head r = Some c → ends_spaces c = true) →
  skip_whitespace json_str pos = Ok (pos + length ws).
Proof. intros H Hws Hr. unfold skip_whitespace. rewrite H. by apply skip_spaces_app. Qed.

(** The white space a [skip_whitespace] passes over. *)
Lemma skip_spaces_inv rest pos q :
  skip_spaces rest pos = Ok q →
  ∃ ws, spaces ws ∧ rest = ws ++ drop (q - pos) rest ∧ length ws = q - pos ∧ pos ≤ q.
Proof.
  revert pos. induction rest as [|c rest IH]; intros pos; simpl.
  { intros [= ->]. exists []. rewrite drop_nil. repeat split; [constructor|simpl; lia|lia]. }
  intros (b & [_ ->]%std_isspace_ok & H)%bind_ok. destruct (isspace c) eqn:Hc.
  - apply IH in H as (ws & Hws & E & L & Hle). exists (c :: ws).
    replace (q - pos) with (S (q - S pos)) by lia.
    simpl. rewrite <- E, L. repeat split; [by constructor|lia].
  - injection H as ->. exists []. rewrite Nat.sub_diag. repeat split; [constructor|lia].
Qed.

Lemma skip_inv pos q :
  skip_whitespace json_str pos = Ok q →
  ∃ ws, spaces ws ∧ drop pos json_str = ws ++ drop q json_str.
Proof.
  intros (ws & Hws & E & L & Hle)%skip_spaces_inv.
  exists ws. split; [done|]. rewrite E at 1. f_equal. rewrite drop_drop. f_equal. lia.
Qed.

Lemma digit_loop_app ds r pos :
  all_digits ds → (∀ c, head r = Some c → ends_digits c = true) →
  digit_loop (ds ++ r) pos = Ok (pos + length ds).
Proof.
  intros Hds Hr. revert pos. induction Hds as [|c ds Hc _ IH]; intros pos; simpl.
  - rewrite Nat.add_0_r. destruct r as [|c r]; simpl; [done|].
    by rewrite (proj1 (ends_digits_spec c) (Hr c eq_refl)).
  - rewrite std_isdigit_digit by done. simpl. rewrite IH. f_equal. lia.
Qed.

Lemma digits_at pos ds r :
  drop pos json_str = ds ++ r → all_digits ds → (∀ c, head r = Some c → ends_digits c = true) →
  skip_digits json_str pos = Ok (pos + length ds).
Proof. intros H Hds Hr. unfold skip_digits. rewrite H. by apply digit_loop_app. Qed.

Lemma digit_loop_inv rest pos q :
  digit_loop rest pos = Ok q →
  ∃ ds, all_digits ds ∧ q = pos + length ds ∧ rest = ds ++ drop (length ds) rest.
Proof.
  revert pos. induction rest as [|c rest IH]; intros pos; simpl.
  { intros [= ->]. exists []. repeat split; [constructor|simpl; lia]. }
  intros (b & [_ ->]%std_isdigit_ok & H)%bind_ok. destruct (isdigit c) eqn:Hc.
  - apply IH in H as (ds & Hds & -> & E). exists (c :: ds).
    simpl. rewrite <- E. repeat split; [by constructor|lia].
  - injection H as ->. exists []. repeat split; [constructor|simpl; lia].
Qed.

Lemma skip_digits_inv pos q :
  skip_digits json_str pos = Ok q →
  ∃ ds, all_digits ds ∧ drop pos json_str = ds ++ drop q json_str ∧ q = pos + length ds.
Proof.
  intros (ds & Hds & -> & E)%digit_loop_inv. exists ds. split; [done|]. split; [|done].
  rewrite E at 1. by rewrite drop_drop.
Qed.
End Texts.
