(* ===== verification/JsonComplete.v ===== *)
(** * The JSON parser accepts every document of the grammar

    For each production of [JsonGrammar], the corresponding method of the parser
    returns the denoted value and stops at the end of the text, for all
    sufficiently large fuel. *)

From Stdlib Require Import ZArith Lia Ascii.
From stdpp Require Import base list sets strings.
From S2P Require Import Prelude Double JsonValue JsonParser JsonParserFacts JsonGrammar.

(** The characters that may follow a value inside a document. *)
Definition follow (c : ascii) : Prop :=
  isspace c = true ∨ c = ","%char ∨ c = "]"%char ∨ c = "}"%char.

Lemma follow_not_number c :
  follow c → ends_digits c = true ∧ c ≠ "."%char ∧ ¬ (c = "e"%char ∨ c = "E"%char) ∧
             ¬ (c = "+"%char ∨ c = "-"%char).
Proof.
  intros [Hs|[->|[->| ->]]]; [|by repeat split; naive_solver..].
  destruct (isdigit c) eqn:Hd; [by rewrite isdigit_not_isspace in Hs|].
  unfold ends_digits. rewrite (isspace_in_domain _ Hs), Hd.
  repeat split; [..|intros [->| ->]|intros [->| ->]]; try (intros ->); done.
Qed.

Definition follow_ok (v : JsonValue) (t r : bytes) : Prop :=
  match r with [] => is_number v = true → closed_number v t | c :: _ => follow c end.

(** The same condition on the exponent part of a number. *)
Definition exponent_follow (ex r : bytes) : Prop :=
  match r with [] => ∃ e b, ex = e :: b ∧ b ≠ [] | c :: _ => follow c end.

Lemma exponent_follow_head ex r c :
  exponent_follow ex r → head r = Some c → ends_digits c = true ∧ c ≠ "."%char.
Proof. destruct r; [done|]. intros (? & ? & _)%follow_not_number [= <-]. done. Qed.

Lemma gnumber_head v t :
  gnumber v t → ∃ c t', t = c :: t' ∧ (c = "-"%char ∨ isdigit c = true).
Proof.
  assert (∀ sg ds l, sign_text sg → all_digits ds → sg ++ ds ≠ [] →
    ∃ c t', sg ++ ds ++ l = c :: t' ∧ (c = "-"%char ∨ isdigit c = true)) as Hgen.
  { intros sg ds l [->| ->] Hds Hne; [|eauto]. simpl in *.
    destruct Hds as [|c ds Hc]; [done|]. simpl. eauto. }
  intros [sg ds z Hsg Hds Hz|sg ds fr ex d Hsg Hds Hne _ _ _ _]; [|by apply Hgen].
  rewrite <- (app_nil_r ds). apply Hgen; [done..|].
  intros [-> ->]%app_nil. done.
Qed.

(** The first character of a value. *)
Lemma gval_head v t :
  gval v t → ∃ c t', t = c :: t' ∧ ends_spaces c = true ∧ c ≠ "]"%char ∧ c ≠ "}"%char.
Proof.
  intros [ | | |v' t' Hn| | | | | ]; try (eexists _, _; split; [reflexivity|]; done).
  apply gnumber_head in Hn as (c & t2 & -> & Hc). exists c, t2. split; [done|].
  destruct Hc as [->|Hd]; [done|].
  repeat split; [by apply isdigit_ends_spaces|by intros ->..].
Qed.

Lemma gval_is_number v t : gval v t → is_number v = true → gnumber v t.
Proof. by intros []. Qed.

(** The test of [parse_value] for a number. *)
Lemma number_found c :
  c = "-"%char ∨ isdigit c = true →
  (if decide (c = "-"%char) then Ok true else std_isdigit c) = Ok true.
Proof. intros Hc. case_decide; [done|]. destruct Hc; [done|by apply std_isdigit_digit]. Qed.

Lemma number_not_found c :
  c ≠ "-"%char → ends_digits c = true →
  (if decide (c = "-"%char) then Ok true else std_isdigit c) = Ok false.
Proof. intros. rewrite decide_False by done. by apply ends_digits_spec. Qed.

(** [parse_value] at a known first character past the tests for a string and a number. *)
Ltac not_string_nor_number :=
  rewrite decide_False by done; rewrite number_not_found by done; cbn [mbind fuelled_bind].

Section Complete.
Context (json_str : bytes).

(** ** Terminals *)

Lemma string_loop_chars s t : chars s t → ∀ acc pos rest,
  string_loop (t ++ dquote :: rest) pos acc = Ok (acc ++ s, pos + length t).
Proof.
  induction 1 as [|c s t H1 H2 _ IH|e x s t He _ IH]; intros acc pos rest; cbn [app string_loop].
  - rewrite decide_True, app_nil_r, Nat.add_0_r by done. done.
  - rewrite !decide_False by done. rewrite IH, <- app_assoc. simpl. do 2 f_equal. lia.
  - rewrite decide_False, decide_True by done. rewrite He, IH, <- app_assoc.
    simpl. do 2 f_equal. lia.
Qed.

Lemma expect_at pos ws c r :
  drop pos json_str = ws ++ c :: r → spaces ws → ends_spaces c = true →
  expect json_str c pos = Ok (S (pos + length ws)).
Proof.
  intros H Hws Hc. apply expect_ok. exists (pos + length ws). split; [|split; [|done]].
  - eapply skip_at; [done..|]. by intros ? [= ->].
  - eapply at_peek. by apply at_shift in H.
Qed.

Lemma parse_string_at pos ws s t r :
  drop pos json_str = ws ++ dquote :: t ++ dquote :: r → spaces ws → chars s t →
  parse_string json_str pos = Ok (s, pos + length ws + length t + 2).
Proof.
  intros H Hws Ht. unfold parse_string. rewrite (expect_at _ _ _ _ H Hws) by done. simpl.
  apply at_shift, at_next in H. rewrite H, (string_loop_chars _ _ Ht). simpl.
  apply at_shift in H. rewrite (expect_at _ [] dquote r) by (done || constructor).
  simpl. do 2 f_equal. lia.
Qed.

Lemma literal_loop_at literal todo pos r :
  drop pos json_str = todo ++ r → literal_loop json_str literal todo pos = Ok (pos + length todo).
Proof.
  revert pos. induction todo as [|c todo IH]; intros pos H; simpl; [by rewrite Nat.add_0_r|].
  rewrite (at_lookup _ _ _ _ H), decide_True by done. rewrite IH by (by eapply at_next).
  f_equal. lia.
Qed.

Lemma parse_literal_at literal value pos r :
  drop pos json_str = literal ++ r →
  parse_literal json_str literal value pos = Ok (value, pos + length literal).
Proof. intros H. unfold parse_literal. by rewrite (literal_loop_at _ _ _ _ H). Qed.

(** ** Numbers *)

(** The integer part, with the optional sign. *)
Lemma int_part_at pos sg ds r c0 :
  drop pos json_str = (sg ++ ds) ++ r → sign_text sg → all_digits ds →
  (∀ c, head r = Some c → ends_digits c = true) → json_str !! pos = Some c0 →
  (sg = [] → c0 ≠ "-"%char) →
  skip_digits json_str (if decide (c0 = "-"%char) then S pos else pos) = Ok (pos + length (sg ++ ds)).
Proof.
  intros H Hsg Hds Hr Hc0 Hm. destruct Hsg as [->| ->]; simpl in *.
  - rewrite decide_False by auto. by erewrite digits_at.
  - apply at_lookup in H as Hl. rewrite Hl in Hc0. injection Hc0 as <-.
    rewrite decide_True by done. apply at_next in H. erewrite digits_at by done. f_equal. lia.
Qed.

Lemma fraction_at pos fr r c1 :
  drop pos json_str = fr ++ r → fraction_text fr →
  (∀ c, head r = Some c → ends_digits c = true ∧ c ≠ "."%char) → json_str !! pos = Some c1 →
  (if decide (c1 = "."%char) then q ← skip_digits json_str (S pos); Ok (true, q) else Ok (false, pos))
  = Ok (bool_decide (fr ≠ []), pos + length fr).
Proof.
  intros H Hfr Hr Hc1. destruct Hfr as [|ds Hds]; simpl in *.
  - destruct r as [|c r]; [apply at_end in H; apply lookup_lt_Some in Hc1; lia|].
    apply at_lookup in H. rewrite H in Hc1. injection Hc1 as ->.
    destruct (Hr c1 eq_refl). rewrite decide_False by done. by rewrite Nat.add_0_r.
  - apply at_lookup in H as Hl. rewrite Hl in Hc1. injection Hc1 as <-.
    rewrite decide_True by done. apply at_next in H.
    rewrite (digits_at _ _ _ _ H Hds) by (intros; by apply Hr). simpl. do 2 f_equal. lia.
Qed.

Lemma exponent_at pos ex r c2 is_d :
  drop pos json_str = ex ++ r → exponent_text ex → exponent_follow ex r →
  json_str !! pos = Some c2 →
  (if decide (c2 = "e"%char ∨ c2 = "E"%char) then
     x ← peek json_str (S pos);
     q ← skip_digits json_str (if decide (x = "+"%char ∨ x = "-"%char) then S (S pos) else S pos);
     Ok (true, q)
   else Ok (is_d, pos))
  = Ok (bool_decide (ex ≠ []) || is_d, pos + length ex).
Proof.
  intros H Hex Hfol Hc2.
  assert (∀ c', head r = Some c' → ends_digits c' = true) as Hr
    by (intros; by eapply exponent_follow_head).
  destruct Hex as [|e sg ds Hecase Hsg Hds]; simpl in *.
  - destruct r as [|c r]; [by destruct Hfol as (? & ? & ? & _)|].
    apply follow_not_number in Hfol as (_ & _ & He & _).
    apply at_lookup in H. rewrite H in Hc2. injection Hc2 as ->.
    rewrite decide_False by done. by rewrite Nat.add_0_r.
  - apply at_lookup in H as Hl. rewrite Hl in Hc2. injection Hc2 as <-.
    rewrite decide_True by done. apply at_next in H. rewrite <- app_assoc in H.
    destruct Hsg as [->|[->| ->]]; simpl in H.
    + assert (∃ x y, ds ++ r = x :: y ∧ ¬ (x = "+"%char ∨ x = "-"%char)) as (x & y & E & Hx).
      { destruct Hds as [|x ds Hx]; simpl.
        - destruct r as [|c r]; [destruct Hfol as (? & ? & [= <- <-] & ?); done|].
          apply follow_not_number in Hfol as (_ & _ & _ & ?). eauto.
        - exists x, (ds ++ r). split; [done|]. intros [->| ->]; done. }
      rewrite (at_peek _ _ x y) by congruence. cbn [mbind outcome_bind].
      rewrite decide_False by done.
      erewrite digits_at by done. simpl. do 2 f_equal. lia.
    + rewrite (at_peek _ _ _ _ H). cbn [mbind outcome_bind]. rewrite decide_True by auto.
      apply at_next in H. erewrite digits_at by done. simpl. do 2 f_equal. lia.
    + rewrite (at_peek _ _ _ _ H). cbn [mbind outcome_bind]. rewrite decide_True by auto.
      apply at_next in H. erewrite digits_at by done. simpl. do 2 f_equal. lia.
Qed.

Lemma take_at pos t r :
  drop pos json_str = t ++ r → take (pos + length t - pos) (drop pos json_str) = t.
Proof. intros ->. replace (pos + length t - pos) with (length t) by lia. apply take_app_length. Qed.

(** The scan of a number, on the four parts of its text. *)
Lemma parse_number_scan pos sg ds fr ex r :
  drop pos json_str = (sg ++ ds ++ fr ++ ex) ++ r → exponent_follow ex r →
  sign_text sg → all_digits ds → sg ++ ds ≠ [] → fraction_text fr → exponent_text ex →
  parse_number json_str pos =
    (if bool_decide (ex ≠ []) || bool_decide (fr ≠ [])
     then d ← stod (sg ++ ds ++ fr ++ ex);
          Ok (JDouble d, pos + length (sg ++ ds ++ fr ++ ex))
     else i ← stoll (sg ++ ds ++ fr ++ ex);
          Ok (JLong i, pos + length (sg ++ ds ++ fr ++ ex))).
Proof.
  intros H Hc Hsg Hds Hne Hfr Hex.
  pose proof (take_at _ _ _ H) as Htake.
  assert (∀ x, head (ex ++ r) = Some x → ends_digits x = true ∧ x ≠ "."%char) as Hexh.
  { destruct Hex as [|e sg' ds' [->| ->] _ _]; simpl; [|intros x [= <-]; done..].
    intros x. by apply (exponent_follow_head []). }
  assert (∀ x, head (fr ++ ex ++ r) = Some x → ends_digits x = true) as Hfrh.
  { destruct Hfr as [|ds' _]; simpl; [intros; by apply Hexh|intros x [= <-]; done]. }
  assert (∃ c0 y, sg ++ ds = c0 :: y ∧ (sg = [] → c0 ≠ "-"%char)) as (c0 & y & E0 & Hm).
  { destruct Hsg as [->| ->]; simpl in *; [|eauto 6].
    destruct Hds as [|x ds Hx]; [done|]. exists x, ds. split; [done|]. intros _ ->. done. }
  assert (drop pos json_str = (sg ++ ds) ++ fr ++ ex ++ r) as Hint
    by (rewrite H; by rewrite !app_assoc).
  assert (json_str !! pos = Some c0) as Hl0.
  { eapply at_lookup. rewrite Hint, E0. done. }
  pose proof (int_part_at _ _ _ _ _ Hint Hsg Hds Hfrh Hl0 Hm) as Eint.
  apply at_shift in Hint as Hf. set (p1 := pos + length (sg ++ ds)) in *.
  assert (∃ c1 y1, fr ++ ex ++ r = c1 :: y1) as (c1 & y1 & E1)
    by (destruct fr, ex, r; simpl; eauto; by destruct Hc as (? & ? & ? & _)).
  assert (json_str !! p1 = Some c1) as Hl1 by (eapply at_lookup; by rewrite Hf, E1).
  pose proof (fraction_at _ _ _ _ Hf Hfr Hexh Hl1) as Efr.
  apply at_shift in Hf as He. set (p2 := p1 + length fr) in *.
  assert (∃ c2 y2, ex ++ r = c2 :: y2) as (c2 & y2 & E2)
    by (destruct ex, r; simpl; eauto; by destruct Hc as (? & ? & ? & _)).
  assert (json_str !! p2 = Some c2) as Hl2 by (eapply at_lookup; by rewrite He, E2).
  unfold parse_number. rewrite (proj2 (peek_lookup _ _ _) Hl0). cbn [mbind outcome_bind].
  rewrite Eint. cbn [mbind outcome_bind].
  rewrite (proj2 (peek_lookup _ _ _) Hl1). cbn [mbind outcome_bind].
  cbn [mbind outcome_bind] in Efr. rewrite Efr. cbn [mbind outcome_bind]. cbn iota beta.
  rewrite (proj2 (peek_lookup _ _ _) Hl2). cbn [mbind outcome_bind].
  pose proof (exponent_at _ _ _ _ (bool_decide (fr ≠ [])) He Hex Hc Hl2) as Eex.
  cbn [mbind outcome_bind] in Eex. rewrite Eex. cbn iota beta.
  assert (p2 + length ex = pos + length (sg ++ ds ++ fr ++ ex)) as ->
    by (subst p1 p2; rewrite !length_app; lia).
  cbn [mbind outcome_bind]. destruct (_ || _); by rewrite Htake.
Qed.

Lemma parse_number_at pos v t r :
  drop pos json_str = t ++ r → gnumber v t → follow_ok v t r →
  parse_number json_str pos = Ok (v, pos + length t).
Proof.
  intros H Hn Hf.
  assert (is_number v = true) as Hisn by (by destruct Hn).
  destruct r as [|c r]; simpl in Hf.
  { destruct (Hf Hisn) as [sg ds fr e b d Hsg Hds Hne Hfr Hex Hb Hd].
    rewrite (parse_number_scan _ _ _ _ _ _ H) by (done || by exists e, b). by rewrite Hd. }
  destruct Hn as [sg ds z Hsg Hds Hz|sg ds fr ex d Hsg Hds Hne Hfr Hex Hne2 Hd].
  - replace (sg ++ ds) with (sg ++ ds ++ [] ++ []) in * by (by rewrite !app_nil_r).
    rewrite (parse_number_scan _ _ _ _ _ _ H Hf Hsg Hds); [|..|constructor|constructor].
    + simpl in *. by rewrite Hz.
    + intros [-> ->]%app_nil. done.
  - rewrite (parse_number_scan _ _ _ _ _ _ H Hf Hsg Hds Hne Hfr Hex), Hd.
    destruct ex, fr; done.
Qed.

(** ** Values *)

(** [parse_value] with its leading white space passed and its first character known. *)
Definition parses (pos : nat) (v : JsonValue) (p : nat) : Prop :=
  ∃ N, ∀ f, N ≤ f → parse_value json_str f pos = Done (Ok (v, p)).

Lemma skip_to_value pos ws v t r :
  drop pos json_str = ws ++ t ++ r → spaces ws → gval v t →
  skip_whitespace json_str pos = Ok (pos + length ws) ∧
  drop (pos + length ws) json_str = t ++ r.
Proof.
  intros H Hws (c & t' & -> & Hc & _)%gval_head. split; [|by apply at_shift in H].
  eapply skip_at; [done..|]. by intros ? [= ->].
Qed.

Lemma parses_scalar pos ws v t r :
  drop pos json_str = ws ++ t ++ r → spaces ws → follow_ok v t r → gval v t →
  (∀ a, v ≠ JArray a) → (∀ o, v ≠ JObject o) →
  parses pos v (pos + length ws + length t).
Proof.
  intros H Hws Hf Hg Ha Ho. exists 1. intros [|f] Hle; [lia|].
  destruct (skip_to_value _ _ _ _ _ H Hws Hg) as [Eskip Hat].
  cbn [parse_value]. rewrite Eskip. cbn [mbind fuelled_bind]. set (q := pos + length ws) in *.
  destruct Hg as [ | | |v t Hn|s t Hs| | | | ]; try (by destruct (Ha _ eq_refl));
    try (by destruct (Ho _ eq_refl)).
  - rewrite (at_peek _ _ _ _ Hat). cbn [mbind fuelled_bind].
    not_string_nor_number. rewrite !decide_False, decide_True by done.
    by rewrite (parse_literal_at _ _ _ _ Hat).
  - rewrite (at_peek _ _ _ _ Hat). cbn [mbind fuelled_bind].
    not_string_nor_number. rewrite !decide_False, decide_True by done.
    by rewrite (parse_literal_at _ _ _ _ Hat).
  - rewrite (at_peek _ _ _ _ Hat). cbn [mbind fuelled_bind].
    not_string_nor_number. rewrite !decide_False, decide_True by done.
    by rewrite (parse_literal_at _ _ _ _ Hat).
  - pose proof (parse_number_at _ _ _ _ Hat Hn Hf) as E.
    apply gnumber_head in Hn as (c0 & t' & -> & Hc0).
    rewrite (at_peek _ _ _ _ Hat). cbn [mbind fuelled_bind].
    rewrite decide_False by (intros ->; by destruct Hc0).
    rewrite (number_found _ Hc0). cbn [mbind fuelled_bind]. by rewrite E.
  - rewrite (at_peek _ _ _ _ Hat). cbn [mbind fuelled_bind].
    rewrite decide_True by done.
    assert (drop q json_str = [] ++ dquote :: t ++ dquote :: r) as Hat'
      by (rewrite Hat; simpl; by rewrite <- app_assoc).
    rewrite (parse_string_at _ _ _ _ _ Hat') by (done || constructor).
    cbn [mbind fuelled_bind]. cbn iota beta. unfold mret, fuelled_ret. do 3 f_equal.
    simpl. rewrite length_app. simpl. lia.
Qed.

(** What the four induction predicates state. *)
Definition value_complete (v : JsonValue) (t : bytes) : Prop := ∀ pos ws r,
  drop pos json_str = ws ++ t ++ r → spaces ws → follow_ok v t r →
  parses pos v (pos + length ws + length t).

Definition elems_complete (arr : JsonArray) (t : bytes) : Prop := ∀ pos acc r,
  drop pos json_str = t ++ "]"%char :: r →
  ∃ N, ∀ f, N ≤ f → array_loop json_str f acc pos = Done (Ok (acc ++ arr, pos + length t)).

Definition members_complete (members : list (bytes * JsonValue)) (t : bytes) : Prop :=
  ∀ pos acc r, drop pos json_str = t ++ "}"%char :: r →
  ∃ N, ∀ f, N ≤ f →
    object_loop json_str f acc pos = Done (Ok (assign_all acc members, pos + length t)).

Definition member_complete (k : bytes) (v : JsonValue) (t : bytes) : Prop := ∀ pos c r,
  drop pos json_str = t ++ c :: r → c = ","%char ∨ c = "}"%char →
  ∃ p0 p1 p2, parse_string json_str pos = Ok (k, p0) ∧ expect json_str ":"%char p0 = Ok p1 ∧
    parses p1 v p2 ∧ skip_whitespace json_str p2 = Ok (pos + length t).

(** The element of an array together with the white space after it. *)
Lemma element_complete pos ws v t ws' c r :
  value_complete v t → spaces ws → spaces ws' →
  drop pos json_str = ws ++ t ++ ws' ++ c :: r → follow c → ends_spaces c = true →
  ∃ p, parses pos v p ∧ skip_whitespace json_str p = Ok (pos + length (ws ++ t ++ ws')) ∧
       peek json_str (pos + length (ws ++ t ++ ws')) = Ok c.
Proof.
  intros Hv Hws Hws' H Hc Hsp. exists (pos + length ws + length t). split.
  - eapply Hv; [exact H|done|]. destruct Hws' as [|x ws' Hx]; simpl; [done|by left].
  - apply at_shift, at_shift in H as H'. split.
    + erewrite skip_at; [|exact H'|done|by intros ? [= ->]]. rewrite !length_app. f_equal. lia.
    + apply at_shift in H'. rewrite !length_app, !Nat.add_assoc. by eapply at_peek.
Qed.

Lemma elems_one_complete ws v t ws' :
  spaces ws → value_complete v t → spaces ws' → elems_complete [v] (ws ++ t ++ ws').
Proof.
  intros Hws Hv Hws' pos acc r H. rewrite <- !app_assoc in H.
  destruct (element_complete _ _ _ _ _ _ _ Hv Hws Hws' H) as (p & [N Hp] & Hsk & Hpk);
    [by right; right; left|done|].
  exists (S N). intros [|f] Hf; [lia|]. cbn [array_loop].
  rewrite Hp by lia. cbn [mbind fuelled_bind]. rewrite Hsk. cbn [mbind fuelled_bind].
  rewrite Hpk. cbn [mbind fuelled_bind].
  by rewrite decide_False, decide_True.
Qed.

Lemma elems_cons_complete ws v t ws' arr t' :
  spaces ws → value_complete v t → spaces ws' → elems_complete arr t' →
  elems_complete (v :: arr) (ws ++ t ++ ws' ++ ","%char :: t').
Proof.
  intros Hws Hv Hws' Harr pos acc r H. rewrite <- !app_assoc in H. simpl in H.
  destruct (element_complete _ _ _ _ _ _ _ Hv Hws Hws' H) as (p & [N Hp] & Hsk & Hpk);
    [by right; left|done|].
  assert (drop (S (pos + length (ws ++ t ++ ws'))) json_str = t' ++ "]"%char :: r) as H'.
  { apply at_next with (c := ","%char). apply at_shift. by rewrite H, <- !app_assoc. }
  destruct (Harr _ (acc ++ [v]) _ H') as [M HM].
  exists (S (N `max` M)). intros [|f] Hf; [lia|]. cbn [array_loop].
  rewrite Hp by lia. cbn [mbind fuelled_bind]. rewrite Hsk. cbn [mbind fuelled_bind].
  rewrite Hpk. cbn [mbind fuelled_bind].
  rewrite decide_True by done.
  assert (consume json_str (pos + length (ws ++ t ++ ws')) =
    Ok (","%char, S (pos + length (ws ++ t ++ ws')))) as -> by (by apply consume_ok).
  cbn [mbind fuelled_bind]. rewrite HM by lia. rewrite <- app_assoc. do 3 f_equal.
  rewrite !length_app. simpl. lia.
Qed.

Lemma member_intro_complete ws k kt ws1 ws2 v t ws3 :
  spaces ws → chars k kt → spaces ws1 → spaces ws2 → value_complete v t → spaces ws3 →
  member_complete k v (ws ++ dquote :: kt ++ dquote :: ws1 ++ ":"%char :: ws2 ++ t ++ ws3).
Proof.
  intros Hws Hk Hws1 Hws2 Hv Hws3 pos c r H Hc.
  assert (drop pos json_str
    = ws ++ dquote :: kt ++ dquote :: ws1 ++ ":"%char :: ws2 ++ t ++ ws3 ++ c :: r) as H0.
  { rewrite H. rewrite <- app_assoc. simpl. do 2 f_equal.
    rewrite <- app_assoc. simpl. do 2 f_equal. rewrite <- app_assoc. simpl. do 2 f_equal.
    by rewrite <- !app_assoc. }
  pose proof (parse_string_at _ _ _ _ _ H0 Hws Hk) as Hs.
  set (p0 := pos + length ws + length kt + 2) in *.
  assert (drop p0 json_str = ws1 ++ ":"%char :: ws2 ++ t ++ ws3 ++ c :: r) as H1.
  { apply at_shift, at_next, at_shift, at_next in H0. rewrite <- H0. f_equal. lia. }
  pose proof (expect_at _ _ _ _ H1 Hws1 eq_refl) as He.
  set (p1 := S (p0 + length ws1)) in *.
  assert (drop p1 json_str = ws2 ++ t ++ ws3 ++ c :: r) as H2 by (by apply at_shift, at_next in H1).
  destruct (element_complete _ _ _ _ _ _ _ Hv Hws2 Hws3 H2) as (p2 & Hp & Hsk & _).
  { destruct Hc as [->| ->]; unfold follow; auto. }
  { by destruct Hc as [->| ->]. }
  exists p0, p1, p2. repeat split; [done..|]. rewrite Hsk. subst p1 p0.
  rewrite !length_app. simpl. rewrite !length_app. simpl. rewrite !length_app. simpl.
  rewrite !length_app. f_equal. lia.
Qed.

Lemma members_one_complete k v t : member_complete k v t → members_complete [(k, v)] t.
Proof.
  intros Hm pos acc r H.
  destruct (Hm _ _ _ H) as (p0 & p1 & p2 & Hs & He & [N Hp] & Hsk); [by right|].
  exists (S N). intros [|f] Hf; [lia|]. cbn [object_loop].
  rewrite Hs. cbn [mbind fuelled_bind]. rewrite He. cbn [mbind fuelled_bind].
  rewrite Hp by lia. cbn [mbind fuelled_bind]. rewrite Hsk. cbn [mbind fuelled_bind].
  apply at_shift, at_peek in H. rewrite H. cbn [mbind fuelled_bind].
  by rewrite decide_False, decide_True.
Qed.

Lemma members_cons_complete k v t members t' :
  member_complete k v t → members_complete members t' →
  members_complete ((k, v) :: members) (t ++ ","%char :: t').
Proof.
  intros Hm Hms pos acc r H. rewrite <- app_assoc in H. simpl in H.
  destruct (Hm _ _ _ H) as (p0 & p1 & p2 & Hs & He & [N Hp] & Hsk); [by left|].
  apply at_shift in H as H'. apply at_peek in H' as Hpk. apply at_next in H'.
  destruct (Hms _ (map_assign k v acc) _ H') as [M HM].
  exists (S (N `max` M)). intros [|f] Hf; [lia|]. cbn [object_loop].
  rewrite Hs. cbn [mbind fuelled_bind]. rewrite He. cbn [mbind fuelled_bind].
  rewrite Hp by lia. cbn [mbind fuelled_bind]. rewrite Hsk. cbn [mbind fuelled_bind].
  rewrite Hpk. cbn [mbind fuelled_bind].
  rewrite decide_True by done.
  assert (consume json_str (pos + length t) = Ok (","%char, S (pos + length t))) as ->
    by (by apply consume_ok).
  cbn [mbind fuelled_bind]. rewrite HM by lia. do 3 f_equal. rewrite length_app. simpl. lia.
Qed.

(** The loops start after the white space that follows the opening bracket. *)
Definition trims (close : ascii) (P : bytes → Prop) (t : bytes) : Prop :=
  ∃ ws c y, t = ws ++ c :: y ∧ spaces ws ∧ ends_spaces c = true ∧ c ≠ close ∧ P (c :: y).

Lemma value_trims close P v ws t rest :
  gval v t → close = "]"%char ∨ close = "}"%char → spaces ws → P (t ++ rest) →
  trims close P (ws ++ t ++ rest).
Proof.
  intros (c & y & -> & Hsp & H1 & H2)%gval_head Hclose Hws HP.
  exists ws, c, (y ++ rest). repeat split; try done. by destruct Hclose as [->| ->].
Qed.

Lemma quote_trims close P ws rest :
  close ≠ dquote → spaces ws → P (dquote :: rest) → trims close P (ws ++ dquote :: rest).
Proof. intros. exists ws, dquote, rest. repeat split; auto. Qed.

Lemma array_complete arr body :
  trims "]"%char (elems_complete arr) body ∨ (spaces body ∧ arr = []) →
  value_complete (JArray arr) ("["%char :: body ++ #"]").
Proof.
  intros Hbody pos ws r H Hws _. simpl in H. rewrite <- app_assoc in H. simpl in H.
  assert (skip_whitespace json_str pos = Ok (pos + length ws)) as Esk
    by (eapply skip_at; [exact H|done|by intros ? [= <-]]).
  apply at_shift in H as Hat. set (q := pos + length ws) in *.
  pose proof (expect_at q [] _ _ Hat ltac:(constructor) eq_refl) as Eopen.
  rewrite Nat.add_0_r in Eopen. apply at_next in Hat as Hin.
  assert (expect json_str "]"%char (S q + length body) = Ok (pos + length ws + length ("["%char :: body ++ #"]"))) as Eclose.
  { apply at_shift in Hin. rewrite (expect_at _ [] _ _ Hin) by (done || constructor).
    f_equal. simpl. rewrite length_app. simpl. lia. }
  destruct Hbody as [(ws1 & c & y & -> & Hws1 & Hsp & Hne & HP)|[Hsp ->]].
  - rewrite <- app_assoc in Hin.
    assert (skip_whitespace json_str (S q) = Ok (S q + length ws1)) as Esk1
      by (eapply skip_at; [exact Hin|done|by intros ? [= <-]]).
    apply at_shift in Hin. destruct (HP _ [] _ Hin) as [N HN].
    exists (S (S N)). intros [|[|f]] Hf; [lia..|].
    cbn [parse_value]. rewrite Esk. cbn [mbind fuelled_bind].
    rewrite (at_peek _ _ _ _ Hat). cbn [mbind fuelled_bind].
    not_string_nor_number. rewrite ?decide_False, decide_True by done.
    cbn [parse_array]. rewrite Eopen. cbn [mbind fuelled_bind].
    rewrite Esk1. cbn [mbind fuelled_bind]. rewrite (at_peek _ _ _ _ Hin). cbn [mbind fuelled_bind].
    rewrite decide_False by done. rewrite HN by lia. cbn [mbind fuelled_bind].
    rewrite length_app in Eclose. rewrite Nat.add_assoc in Eclose. by rewrite Eclose.
  - assert (skip_whitespace json_str (S q) = Ok (S q + length body)) as Esk1
      by (eapply skip_at; [exact Hin|done|by intros ? [= <-]]).
    apply at_shift in Hin.
    exists 2. intros [|[|f]] Hf; [lia..|].
    cbn [parse_value]. rewrite Esk. cbn [mbind fuelled_bind].
    rewrite (at_peek _ _ _ _ Hat). cbn [mbind fuelled_bind].
    not_string_nor_number. rewrite ?decide_False, decide_True by done.
    cbn [parse_array]. rewrite Eopen. cbn [mbind fuelled_bind].
    rewrite Esk1. cbn [mbind fuelled_bind]. rewrite (at_peek _ _ _ _ Hin). cbn [mbind fuelled_bind].
    rewrite decide_True, fbind_ret by done. by rewrite Eclose.
Qed.

Lemma object_complete members body :
  trims "}"%char (members_complete members) body ∨ (spaces body ∧ members = []) →
  value_complete (JObject (assign_all [] members)) ("{"%char :: body ++ #"}").
Proof.
  intros Hbody pos ws r H Hws _. simpl in H. rewrite <- app_assoc in H. simpl in H.
  assert (skip_whitespace json_str pos = Ok (pos + length ws)) as Esk
    by (eapply skip_at; [exact H|done|by intros ? [= <-]]).
  apply at_shift in H as Hat. set (q := pos + length ws) in *.
  pose proof (expect_at q [] _ _ Hat ltac:(constructor) eq_refl) as Eopen.
  rewrite Nat.add_0_r in Eopen. apply at_next in Hat as Hin.
  assert (expect json_str "}"%char (S q + length body) = Ok (pos + length ws + length ("{"%char :: body ++ #"}"))) as Eclose.
  { apply at_shift in Hin. rewrite (expect_at _ [] _ _ Hin) by (done || constructor).
    f_equal. simpl. rewrite length_app. simpl. lia. }
  destruct Hbody as [(ws1 & c & y & -> & Hws1 & Hsp & Hne & HP)|[Hsp ->]].
  - rewrite <- app_assoc in Hin.
    assert (skip_whitespace json_str (S q) = Ok (S q + length ws1)) as Esk1
      by (eapply skip_at; [exact Hin|done|by intros ? [= <-]]).
    apply at_shift in Hin. destruct (HP _ [] _ Hin) as [N HN].
    exists (S (S N)). intros [|[|f]] Hf; [lia..|].
    cbn [parse_value]. rewrite Esk. cbn [mbind fuelled_bind].
    rewrite (at_peek _ _ _ _ Hat). cbn [mbind fuelled_bind].
    not_string_nor_number. rewrite ?decide_False, decide_True by done.
    cbn [parse_object]. rewrite Eopen. cbn [mbind fuelled_bind].
    rewrite Esk1. cbn [mbind fuelled_bind]. rewrite (at_peek _ _ _ _ Hin). cbn [mbind fuelled_bind].
    rewrite decide_False by done. rewrite HN by lia. cbn [mbind fuelled_bind].
    rewrite length_app in Eclose. rewrite Nat.add_assoc in Eclose. by rewrite Eclose.
  - assert (skip_whitespace json_str (S q) = Ok (S q + length body)) as Esk1
      by (eapply skip_at; [exact Hin|done|by intros ? [= <-]]).
    apply at_shift in Hin.
    exists 2. intros [|[|f]] Hf; [lia..|].
    cbn [parse_value]. rewrite Esk. cbn [mbind fuelled_bind].
    rewrite (at_peek _ _ _ _ Hat). cbn [mbind fuelled_bind].
    not_string_nor_number. rewrite ?decide_False, decide_True by done.
    cbn [parse_object]. rewrite Eopen. cbn [mbind fuelled_bind].
    rewrite Esk1. cbn [mbind fuelled_bind]. rewrite (at_peek _ _ _ _ Hin). cbn [mbind fuelled_bind].
    rewrite decide_True, fbind_ret by done. by rewrite Eclose.
Qed.

(** ** The induction over the grammar *)

Lemma grammar_complete :
  (∀ v t, gval v t → value_complete v t) ∧
  (∀ arr t, gelems arr t → elems_complete arr t ∧ trims "]"%char (elems_complete arr) t) ∧
  (∀ ms t, gmembers ms t → members_complete ms t ∧ trims "}"%char (members_complete ms) t) ∧
  (∀ k v t, gmember k v t → member_complete k v t ∧ trims "}"%char (member_complete k v) t).
Proof.
  apply grammar_ind.
  - intros pos ws r H ? ?. by eapply parses_scalar; eauto using gval.
  - intros pos ws r H ? ?. by eapply parses_scalar; eauto using gval.
  - intros pos ws r H ? ?. by eapply parses_scalar; eauto using gval.
  - intros v t Hn pos ws r H ? ?. eapply parses_scalar; eauto using gval; by destruct Hn.
  - intros s t Hs pos ws r H ? ?. by eapply parses_scalar; eauto using gval.
  - intros ws Hws. apply array_complete. by right.
  - intros arr t _ [_ Ht]. apply array_complete. by left.
  - intros ws Hws. apply (object_complete []). by right.
  - intros ms t _ [_ Ht]. apply object_complete. by left.
  - intros ws v t ws' Hws Hg Hv Hws'. split; [by apply elems_one_complete|].
    eapply value_trims; [done|by left|done|].
    by apply (elems_one_complete []); [constructor|..].
  - intros ws v t ws' arr t' Hws Hg Hv Hws' _ [Ha _]. split; [by apply elems_cons_complete|].
    eapply value_trims; [done|by left|done|].
    by apply (elems_cons_complete []); [constructor|..].
  - intros k v t _ [Hm (ws & c & y & -> & Hws & Hsp & Hne & Ht)].
    split; [by apply members_one_complete|].
    exists ws, c, y. repeat split; try done. by apply members_one_complete.
  - intros k v t ms t' _ [Hm (ws & c & y & -> & Hws & Hsp & Hne & Ht)] _ [Hms _].
    split; [by apply members_cons_complete|].
    exists ws, c, (y ++ ","%char :: t'). rewrite <- app_assoc. repeat split; try done.
    by apply (members_cons_complete _ _ (c :: y)).
  - intros ws k kt ws1 ws2 v t ws3 Hws Hk Hws1 Hws2 Hg Hv Hws3.
    split; [by apply member_intro_complete|].
    apply quote_trims; [done..|]. by apply (member_intro_complete []); [constructor|..].
Qed.
End Complete.
