(* ===== verification/JsonSound.v ===== *)
(** * Every document the JSON parser accepts is in the grammar

    The converse of [JsonComplete]: a successful method has consumed a text of
    the corresponding production, which denotes the value it returned. *)

From Stdlib Require Import ZArith Lia Ascii.
From stdpp Require Import base list sets strings.
From S2P Require Import Prelude Double JsonValue JsonParser JsonParserFacts JsonGrammar.

Lemma spaces_app a b : spaces a → spaces b → spaces (a ++ b).
Proof. apply Forall_app_2. Qed.

Lemma gelems_pad arr t ws : spaces ws → gelems arr t → gelems arr (ws ++ t).
Proof.
  intros Hws [w v t' w' Hw Hg Hw'|w v t' w' arr' t2 Hw Hg Hw' He].
  - rewrite app_assoc. constructor; auto using spaces_app.
  - rewrite app_assoc. constructor; auto using spaces_app.
Qed.

Lemma gmember_pad k v t ws : spaces ws → gmember k v t → gmember k v (ws ++ t).
Proof. intros Hws []. rewrite app_assoc. constructor; auto using spaces_app. Qed.

Lemma gmembers_pad ms t ws : spaces ws → gmembers ms t → gmembers ms (ws ++ t).
Proof.
  intros Hws [k v t' Hm|k v t' ms' t2 Hm Hms].
  - constructor. by apply gmember_pad.
  - rewrite app_assoc. constructor; [by apply gmember_pad|done].
Qed.

Section Sound.
Context (json_str : bytes).
Local Abbreviation from := (fun pos => drop pos json_str).

Lemma peek_at pos c : peek json_str pos = Ok c → drop pos json_str = c :: drop (S pos) json_str.
Proof. intros H%peek_lookup. by apply drop_S. Qed.

Lemma expect_inv c pos p :
  expect json_str c pos = Ok p → ∃ ws, spaces ws ∧ drop pos json_str = ws ++ c :: drop p json_str.
Proof.
  intros (q & (ws & Hws & E)%skip_inv & Hp & ->)%expect_ok.
  exists ws. split; [done|]. by rewrite E, (peek_at _ _ Hp).
Qed.

Lemma string_loop_inv rest pos acc s' p :
  string_loop rest pos acc = Ok (s', p) →
  ∃ s t r, s' = acc ++ s ∧ chars s t ∧ rest = t ++ dquote :: r ∧ p = pos + length t.
Proof.
  revert pos acc. induction rest as [rest IH] using (induction_ltof1 _ length); unfold ltof in IH.
  intros pos acc. destruct rest as [|c rest1]; cbn [string_loop]; [done|].
  case_decide as Hq.
  { intros [= <- <-]. subst. exists [], [], rest1. rewrite app_nil_r, Nat.add_0_r.
    repeat split. constructor. }
  case_decide as Hb.
  - subst c. destruct rest1 as [|e rest2]; [done|]. destruct (escape e) as [x|] eqn:He; [|done].
    intros (s & t & r & -> & Ht & -> & ->)%IH; [|simpl; lia].
    exists (x :: s), (backslash :: e :: t), r. rewrite <- app_assoc.
    repeat split; [by constructor|simpl; lia].
  - intros (s & t & r & -> & Ht & -> & ->)%IH; [|simpl; lia].
    exists (c :: s), (c :: t), r. rewrite <- app_assoc.
    repeat split; [by constructor|simpl; lia].
Qed.

Lemma parse_string_inv pos s p :
  parse_string json_str pos = Ok (s, p) →
  ∃ ws t, spaces ws ∧ chars s t ∧ drop pos json_str = ws ++ dquote :: t ++ dquote :: drop p json_str.
Proof.
  unfold parse_string. intros H.
  apply bind_ok in H as (p1 & (ws & Hws & E1)%expect_inv & H).
  apply bind_ok in H as ([s' p2] & Hloop & H).
  apply bind_ok in H as (p3 & Hclose & [= <- <-]).
  apply string_loop_inv in Hloop as (s & t & r & -> & Ht & E2 & ->).
  exists ws, t. split; [done|]. split; [done|]. rewrite E1, E2.
  apply at_shift in E2 as E3.
  apply expect_ok in Hclose as (q & Hq & _ & ->).
  rewrite (skip_at json_str _ [] _ E3), Nat.add_0_r in Hq by (constructor || by intros ? [= <-]).
  injection Hq as <-. by rewrite (at_next _ _ _ _ E3).
Qed.

Lemma literal_loop_inv literal todo pos p :
  literal_loop json_str literal todo pos = Ok p →
  drop pos json_str = todo ++ drop p json_str.
Proof.
  revert pos. induction todo as [|c todo IH]; intros pos; simpl; [by intros [= ->]|].
  destruct (json_str !! pos) as [c'|] eqn:Hc; [|done]. case_decide; [subst|done].
  intros H%IH. by rewrite (drop_S _ _ _ Hc), H.
Qed.

Lemma parse_literal_inv literal value pos v p :
  parse_literal json_str literal value pos = Ok (v, p) →
  v = value ∧ drop pos json_str = literal ++ drop p json_str.
Proof. unfold parse_literal. intros H. bind_inv. simplify_eq. by apply literal_loop_inv in Hm. Qed.

(** ** Numbers *)

Lemma exponent_inv pos c is_d res_d p :
  peek json_str pos = Ok c →
  (if decide (c = "e"%char ∨ c = "E"%char) then
     x ← peek json_str (S pos);
     q ← skip_digits json_str (if decide (x = "+"%char ∨ x = "-"%char) then S (S pos) else S pos);
     Ok (true, q)
   else Ok (is_d, pos)) = Ok (res_d, p) →
  ∃ ex, exponent_text ex ∧ drop pos json_str = ex ++ drop p json_str ∧
        res_d = (bool_decide (ex ≠ []) || is_d) ∧
        (p < length json_str ∨ ∃ e b, ex = e :: b ∧ b ≠ []).
Proof.
  intros Hc H. apply peek_lt in Hc as Hlt. apply peek_at in Hc. case_decide as He.
  - apply bind_ok in H as (x & Hx & (q & Hq & [= <- <-])%bind_ok). apply peek_lt in Hx as Hlt'.
    apply peek_at in Hx. apply skip_digits_inv in Hq as (ds & Hds & E & L). case_decide as Hs.
    + exists (c :: [x] ++ ds). repeat split; [|by rewrite Hc, Hx; simpl; rewrite <- E|].
      * constructor; [done| |done]. destruct Hs as [->| ->]; auto.
      * right. by exists c, ([x] ++ ds).
    + exists (c :: [] ++ ds). repeat split; [|by rewrite Hc; simpl; rewrite <- E|].
      * constructor; auto.
      * destruct ds as [|d ds]; [left; simpl in L; lia|right; by exists c, (d :: ds)].
  - injection H as <- <-. exists []. repeat split; [constructor|by left].
Qed.

Lemma parse_number_inv pos c v p :
  peek json_str pos = Ok c → c = "-"%char ∨ isdigit c = true →
  parse_number json_str pos = Ok (v, p) →
  ∃ t, gnumber v t ∧ drop pos json_str = t ++ drop p json_str ∧
       (p < length json_str ∨ closed_number v t).
Proof.
  intros Hc Hcase H. pose proof (parse_number_progress _ _ _ _ _ Hc Hcase H) as Hpr.
  unfold parse_number in H. rewrite Hc in H. cbn [mbind outcome_bind] in H.
  apply bind_ok in H as (p0 & H0 & H).
  assert (∃ sg ds, sign_text sg ∧ all_digits ds ∧ sg ++ ds ≠ [] ∧
    drop pos json_str = (sg ++ ds) ++ drop p0 json_str) as (sg & ds & Hsg & Hds & Hne & E0).
  { apply skip_digits_inv in H0 as Hinv. destruct Hinv as (ds & Hds & E & L). case_decide as Hm.
    - exists #"-", ds. repeat split; [by right|done|done|].
      rewrite (peek_at _ _ Hc). subst c. simpl. by rewrite <- E.
    - exists [], ds. repeat split; [by left|done| |done].
      destruct Hcase as [|Hd]; [done|]. apply peek_lookup in Hc.
      pose proof (skip_digits_progress _ _ _ _ Hc Hd H0). destruct ds; [simpl in L; lia|done]. }
  apply bind_ok in H as (c1 & H1 & H).
  apply bind_ok in H as ([is_d p1] & Hfrac & H).
  assert (∃ fr, fraction_text fr ∧ is_d = bool_decide (fr ≠ []) ∧
    drop p0 json_str = fr ++ drop p1 json_str) as (fr & Hfr & Efd & Efr).
  { case_decide as Hp.
    - apply bind_ok in Hfrac as (q & (fd & Hfd & E & _)%skip_digits_inv & [= <- <-]).
      exists ("."%char :: fd). repeat split; [by constructor|].
      rewrite (peek_at _ _ H1). subst c1. simpl. by rewrite <- E.
    - injection Hfrac as <- <-. exists []. repeat split. constructor. }
  apply bind_ok in H as (c2 & H2 & H). apply bind_ok in H as ([is_d' p2] & H3 & H).
  apply (exponent_inv _ _ _ _ _ H2) in H3 as (ex & Hex & Eex & Ed & Hend).
  assert (drop pos json_str = (sg ++ ds ++ fr ++ ex) ++ drop p2 json_str) as Eall
    by (rewrite E0, Efr, Eex; by rewrite !app_assoc).
  assert (p2 = p) as -> by (destruct is_d'; bind_inv; simplify_eq; done).
  assert (take (p - pos) (drop pos json_str) = sg ++ ds ++ fr ++ ex) as Etake.
  { rewrite Eall. apply take_app_length'. apply (f_equal length) in Eall.
    rewrite length_app, !length_drop in Eall. lia. }
  rewrite Etake in H. exists (sg ++ ds ++ fr ++ ex). split; [|split; [done|]].
  - subst is_d is_d'. destruct ex as [|? ?], fr as [|? ?]; cbn in H; bind_inv; simplify_eq;
      try (by constructor).
    rewrite !app_nil_r in *. by constructor.
  - destruct Hend as [|(e & b & -> & Hb)]; [by left|right].
    subst is_d'. cbn in H. bind_inv. simplify_eq. by constructor.
Qed.

(** ** The recursive methods *)

Definition sound (fuel : nat) : Prop :=
  (∀ pos v p, parse_value json_str fuel pos = Done (Ok (v, p)) →
     ∃ ws t, spaces ws ∧ gval v t ∧ drop pos json_str = ws ++ t ++ drop p json_str ∧
       (is_number v = true → p < length json_str ∨ closed_number v t)) ∧
  (∀ pos v p, parse_array json_str fuel pos = Done (Ok (v, p)) → is_number v = false ∧
     ∃ ws t, spaces ws ∧ gval v t ∧ drop pos json_str = ws ++ t ++ drop p json_str) ∧
  (∀ arr pos arr' p, array_loop json_str fuel arr pos = Done (Ok (arr', p)) →
     ∃ elems t, arr' = arr ++ elems ∧ gelems elems t ∧ peek json_str p = Ok "]"%char ∧
       drop pos json_str = t ++ drop p json_str) ∧
  (∀ pos v p, parse_object json_str fuel pos = Done (Ok (v, p)) → is_number v = false ∧
     ∃ ws t, spaces ws ∧ gval v t ∧ drop pos json_str = ws ++ t ++ drop p json_str) ∧
  (∀ obj pos obj' p, object_loop json_str fuel obj pos = Done (Ok (obj', p)) →
     ∃ ms t, obj' = assign_all obj ms ∧ gmembers ms t ∧ peek json_str p = Ok "}"%char ∧
       drop pos json_str = t ++ drop p json_str).

Lemma value_sound_step f : sound f →
  ∀ pos v p, parse_value json_str (S f) pos = Done (Ok (v, p)) →
     ∃ ws t, spaces ws ∧ gval v t ∧ drop pos json_str = ws ++ t ++ drop p json_str ∧
       (is_number v = true → p < length json_str ∨ closed_number v t).
Proof.
  intros (_ & Ha & _ & Ho & _) pos v p H. cbn [parse_value] in H.
  apply fbind_ok in H as (q & [= (ws & Hws & Ews)%skip_inv] & H). rewrite Ews.
  apply fbind_ok in H as (c & [= Hc] & H).
  assert (∀ ws' t, spaces ws' → gval v t → drop q json_str = ws' ++ t ++ drop p json_str →
    (is_number v = true → p < length json_str ∨ closed_number v t) →
    ∃ ws'' t', spaces ws'' ∧ gval v t' ∧
      ws ++ drop q json_str = ws'' ++ t' ++ drop p json_str ∧
      (is_number v = true → p < length json_str ∨ closed_number v t')) as Hk.
  { intros ws' t Hws' Ht E Hn. exists (ws ++ ws'), t. rewrite E, <- app_assoc.
    auto using spaces_app. }
  assert (spaces []) as Hnil by constructor.
  case_decide as Hquote.
  { apply fbind_ok in H as ([s p'] & [= (ws' & t & Hws' & Ht & E)%parse_string_inv] & [= <- <-]).
    apply (Hk ws' (dquote :: t ++ [dquote])); [done|by constructor| |done].
    rewrite E. simpl. by rewrite <- app_assoc. }
  apply fbind_ok in H as (number & Hnum & H). destruct number.
  { apply number_test in Hnum. injection H as H.
    destruct (parse_number_inv _ _ _ _ Hc Hnum H) as (t & Ht & E & Hend).
    apply (Hk [] t); eauto using gval. }
  clear Hnum Hquote. repeat case_decide; simplify_eq.
  - apply Ha in H as (Hn & ws' & t & ? & ? & ?). apply (Hk ws' t); [done..|congruence].
  - apply Ho in H as (Hn & ws' & t & ? & ? & ?). apply (Hk ws' t); [done..|congruence].
  - apply parse_literal_inv in H as [-> E]. apply (Hk [] #"true"); [done|by constructor|done|done].
  - apply parse_literal_inv in H as [-> E]. apply (Hk [] #"false"); [done|by constructor|done|done].
  - apply parse_literal_inv in H as [-> E]. apply (Hk [] #"null"); [done|by constructor|done|done].
Qed.

(** [expect] at a position whose character is not white space. *)
Lemma expect_here c p p' :
  ends_spaces c = true → peek json_str p = Ok c → expect json_str c p = Ok p' →
  drop p json_str = c :: drop p' json_str.
Proof.
  intros Hc Hp (q & Hq & _ & ->)%expect_ok. apply peek_at in Hp as E.
  rewrite (skip_at json_str p [] (c :: drop (S p) json_str)), Nat.add_0_r in Hq;
    [|done|constructor|by intros ? [= <-]]. by injection Hq as <-.
Qed.

Lemma array_sound_step f : sound f →
  ∀ pos v p, parse_array json_str (S f) pos = Done (Ok (v, p)) → is_number v = false ∧
     ∃ ws t, spaces ws ∧ gval v t ∧ drop pos json_str = ws ++ t ++ drop p json_str.
Proof.
  intros (_ & _ & Hl & _) pos v p H. cbn [parse_array] in H.
  apply fbind_ok in H as (p1 & [= (ws & Hws & E1)%expect_inv] & H).
  apply fbind_ok in H as (q & [= (ws1 & Hws1 & E2)%skip_inv] & H).
  apply fbind_ok in H as (c & [= Hc] & H).
  apply fbind_ok in H as ([arr p2] & Harr & H).
  apply fbind_ok in H as (p3 & [= H3] & [= <- <-]).
  split; [done|]. exists ws. case_decide as Hd.
  - injection Harr as <- <-. subst c. apply expect_here in H3; [|done..].
    exists ("["%char :: ws1 ++ #"]"). repeat split; [done|by constructor|].
    rewrite E1, E2, H3. simpl. by rewrite <- app_assoc.
  - apply Hl in Harr as (elems & t & -> & Ht & Hp2 & E3). apply expect_here in H3; [|done..].
    exists ("["%char :: (ws1 ++ t) ++ #"]"). repeat split; [done| |].
    + by apply g_array, gelems_pad.
    + rewrite E1, E2, E3, H3. simpl. by rewrite <- !app_assoc.
Qed.

Lemma object_sound_step f : sound f →
  ∀ pos v p, parse_object json_str (S f) pos = Done (Ok (v, p)) → is_number v = false ∧
     ∃ ws t, spaces ws ∧ gval v t ∧ drop pos json_str = ws ++ t ++ drop p json_str.
Proof.
  intros (_ & _ & _ & _ & Hl) pos v p H. cbn [parse_object] in H.
  apply fbind_ok in H as (p1 & [= (ws & Hws & E1)%expect_inv] & H).
  apply fbind_ok in H as (q & [= (ws1 & Hws1 & E2)%skip_inv] & H).
  apply fbind_ok in H as (c & [= Hc] & H).
  apply fbind_ok in H as ([obj p2] & Hobj & H).
  apply fbind_ok in H as (p3 & [= H3] & [= <- <-]).
  split; [done|]. exists ws. case_decide as Hd.
  - injection Hobj as <- <-. subst c. apply expect_here in H3; [|done..].
    exists ("{"%char :: ws1 ++ #"}"). repeat split; [done|by constructor|].
    rewrite E1, E2, H3. simpl. by rewrite <- app_assoc.
  - apply Hl in Hobj as (ms & t & -> & Ht & Hp2 & E3). apply expect_here in H3; [|done..].
    exists ("{"%char :: (ws1 ++ t) ++ #"}"). repeat split; [done| |].
    + by apply g_object, gmembers_pad.
    + rewrite E1, E2, E3, H3. simpl. by rewrite <- !app_assoc.
Qed.

Lemma loops_sound_step f : sound f →
  (∀ arr pos arr' p, array_loop json_str (S f) arr pos = Done (Ok (arr', p)) →
     ∃ elems t, arr' = arr ++ elems ∧ gelems elems t ∧ peek json_str p = Ok "]"%char ∧
       drop pos json_str = t ++ drop p json_str) ∧
  (∀ obj pos obj' p, object_loop json_str (S f) obj pos = Done (Ok (obj', p)) →
     ∃ ms t, obj' = assign_all obj ms ∧ gmembers ms t ∧ peek json_str p = Ok "}"%char ∧
       drop pos json_str = t ++ drop p json_str).
Proof.
  intros (Hv & _ & Hal & _ & Hol). split.
  - intros arr pos arr' p H. cbn [array_loop] in H.
    apply fbind_ok in H as ([v p1] & (ws & t & Hws & Ht & E1 & _)%Hv & H).
    apply fbind_ok in H as (q & [= (ws1 & Hws1 & E2)%skip_inv] & H).
    apply fbind_ok in H as (c & [= Hc] & H). rewrite E1, E2.
    repeat case_decide; [| |done]; subst c.
    + apply fbind_ok in H as ([c' p2] & [= [_ ->]%consume_ok] & H).
      apply Hal in H as (elems & t' & -> & Ht' & Hp & E3).
      exists (v :: elems), (ws ++ t ++ ws1 ++ ","%char :: t'). rewrite <- app_assoc.
      repeat split; [by constructor|done|].
      rewrite (peek_at _ _ Hc), E3. by rewrite <- !app_assoc.
    + injection H as <- <-. exists [v], (ws ++ t ++ ws1).
      repeat split; [by constructor|done|]. by rewrite <- !app_assoc.
  - intros obj pos obj' p H. cbn [object_loop] in H.
    apply fbind_ok in H as ([key p0] & [= (ws & kt & Hws & Hk & E0)%parse_string_inv] & H).
    apply fbind_ok in H as (p1 & [= (ws1 & Hws1 & E1)%expect_inv] & H).
    apply fbind_ok in H as ([v p2] & (ws2 & t & Hws2 & Ht & E2 & _)%Hv & H).
    apply fbind_ok in H as (q & [= (ws3 & Hws3 & E3)%skip_inv] & H).
    apply fbind_ok in H as (c & [= Hc] & H). rewrite E0, E1, E2, E3.
    pose proof (gmember_intro _ _ _ _ _ _ _ _ Hws Hk Hws1 Hws2 Ht Hws3) as Hm.
    set (m := ws ++ _) in Hm.
    assert (∀ r, ws ++ dquote :: kt ++ dquote :: ws1 ++ ":"%char :: ws2 ++ t ++ ws3 ++ r
                 = m ++ r) as Em.
    { intros r. subst m. repeat (rewrite <- app_assoc; simpl). done. }
    rewrite Em. repeat case_decide; [| |done]; subst c.
    + apply fbind_ok in H as ([c' p3] & [= [_ ->]%consume_ok] & H).
      apply Hol in H as (ms & t' & -> & Ht' & Hp & E4).
      exists ((key, v) :: ms), (m ++ ","%char :: t').
      repeat split; [by constructor|done|].
      rewrite (peek_at _ _ Hc), E4. by rewrite <- !app_assoc.
    + injection H as <- <-. exists [(key, v)], m. repeat split; [by constructor|done].
Qed.

Lemma parser_sound fuel : sound fuel.
Proof.
  induction fuel as [|f IH]; [by repeat split; intros; simplify_eq|].
  destruct (loops_sound_step _ IH).
  repeat apply conj; try apply value_sound_step; try apply array_sound_step;
    try apply object_sound_step; done.
Qed.
End Sound.
