(* ===== verification/JsonSerialize.v ===== *)
(** * [serialize_json] and the round trip through the parser

    The serializer of middleware/src/nonworking_json.cpp, and the theorems that
    state what [JsonParser::parse] does on every text and on serialized values.
    The indentation level is a natural number: the [int] of the source
    overflows only beyond 2^30 levels of nesting. *)

From Stdlib Require Import ZArith Lia Ascii Sorting.
From stdpp Require Import base list sets strings.
From S2P Require Import Prelude Double JsonValue JsonParser JsonParserFacts JsonGrammar JsonComplete JsonSound.

(** [result.erase(result.find_last_not_of('0') + 1, npos)]. *)
Fixpoint drop_zeros (l : bytes) : bytes :=
  match l with
  | c :: l' => if decide (c = "0"%char) then drop_zeros l' else l
  | [] => []
  end.

Definition strip_trailing (result : bytes) : bytes :=
  if decide ("."%char ∈ result) then
    let result := reverse (drop_zeros (reverse result)) in
    if decide (last result = Some "."%char) then removelast result else result
  else result.

Definition escape_char (c : ascii) : bytes :=
  if decide (c = dquote) then [backslash; dquote]
  else if decide (c = backslash) then [backslash; backslash]
  else [c].

Definition indent_str (indent_level : nat) : bytes := replicate (indent_level * 2) " "%char.

Fixpoint serialize_json (value : JsonValue) (indent_level : nat) : bytes :=
  match value with
  | JNull => #"null"
  | JBool b => if b then #"true" else #"false"
  | JLong i => to_string_int i
  | JDouble d => strip_trailing (to_string_double d)
  | JString s => [dquote] ++ mjoin (escape_char <$> s) ++ [dquote]
  | JArray arr =>
      ["["%char; newline] ++
      (fix items (first : bool) (l : list JsonValue) : bytes :=
         match l with
         | [] => []
         | item :: l' =>
             (if first then [] else [","%char; newline]) ++
             indent_str indent_level ++ #"  " ++ serialize_json item (S indent_level) ++
             items false l'
         end) true arr ++
      [newline] ++ indent_str indent_level ++ #"]"
  | JObject obj =>
      ["{"%char; newline] ++
      (fix items (first : bool) (l : list (bytes * JsonValue)) : bytes :=
         match l with
         | [] => []
         | (k, item) :: l' =>
             (if first then [] else [","%char; newline]) ++
             indent_str indent_level ++ #"  " ++ [dquote] ++ k ++ [dquote] ++ #": " ++
             serialize_json item (S indent_level) ++ items false l'
         end) true obj ++
      [newline] ++ indent_str indent_level ++ #"}"
  end.

Example serialize_pair :
  serialize_json (JArray [JLong 1; JString #"x"]) 0
  = ["["%char; newline] ++ #"  1," ++ [newline] ++ #"  " ++ [dquote] ++ #"x" ++ [dquote; newline]
    ++ #"]".
Proof. vm_compute. reflexivity. Qed.
Example strip_85_5 : strip_trailing #"85.500000" = #"85.5".
Proof. vm_compute. reflexivity. Qed.
Example strip_100 : strip_trailing #"100.000000" = #"100".
Proof. vm_compute. reflexivity. Qed.

(** ** What a serialized value is read back as

    Keys are printed without escapes, so a key with a quote or a backslash is
    excluded. *)

Definition plain_key (k : bytes) : Prop := Forall (fun c => c ≠ dquote ∧ c ≠ backslash) k.

Inductive plain_keys : JsonValue → Prop :=
| plain_null : plain_keys JNull
| plain_bool b : plain_keys (JBool b)
| plain_long i : plain_keys (JLong i)
| plain_double d : plain_keys (JDouble d)
| plain_string s : plain_keys (JString s)
| plain_array arr : Forall plain_keys arr → plain_keys (JArray arr)
| plain_object obj :
    Forall (fun kv => plain_key kv.1 ∧ plain_keys kv.2) obj → plain_keys (JObject obj).

(** A [double] is printed in millionths.  A whole number of them loses its point
    and is read back as an integer, if it fits; otherwise the decimal is rounded
    to a [double] again.  An infinity or a NaN cannot be read. *)
Definition reread_double (d : double) : outcome JsonValue :=
  let text := strip_trailing (to_string_double d) in
  match d with
  | SpecFloat.S754_zero _ => Ok (JLong 0)
  | SpecFloat.S754_finite s m e =>
      let n := micros m e in
      let whole := if s then (- (n / 1000000))%Z else (n / 1000000)%Z in
      if (n mod 1000000 =? 0)%Z
      then if in_llong whole then Ok (JLong whole) else Throw (out_of_range #"stoll")
      else JDouble <$> stod text
  | _ => Throw (invalid_argument text)
  end.

Fixpoint reread (v : JsonValue) : outcome JsonValue :=
  match v with
  | JDouble d => reread_double d
  | JArray arr => JArray <$> mapM reread arr
  | JObject obj => JObject <$> mapM (fun '(k, item) => pair k <$> reread item) obj
  | _ => Ok v
  end.

Fixpoint has_double (v : JsonValue) : bool :=
  match v with
  | JDouble _ => true
  | JArray arr => existsb has_double arr
  | JObject obj => existsb (fun '(_, item) => has_double item) obj
  | _ => false
  end.

Lemma reread_exact v : has_double v = false → reread v = Ok v.
Proof.
  induction v as [|b|i|d|s|arr IH|obj IH] using JsonValue_rec_nested; try done; simpl.
  - intros H. rewrite (mapM_id reread); [done|].
    induction IH as [|v arr Hv _ IH]; [constructor|].
    simpl in H. apply orb_false_iff in H as [H1 H2]. constructor; auto.
  - intros H. rewrite (mapM_id _ obj); [done|].
    induction IH as [|[k v] obj Hv _ IH]; [constructor|].
    simpl in H, Hv. apply orb_false_iff in H as [H1 H2]. constructor; [|auto]. by rewrite Hv.
Qed.

(** The text of a [double] that was printed: its sign, digits, and a fraction
    unless the number is whole. *)
Lemma drop_zeros_app l c r : c ≠ "0"%char → drop_zeros (l ++ c :: r) = drop_zeros l ++ c :: r.
Proof.
  intros Hc. induction l as [|x l IH]; simpl; [by rewrite decide_False|].
  by case_decide.
Qed.

Lemma drop_zeros_spec l : ∃ k, l = replicate k "0"%char ++ drop_zeros l ∧ head (drop_zeros l) ≠ Some "0"%char.
Proof.
  induction l as [|c l (k & E & H)]; [by exists 0|]. simpl. case_decide as Hc.
  - subst c. exists (S k). simpl. by rewrite E at 1.
  - exists 0. split; [done|]. simpl. by intros [= ?].
Qed.

Lemma digits_value_zeros k : digits_value (replicate k "0"%char) = 0%Z.
Proof. pose proof (digits_value_pad k []) as H. by rewrite app_nil_r in H. Qed.

Lemma strip_print_fixed (s : bool) n :
  (0 ≤ n)%Z →
  ∃ ds, strip_trailing (print_fixed s n)
        = (if s then #"-" else []) ++ digits (n / 1000000) ++ (if (n mod 1000000 =? 0)%Z then [] else "."%char :: ds)
        ∧ all_digits ds.
Proof.
  intros Hn. set (x := (n mod 1000000)%Z).
  assert (0 ≤ x)%Z as Hx by (apply Z.mod_pos_bound; lia).
  set (a := (if s then #"-" else []) ++ digits (n / 1000000)).
  assert (print_fixed s n = a ++ "."%char :: six_digits x) as ->.
  { unfold print_fixed. subst a. by list_norm. }
  unfold strip_trailing. rewrite decide_True by set_solver.
  rewrite reverse_app, reverse_cons, <- app_assoc. simpl app.
  rewrite drop_zeros_app by done. destruct (Z.eqb_spec x 0) as [E0|E0].
  { exists []. rewrite E0. change (drop_zeros (reverse (six_digits 0))) with (@nil ascii). simpl.
    rewrite reverse_cons, reverse_involutive, last_snoc, decide_True, removelast_last by done.
    subst a. split; [by list_norm|constructor]. }
  destruct (drop_zeros_spec (reverse (six_digits x))) as (k & E & Hh).
  pose proof (six_digits_isdigit x Hx) as Hd. pose proof (six_digits_value x Hx) as Hv.
  apply (f_equal reverse) in E. rewrite reverse_involutive, reverse_app, reverse_replicate in E.
  destruct (drop_zeros (reverse (six_digits x))) as [|c r] eqn:Ez.
  { rewrite E in Hv. simpl in Hv. rewrite digits_value_zeros in Hv. by rewrite Hv in E0. }
  rewrite E, Forall_app in Hd. destruct Hd as [Hd _]. exists (reverse (c :: r)). split; [|done].
  rewrite reverse_app, !reverse_cons, reverse_involutive, <- app_assoc in *. simpl app.
  rewrite decide_False; [subst a; by list_norm|].
  replace (a ++ "."%char :: reverse r ++ [c]) with ((a ++ "."%char :: reverse r) ++ [c]) by (by list_norm).
  rewrite last_snoc. intros [= ->]. apply Forall_app in Hd as [_ Hd]. by inversion Hd.
Qed.

Lemma chars_escaped s : chars s (mjoin (escape_char <$> s)).
Proof.
  induction s as [|c s IH]; [constructor|].
  cbn [fmap list_fmap mjoin list_join]. unfold escape_char at 1.
  case_decide as H1; [subst; by apply chars_escape|].
  case_decide as H2; [subst; by apply chars_escape|]. by apply chars_plain.
Qed.

Lemma chars_plain_key k : plain_key k → chars k k.
Proof. induction 1 as [|c k [? ?]]; by constructor. Qed.

Lemma gnumber_to_string i : in_llong i = true → gnumber (JLong i) (to_string_int i).
Proof.
  intros Hi. pose proof (stoll_to_string i Hi) as Hs. unfold to_string_int in *.
  destruct (i <? 0)%Z eqn:Hneg.
  - apply Z.ltb_lt in Hneg. destruct (digits_spec (- i)) as (_ & F & _); [lia|].
    apply (gnumber_long #"-"); [by right|done|done].
  - apply Z.ltb_ge in Hneg. destruct (digits_spec i) as (_ & F & _); [lia|].
    apply (gnumber_long []); [by left|done|done].
Qed.

(** A printed [double] is a number of the value it is read back as. *)
Lemma gnumber_reread d v : reread_double d = Ok v → gnumber v (strip_trailing (to_string_double d)).
Proof.
  assert (∀ (s : bool) n, (0 ≤ n)%Z →
    let whole := (if s then - (n / 1000000) else n / 1000000)%Z in
    (if (n mod 1000000 =? 0)%Z
     then if in_llong whole then Ok (JLong whole) else Throw (out_of_range #"stoll")
     else JDouble <$> stod (strip_trailing (print_fixed s n))) = Ok v →
    gnumber v (strip_trailing (print_fixed s n))) as H.
  { intros s n Hn whole. destruct (strip_print_fixed s n Hn) as (ds & -> & Hds).
    assert (0 ≤ n / 1000000)%Z as Hq by (apply Z.div_pos; lia).
    destruct (digits_spec _ Hq) as (_ & Hd & Hne).
    assert (sign_text (if s then #"-" else [])) as Hs by (destruct s; [by right|by left]).
    destruct (n mod 1000000 =? 0)%Z.
    - destruct (in_llong whole) eqn:Hr; [|done]. intros [= <-]. rewrite app_nil_r.
      constructor; [done..|]. rewrite stoll_signed by done. fold whole. by rewrite Hr.
    - intros (d' & Ed & ->)%fmap_Ok. rewrite <- (app_nil_r ("."%char :: ds)) in Ed |- *.
      constructor; try done; [|by constructor|constructor].
      intros [_ E]%app_eq_nil. done. }
  destruct d as [s| | |s m e]; try done; simpl; [|apply H, micros_nonneg].
  intros E. apply (H s 0%Z); [done|]. simpl. by destruct s.
Qed.

Lemma spaces_indent n : spaces (indent_str n).
Proof. by apply Forall_replicate. Qed.

(** The separator in front of an item. *)
Lemma spaces_item n : spaces (newline :: indent_str n ++ #"  ").
Proof. constructor; [done|]. apply spaces_app; [apply spaces_indent|by repeat constructor]. Qed.

Lemma spaces_close n : spaces (newline :: indent_str n).
Proof. constructor; [done|apply spaces_indent]. Qed.

(** Rebuilding a sorted object by assignment. *)
Lemma assign_all_sorted obj0 obj :
  keys_sorted (obj0 ++ obj) → assign_all obj0 obj = obj0 ++ obj.
Proof.
  revert obj0. induction obj as [|[k v] obj IH]; intros obj0 Hs; simpl; [by rewrite app_nil_r|].
  rewrite map_assign_snoc.
  - change (assign_all (obj0 ++ [(k, v)]) obj = obj0 ++ (k, v) :: obj).
    rewrite IH by (by rewrite <- app_assoc). by rewrite <- app_assoc.
  - unfold keys_sorted in Hs. rewrite fmap_app in Hs.
    clear IH. induction (obj0.*1) as [|k0 ks IHk]; [constructor|].
    simpl in Hs. apply StronglySorted_inv in Hs as [Hs Hall].
    constructor; [|by apply IHk]. apply Forall_app in Hall as [_ Hall]. by inversion Hall.
Qed.

(** ** Serialized values are in the grammar *)

Lemma array_items_gelems n arr arr' close :
  Forall2 (fun v v' => gval v' (serialize_json v (S n))) arr arr' → arr ≠ [] → spaces close →
  ∀ first, ∃ t,
  (if first : bool then [newline] else []) ++
  (fix items (first : bool) (l : list JsonValue) : bytes :=
     match l with
     | [] => []
     | item :: l' =>
         (if first then [] else [","%char; newline]) ++
         indent_str n ++ #"  " ++ serialize_json item (S n) ++ items false l'
     end) first arr ++ close = (if first then t else ","%char :: t) ∧ gelems arr' t.
Proof.
  intros Harr. induction Harr as [|v v' arr arr' Hv Harr IH]; [done|]. intros _ Hclose first.
  set (ser := serialize_json v (S n)) in *.
  pose proof (spaces_item n) as Hws. set (ws := newline :: indent_str n ++ #"  ") in Hws.
  destruct Harr as [|v2 v2' arr arr' Hv2 Harr].
  - exists (ws ++ ser ++ close). split; [|by apply gelems_one].
    destruct first; subst ws; by list_norm.
  - destruct (IH ltac:(done) Hclose false) as (t & E & Ht).
    exists (ws ++ ser ++ [] ++ ","%char :: t). split; [|by apply gelems_cons; [| |constructor|]].
    rewrite <- E. destruct first; subst ws; by list_norm.
Qed.

Lemma object_items_gmembers n obj obj' close :
  Forall2 (fun kv kv' => kv'.1 = kv.1 ∧ chars kv.1 kv.1 ∧ gval kv'.2 (serialize_json kv.2 (S n))) obj obj' →
  obj ≠ [] → spaces close →
  ∀ first, ∃ t,
  (if first : bool then [newline] else []) ++
  (fix items (first : bool) (l : list (bytes * JsonValue)) : bytes :=
     match l with
     | [] => []
     | (k, item) :: l' =>
         (if first then [] else [","%char; newline]) ++
         indent_str n ++ #"  " ++ [dquote] ++ k ++ [dquote] ++ #": " ++
         serialize_json item (S n) ++ items false l'
     end) first obj ++ close = (if first then t else ","%char :: t) ∧ gmembers obj' t.
Proof.
  intros Hobj. induction Hobj as [|[k v] [k' v'] obj obj' (Ek & Hk & Hv) Hobj IH]; [done|].
  intros _ Hclose first. simpl in Ek, Hk, Hv |- *. subst k'.
  set (ser := serialize_json v (S n)) in *.
  pose proof (spaces_item n) as Hws. set (ws := newline :: indent_str n ++ #"  ") in Hws.
  assert (∀ ws', spaces ws' → gmember k v'
    (ws ++ dquote :: k ++ dquote :: [] ++ ":"%char :: #" " ++ ser ++ ws')) as Hm.
  { intros ws' Hws'. constructor; try done; by repeat constructor. }
  destruct Hobj as [|[k2 v2] [k2' v2'] obj obj' Hv2 Hobj].
  - eexists. split; [|apply gmembers_one, (Hm close Hclose)].
    destruct first; subst ws; by list_norm.
  - destruct (IH ltac:(done) Hclose false) as (t & E & Ht).
    eexists. split; [|eapply gmembers_cons; [apply (Hm []); constructor|exact Ht]].
    rewrite <- E. destruct first; subst ws; by list_norm.
Qed.

Lemma rereads_members obj obj' :
  mapM (fun '((k, item) : bytes * JsonValue) => pair k <$> reread item) obj = Ok obj' →
  obj'.*1 = obj.*1 ∧ Forall2 (fun kv kv' => kv'.1 = kv.1 ∧ reread kv.2 = Ok kv'.2) obj obj'.
Proof.
  intros H%mapM_Ok.
  induction H as [|[k v] kv' obj obj' E _ [IHk IH]]; [done|].
  apply fmap_Ok in E as (v' & Ev & ->). split; [cbn; by f_equal|]. by constructor.
Qed.

Lemma serialize_gval v :
  wf_value v → plain_keys v → ∀ v' n, reread v = Ok v' → gval v' (serialize_json v n).
Proof.
  induction v as [|b|i|d|s|arr IH|obj IH] using JsonValue_rec_nested; intros Hwf Hpl v' n.
  - intros [= <-]. constructor.
  - intros [= <-]. destruct b; constructor.
  - intros [= <-]. inversion Hwf. apply g_number. by apply gnumber_to_string.
  - intros E. by apply g_number, gnumber_reread.
  - intros [= <-]. apply g_string. apply chars_escaped.
  - intros (arr' & E%mapM_Ok & ->)%fmap_Ok.
    inversion Hwf as [| | | | |? Hwfs|]; inversion Hpl as [| | | | |? Hpls|]; subst.
    assert (Forall2 (fun v v' => gval v' (serialize_json v (S n))) arr arr') as Hall.
    { rewrite Forall_forall in *. eapply Forall2_impl_in; eauto. }
    destruct (decide (arr = [])) as [->|Hne].
    { inversion E; subst. apply (g_array_empty (newline :: newline :: indent_str n)).
      constructor; [done|apply spaces_close]. }
    destruct (array_items_gelems n arr arr' _ Hall Hne (spaces_close n) true) as (t & Et & Ht).
    apply g_array in Ht. simpl in Et. rewrite <- Et in Ht. cbn [serialize_json].
    revert Ht. by list_norm.
  - intros (obj' & E & ->)%fmap_Ok.
    inversion Hwf as [| | | | | |? Hsort Hwfs]; inversion Hpl as [| | | | | |? Hpls]; subst.
    apply rereads_members in E as [Hkeys E].
    assert (Forall2 (fun kv kv' => kv'.1 = kv.1 ∧ chars kv.1 kv.1 ∧ gval kv'.2 (serialize_json kv.2 (S n))) obj obj') as Hall.
    { rewrite Forall_forall in *. eapply Forall2_impl_in; [exact E|].
      intros kv kv' Hin _ [Ek Ev]. destruct (Hpls kv Hin).
      split_and!; [done|by apply chars_plain_key|by apply IH; auto]. }
    destruct (decide (obj = [])) as [->|Hne].
    { inversion E; subst. apply (g_object_empty (newline :: newline :: indent_str n)).
      constructor; [done|apply spaces_close]. }
    destruct (object_items_gmembers n obj obj' _ Hall Hne (spaces_close n) true) as (t & Et & Ht).
    apply g_object in Ht. rewrite assign_all_sorted in Ht by (by unfold keys_sorted; simpl; rewrite Hkeys).
    simpl in Et. rewrite <- Et in Ht. cbn [serialize_json].
    revert Ht. by list_norm.
Qed.
