(* ===== verification/JsonTheorems.v ===== *)
(** * The JSON component: what holds of every text

    The theorems of middleware/src/nonworking_json.cpp that a client of
    [JsonParser] and [serialize_json] relies on, and the program's own [main]. *)

From Stdlib Require Import ZArith Lia Ascii Sorting.
From Stdlib Require Import Floats.SpecFloat.
From stdpp Require Import base list sets strings.
From S2P Require Import Prelude Double JsonValue JsonParser JsonParserFacts JsonGrammar JsonComplete JsonSound JsonSerialize.

(** ** The test driver *)

Inductive stream := cout | cerr.

Definition test_jsons : list bytes := [
  #"[1, 2, 3]";
  qlit "{'name': 'Alice', 'age': 30, 'isStudent': false, 'grades': [90, 85.5, 92], 'address': null}";
  qlit "{'key_with_escapes': 'value with \'quotes\' and \\backslashes\\ and \nnewlines'}";
  qlit "[{'a':1}, {'b':2}]";
  #"12345";
  #"3.14159";
  #"-1.2e-5";
  #"true";
  #"null";
  #"{}";
  #"[]";
  qlit "{'nested': {'object': [1, {'array_in_object': true}]}}" ].

Definition invalid_jsons : list bytes := [
  #"[1, 2,]";
  qlit "{'a':1 'b':2}";
  qlit "{'a':}";
  #"invalid";
  #"[1,2,3 extra]" ].

(** The lines one iteration of the first loop writes. *)
Definition report_valid (json_str : bytes) : list (stream * bytes) :=
  (cout, [newline] ++ #"Parsing: " ++ json_str) ::
  match parse json_str with
  | Done (Ok parsed_value) =>
      [(cout, #"Parsed successfully. Type: " ++ type_name parsed_value);
       (cout, #"Serialized back:" ++ [newline] ++ serialize_json parsed_value 0)]
  | Done (Throw e) => [(cerr, #"Error parsing JSON: " ++ what e)]
  | _ => []
  end.

(** The lines one iteration of the second loop writes. *)
Definition report_invalid (json_str : bytes) : list (stream * bytes) :=
  (cout, [newline] ++ #"Parsing invalid: " ++ json_str) ::
  match parse json_str with
  | Done (Ok _) => [(cout, #"Parsed successfully (unexpected for invalid JSON).")]
  | Done (Throw e) => [(cerr, #"Caught expected error: " ++ what e)]
  | _ => []
  end.

Definition main_output : list (stream * bytes) :=
  [(cout, #"--- Testing JSON Parser ---")] ++ mjoin (report_valid <$> test_jsons) ++
  [(cout, [newline] ++ #"--- Testing Invalid JSON ---")] ++ mjoin (report_invalid <$> invalid_jsons).

(** The lines a run writes to the error stream. *)
Definition errors (out : list (stream * bytes)) : list bytes :=
  omap (fun l => match l with (cerr, m) => Some m | _ => None end) out.

(** ** Results of the parser are values or exceptions

    The one undefined behaviour it can meet is a character that [isspace] or
    [isdigit] is not defined on, so [P] is that the text has one. *)

Definition has_undefined_char (t : bytes) : Prop := ∃ c, c ∈ t ∧ in_domain c = false.

Definition benign (P : Prop) {A} (m : outcome A) : Prop :=
  match m with
  | Ok _ | Throw _ => True
  | Undef u => u = bad_precondition ∧ P
  | _ => False
  end.
Definition fbenign (P : Prop) {A} (m : fuelled A) : Prop :=
  match m with Done r => benign P r | OutOfFuel => True end.

Lemma benign_bind P {A B} (m : outcome A) (f : A → outcome B) :
  benign P m → (∀ a, benign P (f a)) → benign P (m ≫= f).
Proof. destruct m; simpl; auto. Qed.

Lemma fbenign_bind_eq P {A B} (m : fuelled A) (f : A → fuelled B) :
  fbenign P m → (∀ a, m = Done (Ok a) → fbenign P (f a)) → fbenign P (m ≫= f).
Proof. destruct m as [[]|]; simpl; auto. Qed.

Lemma fbenign_bind P {A B} (m : fuelled A) (f : A → fuelled B) :
  fbenign P m → (∀ a, fbenign P (f a)) → fbenign P (m ≫= f).
Proof. auto using fbenign_bind_eq. Qed.

Create HintDb benign.
#[export] Hint Resolve benign_bind fbenign_bind : benign.

Ltac benign_step :=
  lazymatch goal with
  | |- benign _ (_ ≫= _) => apply benign_bind; [|intros ?]
  | |- fbenign _ (_ ≫= _) => apply fbenign_bind; [|intros ?]
  | |- benign _ (if ?b then _ else _) => destruct b
  | |- fbenign _ (if ?b then _ else _) => destruct b
  | |- benign _ (match ?x with _ => _ end) => destruct x
  | |- fbenign _ (match ?x with _ => _ end) => destruct x
  | |- fbenign _ (Done _) => unfold fbenign
  | |- fbenign _ (mret _) => exact I
  | _ => solve [exact I | eauto with benign]
  end.

Section Benign.
Context (json_str : bytes).

Lemma peek_benign pos : benign (has_undefined_char json_str) (peek json_str pos).
Proof. unfold peek. by case_match. Qed.
Lemma consume_benign pos : benign (has_undefined_char json_str) (consume json_str pos).
Proof. unfold consume. by case_match. Qed.
#[local] Hint Resolve peek_benign consume_benign : benign.

(** The loops examine characters of the text. *)
Lemma skip_spaces_benign rest pos :
  rest ⊆ json_str → benign (has_undefined_char json_str) (skip_spaces rest pos).
Proof.
  revert pos. induction rest as [|c rest IH]; intros pos Hsub; simpl; [done|].
  unfold std_isspace. destruct (in_domain c) eqn:Hc; simpl.
  - destruct (isspace c); [apply IH; set_solver|done].
  - split; [done|]. exists c. split; [set_solver|done].
Qed.

Lemma digit_loop_benign rest pos :
  rest ⊆ json_str → benign (has_undefined_char json_str) (digit_loop rest pos).
Proof.
  revert pos. induction rest as [|c rest IH]; intros pos Hsub; simpl; [done|].
  unfold std_isdigit. destruct (in_domain c) eqn:Hc; simpl.
  - destruct (isdigit c); [apply IH; set_solver|done].
  - split; [done|]. exists c. split; [set_solver|done].
Qed.

Lemma skip_whitespace_benign pos : benign (has_undefined_char json_str) (skip_whitespace json_str pos).
Proof. apply skip_spaces_benign, subseteq_drop. Qed.
Lemma skip_digits_benign pos : benign (has_undefined_char json_str) (skip_digits json_str pos).
Proof. apply digit_loop_benign, subseteq_drop. Qed.
#[local] Hint Resolve skip_whitespace_benign skip_digits_benign : benign.

Lemma expect_benign c pos : benign (has_undefined_char json_str) (expect json_str c pos).
Proof. unfold expect. repeat benign_step. Qed.
Lemma string_loop_benign rest pos s : benign (has_undefined_char json_str) (string_loop rest pos s).
Proof.
  revert pos s. induction rest as [rest IH] using (induction_ltof1 _ length); unfold ltof in IH.
  intros pos s. destruct rest as [|c rest1]; cbn [string_loop]; [done|].
  repeat case_decide; [done| |apply IH; simpl; lia].
  destruct rest1; [done|]. case_match; [apply IH; simpl; lia|done].
Qed.
Lemma stod_benign P l : benign P (stod l).
Proof. unfold stod. repeat (case_match || case_decide); try done. Qed.
Lemma stoll_benign P l : benign P (stoll l).
Proof. unfold stoll. repeat (case_match || case_decide); try done. Qed.
#[local] Hint Resolve expect_benign string_loop_benign stod_benign stoll_benign : benign.

Lemma parse_string_benign pos : benign (has_undefined_char json_str) (parse_string json_str pos).
Proof. unfold parse_string. repeat benign_step. Qed.
Lemma parse_number_benign pos : benign (has_undefined_char json_str) (parse_number json_str pos).
Proof. unfold parse_number. repeat benign_step. Qed.
Lemma literal_loop_benign literal todo pos : benign (has_undefined_char json_str) (literal_loop json_str literal todo pos).
Proof.
  revert pos. induction todo as [|e todo IH]; intros pos; simpl; [done|].
  case_match; [|done]. case_decide; [apply IH|done].
Qed.
#[local] Hint Resolve parse_string_benign parse_number_benign literal_loop_benign : benign.
Lemma parse_literal_benign literal v pos : benign (has_undefined_char json_str) (parse_literal json_str literal v pos).
Proof. unfold parse_literal. repeat benign_step. Qed.
#[local] Hint Resolve parse_literal_benign : benign.

(** The test of [parse_value] is made on a character of the text. *)
Lemma number_test_benign pos c (f : bool → fuelled (JsonValue * nat)) :
  peek json_str pos = Ok c → (∀ b, fbenign (has_undefined_char json_str) (f b)) →
  fbenign (has_undefined_char json_str)
    (Done (if decide (c = "-"%char) then Ok true else std_isdigit c) ≫= f).
Proof.
  intros Hc%peek_lookup%list_elem_of_lookup_2 Hf. apply fbenign_bind; [|done].
  case_decide; [done|]. simpl. unfold std_isdigit. destruct (in_domain c) eqn:Hd; [done|].
  split; [done|]. by exists c.
Qed.

Lemma parser_benign fuel :
  (∀ pos, fbenign (has_undefined_char json_str) (parse_value json_str fuel pos)) ∧
  (∀ pos, fbenign (has_undefined_char json_str) (parse_array json_str fuel pos)) ∧
  (∀ arr pos, fbenign (has_undefined_char json_str) (array_loop json_str fuel arr pos)) ∧
  (∀ pos, fbenign (has_undefined_char json_str) (parse_object json_str fuel pos)) ∧
  (∀ obj pos, fbenign (has_undefined_char json_str) (object_loop json_str fuel obj pos)).
Proof.
  induction fuel as [|f (Hv & Ha & Hal & Ho & Hol)]; [done|].
  repeat apply conj; [intros pos|intros..];
    cbn [parse_value parse_array array_loop parse_object object_loop];
    [|repeat benign_step..].
  apply fbenign_bind; [simpl; auto with benign|]. intros q.
  apply fbenign_bind_eq; [simpl; auto with benign|]. intros c [= Hc].
  destruct (decide (c = dquote)); [repeat benign_step|].
  apply (number_test_benign q); [done|]. intros b. repeat benign_step.
Qed.
End Benign.

(** ** Documents *)

(** [parse] in terms of [parse_value]. *)
Lemma parse_ok json v :
  parse json = Done (Ok v) ↔
  ∃ p, parse_value json (parse_fuel json) 0 = Done (Ok (v, p)) ∧
       skip_whitespace json p = Ok (length json).
Proof.
  unfold parse, parse_result. split.
  - intros ([v' p] & Hv & (q & [= Hq] & H)%fbind_ok)%fbind_ok. case_decide; [subst q|done].
    injection H as <-. eauto.
  - intros (p & Hv & Hs). apply fbind_ok. exists (v, p). split; [done|]. rewrite Hs.
    cbn [mbind fuelled_bind]. by rewrite decide_True.
Qed.

(** A result for some fuel is the result for the fuel [parse] provides. *)
Lemma parses_at_parse_fuel json v p :
  parses json 0 v p → parse_value json (parse_fuel json) 0 = Done (Ok (v, p)).
Proof.
  intros [N HN].
  destruct (parser_mono json (parse_fuel json) (N `max` parse_fuel json)) as [Hm _]; [lia|].
  destruct (Hm 0) as [Hout|E]; [|rewrite E; apply HN; lia].
  destruct (parser_total json (parse_fuel json)) as [Ht _].
  destruct (Ht 0); [unfold parse_fuel; lia|done].
Qed.

Lemma parse_accepts json v : gdoc v json → parse json = Done (Ok v).
Proof.
  intros [ws t ws' Hws Hg Hws' Hend]. apply parse_ok.
  clear json. set (json := ws ++ t ++ ws').
  exists (0 + length ws + length t). split.
  - apply parses_at_parse_fuel. apply (proj1 (grammar_complete json) _ _ Hg 0 ws ws'); [done..|].
    destruct Hws' as [|c w Hc]; simpl; [auto|by left].
  - assert (drop (0 + length ws + length t) json = ws') as E.
    { apply at_shift. by apply at_shift. }
    erewrite (skip_at json _ ws' []); [|by rewrite app_nil_r|done|done].
    subst json. rewrite !length_app. f_equal. lia.
Qed.

Lemma parse_only_accepts json v : parse json = Done (Ok v) → gdoc v json.
Proof.
  intros (p & Hv & Hs)%parse_ok.
  destruct (parser_sound json (parse_fuel json)) as [Hsound _].
  destruct (parser_progress json (parse_fuel json)) as [Hprog _].
  destruct (Hprog _ _ _ Hv) as [_ Hp].
  destruct (Hsound _ _ _ Hv) as (ws & t & Hws & Hg & E & Hnum).
  apply skip_inv in Hs as (ws' & Hws' & E').
  rewrite drop_all, app_nil_r in E'. rewrite drop_0, E' in E. rewrite E.
  constructor; [done..|]. intros Hn ->. destruct (Hnum Hn) as [Hlt|]; [|done].
  apply (f_equal length) in E'. rewrite length_drop in E'. simpl in E'. lia.
Qed.

Lemma parse_wf json v : parse json = Done (Ok v) → wf_value v.
Proof.
  intros (p & Hv & _)%parse_ok.
  by apply (parser_progress json (parse_fuel json)) in Hv as [? _].
Qed.

Lemma not_in_domain c : in_domain c = false ↔ (128 ≤ code c ≤ 254)%Z.
Proof.
  unfold in_domain, code. pose proof (N_ascii_bounded c).
  rewrite orb_false_iff, Z.ltb_ge, Z.eqb_neq. lia.
Qed.

Lemma parse_in_fuel json : parse json ≠ OutOfFuel.
Proof.
  unfold parse, parse_result. apply fbind_total; [apply parser_total; unfold parse_fuel; lia|].
  intros [v p] _. apply fbind_total; [done|]. intros q _. by case_decide.
Qed.

Lemma parse_benign json : fbenign (has_undefined_char json) (parse json).
Proof.
  unfold parse, parse_result. apply fbenign_bind; [apply parser_benign|]. intros [v p].
  apply fbenign_bind; [apply skip_whitespace_benign|]. intros q. by case_decide.
Qed.

Lemma skip_spaces_undefined ws c r pos :
  spaces ws → in_domain c = false → skip_spaces (ws ++ c :: r) pos = Undef bad_precondition.
Proof.
  intros Hws Hc. revert pos. induction Hws as [|w ws Hw _ IH]; intros pos; simpl.
  - unfold std_isspace. by rewrite Hc.
  - rewrite std_isspace_space by done. apply IH.
Qed.

Lemma parse_undefined_first ws c r :
  spaces ws → in_domain c = false → parse (ws ++ c :: r) = Done (Undef bad_precondition).
Proof.
  intros Hws Hc. unfold parse, parse_result, parse_fuel. rewrite Nat.add_comm. cbn [Nat.add parse_value].
  unfold skip_whitespace at 2. rewrite drop_0. by rewrite skip_spaces_undefined.
Qed.

(** C1: the parser refines the grammar: it returns [v] exactly on the texts
    that denote [v] (a value between white space, a bare number being followed
    by a character or carrying an exponent). *)
Theorem parse_correct (json : bytes) (v : JsonValue) :
  parse json = Done (Ok v) ↔ gdoc v json.
Proof. split; [apply parse_only_accepts|apply parse_accepts]. Qed.

(** C2: on every text [parse] terminates within its fuel, and returns a value that
    satisfies the invariants of its C++ type (ordered unique keys, integers in the
    range of [long long]), throws, or meets the one undefined behaviour there is:
    [isspace] or [isdigit] is called with a negative [char], which takes a byte from
    128 to 254 in the text.  No index is ever out of range.  Such a byte as the first
    character after white space is always undefined behaviour, although inside a
    string it is accepted. *)
Theorem parse_total (json : bytes) :
  ((∃ v, parse json = Done (Ok v) ∧ wf_value v) ∨ (∃ e, parse json = Done (Throw e)) ∨
   (parse json = Done (Undef bad_precondition) ∧
    ∃ c, c ∈ json ∧ (128 ≤ code c ≤ 254)%Z)) ∧
  (∀ ws c r, json = ws ++ c :: r → spaces ws → (128 ≤ code c ≤ 254)%Z →
     parse json = Done (Undef bad_precondition)) ∧
  (∀ s t, chars s t → parse (dquote :: t ++ [dquote]) = Done (Ok (JString s))).
Proof.
  split_and!.
  - assert (parse json ≠ OutOfFuel) as Ht by apply parse_in_fuel.
    pose proof (parse_benign json) as Hb.
    destruct (parse json) as [[v|e|u|c]|] eqn:E; try done; [left|right; left; eauto|right; right].
    + exists v. split; [done|]. by apply parse_wf in E.
    + destruct Hb as [-> (c & Hc & Hd)]. split; [done|]. exists c. by rewrite <- not_in_domain.
  - intros ws c r -> Hws Hc%not_in_domain. by apply parse_undefined_first.
  - intros s t Ht. apply parse_accepts.
    assert (gval (JString s) (dquote :: t ++ [dquote])) as Hg by (by apply g_string).
    apply (gdoc_intro _ [] _ []) in Hg; [|constructor..|done]. by rewrite app_nil_r in Hg.
Qed.

(** An o with an umlaut, in ISO 8859-1. *)
Lemma parse_total_witness :
  let o := ascii_of_nat 246 in
  parse [" "%char; o] = Done (Undef bad_precondition) ∧
  parse (dquote :: [o] ++ [dquote]) = Done (Ok (JString [o])).
Proof.
  split.
  - destruct (parse_total [" "%char; ascii_of_nat 246]) as (_ & H & _).
    by apply (H [" "%char] (ascii_of_nat 246) []); [|repeat constructor|vm_compute].
  - destruct (parse_total []) as (_ & _ & H). apply H. repeat constructor; discriminate.
Defined.

(** C3: [parse] on a serialization, at any indentation level, returns what
    [reread] predicts of the value: its [double]s become the integers or the
    decimals their six printed digits spell, and everything else is as it was; the
    keys must need no escape, and the value must not be a bare number. *)
Theorem serialize_parse_roundtrip (v v' : JsonValue) (n : nat)
    (Hwf : wf_value v) (Hplain : plain_keys v) (Hread : reread v = Ok v') (Hnum : is_number v' = false) :
  parse (serialize_json v n) = Done (Ok v') ∧ (has_double v = false → v' = v).
Proof.
  split; [|intros Hd%reread_exact; rewrite Hd in Hread; by injection Hread].
  apply parse_accepts. pose proof (serialize_gval v Hwf Hplain v' n Hread) as Hg.
  apply (gdoc_intro v' [] (serialize_json v n) []) in Hg; [|constructor..|by rewrite Hnum].
  by rewrite app_nil_r in Hg.
Qed.

(** The sample holds 85.5, 100.0 and a third to the nearest [double]; the second
    is read back as an integer, the third as another [double]. *)
Definition roundtrip_sample (hundred third : JsonValue) : JsonValue :=
  JObject [(#"a", JArray [JLong (-7); JNull; JString [dquote; backslash; newline]]);
           (#"b", JObject []); (#"c", JBool true);
           (#"d", JArray [JDouble (S754_finite false 6016527627190272 (-46)); hundred; third])].

Lemma serialize_parse_roundtrip_witness :
  let printed := roundtrip_sample (JDouble (S754_finite false 7036874417766400 (-46)))
                                  (JDouble (S754_finite false 6004799503160661 (-54))) in
  let read := roundtrip_sample (JLong 100) (JDouble (decimal_to_double false 333333 (-6))) in
  parse (serialize_json printed 1) = Done (Ok read).
Proof.
  apply serialize_parse_roundtrip; [| |vm_compute; reflexivity|reflexivity].
  - repeat constructor.
  - repeat constructor; discriminate.
Defined.

(** A [double] of 2^63 or more is printed without a point, and read as an integer
    out of range. *)
Example serialized_huge_throws :
  parse (serialize_json (JArray [JDouble (decimal_to_double false 1 20)]) 0)
  = Done (Throw (out_of_range #"stoll")).
Proof. vm_compute. reflexivity. Qed.

(** C4: an integer that is the whole text is never accepted: [parse_number]
    peeks past its digits, so [parse] throws "Unexpected end of input". *)
Theorem parse_bare_integer_throws (z : Z) :
  parse (to_string_int z) = Done (Throw eof).
Proof.
  set (json := to_string_int z).
  assert (∃ sg ds, json = sg ++ ds ∧ sign_text sg ∧ all_digits ds ∧ ds ≠ [])
    as (sg & ds & E & Hsg & Hds & Hne).
  { subst json. unfold to_string_int. destruct (z <? 0)%Z eqn:Hz.
    - apply Z.ltb_lt in Hz. destruct (digits_spec (- z)) as (_ & ? & ?); [lia|].
      exists #"-", (digits (- z)). by repeat split; [right|..].
    - apply Z.ltb_ge in Hz. destruct (digits_spec z) as (_ & ? & ?); [lia|].
      exists [], (digits z). by repeat split; [left|..]. }
  assert (∃ c y, json = c :: y ∧ ends_spaces c = true ∧ (c = "-"%char ∨ isdigit c = true) ∧
                 (sg = [] → c ≠ "-"%char)) as (c & y & Ec & Hsp & Hc & Hm).
  { rewrite E. destruct Hsg as [->| ->]; simpl; [|eexists _, _; eauto 6].
    destruct Hds as [|c ds Hd]; [done|]. exists c, ds. repeat split; auto.
    - by apply isdigit_ends_spaces.
    - by intros _ ->. }
  assert (peek json 0 = Ok c) as Hpk by (eapply at_peek; by rewrite drop_0).
  assert (skip_whitespace json 0 = Ok 0) as Hsk.
  { by erewrite (skip_at json 0 [] json); [|rewrite drop_0|constructor|rewrite Ec; intros ? [= <-]]. }
  assert (parse_number json 0 = Throw eof) as Hn.
  { unfold parse_number. rewrite Hpk. cbn [mbind outcome_bind].
    rewrite (int_part_at json 0 sg ds []); [|by rewrite drop_0, app_nil_r|done..|by apply peek_lookup|done].
    cbn [mbind outcome_bind]. rewrite <- E, Nat.add_0_l. unfold peek.
    destruct (json !! length json) eqn:Hl; [apply lookup_lt_Some in Hl; lia|done]. }
  unfold parse, parse_result. replace (parse_fuel json) with (S (3 * length json + 2))
    by (unfold parse_fuel; lia).
  cbn [parse_value]. rewrite Hsk. cbn [mbind fuelled_bind]. rewrite Hpk. cbn [mbind fuelled_bind].
  rewrite decide_False by (intros ->; by destruct Hc).
  rewrite (number_found _ Hc). cbn [mbind fuelled_bind]. by rewrite Hn.
Qed.

(** The last value a list of members gives to a key. *)
Definition last_value (k : bytes) (members : list (bytes * JsonValue)) : option JsonValue :=
  fold_left (fun acc kv => if decide (kv.1 = k) then Some kv.2 else acc) members None.

Lemma map_find_assign_all k members obj :
  map_find k (assign_all obj members)
  = fold_left (fun acc kv => if decide (kv.1 = k) then Some kv.2 else acc) members (map_find k obj).
Proof.
  revert obj. induction members as [|[k0 v0] ms IH]; intros obj; simpl; [done|].
  change (map_find k (assign_all (map_assign k0 v0 obj) ms) = fold_left
    (fun acc kv => if decide (kv.1 = k) then Some kv.2 else acc) ms
    (if decide (k0 = k) then Some v0 else map_find k obj)).
  rewrite IH, map_find_assign. f_equal. repeat case_decide; congruence.
Qed.

(** C36: an object text is accepted whatever keys it repeats, and each key of
    the result has the last value the text gives it. *)
Theorem parse_object_last_wins (members : list (bytes * JsonValue)) (t : bytes)
    (Ht : gmembers members t) :
  ∃ obj, parse ("{"%char :: t ++ #"}") = Done (Ok (JObject obj)) ∧ keys_sorted obj ∧
         ∀ k, map_find k obj = last_value k members.
Proof.
  exists (assign_all [] members). apply g_object in Ht.
  assert (parse ("{"%char :: t ++ #"}") = Done (Ok (JObject (assign_all [] members)))) as Hp.
  { apply parse_accepts. apply (gdoc_intro _ [] _ []) in Ht; [|constructor..|done].
    by rewrite app_nil_r in Ht. }
  split; [done|]. split; [|intros k; apply (map_find_assign_all k members [])].
  apply parse_wf in Hp. by inversion Hp.
Qed.

Lemma parse_object_last_wins_witness :
  ∃ obj, parse (qlit "{'k':null,'k':true}") = Done (Ok (JObject obj)) ∧ keys_sorted obj ∧
         ∀ k, map_find k obj = last_value k [(#"k", JNull); (#"k", JBool true)].
Proof.
  apply (parse_object_last_wins [(#"k", JNull); (#"k", JBool true)] (qlit "'k':null,'k':true")).
  apply (gmembers_cons #"k" JNull (qlit "'k':null") _ (qlit "'k':true")).
  - apply (gmember_intro [] #"k" #"k" [] [] JNull #"null" []); repeat constructor; discriminate.
  - apply gmembers_one.
    apply (gmember_intro [] #"k" #"k" [] [] (JBool true) #"true" []); repeat constructor; discriminate.
Defined.

(** ** Types *)

(** The type a text announces: by its first character, and for a number by
    whether there is a point or an exponent. *)
Definition is_real_char (c : ascii) : bool :=
  bool_decide (c = "."%char) || bool_decide (c = "e"%char) || bool_decide (c = "E"%char).

Fixpoint drop_spaces (t : bytes) : bytes :=
  match t with [] => [] | c :: t' => if isspace c then drop_spaces t' else t end.

Definition type_by_first (c : ascii) (t : bytes) : bytes :=
  match c with
  | "{"%char => #"object"
  | "["%char => #"array"
  | "034"%char => #"string"
  | "t"%char | "f"%char => #"bool"
  | "n"%char => #"null"
  | _ => if existsb is_real_char t then #"double" else #"long long"
  end.

Definition announced_type (json : bytes) : bytes :=
  match drop_spaces json with [] => [] | c :: t => type_by_first c t end.

(** The type as the accessors see it: the only [get_] that does not throw. *)
Definition accessible (v : JsonValue) (type : bytes) : Prop :=
  (is_null v = bool_decide (type = #"null")) ∧
  (is_bool v = bool_decide (type = #"bool") ∧ if is_bool v then ∃ b, get_bool v = Ok b else get_bool v = Throw bad_variant_access) ∧
  (is_long v = bool_decide (type = #"long long") ∧ if is_long v then ∃ i, get_long v = Ok i ∧ in_llong i = true else get_long v = Throw bad_variant_access) ∧
  (is_double v = bool_decide (type = #"double") ∧ if is_double v then ∃ d, get_double v = Ok d else get_double v = Throw bad_variant_access) ∧
  (is_string v = bool_decide (type = #"string") ∧ if is_string v then ∃ b, get_string v = Ok b else get_string v = Throw bad_variant_access) ∧
  (is_array v = bool_decide (type = #"array") ∧ if is_array v then ∃ a, get_array v = Ok a ∧ Forall wf_value a else get_array v = Throw bad_variant_access) ∧
  (is_object v = bool_decide (type = #"object") ∧ if is_object v then ∃ o, get_object v = Ok o ∧ keys_sorted o else get_object v = Throw bad_variant_access).

Lemma wf_accessible v : wf_value v → accessible v (type_name v).
Proof. intros Hwf. destruct Hwf; unfold accessible; simpl; split_and!; eauto. Qed.

Lemma drop_spaces_app ws c r : spaces ws → isspace c = false → drop_spaces (ws ++ c :: r) = c :: r.
Proof. intros Hws Hc. induction Hws as [|w ws Hw _ IH]; simpl; [by rewrite Hc|]. by rewrite Hw. Qed.

Lemma existsb_spaces ws : spaces ws → existsb is_real_char ws = false.
Proof.
  induction 1 as [|c ws Hc _ IH]; simpl; [done|]. rewrite IH, orb_false_r.
  apply not_true_iff_false. intros H. unfold is_real_char in H. rewrite !orb_true_iff, !bool_decide_eq_true in H.
  by destruct H as [[-> | ->]| ->].
Qed.

Lemma existsb_digits ds : all_digits ds → existsb is_real_char ds = false.
Proof.
  induction 1 as [|c ws Hc _ IH]; simpl; [done|]. rewrite IH, orb_false_r.
  apply not_true_iff_false. intros H. unfold is_real_char in H. rewrite !orb_true_iff, !bool_decide_eq_true in H.
  by destruct H as [[-> | ->]| ->].
Qed.

Lemma number_first c t :
  c = "-"%char ∨ isdigit c = true →
  isspace c = false ∧ is_real_char c = false ∧
  type_by_first c t = if existsb is_real_char t then #"double" else #"long long".
Proof.
  intros H. assert (isspace c = false ∧ is_real_char c = false) as [Hs Hr].
  { destruct H as [->|H]; [done|]. split; [by apply isdigit_not_isspace|].
    pose proof (existsb_digits [c]) as E. simpl in E. rewrite orb_false_r in E. apply E. by repeat constructor. }
  split_and!; [done|done|]. destruct H as [->|H]; [done|].
  destruct c as [[] [] [] [] [] [] [] []]; vm_compute in H; try discriminate H; reflexivity.
Qed.

Lemma announced_number ws c t ws' :
  spaces ws → spaces ws' → c = "-"%char ∨ isdigit c = true →
  announced_type (ws ++ (c :: t) ++ ws') = if existsb is_real_char (c :: t) then #"double" else #"long long".
Proof.
  intros Hws Hws' Hc. destruct (number_first c (t ++ ws') Hc) as (Hs & Hr & E).
  unfold announced_type. simpl. rewrite drop_spaces_app by done.
  by rewrite E, existsb_app, (existsb_spaces ws'), orb_false_r, Hr.
Qed.

(** The integer part of a number starts with a sign or a digit. *)
Lemma integer_part_first sg ds r :
  sign_text sg → all_digits ds → sg ++ ds ≠ [] →
  ∃ c t, sg ++ ds ++ r = c :: t ∧ (c = "-"%char ∨ isdigit c = true).
Proof.
  intros [->| ->] Hd Hne; simpl.
  - destruct ds as [|d ds]; [done|]. apply Forall_cons in Hd as [Hd _]. simpl. eauto 6.
  - eauto 6.
Qed.

Lemma integer_part_real sg ds : sign_text sg → all_digits ds → existsb is_real_char (sg ++ ds) = false.
Proof. intros [->| ->] Hd; simpl; by rewrite existsb_digits. Qed.

Lemma number_type v t ws ws' :
  spaces ws → spaces ws' → gnumber v t → announced_type (ws ++ t ++ ws') = type_name v.
Proof.
  intros Hws Hws' [sg ds z Hsg Hds Hz|sg ds fr ex d Hsg Hds Hne Hfr Hex Hfe Hd]; simpl.
  - assert (sg ++ ds ≠ []) as Hne by (intros E; by rewrite E in Hz).
    destruct (integer_part_first sg ds [] Hsg Hds Hne) as (c & t' & E & Hc). rewrite app_nil_r in E.
    pose proof (integer_part_real sg ds Hsg Hds) as Hr. rewrite E in *.
    by rewrite announced_number, Hr.
  - destruct (integer_part_first sg ds (fr ++ ex) Hsg Hds Hne) as (c & t' & E & Hc).
    assert (existsb is_real_char (sg ++ ds ++ fr ++ ex) = true) as Hr.
    { rewrite app_assoc, existsb_app, integer_part_real by done. simpl.
      destruct Hfr as [|ds' _]; [|done]. destruct Hex as [|e sg' ds' [->| ->] _ _]; done. }
    rewrite E in *. by rewrite announced_number, Hr.
Qed.

Lemma gval_type v t ws ws' : spaces ws → spaces ws' → gval v t → announced_type (ws ++ t ++ ws') = type_name v.
Proof.
  intros Hws Hws' Hv. destruct Hv; try (by apply number_type);
    unfold announced_type; simpl; by rewrite drop_spaces_app.
Qed.

(** C5: the text determines the type: a value that [parse] returns has the type
    its first character announces (a number is a double exactly when it has a point
    or an exponent), of all the accessors only the ones of that type do not throw,
    and what they return is well formed. *)
Theorem parse_type (json : bytes) (v : JsonValue) (Hp : parse json = Done (Ok v)) :
  type_name v = announced_type json ∧ accessible v (announced_type json).
Proof.
  pose proof (parse_wf json v Hp) as Hwf. apply parse_only_accepts in Hp.
  assert (announced_type json = type_name v) as E by (destruct Hp; by apply gval_type).
  rewrite E. split; [done|by apply wf_accessible].
Qed.

Lemma parse_type_witness :
  type_name (JArray [JLong 1; JBool true]) = #"array" ∧ accessible (JArray [JLong 1; JBool true]) #"array".
Proof. apply (parse_type #"  [1, true] "). vm_compute. reflexivity. Defined.

(** Of the twelve texts [main] expects to be valid, exactly the two bare
    numbers without an exponent are reported as errors, and the five invalid
    texts are all reported as caught. *)
Theorem main_error_report :
  errors main_output = [
    #"Error parsing JSON: Unexpected end of input";
    #"Error parsing JSON: Unexpected end of input";
    #"Caught expected error: Unexpected character: ']' at position 6";
    #"Caught expected error: Expected ',' or '}' in object";
    #"Caught expected error: Unexpected character: '}' at position 5";
    #"Caught expected error: Unexpected character: 'i' at position 0";
    #"Caught expected error: Expected ',' or ']' in array"] ∧
  length (report_valid #"12345") = 2 ∧ length (report_valid #"3.14159") = 2.
Proof. vm_compute. done. Qed.
