(* ===== verification/FifoSpec.v ===== *)
(** * The contract of a bounded first-in first-out queue

    The repository has several fixed-size queues.  [BoundedFifo] states what a
    client may rely on: an abstraction relation to a list, a capacity, and the
    result of [push] and [pop] on every branch.  Clients are verified against
    the class; [RingFifo] and [CircularQueue] are instances. *)

From Stdlib Require Import ZArith Lia.
From stdpp Require Import base list.
From S2P Require Import Prelude.

(** [push] reports whether the element was stored, [pop] the element or nothing. *)
Class BoundedFifo (Q A : Type) := {
  fifo_rep : Q → list A → Prop;
  fifo_capacity : nat;
  fifo_push : Q → A → outcome (Q * bool);
  fifo_pop : Q → outcome (Q * option A);
  fifo_rep_length : ∀ q l, fifo_rep q l → length l ≤ fifo_capacity;
  fifo_push_room : ∀ q l a, fifo_rep q l → length l < fifo_capacity →
    ∃ q', fifo_push q a = Ok (q', true) ∧ fifo_rep q' (l ++ [a]);
  fifo_push_full : ∀ q l a, fifo_rep q l → length l = fifo_capacity →
    fifo_push q a = Ok (q, false);
  fifo_pop_some : ∀ q a l, fifo_rep q (a :: l) →
    ∃ q', fifo_pop q = Ok (q', Some a) ∧ fifo_rep q' l;
  fifo_pop_none : ∀ q, fifo_rep q [] → fifo_pop q = Ok (q, None);
}.

(** ** Runs of operations, on the queue and on its abstraction *)

Inductive fifo_op (A : Type) := op_push (a : A) | op_pop.
Arguments op_push {A} a.
Arguments op_pop {A}.

Inductive fifo_result (A : Type) := pushed (stored : bool) | popped (r : option A).
Arguments pushed {A} stored.
Arguments popped {A} r.

Section Runs.
Context {Q A : Type} `{BoundedFifo Q A}.

Definition fifo_step (q : Q) (op : fifo_op A) : outcome (Q * fifo_result A) :=
  match op with
  | op_push a => '(q, b) ← fifo_push q a; Ok (q, pushed b)
  | op_pop => '(q, r) ← fifo_pop q; Ok (q, popped r)
  end.

Fixpoint fifo_run (q : Q) (ops : list (fifo_op A)) : outcome (Q * list (fifo_result A)) :=
  match ops with
  | [] => Ok (q, [])
  | op :: ops' =>
      '(q, r) ← fifo_step q op;
      '(q, rs) ← fifo_run q ops';
      Ok (q, r :: rs)
  end.

(** The abstract queue: a list of at most [cap] elements. *)
Definition spec_step (cap : nat) (l : list A) (op : fifo_op A) : list A * fifo_result A :=
  match op with
  | op_push a => if decide (length l < cap) then (l ++ [a], pushed true) else (l, pushed false)
  | op_pop => match l with
              | [] => ([], popped None)
              | a :: l' => (l', popped (Some a))
              end
  end.

Fixpoint spec_run (cap : nat) (l : list A) (ops : list (fifo_op A))
    : list A * list (fifo_result A) :=
  match ops with
  | [] => (l, [])
  | op :: ops' =>
      let '(l, r) := spec_step cap l op in
      let '(l, rs) := spec_run cap l ops' in (l, r :: rs)
  end.

Lemma fifo_step_refines q l op :
  fifo_rep q l →
  ∃ q', fifo_step q op = Ok (q', (spec_step fifo_capacity l op).2) ∧
        fifo_rep q' (spec_step fifo_capacity l op).1.
Proof.
  intros Hq. destruct op as [a|]; simpl.
  - case_decide as Hl.
    + destruct (fifo_push_room q l a Hq Hl) as (q' & -> & Hq'). simpl. eauto.
    + pose proof (fifo_rep_length q l Hq).
      rewrite (fifo_push_full q l a Hq) by lia. simpl. eauto.
  - destruct l as [|a l].
    + rewrite (fifo_pop_none q Hq). simpl. eauto.
    + destruct (fifo_pop_some q a l Hq) as (q' & -> & Hq'). simpl. eauto.
Qed.

(** Simulation: every run of the queue is the run of its abstraction. *)
Lemma fifo_run_refines q l ops :
  fifo_rep q l →
  ∃ q', fifo_run q ops = Ok (q', (spec_run fifo_capacity l ops).2) ∧
        fifo_rep q' (spec_run fifo_capacity l ops).1.
Proof.
  revert q l. induction ops as [|op ops IH]; intros q l Hq; [simpl; eauto|].
  destruct (fifo_step_refines q l op Hq) as (q1 & E1 & H1).
  cbn [fifo_run spec_run]. rewrite E1. cbn [mbind outcome_bind].
  destruct (spec_step fifo_capacity l op) as [l1 r1]; simpl in H1.
  destruct (IH q1 l1 H1) as (q2 & E2 & H2). cbn [snd]. rewrite E2. cbn [mbind outcome_bind].
  destruct (spec_run fifo_capacity l1 ops) as [l2 rs]. simpl in *. eauto.
Qed.
End Runs.

(** The abstract queue delivers what was pushed, in order. *)
Lemma spec_push_all {A} cap (xs l : list A) :
  length l + length xs ≤ cap →
  spec_run cap l (op_push <$> xs) = (l ++ xs, (fun _ => pushed true) <$> xs).
Proof.
  revert l. induction xs as [|x xs IH]; intros l Hlen; simpl in *; [by rewrite app_nil_r|].
  rewrite decide_True by lia. rewrite IH by (rewrite length_app; simpl; lia).
  by rewrite <- app_assoc.
Qed.

Lemma spec_pop_all {A} cap (xs l : list A) :
  spec_run cap (xs ++ l) (replicate (length xs) op_pop) = (l, (fun x => popped (Some x)) <$> xs).
Proof. induction xs as [|x xs IH]; simpl; [done|]. by rewrite IH. Qed.
