(* ===== verification/RingFifo.v ===== *)
(** * The macro-generated FIFO of cjunk/ringBuffer.h, and its byte swaps

    [DeclareFifo(T, N)] expands to a struct and five functions; here [T] and [N]
    are parameters.  [head] and [tail] are [int]s, [%] truncates, an access
    outside [data[N]] is undefined behaviour, and an element that was never
    written is indeterminate ([None]). *)

From Stdlib Require Import ZArith Lia.
From stdpp Require Import base list.
From S2P Require Import Prelude FifoSpec.
Local Open Scope Z_scope.

Inductive Status := SUCCESS | FAILURE.

Record Fifo (T : Type) := mkFifo { head : Z; tail : Z; data : list (option T) }.
Arguments mkFifo {T}.
Arguments head {T}.
Arguments tail {T}.
Arguments data {T}.

Section DeclareFifo.
Context {T : Type} (N : Z).

Definition Fifo_init (fifo : Fifo T) : Fifo T := mkFifo 0 0 (data fifo).

Definition Fifo_isEmpty (fifo : Fifo T) : bool := head fifo =? tail fifo.

Definition Fifo_size (fifo : Fifo T) : outcome Z :=
  d ← int32 (head fifo - tail fifo);
  if N =? 0 then Undef div_by_zero
  else s ← int32 (Z.rem d N + N); Ok (Z.rem s N).

(** [data[i] = x] and [data[i]]. *)
Definition array_set (l : list (option T)) (i : Z) (x : T) : outcome (list (option T)) :=
  if (0 <=? i) && (i <? Z.of_nat (length l)) then Ok (<[Z.to_nat i := Some x]> l)
  else Undef oob_access.

Definition array_get (l : list (option T)) (i : Z) : outcome T :=
  if (0 <=? i) && (i <? Z.of_nat (length l)) then
    match l !! Z.to_nat i with
    | Some (Some x) => Ok x
    | Some None => Undef uninit_read
    | None => Undef oob_access
    end
  else Undef oob_access.

Definition Fifo_push (fifo : Fifo T) (x : T) : outcome (Fifo T * Status) :=
  size ← Fifo_size fifo;
  size1 ← int32 (size + 1);
  if N <=? size1 then Ok (fifo, FAILURE)
  else
    d ← array_set (data fifo) (head fifo) x;
    h ← int32 (head fifo + 1);
    Ok (mkFifo (Z.rem h N) (tail fifo) d, SUCCESS).

(** The popped element is what [*output] receives; [None] leaves it unchanged. *)
Definition Fifo_pop (fifo : Fifo T) : outcome (Fifo T * Status * option T) :=
  if Fifo_isEmpty fifo then Ok (fifo, FAILURE, None)
  else
    x ← array_get (data fifo) (tail fifo);
    t ← int32 (tail fifo + 1);
    if N =? 0 then Undef div_by_zero
    else Ok (mkFifo (head fifo) (Z.rem t N) (data fifo), SUCCESS, Some x).

(** ** Representation *)

Record rep (fifo : Fifo T) (l : list T) : Prop := {
  rep_tail : 0 ≤ tail fifo < N;
  rep_data : Z.of_nat (length (data fifo)) = N;
  rep_head : head fifo = (tail fifo + Z.of_nat (length l)) mod N;
  rep_room : Z.of_nat (length l) < N;
  rep_elem : ∀ i x, l !! i = Some x →
    data fifo !! Z.to_nat ((tail fifo + Z.of_nat i) mod N) = Some (Some x);
}.

(** [2 * N - 1] is the largest intermediate value of [T##Fifo_size]. *)
Context (HN : 1 ≤ N ∧ 2 * N - 1 ≤ int_max).

Lemma rep_head_bound fifo l : rep fifo l → 0 ≤ head fifo < N.
Proof. intros []. rewrite rep_head0. apply Z.mod_pos_bound. lia. Qed.

Lemma init_rep fifo : Z.of_nat (length (data fifo)) = N → rep (Fifo_init fifo) [].
Proof.
  intros Hd. constructor; simpl; try lia; [|done].
  symmetry. apply Z.mod_small. lia.
Qed.

(** The double [%] of [T##Fifo_size] is the distance from [tail] to [head]. *)
Lemma Fifo_size_rep fifo l : rep fifo l → Fifo_size fifo = Ok (Z.of_nat (length l)).
Proof.
  intros Hr. pose proof (rep_head_bound _ _ Hr) as Hh. destruct Hr as [Ht _ Eh Hroom _].
  unfold Fifo_size. rewrite int32_ok by (unfold int_min, int_max in *; lia).
  cbn [mbind outcome_bind]. rewrite (proj2 (Z.eqb_neq N 0)) by lia.
  assert (Z.rem (head fifo - tail fifo) N = head fifo - tail fifo) as ->
    by (apply Z.rem_small_iff; lia).
  rewrite int32_ok by (unfold int_min, int_max in *; lia). cbn [mbind outcome_bind].
  f_equal. rewrite Z.rem_mod_nonneg by lia. rewrite Eh.
  replace (_ mod N - tail fifo + N) with ((tail fifo + Z.of_nat (length l)) mod N - tail fifo + 1 * N) by lia.
  rewrite Z.mod_add, Zminus_mod_idemp_l by lia.
  replace (tail fifo + Z.of_nat (length l) - tail fifo) with (Z.of_nat (length l)) by lia.
  apply Z.mod_small. lia.
Qed.

Lemma empty_rep fifo l : rep fifo l → Fifo_isEmpty fifo = bool_decide (l = []).
Proof.
  intros Hr. pose proof (Fifo_size_rep _ _ Hr) as Hs. destruct Hr as [Ht _ Eh Hroom _].
  unfold Fifo_isEmpty. destruct l as [|x l]; simpl.
  - rewrite Eh. simpl. rewrite Z.add_0_r, Z.mod_small by lia. apply Z.eqb_refl.
  - apply Z.eqb_neq. intros E. unfold Fifo_size in Hs. rewrite E, Z.sub_diag in Hs.
    rewrite int32_ok in Hs by (unfold int_min, int_max; lia). cbn [mbind outcome_bind] in Hs.
    rewrite (proj2 (Z.eqb_neq N 0)), Z.rem_0_l in Hs by lia.
    rewrite int32_ok in Hs by (unfold int_min, int_max in *; lia).
    cbn [mbind outcome_bind] in Hs. simpl in Hs. rewrite Z.rem_same in Hs by lia.
    injection Hs as Hs. lia.
Qed.

Lemma array_set_ok l i x :
  0 ≤ i < Z.of_nat (length l) → array_set l i x = Ok (<[Z.to_nat i := Some x]> l).
Proof. intros. unfold array_set. by rewrite (proj2 (Z.leb_le 0 i)), (proj2 (Z.ltb_lt _ _)) by lia. Qed.

Lemma array_get_ok l i x :
  0 ≤ i < Z.of_nat (length l) → l !! Z.to_nat i = Some (Some x) → array_get l i = Ok x.
Proof.
  intros Hi Hl. unfold array_get.
  rewrite (proj2 (Z.leb_le 0 i)), (proj2 (Z.ltb_lt _ _)) by lia. simpl. by rewrite Hl.
Qed.

Lemma push_room_rep fifo l x :
  rep fifo l → Z.of_nat (length l) < N - 1 →
  ∃ fifo', Fifo_push fifo x = Ok (fifo', SUCCESS) ∧ rep fifo' (l ++ [x]).
Proof.
  intros Hr Hlen. pose proof (rep_head_bound _ _ Hr) as Hh.
  unfold Fifo_push. rewrite (Fifo_size_rep _ _ Hr). cbn [mbind outcome_bind].
  rewrite (int32_ok (Z.of_nat (length l) + 1)) by (unfold int_min, int_max in *; lia). cbn [mbind outcome_bind].
  rewrite (proj2 (Z.leb_gt _ _)) by lia.
  destruct Hr as [Ht Hd Eh Hroom He].
  rewrite array_set_ok by lia. cbn [mbind outcome_bind].
  rewrite int32_ok by (unfold int_min, int_max in *; lia). cbn [mbind outcome_bind].
  eexists. split; [reflexivity|]. constructor; simpl; try done.
  - by rewrite length_insert.
  - rewrite Z.rem_mod_nonneg, Eh, Zplus_mod_idemp_l, length_app by lia. simpl. f_equal. lia.
  - rewrite length_app. simpl. lia.
  - intros i y Hi. assert (Z.of_nat (length l) mod N = Z.of_nat (length l)) as Hm
      by (apply Z.mod_small; lia).
    apply lookup_app_Some in Hi as [Hi|[Hge Hi]].
    + pose proof (lookup_lt_Some _ _ _ Hi) as Hlt. rewrite list_lookup_insert_ne; [by apply He|].
      rewrite Eh. intros E%Z2Nat.inj; [|apply Z.mod_pos_bound; lia..].
      apply (f_equal (fun z => (z - tail fifo) mod N)) in E.
      rewrite !Zminus_mod_idemp_l in E.
      replace (tail fifo + Z.of_nat (length l) - tail fifo) with (Z.of_nat (length l)) in E by lia.
      replace (tail fifo + Z.of_nat i - tail fifo) with (Z.of_nat i) in E by lia.
      rewrite !Z.mod_small in E by lia. lia.
    + destruct (i - length l)%nat eqn:Ei; [|done]. injection Hi as <-.
      replace i with (length l) by lia. rewrite Eh. apply list_lookup_insert_eq.
      pose proof (Z.mod_pos_bound (tail fifo + Z.of_nat (length l)) N). lia.
Qed.

Lemma push_full_rep fifo l x :
  rep fifo l → Z.of_nat (length l) = N - 1 → Fifo_push fifo x = Ok (fifo, FAILURE).
Proof.
  intros Hr Hlen. unfold Fifo_push. rewrite (Fifo_size_rep _ _ Hr). cbn [mbind outcome_bind].
  rewrite (int32_ok (Z.of_nat (length l) + 1)) by (unfold int_min, int_max in *; lia). cbn [mbind outcome_bind].
  by rewrite (proj2 (Z.leb_le _ _)) by lia.
Qed.

Lemma pop_some_rep fifo x l :
  rep fifo (x :: l) →
  ∃ fifo', Fifo_pop fifo = Ok (fifo', SUCCESS, Some x) ∧ rep fifo' l.
Proof.
  intros Hr. unfold Fifo_pop. rewrite (empty_rep _ _ Hr). simpl.
  destruct Hr as [Ht Hd Eh Hroom He]. simpl in *.
  rewrite (array_get_ok _ _ x); [|lia|].
  2:{ specialize (He 0%nat x eq_refl). simpl in He. by rewrite Z.add_0_r, Z.mod_small in He by lia. }
  cbn [mbind outcome_bind]. rewrite int32_ok by (unfold int_min, int_max in *; lia).
  cbn [mbind outcome_bind]. rewrite (proj2 (Z.eqb_neq N 0)) by lia.
  eexists. split; [reflexivity|]. constructor; simpl; try done.
  - apply Z.rem_bound_pos; lia.
  - rewrite Z.rem_mod_nonneg, Zplus_mod_idemp_l, Eh by lia. f_equal. lia.
  - lia.
  - intros i y Hi. rewrite Z.rem_mod_nonneg, Zplus_mod_idemp_l by lia.
    specialize (He (S i) y Hi). rewrite <- He. do 3 f_equal. lia.
Qed.

Lemma pop_none_rep fifo : rep fifo [] → Fifo_pop fifo = Ok (fifo, FAILURE, None).
Proof. intros Hr. unfold Fifo_pop. by rewrite (empty_rep _ _ Hr). Qed.
End DeclareFifo.

(** ** The contract *)

(** The generated functions with the results the contract speaks of: [SUCCESS] is
    [true], and a failed pop delivers nothing. *)
Definition ring_push {T} (N : Z) (q : Fifo T) (x : T) : outcome (Fifo T * bool) :=
  '(q, s) ← Fifo_push N q x; Ok (q, match s with SUCCESS => true | FAILURE => false end).
Definition ring_pop {T} (N : Z) (q : Fifo T) : outcome (Fifo T * option T) :=
  '(q, _, r) ← Fifo_pop N q; Ok (q, r).

(** The queue as an instance of the contract: [N] slots hold at most [N - 1]
    elements. *)
Definition ring_fifo (T : Type) (N : Z) (HN : 1 ≤ N ∧ 2 * N - 1 ≤ int_max)
    : BoundedFifo (Fifo T) T.
Proof.
  refine (Build_BoundedFifo _ _ (rep N) (Z.to_nat (N - 1)) (ring_push N) (ring_pop N) _ _ _ _ _);
    unfold ring_push, ring_pop.
  - intros q l []. lia.
  - intros q l a Hr Hlen.
    destruct (push_room_rep N HN q l a Hr) as (q' & -> & Hq'); [lia|]. simpl. eauto.
  - intros q l a Hr Hlen. by rewrite (push_full_rep N HN q l a Hr) by lia.
  - intros q a l Hr.
    destruct (pop_some_rep N HN q a l Hr) as (q' & -> & Hq'). simpl. eauto.
  - intros q Hr. by rewrite (pop_none_rep N HN q Hr).
Defined.

(** Storage of [N] elements with indeterminate contents. *)
Definition fresh_fifo (T : Type) (N : Z) : Fifo T := mkFifo 0 0 (replicate (Z.to_nat N) None).

(** C7: from [T##Fifo_init], every sequence of pushes and pops of the generated
    FIFO has the results of an abstract queue that holds at most [N - 1]
    elements, with no out-of-range access, read of an unwritten slot or signed
    overflow. *)
Theorem ring_fifo_refines_queue (T : Type) (N : Z) (HN : 1 ≤ N ∧ 2 * N - 1 ≤ int_max)
    (fifo : Fifo T) (Hdata : Z.of_nat (length (data fifo)) = N) (ops : list (fifo_op T)) :
  ∃ fifo', fifo_run (H := ring_fifo T N HN) (Fifo_init fifo) ops
           = Ok (fifo', (spec_run (Z.to_nat (N - 1)) [] ops).2).
Proof.
  destruct (fifo_run_refines (H := ring_fifo T N HN) (Fifo_init fifo) [] ops) as (q' & E & _).
  - by apply init_rep.
  - exists q'. exact E.
Qed.

Lemma ring_fifo_refines_queue_witness :
  ∃ fifo', fifo_run (H := ring_fifo Z 3 ltac:(unfold int_max; lia)) (Fifo_init (fresh_fifo Z 3))
             [op_push 100; op_push 101; op_push 102; op_pop; op_pop; op_pop]
           = Ok (fifo', [pushed true; pushed true; pushed false;
                         popped (Some 100); popped (Some 101); popped None]).
Proof. apply (ring_fifo_refines_queue Z 3 _ (fresh_fifo Z 3) eq_refl). Defined.

(** ** The test of the FIFO

    [test_fifo] on [DeclareFifo(int, 3)]: what it logs, a status as the [int] that an
    enumerator is.  The [info_] functions are not in the repository. *)

Inductive logged := info_int (z : Z) | info_size (z : Z) | info_value (z : Z).

Definition status_value (s : Status) : Z := match s with SUCCESS => 0 | FAILURE => 1 end.

Inductive test_op := push100 | size_of | pop_value.

(** One statement: the FIFO, the variable [value], and the line. *)
Definition test_op_step (o : test_op) (tx : Fifo Z) (value : option Z) : outcome (Fifo Z * option Z * logged) :=
  match o with
  | push100 => '(tx, s) ← Fifo_push 3 tx 100; Ok (tx, value, info_int (status_value s))
  | size_of => n ← Fifo_size 3 tx; Ok (tx, value, info_size n)
  | pop_value => '(tx, s, x) ← Fifo_pop 3 tx; Ok (tx, from_option Some value x, info_int (status_value s))
  end.
Fixpoint test_ops (ops : list (test_op + ())) (tx : Fifo Z) (value : option Z) : outcome (list logged) :=
  match ops with
  | [] => Ok []
  | inl o :: ops => '(tx, value, l) ← test_op_step o tx value; ls ← test_ops ops tx value; Ok (l :: ls)
  | inr _ :: ops =>
      match value with
      | Some v => ls ← test_ops ops tx value; Ok (info_value v :: ls)
      | None => Undef uninit_read
      end
  end.
Definition test_fifo : outcome (list logged) :=
  test_ops [inl push100; inl size_of; inl pop_value; inr (); inl size_of; inl push100; inl push100; inl size_of;
            inl push100; inl size_of; inl pop_value; inl pop_value; inl push100; inl push100; inl size_of]
    (Fifo_init (fresh_fifo Z 3)) None.

(** A FIFO for three elements holds two: the third of the pushes that follow each other
    fails, everything else succeeds. *)
Example test_fifo_logs :
  test_fifo = Ok [info_int 0; info_size 1; info_int 0; info_value 100; info_size 0; info_int 0; info_int 0;
    info_size 2; info_int 1; info_size 2; info_int 0; info_int 0; info_int 0; info_int 0; info_size 2].
Proof. vm_compute. reflexivity. Qed.

(** ** Byte swaps

    The macros on an operand of type [uint32_t] (the 32-bit one) and of any
    non-negative [int] (the 16-bit one, whose operand is promoted). *)

Definition byteswap_16 (x : Z) : Z :=
  Z.lor (Z.shiftr (Z.land x 0xff00) 8) (Z.shiftl (Z.land x 0x00ff) 8).

Definition byteswap_32 (x : Z) : Z :=
  Z.lor (Z.lor (Z.lor
    (Z.shiftr (Z.land x 0xff000000) 24)
    (Z.shiftr (Z.land x 0x00ff0000) 8))
    (u32 (Z.shiftl (Z.land x 0x0000ff00) 8)))
    (u32 (Z.shiftl (Z.land x 0x000000ff) 24)).

Example byteswap_32_ex : byteswap_32 0x12345678 = 0x78563412.
Proof. reflexivity. Qed.

(** Bytes of a word, least significant first. *)
Fixpoint le_bytes (n : nat) (x : Z) : list Z :=
  match n with O => [] | S n' => x mod 256 :: le_bytes n' (x / 256) end.
Fixpoint of_le_bytes (l : list Z) : Z :=
  match l with [] => 0 | b :: l' => b + 256 * of_le_bytes l' end.

Lemma land_byte x k : 0 ≤ k → Z.land x (Z.shiftl 0xff k) = Z.shiftl (Z.shiftr x k mod 256) k.
Proof.
  intros Hk. apply Z.bits_inj'. intros n Hn.
  rewrite Z.land_spec, !Z.shiftl_spec by lia.
  change 256 with (2 ^ 8). change 255 with (Z.ones 8).
  destruct (Z.ltb_spec n k).
  - rewrite !(Z.testbit_neg_r _ (n - k)) by lia. by rewrite andb_false_r.
  - rewrite <- Z.land_ones, Z.land_spec, Z.shiftr_spec by lia. do 2 f_equal. lia.
Qed.

(** Disjoint bytes: [|] is [+]. *)
Lemma lor_byte a b k : 0 ≤ k → 0 ≤ a < 2 ^ k → Z.lor a (Z.shiftl b k) = a + Z.shiftl b k.
Proof.
  intros Hk Ha. assert (Z.land a (Z.shiftl b k) = 0) as Hd.
  { apply Z.bits_inj'; intros n Hn. rewrite Z.land_spec, Z.shiftl_spec, Z.bits_0 by lia.
    destruct (Z.ltb_spec n k); [rewrite (Z.testbit_neg_r b) by lia; apply andb_false_r|].
    rewrite <- (Z.mod_small a (2 ^ k)), Z.mod_pow2_bits_high by lia. done. }
  by rewrite Z.add_nocarry_lxor, Z.lxor_lor.
Qed.

(** The [i]-th byte of [x], in the two forms in which the macros move it. *)
Lemma swap_byte_right x k j :
  0 ≤ j ≤ k → Z.shiftr (Z.land x (Z.shiftl 0xff k)) (k - j) = Z.shiftl (x / 2 ^ k mod 256) j.
Proof.
  intros. rewrite land_byte, Z.shiftr_div_pow2 by lia.
  rewrite !Z.shiftl_mul_pow2, Z.shiftr_div_pow2 by lia.
  replace (2 ^ k) with (2 ^ j * 2 ^ (k - j)) at 2 by (rewrite <- Z.pow_add_r by lia; f_equal; lia).
  rewrite Z.mul_assoc, Z.div_mul; [done|]. pose proof (Z.pow_pos_nonneg 2 (k - j)). lia.
Qed.

Lemma swap_byte_left x k j :
  0 ≤ k ≤ j → Z.shiftl (Z.land x (Z.shiftl 0xff k)) (j - k) = Z.shiftl (x / 2 ^ k mod 256) j.
Proof.
  intros. rewrite land_byte, Z.shiftl_shiftl, Z.shiftr_div_pow2 by lia. f_equal. lia.
Qed.

Lemma byteswap_32_bytes x :
  byteswap_32 x = of_le_bytes [x / 2 ^ 24 mod 256; x / 2 ^ 16 mod 256; x / 2 ^ 8 mod 256; x mod 256].
Proof.
  unfold byteswap_32.
  assert (Z.shiftr (Z.land x 0xff000000) 24 = x / 2 ^ 24 mod 256) as ->.
  { rewrite <- (Z.shiftl_0_r (_ mod 256)). exact (swap_byte_right x 24 0 ltac:(lia)). }
  assert (Z.shiftr (Z.land x 0x00ff0000) 8 = Z.shiftl (x / 2 ^ 16 mod 256) 8) as ->
    by exact (swap_byte_right x 16 8 ltac:(lia)).
  assert (Z.shiftl (Z.land x 0x0000ff00) 8 = Z.shiftl (x / 2 ^ 8 mod 256) 16) as ->
    by exact (swap_byte_left x 8 16 ltac:(lia)).
  assert (Z.shiftl (Z.land x 0x000000ff) 24 = Z.shiftl (x mod 256) 24) as ->.
  { rewrite <- (Z.div_1_r x) at 2. exact (swap_byte_left x 0 24 ltac:(lia)). }
  repeat match goal with |- context [?a mod 256] =>
    pose proof (Z.mod_pos_bound a 256 ltac:(lia)); generalize dependent (a mod 256); intros end.
  rewrite !u32_small by (rewrite Z.shiftl_mul_pow2 by lia; lia).
  assert (∀ a b k, 0 ≤ k → 0 ≤ a < 2 ^ k → Z.lor a (Z.shiftl b k) = a + b * 2 ^ k) as Hlor.
  { intros. rewrite lor_byte by done. by rewrite Z.shiftl_mul_pow2. }
  rewrite (Hlor _ _ 8), (Hlor _ _ 16), (Hlor _ _ 24) by lia. unfold of_le_bytes. lia.
Qed.

Lemma byteswap_16_bytes x : byteswap_16 x = of_le_bytes [x / 2 ^ 8 mod 256; x mod 256].
Proof.
  unfold byteswap_16.
  assert (Z.shiftr (Z.land x 0xff00) 8 = x / 2 ^ 8 mod 256) as ->.
  { rewrite <- (Z.shiftl_0_r (_ mod 256)). exact (swap_byte_right x 8 0 ltac:(lia)). }
  assert (Z.shiftl (Z.land x 0xff) 8 = Z.shiftl (x mod 256) 8) as ->.
  { rewrite <- (Z.div_1_r x) at 2. exact (swap_byte_left x 0 8 ltac:(lia)). }
  pose proof (Z.mod_pos_bound (x / 2 ^ 8) 256 ltac:(lia)).
  rewrite lor_byte, Z.shiftl_mul_pow2 by lia. unfold of_le_bytes. lia.
Qed.

Lemma le_bytes_of_le_bytes l :
  Forall (fun b => 0 ≤ b < 256) l → le_bytes (length l) (of_le_bytes l) = l.
Proof.
  induction 1 as [|b l Hb Hl IH]; simpl; [done|].
  rewrite (Z.mul_comm 256), Z.mod_add, Z.div_add, Z.mod_small, Z.div_small by lia.
  f_equal. exact IH.
Qed.

Lemma of_le_bytes_le_bytes n x : of_le_bytes (le_bytes n x) = x mod 256 ^ Z.of_nat n.
Proof.
  revert x. induction n as [|n IH]; intros x; cbn [le_bytes of_le_bytes].
  - symmetry. apply Z.mod_1_r.
  - rewrite IH, Nat2Z.inj_succ, Z.pow_succ_r, Z.rem_mul_r by lia. done.
Qed.

Lemma le_bytes_bounds n x : Forall (fun b => 0 ≤ b < 256) (le_bytes n x).
Proof. revert x. induction n; simpl; constructor; auto. apply Z.mod_pos_bound. lia. Qed.

Lemma le_bytes_length n x : length (le_bytes n x) = n.
Proof. revert x. induction n; simpl; auto. Qed.

(** A word assembled from the bytes of [x] in reverse order. *)
Lemma le_bytes_reversed n x :
  le_bytes n (of_le_bytes (rev (le_bytes n x))) = rev (le_bytes n x).
Proof.
  rewrite <- (le_bytes_length n x) at 1. rewrite <- length_rev.
  apply le_bytes_of_le_bytes. apply Forall_rev, le_bytes_bounds.
Qed.

Lemma byteswap_32_rev x : byteswap_32 x = of_le_bytes (rev (le_bytes 4 x)).
Proof. rewrite byteswap_32_bytes. simpl. by rewrite !Z.div_div by lia. Qed.

Lemma byteswap_16_rev x : byteswap_16 x = of_le_bytes (rev (le_bytes 2 x)).
Proof. apply byteswap_16_bytes. Qed.

(** C8: [byteswap_32] reverses the four bytes of its operand and [byteswap_16]
    the two low bytes of its own, so each undoes itself on operands of its
    width. *)
Theorem byteswap_reverses (x : Z) :
  le_bytes 4 (byteswap_32 x) = rev (le_bytes 4 x) ∧
  le_bytes 2 (byteswap_16 x) = rev (le_bytes 2 x) ∧
  byteswap_32 (byteswap_32 x) = u32 x ∧ byteswap_16 (byteswap_16 x) = u16 x.
Proof.
  rewrite !byteswap_32_rev, !byteswap_16_rev, !le_bytes_reversed, !rev_involutive.
  by rewrite !of_le_bytes_le_bytes.
Qed.
