(* ===== verification/Memory.v ===== *)
(** * Memory blocks

    A buffer that C code addresses by byte offset is a list of bytes, [None]
    where a byte was never written.  [load] and [store] are the two halves of
    [memcpy]; a range that leaves the block is undefined behaviour. *)

From Stdlib Require Import ZArith Lia Ascii.
From stdpp Require Import base list.
From S2P Require Import Prelude.
Local Open Scope Z_scope.

Definition block : Type := list (option ascii).

(** What [malloc(n)] returns: [n] indeterminate bytes. *)
Definition fresh_block (n : Z) : block := replicate (Z.to_nat n) None.

Definition in_block (b : block) (off n : Z) : bool :=
  (0 <=? off) && (0 <=? n) && (off + n <=? Z.of_nat (length b)).

Definition load (b : block) (off n : Z) : outcome block :=
  if in_block b off n then Ok (take (Z.to_nat n) (drop (Z.to_nat off) b))
  else Undef oob_access.

Definition store (b : block) (off : Z) (src : block) : outcome block :=
  if in_block b off (Z.of_nat (length src)) then
    Ok (take (Z.to_nat off) b ++ src ++ drop (Z.to_nat off + length src) b)
  else Undef oob_access.

Lemma in_block_spec b off n :
  in_block b off n = true ↔ 0 ≤ off ∧ 0 ≤ n ∧ off + n ≤ Z.of_nat (length b).
Proof. unfold in_block. rewrite !andb_true_iff, !Z.leb_le. tauto. Qed.

Lemma load_ok b off n :
  0 ≤ off → 0 ≤ n → off + n ≤ Z.of_nat (length b) →
  load b off n = Ok (take (Z.to_nat n) (drop (Z.to_nat off) b)).
Proof. intros. unfold load. by rewrite (proj2 (in_block_spec b off n)). Qed.

Lemma store_ok b off src :
  0 ≤ off → off + Z.of_nat (length src) ≤ Z.of_nat (length b) →
  ∃ b', store b off src = Ok b' ∧ length b' = length b ∧
    load b' off (Z.of_nat (length src)) = Ok src ∧
    (∀ o n, 0 ≤ o → 0 ≤ n → (o + n ≤ off ∨ off + Z.of_nat (length src) ≤ o) →
      load b' o n = load b o n).
Proof.
  intros Ho Hlen. unfold store. rewrite (proj2 (in_block_spec b off (Z.of_nat (length src)))) by lia.
  eexists. split; [reflexivity|].
  set (b' := take _ b ++ src ++ drop _ b).
  assert (length b' = length b) as Hb'.
  { unfold b'. rewrite !length_app, length_take, length_drop. lia. }
  split; [done|]. split.
  - rewrite load_ok by lia. f_equal. unfold b'.
    rewrite drop_app_length' by (rewrite length_take; lia).
    apply take_app_length'. lia.
  - intros o n Ho' Hn Hdisj.
    unfold load, in_block. rewrite Hb'. destruct (_ && _) eqn:E; [|done].
    rewrite !andb_true_iff, !Z.leb_le in E. f_equal. apply list_eq. intros i.
    destruct (decide (i < Z.to_nat n)%nat);
      [|rewrite !lookup_ge_None_2; [done|rewrite length_take; lia..]].
    rewrite !lookup_take_lt, !lookup_drop by done. unfold b'.
    destruct Hdisj.
    + rewrite lookup_app_l by (rewrite length_take; lia). apply lookup_take_lt. lia.
    + rewrite lookup_app_r, lookup_app_r by (rewrite length_take; lia).
      rewrite lookup_drop, length_take. f_equal. lia.
Qed.

(** A defined load depends only on the bytes of its range. *)
Lemma load_length b off n c : load b off n = Ok c → Z.of_nat (length c) = n.
Proof.
  unfold load. destruct (in_block b off n) eqn:E; [|done].
  apply in_block_spec in E. intros [= <-]. rewrite length_take, length_drop. lia.
Qed.
