(* ===== verification/ByteQueue.v ===== *)
(** * The byte-addressed queue of cjunk/practice/queue.h

    The fields are [uint16_t]; an expression on them is computed in [int] (or in
    [unsigned], where a literal has the suffix [u]) and truncated when it is
    stored.  [pDataArray] points to a block, of which the model also records
    whether [free] may be called on it.  What the queue does is exactly a FIFO
    that silently empties itself when it is filled ([lossy_step]). *)

From Stdlib Require Import ZArith Lia Ascii.
From stdpp Require Import base list.
From S2P Require Import Prelude Memory FifoSpec.
Local Open Scope Z_scope.

Record Queue := mkQueue {
  q_begin : Z; q_end : Z; pDataArray : block; malloced : bool;
  elementSize : Z; elementCapacity : Z; isFull : bool }.

(** [a * b] on operands promoted to [int]. *)
Definition int_mul (a b : Z) : outcome Z := int32 (a * b).

Definition private_queueInitialize (data : block) (owned : bool) (size capacity : Z) : Queue :=
  mkQueue 0 0 data owned size capacity false.

(** [pData] is the block the argument points to. *)
Definition private_queueEnqueue (self : Queue) (pData : block) : outcome Queue :=
  if isFull self then Ok self
  else
    let index := q_end self in
    if elementCapacity self =? 0 then Undef div_by_zero
    else
      let endIndex := u16 (Z.rem (q_begin self + q_end self) (elementCapacity self)) in
      let availableSpace := u16 (elementCapacity self - endIndex) in
      if availableSpace =? 0 then
        Ok (mkQueue (q_begin self) (q_end self) (pDataArray self) (malloced self)
              (elementSize self) (elementCapacity self) true)
      else
        let end' := u16 (u32 (q_end self + 1) mod elementCapacity self) in
        off ← int_mul index (elementSize self);
        src ← load pData 0 (elementSize self);
        d ← store (pDataArray self) off src;
        Ok (mkQueue (q_begin self) end' d (malloced self)
              (elementSize self) (elementCapacity self) false).

(** The second component is the element copied to [*pData], if any. *)
Definition private_queueDequeue (self : Queue) : outcome (Queue * option block) :=
  if q_begin self =? q_end self then Ok (self, None)
  else
    let index := q_begin self in
    let availableSpace := u16 (q_end self - q_begin self) in
    if availableSpace =? 0 then
      Ok (mkQueue (q_begin self) (q_end self) (pDataArray self) (malloced self)
            (elementSize self) (elementCapacity self) false, None)
    else if elementCapacity self =? 0 then Undef div_by_zero
    else
      let begin' := u16 (u32 (q_begin self + 1) mod elementCapacity self) in
      off ← int_mul index (elementSize self);
      x ← load (pDataArray self) off (elementSize self);
      Ok (mkQueue begin' (q_end self) (pDataArray self) (malloced self)
            (elementSize self) (elementCapacity self) (isFull self), Some x).

Definition private_queueClear (self : Queue) : Queue :=
  mkQueue 0 0 (pDataArray self) (malloced self) (elementSize self) (elementCapacity self) false.

Definition private_queueIsEmpty (self : Queue) : bool := q_begin self =? q_end self.
Definition private_queueIsFull (self : Queue) : bool := isFull self.
Definition private_queueGetSize (self : Queue) : Z := u16 (q_end self - q_begin self).
Definition private_queueGetCapacity (self : Queue) : Z := elementCapacity self.

(** The offset of the returned pointer in [pDataArray]; [None] is [NULL]. *)
Definition private_queueGetData (self : Queue) (index : Z) : outcome (option Z) :=
  if q_end self - q_begin self <=? index then Ok None
  else off ← int_mul (q_begin self + index) (elementSize self); Ok (Some off).

Definition private_queueSetData (self : Queue) (index : Z) (pData : block) : outcome Queue :=
  if q_end self - q_begin self <=? index then Ok self
  else
    off ← int_mul (q_begin self + index) (elementSize self);
    src ← load pData 0 (elementSize self);
    d ← store (pDataArray self) off src;
    Ok (mkQueue (q_begin self) (q_end self) d (malloced self)
          (elementSize self) (elementCapacity self) (isFull self)).

(** The reallocation both setters end with.  [alloc] tells whether [malloc]
    succeeds. *)
Definition replace_array (self : Queue) (alloc : bool) (newDataArraySize size' capacity' : Z)
    : outcome Queue :=
  if negb alloc then Ok self
  else
    n ← int_mul (elementSize self) (elementCapacity self);
    src ← load (pDataArray self) 0 n;
    d ← store (fresh_block newDataArraySize) 0 src;
    if malloced self then
      Ok (mkQueue (q_begin self) (q_end self) d true size' capacity' (isFull self))
    else Undef bad_precondition.

Definition private_queueSetCapacity (alloc : bool) (self : Queue) (capacity : Z) : outcome Queue :=
  let size := u16 (q_end self - q_begin self) in
  if capacity <? size then Ok self
  else
    m ← int_mul capacity (elementSize self);
    replace_array self alloc (u16 m) (elementSize self) capacity.

Definition private_queueSetElementSize (alloc : bool) (self : Queue) (esize : Z) : outcome Queue :=
  let size := u16 (q_end self - q_begin self) in
  if elementCapacity self <? size then Ok self
  else
    m ← int_mul (elementCapacity self) esize;
    replace_array self alloc (u16 m) esize (elementCapacity self).

(** ** Representation *)

(** The queue holds the elements [l], each a chunk of [elementSize] bytes. *)
Record qrep (q : Queue) (l : list block) : Prop := {
  qr_cap : 1 ≤ elementCapacity q < 2 ^ 16;
  qr_size : 0 ≤ elementSize q < 2 ^ 16;
  qr_block : Z.of_nat (length (pDataArray q)) = elementCapacity q * elementSize q;
  qr_fits : elementCapacity q * elementSize q ≤ int_max;
  qr_full : isFull q = false;
  qr_begin : 0 ≤ q_begin q < elementCapacity q;
  qr_end : q_end q = (q_begin q + Z.of_nat (length l)) mod elementCapacity q;
  qr_room : Z.of_nat (length l) < elementCapacity q;
  qr_elem : ∀ i x, l !! i = Some x →
    load (pDataArray q) ((q_begin q + Z.of_nat i) mod elementCapacity q * elementSize q)
      (elementSize q) = Ok x;
}.

(** The abstract behaviour: the element that fills the last slot empties the queue. *)
Definition lossy_step (cap : Z) (l : list block) (op : fifo_op block)
    : list block * option (option block) :=
  match op with
  | op_push x => (if Z.of_nat (length l) + 1 <? cap then l ++ [x] else [], None)
  | op_pop => match l with [] => ([], Some None) | x :: l' => (l', Some (Some x)) end
  end.

Definition queue_step (q : Queue) (op : fifo_op block) : outcome (Queue * option (option block)) :=
  match op with
  | op_push x => q ← private_queueEnqueue q x; Ok (q, None)
  | op_pop => '(q, r) ← private_queueDequeue q; Ok (q, Some r)
  end.

Fixpoint queue_run (q : Queue) (ops : list (fifo_op block))
    : outcome (Queue * list (option (option block))) :=
  match ops with
  | [] => Ok (q, [])
  | op :: ops' =>
      '(q, r) ← queue_step q op; '(q, rs) ← queue_run q ops'; Ok (q, r :: rs)
  end.

Fixpoint lossy_run (cap : Z) (l : list block) (ops : list (fifo_op block))
    : list block * list (option (option block)) :=
  match ops with
  | [] => (l, [])
  | op :: ops' =>
      let '(l, r) := lossy_step cap l op in
      let '(l, rs) := lossy_run cap l ops' in (l, r :: rs)
  end.

Example fill_three :
  let q := private_queueInitialize (fresh_block 3) false 1 3 in
  let e c := [Some c] in
  snd <$> queue_run q [op_push (e "a"%char); op_push (e "b"%char); op_push (e "c"%char); op_pop]
  = Ok [None; None; None; Some None].
Proof. reflexivity. Qed.

Lemma int_mul_ok a b : int_min ≤ a * b ≤ int_max → int_mul a b = Ok (a * b).
Proof. apply int32_ok. Qed.

Lemma qrep_init d own size cap :
  1 ≤ cap < 2 ^ 16 → 0 ≤ size < 2 ^ 16 → cap * size ≤ int_max →
  Z.of_nat (length d) = cap * size →
  qrep (private_queueInitialize d own size cap) [].
Proof.
  intros. constructor; simpl; try done; lia.
Qed.

Lemma qrep_end_bound q l : qrep q l → 0 ≤ q_end q < elementCapacity q.
Proof. intros []. rewrite qr_end0. apply Z.mod_pos_bound. lia. Qed.

(** The byte range of slot [k] is inside the block, and its offset does not overflow. *)
Lemma slot_bounds cap size k :
  0 ≤ k < cap → 0 ≤ size → 0 ≤ k * size ∧ k * size + size ≤ cap * size.
Proof. nia. Qed.

Lemma slot_disjoint size j k :
  0 ≤ j → 0 ≤ k → 0 ≤ size → j ≠ k → j * size + size ≤ k * size ∨ k * size + size ≤ j * size.
Proof. intros. destruct (Z.lt_total j k) as [|[|]]; [left|lia|right]; nia. Qed.

(** Slots of different positions are different as long as the queue is not full. *)
Lemma slot_inj b cap i j :
  0 ≤ i < cap → 0 ≤ j < cap → (b + i) mod cap = (b + j) mod cap → i = j.
Proof.
  intros Hi Hj E. apply (f_equal (fun z => (z - b) mod cap)) in E.
  rewrite !Zminus_mod_idemp_l in E.
  replace (b + i - b) with i in E by lia. replace (b + j - b) with j in E by lia.
  rewrite !Z.mod_small in E; lia.
Qed.

Lemma u16_mod_cap x cap : 1 ≤ cap < 2 ^ 16 → 0 ≤ x < 2 ^ 32 → u16 (u32 x mod cap) = x mod cap.
Proof.
  intros. rewrite u32_small by lia. apply u16_small.
  pose proof (Z.mod_pos_bound x cap). lia.
Qed.

(** What [enqueue] does on every represented queue: the element is written to the
    slot after the last, and [end] advances, whether or not it meets [begin]. *)
Lemma enqueue_qrep q l x :
  qrep q l → Z.of_nat (length x) = elementSize q →
  ∃ q', private_queueEnqueue q x = Ok q' ∧
    elementCapacity q' = elementCapacity q ∧ elementSize q' = elementSize q ∧
    qrep q' (lossy_step (elementCapacity q) l (op_push x)).1.
Proof.
  intros Hr Hx. pose proof (qrep_end_bound _ _ Hr) as He.
  destruct Hr as [Hcap Hsize Hblock Hfits Hfull Hb Hend Hroom Helem].
  destruct (slot_bounds (elementCapacity q) (elementSize q) (q_end q)) as [Ho1 Ho2]; [lia..|].
  unfold private_queueEnqueue. rewrite Hfull, (proj2 (Z.eqb_neq (elementCapacity q) 0)) by lia.
  assert (0 ≤ Z.rem (q_begin q + q_end q) (elementCapacity q) < elementCapacity q) as Hrem
    by (apply Z.rem_bound_pos; lia).
  rewrite (u16_small (Z.rem _ _)), (u16_small (elementCapacity q - _)), (proj2 (Z.eqb_neq _ 0)) by lia.
  rewrite int_mul_ok by (unfold int_min, int_max in *; lia). cbn [mbind outcome_bind].
  rewrite load_ok by lia. cbn [mbind outcome_bind]. rewrite drop_0, take_ge by lia.
  destruct (store_ok (pDataArray q) (q_end q * elementSize q) x) as (d & -> & Hd & Hnew & Hold); [lia..|].
  cbn [mbind outcome_bind]. eexists. split; [reflexivity|]. do 2 (split; [done|]).
  rewrite u16_mod_cap by lia. cbn [lossy_step fst].
  destruct (Z.ltb_spec (Z.of_nat (length l) + 1) (elementCapacity q)).
  - constructor; simpl; try done; try lia.
    + rewrite Hend, Zplus_mod_idemp_l, length_app. f_equal. simpl. lia.
    + rewrite length_app. simpl. lia.
    + intros i y Hi. apply lookup_app_Some in Hi as [Hi|[Hge Hi]].
      * pose proof (lookup_lt_Some _ _ _ Hi) as Hlt.
        pose proof (Z.mod_pos_bound (q_begin q + Z.of_nat i) (elementCapacity q)).
        rewrite Hold; [by apply Helem|nia|lia|]. rewrite Hx.
        apply slot_disjoint; [lia..|]. rewrite Hend. intros E%slot_inj; lia.
      * destruct (i - length l)%nat eqn:Ei; [|done]. injection Hi as <-.
        replace i with (length l) by lia. rewrite <- Hend. by rewrite Hx in Hnew.
  - assert ((q_end q + 1) mod elementCapacity q = q_begin q) as Hwrap.
    { rewrite Hend, Zplus_mod_idemp_l.
      replace (q_begin q + Z.of_nat (length l) + 1) with (q_begin q + 1 * elementCapacity q) by lia.
      rewrite Z.mod_add, Z.mod_small by lia. done. }
    constructor; simpl; try done; try lia.
    rewrite Hwrap, Z.add_0_r, Z.mod_small by lia. done.
Qed.

Lemma dequeue_qrep q l :
  qrep q l →
  ∃ q', private_queueDequeue q = Ok (q', head l) ∧
    elementCapacity q' = elementCapacity q ∧ elementSize q' = elementSize q ∧ qrep q' (tail l).
Proof.
  intros Hr. pose proof (qrep_end_bound _ _ Hr) as He.
  pose proof Hr as [Hcap Hsize Hblock Hfits Hfull Hb Hend Hroom Helem].
  unfold private_queueDequeue. destruct l as [|x l]; simpl in *.
  { rewrite Hend, Z.add_0_r, Z.mod_small, Z.eqb_refl by lia. eauto. }
  destruct (Z.eqb_spec (q_begin q) (q_end q)) as [E|Hne].
  { rewrite Hend in E. rewrite <- (Z.mod_small (q_begin q) (elementCapacity q)) in E at 1 by lia.
    rewrite <- (Z.add_0_r (q_begin q)) in E at 1. apply slot_inj in E; lia. }
  rewrite (proj2 (Z.eqb_neq (u16 _) 0)).
  2:{ unfold u16. intros E. apply Z.mod_divide in E as [k Hk]; lia. }
  rewrite (proj2 (Z.eqb_neq (elementCapacity q) 0)) by lia.
  destruct (slot_bounds (elementCapacity q) (elementSize q) (q_begin q)) as [Ho1 Ho2]; [lia..|].
  rewrite int_mul_ok by (unfold int_min, int_max in *; lia). cbn [mbind outcome_bind].
  assert (load (pDataArray q) (q_begin q * elementSize q) (elementSize q) = Ok x) as ->.
  { rewrite <- (Helem 0%nat x eq_refl). by rewrite Z.add_0_r, Z.mod_small by lia. }
  cbn [mbind outcome_bind]. eexists. split; [reflexivity|]. do 2 (split; [done|]).
  rewrite u16_mod_cap by lia. constructor; simpl; try done; try lia.
  - apply Z.mod_pos_bound. lia.
  - rewrite Zplus_mod_idemp_l, Hend. f_equal. lia.
  - intros i y Hi. rewrite Zplus_mod_idemp_l. rewrite <- (Helem (S i) y Hi).
    do 3 f_equal. lia.
Qed.

(** Every element passed to [enqueue] has the size the queue was made for. *)
Definition sized (size : Z) (op : fifo_op block) : Prop :=
  match op with op_push x => Z.of_nat (length x) = size | op_pop => True end.

Lemma queue_step_refines q l op :
  qrep q l → sized (elementSize q) op →
  ∃ q', queue_step q op = Ok (q', (lossy_step (elementCapacity q) l op).2) ∧
    elementCapacity q' = elementCapacity q ∧ elementSize q' = elementSize q ∧
    qrep q' (lossy_step (elementCapacity q) l op).1.
Proof.
  intros Hq Hs. destruct op as [x|]; cbn [queue_step].
  - destruct (enqueue_qrep q l x Hq Hs) as (q' & -> & Hc & Hz & Hr). cbn [mbind outcome_bind]. eauto.
  - destruct (dequeue_qrep q l Hq) as (q' & -> & Hc & Hz & Hr). cbn [mbind outcome_bind].
    destruct l; simpl in *; eauto.
Qed.

Lemma queue_run_refines q l ops :
  qrep q l → Forall (sized (elementSize q)) ops →
  ∃ q', queue_run q ops = Ok (q', (lossy_run (elementCapacity q) l ops).2) ∧
    qrep q' (lossy_run (elementCapacity q) l ops).1.
Proof.
  revert q l. induction ops as [|op ops IH]; intros q l Hq Hs; [simpl; eauto|].
  apply Forall_cons in Hs as [Hop Hs].
  destruct (queue_step_refines q l op Hq Hop) as (q1 & E1 & Hc & Hz & H1).
  cbn [queue_run lossy_run]. rewrite E1. cbn [mbind outcome_bind].
  destruct (lossy_step _ l op) as [l1 r1]; simpl in H1.
  rewrite <- Hz in Hs. destruct (IH q1 l1 H1 Hs) as (q2 & E2 & H2). rewrite Hc in E2, H2.
  cbn [snd]. rewrite E2. cbn [mbind outcome_bind].
  destruct (lossy_run _ l1 ops) as [l2 rs]. simpl in *. eauto.
Qed.

(** C9: from [private_queueInitialize], every sequence of enqueues and dequeues
    runs without undefined behaviour and has exactly the results of the abstract
    queue that holds up to [elementCapacity - 1] elements in order, and that
    drops all of them when one more is added. *)
Theorem byte_queue_refines_lossy (d : block) (own : bool) (size cap : Z) (ops : list (fifo_op block))
    (Hcap : 1 ≤ cap < 2 ^ 16) (Hsize : 0 ≤ size < 2 ^ 16) (Hfits : cap * size ≤ int_max)
    (Hd : Z.of_nat (length d) = cap * size) (Hops : Forall (sized size) ops) :
  ∃ q', queue_run (private_queueInitialize d own size cap) ops = Ok (q', (lossy_run cap [] ops).2) ∧
    qrep q' (lossy_run cap [] ops).1.
Proof. apply (queue_run_refines (private_queueInitialize d own size cap) [] ops); [by apply qrep_init|done]. Qed.

Lemma byte_queue_refines_lossy_witness :
  ∃ q', queue_run (private_queueInitialize (fresh_block 6) false 2 3)
    [op_push [Some "a"; Some "b"]; op_push [Some "c"; Some "d"]; op_pop; op_pop; op_pop]%char
  = Ok (q', [None; None; Some (Some [Some "a"; Some "b"]); Some (Some [Some "c"; Some "d"]);
             Some None]%char) ∧ qrep q' [].
Proof.
  apply (byte_queue_refines_lossy (fresh_block 6) false 2 3); try (unfold int_max; lia); [done|].
  repeat constructor.
Defined.

Lemma lossy_fill cap xs l :
  Z.of_nat (length l) + Z.of_nat (length xs) < cap →
  lossy_run cap l (op_push <$> xs) = (l ++ xs, (fun _ => None) <$> xs).
Proof.
  revert l. induction xs as [|x xs IH]; intros l Hl; simpl in *; [by rewrite app_nil_r|].
  rewrite (proj2 (Z.ltb_lt _ _)) by lia.
  rewrite IH by (rewrite length_app; simpl; lia). by rewrite <- app_assoc.
Qed.

Lemma lossy_overfill cap xs x :
  Z.of_nat (length (xs ++ [x])) = cap →
  lossy_run cap [] (op_push <$> (xs ++ [x])) = ([], (fun _ => None) <$> (xs ++ [x])).
Proof.
  rewrite length_app. simpl. intros Hl.
  assert (∀ l ys zs, lossy_run cap l (ys ++ zs) =
    let '(l1, r1) := lossy_run cap l ys in let '(l2, r2) := lossy_run cap l1 zs in (l2, r1 ++ r2))
    as Happ.
  { intros l ys. revert l. induction ys as [|y ys IH]; intros l zs; cbn [lossy_run app].
    - by destruct (lossy_run cap l zs).
    - destruct (lossy_step cap l y) as [l1 r]. rewrite IH.
      destruct (lossy_run cap l1 ys) as [l2 r2]. by destruct (lossy_run cap l2 zs). }
  rewrite !fmap_app, Happ, lossy_fill by (simpl; lia). simpl.
  by rewrite (proj2 (Z.ltb_ge _ _)) by lia.
Qed.

Lemma qrep_is_empty q l : qrep q l → private_queueIsEmpty q = bool_decide (l = []).
Proof.
  intros Hr. pose proof Hr as [Hcap _ _ _ _ Hb Hend Hroom _]. unfold private_queueIsEmpty.
  rewrite Hend. rewrite <- (Z.mod_small (q_begin q) (elementCapacity q)) at 1 by lia.
  rewrite <- (Z.add_0_r (q_begin q)) at 1. destruct l as [|x l]; simpl.
  - by rewrite Z.eqb_refl.
  - apply Z.eqb_neq. simpl in Hroom. intros E%slot_inj; lia.
Qed.

(** The flag [isFull] is never raised: a queue made for [cap] elements that
    receives [cap] elements reports that it is empty and not full, so that all of
    them are lost. *)
Theorem byte_queue_full_loses_all (d : block) (own : bool) (size cap : Z) (xs : list block)
    (Hcap : 1 ≤ cap < 2 ^ 16) (Hsize : 0 ≤ size < 2 ^ 16) (Hfits : cap * size ≤ int_max)
    (Hd : Z.of_nat (length d) = cap * size) (Hxs : Forall (fun x => Z.of_nat (length x) = size) xs)
    (Hlen : Z.of_nat (length xs) = cap) :
  ∃ q', queue_run (private_queueInitialize d own size cap) (op_push <$> xs)
        = Ok (q', (fun _ => None) <$> xs) ∧
    private_queueIsEmpty q' = true ∧ private_queueIsFull q' = false ∧
    private_queueDequeue q' = Ok (q', None).
Proof.
  destruct (queue_run_refines (private_queueInitialize d own size cap) [] (op_push <$> xs))
    as (q' & E & Hr); [by apply qrep_init|by apply Forall_fmap|].
  exists q'. cbn [private_queueInitialize elementCapacity] in E, Hr.
  destruct xs as [|x xs _] using rev_ind; [simpl in Hlen; lia|].
  rewrite lossy_overfill in E, Hr by done. split; [exact E|].
  pose proof (qrep_is_empty _ _ Hr) as He. split; [by rewrite He|]. split; [apply Hr|].
  unfold private_queueDequeue. unfold private_queueIsEmpty in He. by rewrite He.
Qed.

Lemma byte_queue_full_loses_all_witness :
  ∃ q', queue_run (private_queueInitialize (fresh_block 2) false 1 2)
          (op_push <$> [[Some "x"]; [Some "y"]]%char) = Ok (q', [None; None]) ∧
    private_queueIsEmpty q' = true ∧ private_queueIsFull q' = false ∧
    private_queueDequeue q' = Ok (q', None).
Proof.
  apply (byte_queue_full_loses_all (fresh_block 2) false 1 2 [[Some "x"]; [Some "y"]]%char);
    try (unfold int_max; lia); try done. repeat constructor.
Defined.

(** ** Observers and setters *)

(** Neither the elements nor the index [end] run past the end of the array. *)
Definition straight (q : Queue) (l : list block) : Prop :=
  q_begin q + Z.of_nat (length l) < elementCapacity q.

Lemma straight_end q l : qrep q l → straight q l → q_end q = q_begin q + Z.of_nat (length l).
Proof. intros [] H. unfold straight in H. rewrite qr_end0. apply Z.mod_small. lia. Qed.

Lemma wrapped_end q l :
  qrep q l → ¬ straight q l → q_end q = q_begin q + Z.of_nat (length l) - elementCapacity q.
Proof.
  intros [] H. unfold straight in H. rewrite qr_end0.
  rewrite <- (Z.mod_small (q_begin q + _ - _) (elementCapacity q)) by lia.
  rewrite <- (Z.mod_add (_ - _) 1) by lia. f_equal. lia.
Qed.

(** C11: while [end] has not wrapped around, [private_queueGetSize] is the number of
    elements, and [private_queueGetData] gives for an index below it the address of
    that element and [NULL] for every other index; once [end] has wrapped around,
    the size is too large by [2^16 - elementCapacity] and every index gives [NULL]. *)
Theorem byte_queue_observers (q : Queue) (l : list block) (Hr : qrep q l) :
  (straight q l →
    private_queueGetSize q = Z.of_nat (length l) ∧
    ∀ i : nat, match l !! i with
      | Some x => let off := (q_begin q + Z.of_nat i) * elementSize q in
          private_queueGetData q (Z.of_nat i) = Ok (Some off) ∧ load (pDataArray q) off (elementSize q) = Ok x
      | None => private_queueGetData q (Z.of_nat i) = Ok None
      end) ∧
  (¬ straight q l →
    private_queueGetSize q = Z.of_nat (length l) + (2 ^ 16 - elementCapacity q) ∧
    private_queueGetSize q ≠ Z.of_nat (length l) ∧
    ∀ i : nat, private_queueGetData q (Z.of_nat i) = Ok None).
Proof.
  pose proof Hr as [Hcap Hsize Hblock Hfits Hfull Hb Hend Hroom Helem].
  unfold private_queueGetSize, private_queueGetData. split; intros Hs.
  - rewrite (straight_end _ _ Hr Hs). unfold straight in Hs. split; [rewrite u16_small; lia|].
    intros i. destruct (l !! i) as [x|] eqn:Hi.
    + pose proof (lookup_lt_Some _ _ _ Hi) as Hlt.
      rewrite (proj2 (Z.leb_gt _ _)) by lia.
      destruct (slot_bounds (elementCapacity q) (elementSize q) (q_begin q + Z.of_nat i)); [lia..|].
      rewrite int_mul_ok by (unfold int_min, int_max in *; lia). cbn [mbind outcome_bind].
      split; [done|]. rewrite <- (Helem i x Hi). by rewrite Z.mod_small by lia.
    + apply lookup_ge_None in Hi. by rewrite (proj2 (Z.leb_le _ _)) by lia.
  - rewrite (wrapped_end _ _ Hr Hs).
    assert (u16 (q_begin q + Z.of_nat (length l) - elementCapacity q - q_begin q)
            = Z.of_nat (length l) + (2 ^ 16 - elementCapacity q)) as ->.
    { unfold u16. rewrite <- (Z.mod_add _ 1) by lia. rewrite Z.mod_small; lia. }
    split; [done|]. split; [lia|]. intros i. by rewrite (proj2 (Z.leb_le _ _)) by lia.
Qed.


(** A block of 6 bytes with two slots in use: it can grow to 5 slots of 2 bytes,
    and shrinking it to 2 slots overruns the new block. *)
Definition two_of_three : Queue :=
  mkQueue 0 2 (Some <$> ["a"; "b"; "c"; "d"; "e"; "f"]%char) true 2 3 false.

Lemma two_of_three_qrep : qrep two_of_three [[Some "a"; Some "b"]; [Some "c"; Some "d"]]%char.
Proof.
  constructor; try (simpl; unfold int_max; lia); try done.
  intros [|[|i]] x Hi; [by injection Hi as <-..|done].
Qed.

Lemma byte_queue_observers_witness :
  private_queueGetSize two_of_three = 2 ∧ private_queueGetData two_of_three 2 = Ok None.
Proof.
  destruct (proj1 (byte_queue_observers two_of_three _ two_of_three_qrep)) as [E H]; [unfold straight; simpl; lia|].
  split; [exact E|exact (H 2%nat)].
Defined.

