(* ===== verification/CircularQueue.v ===== *)
(** * The concurrent queue of cjunk/practice/circularqueue.cc

    [m_head] and [m_tail] are [std::atomic_uint] (32 bits), the two semaphores
    are counters of at most [N], and an element that was never written is
    indeterminate.  A thread is a program counter inside [push], [try_push] or
    [pop]; one step is one atomic operation, one semaphore operation or one access
    to [m_data], so that every interleaving of the source's operations is a
    sequence of steps.

    [pop] ends with [m_sem_full.post()], which [std::counting_semaphore] does not
    have, so that [pop] cannot be instantiated as it stands.  What the statement would
    do is the parameter [post] of the steps; [post_of] has the two readings of it, that
    it is left out and that it is the [release] its position suggests. *)

From Stdlib Require Import ZArith Lia.
From stdpp Require Import base list sets relations.
From S2P Require Import Prelude.
Local Open Scope Z_scope.

Section CircularQueue.
Context {T : Type} (N : Z) (post : Z → outcome Z).

Record shared := mkShared {
  m_head : Z; m_tail : Z; m_data : list (option T); m_sem_empty : Z; m_sem_full : Z }.

Definition CircularQueue_init : shared :=
  mkShared 0 0 (replicate (Z.to_nat N) None) 0 N.

(** Where a thread is in [push] and [try_push]. *)
Inductive producer_pc :=
| PIdle                       (* before the next call *)
| PAcquired (x : T)           (* m_sem_full was acquired *)
| PIndexed (x : T) (i : Z)    (* m_head++ gave i *)
| PWritten (x : T).           (* m_data[i % N] = item is done *)

(** Where a thread is in [pop]. *)
Inductive consumer_pc :=
| CIdle
| CAcquired                   (* m_sem_empty was acquired *)
| CIndexed (i : Z)            (* m_tail++ gave i *)
| CRead (x : T)               (* item = m_data[i % N] *)
| CReleased (x : T)           (* m_sem_full was released *)
| CTail (x : T) (e : Z)       (* expected = m_tail.load() *)
| CTailDone (x : T)
| CHead (x : T) (e : Z)       (* expected = m_head.load() *)
| CHeadDone (x : T).

(** A producer has calls to make ([true] for [push], [false] for [try_push]) and
    the items its calls accepted so far; a consumer has the items it popped. *)
Inductive thread :=
| Producer (todo : list (bool * T)) (acc : list T) (pc : producer_pc)
| Consumer (got : list T) (pc : consumer_pc).

Definition sem_release (c : Z) : outcome Z :=
  if c <? N then Ok (c + 1) else Undef bad_precondition.

Definition slot_write (d : list (option T)) (i : Z) (x : T) : list (option T) :=
  <[Z.to_nat (i mod N) := Some x]> d.

Definition slot_read (d : list (option T)) (i : Z) : outcome T :=
  match d !! Z.to_nat (i mod N) with
  | Some (Some x) => Ok x
  | Some None => Undef uninit_read
  | None => Undef oob_access
  end.

(** [try_acquire] may fail although the counter is positive ([spurious]). *)
Definition producer_step (spurious : bool) (s : shared) (todo : list (bool * T)) (acc : list T)
    (pc : producer_pc) : option (outcome (shared * thread)) :=
  match pc with
  | PIdle =>
      match todo with
      | [] => None
      | (blocking, x) :: todo' =>
          if (0 <? m_sem_full s) && (blocking || negb spurious) then
            Some (Ok (mkShared (m_head s) (m_tail s) (m_data s) (m_sem_empty s) (m_sem_full s - 1),
                      Producer todo' (acc ++ [x]) (PAcquired x)))
          else if blocking then None
          else Some (Ok (s, Producer todo' acc PIdle))
      end
  | PAcquired x =>
      Some (Ok (mkShared (u32 (m_head s + 1)) (m_tail s) (m_data s) (m_sem_empty s) (m_sem_full s),
                Producer todo acc (PIndexed x (m_head s))))
  | PIndexed x i =>
      Some (Ok (mkShared (m_head s) (m_tail s) (slot_write (m_data s) i x)
                  (m_sem_empty s) (m_sem_full s),
                Producer todo acc (PWritten x)))
  | PWritten x =>
      Some (e ← sem_release (m_sem_empty s);
            Ok (mkShared (m_head s) (m_tail s) (m_data s) e (m_sem_full s), Producer todo acc PIdle))
  end.

(** [compare_exchange_strong(expected, expected % N)]. *)
Definition cas_mod (v e : Z) : Z := if v =? e then e mod N else v.

Definition consumer_step (s : shared) (got : list T) (pc : consumer_pc)
    : option (outcome (shared * thread)) :=
  match pc with
  | CIdle =>
      if 0 <? m_sem_empty s then
        Some (Ok (mkShared (m_head s) (m_tail s) (m_data s) (m_sem_empty s - 1) (m_sem_full s),
                  Consumer got CAcquired))
      else None
  | CAcquired =>
      Some (Ok (mkShared (m_head s) (u32 (m_tail s + 1)) (m_data s) (m_sem_empty s) (m_sem_full s),
                Consumer got (CIndexed (m_tail s))))
  | CIndexed i => Some (x ← slot_read (m_data s) i; Ok (s, Consumer got (CRead x)))
  | CRead x =>
      Some (f ← sem_release (m_sem_full s);
            Ok (mkShared (m_head s) (m_tail s) (m_data s) (m_sem_empty s) f, Consumer got (CReleased x)))
  | CReleased x => Some (Ok (s, Consumer got (CTail x (m_tail s))))
  | CTail x e =>
      Some (Ok (mkShared (m_head s) (cas_mod (m_tail s) e) (m_data s) (m_sem_empty s) (m_sem_full s),
                Consumer got (CTailDone x)))
  | CTailDone x => Some (Ok (s, Consumer got (CHead x (m_head s))))
  | CHead x e =>
      Some (Ok (mkShared (cas_mod (m_head s) e) (m_tail s) (m_data s) (m_sem_empty s) (m_sem_full s),
                Consumer got (CHeadDone x)))
  | CHeadDone x =>
      Some (f ← post (m_sem_full s);
            Ok (mkShared (m_head s) (m_tail s) (m_data s) (m_sem_empty s) f,
                Consumer (got ++ [x]) CIdle))
  end.

(** [None]: the thread waits on a semaphore (or has no call left to make). *)
Definition thread_step (spurious : bool) (s : shared) (t : thread) : option (outcome (shared * thread)) :=
  match t with
  | Producer todo acc pc => producer_step spurious s todo acc pc
  | Consumer got pc => consumer_step s got pc
  end.

Definition config : Type := shared * list thread.

(** One step of one thread. *)
Inductive step : config → config → Prop :=
| step_thread s ts i t spurious s' t' :
    ts !! i = Some t →
    thread_step spurious s t = Some (Ok (s', t')) →
    step (s, ts) (s', <[i := t']> ts).

(** Some thread can perform an operation with undefined behaviour. *)
Definition goes_wrong (c : config) : Prop :=
  ∃ t spurious u, t ∈ c.2 ∧ thread_step spurious c.1 t = Some (Undef u).

(** ** One producer and one consumer *)

Section Spsc.
(** The number of items the producer will push; either [N] divides 2^32, so that
    wrapping around keeps indices correct, or fewer than 2^32 items are pushed. *)
Context (M : Z) (HN : 1 ≤ N < 2 ^ 32) (HM : (N | 2 ^ 32) ∨ M < 2 ^ 32)
        (Hpost : ∀ c, post c = Ok c).

(** Completed increments of [m_head], writes, and releases of [m_sem_empty], as
    an amount below the number of accepted items. *)
Definition p_inc (pc : producer_pc) : Z := match pc with PAcquired _ => 1 | _ => 0 end.
Definition p_wr (pc : producer_pc) : Z :=
  match pc with PAcquired _ | PIndexed _ _ => 1 | _ => 0 end.
Definition p_rel (pc : producer_pc) : Z := match pc with PIdle => 0 | _ => 1 end.

(** Acquisitions of [m_sem_empty], increments of [m_tail], reads, and releases of
    [m_sem_full], as an amount above the number of returned items. *)
Definition c_acq (pc : consumer_pc) : Z := match pc with CIdle => 0 | _ => 1 end.
Definition c_inc (pc : consumer_pc) : Z := match pc with CIdle | CAcquired => 0 | _ => 1 end.
Definition c_rd (pc : consumer_pc) : Z :=
  match pc with CIdle | CAcquired | CIndexed _ => 0 | _ => 1 end.
Definition c_rel (pc : consumer_pc) : Z :=
  match pc with CIdle | CAcquired | CIndexed _ | CRead _ => 0 | _ => 1 end.

(** [v] is an index that stands for the [k]-th item. *)
Definition index_of (v k : Z) : Prop := v mod N = k mod N ∧ 0 ≤ v ≤ k ∧ v < 2 ^ 32.

Definition p_local (acc : list T) (pc : producer_pc) : Prop :=
  match pc with
  | PIdle => True
  | PAcquired x | PWritten x => last acc = Some x
  | PIndexed x i => last acc = Some x ∧ i mod N = (Z.of_nat (length acc) - 1) mod N
  end.

Definition c_local (s : shared) (acc got : list T) (pc : consumer_pc) : Prop :=
  match pc with
  | CIdle | CAcquired => True
  | CIndexed i => i mod N = Z.of_nat (length got) mod N
  | CRead x | CReleased x | CTailDone x | CHeadDone x | CHead x _ => acc !! length got = Some x
  | CTail x e => acc !! length got = Some x ∧ e = m_tail s
  end.

Record spsc_inv (s : shared) (todo : list (bool * T)) (acc : list T) (pp : producer_pc)
    (got : list T) (cp : consumer_pc) : Prop := {
  i_len : Z.of_nat (length (m_data s)) = N;
  i_total : Z.of_nat (length todo) + Z.of_nat (length acc) ≤ M;
  i_head : index_of (m_head s) (Z.of_nat (length acc) - p_inc pp);
  i_tail : index_of (m_tail s) (Z.of_nat (length got) + c_inc cp);
  i_empty : m_sem_empty s = Z.of_nat (length acc) - p_rel pp - (Z.of_nat (length got) + c_acq cp);
  i_full : m_sem_full s = N - Z.of_nat (length acc) + (Z.of_nat (length got) + c_rel cp);
  i_sems : 0 ≤ m_sem_empty s ∧ 0 ≤ m_sem_full s;
  i_data : ∀ (i : nat) x, acc !! i = Some x → Z.of_nat (length got) + c_rd cp ≤ Z.of_nat i →
    Z.of_nat i < Z.of_nat (length acc) - p_wr pp →
    m_data s !! Z.to_nat (Z.of_nat i mod N) = Some (Some x);
  i_got : got `prefix_of` acc;
  i_p : p_local acc pp;
  i_c : c_local s acc got cp;
}.

Lemma index_incr v k : index_of v k → k < M → index_of (u32 (v + 1)) (k + 1).
Proof.
  intros (E & Hv & Hlt) Hk. unfold u32.
  assert ((v + 1) mod N = (k + 1) mod N) as E1 by (rewrite <- Zplus_mod_idemp_l, E; apply Zplus_mod_idemp_l).
  destruct (decide (v + 1 < 2 ^ 32)).
  - rewrite Z.mod_small by lia. split; [done|lia].
  - destruct HM as [Hdiv|]; [|lia]. pose proof (Z.mod_pos_bound (v + 1) (2 ^ 32)).
    split; [|lia]. rewrite Z.mod_mod_divide; [done|done].
Qed.

Lemma index_cas v k e : index_of v k → index_of (cas_mod v e) k.
Proof.
  unfold cas_mod. intros (E & Hv & Hlt). destruct (Z.eqb_spec v e) as [<-|]; [|done].
  pose proof (Z.mod_pos_bound v N). pose proof (Z.mod_le v N).
  split; [by rewrite Zmod_mod|lia].
Qed.

Lemma last_lookup_acc (acc : list T) x i :
  last acc = Some x → Z.of_nat i = Z.of_nat (length acc) - 1 → acc !! i = Some x.
Proof. intros Hl Hi. rewrite last_lookup in Hl. rewrite <- Hl. f_equal. lia. Qed.

(** Two items that are both in the queue have different slots. *)
Lemma slots_differ i j : i < j < i + N → i mod N ≠ j mod N.
Proof.
  intros Hij E. apply (f_equal (fun z => (z - i) mod N)) in E. rewrite !Zminus_mod_idemp_l in E.
  rewrite Z.sub_diag, Z.mod_0_l, Z.mod_small in E; lia.
Qed.

Ltac inv_open H :=
  destruct H as [Hlen Htotal Hhead Htail Hempty Hfull Hsems Hdata Hgot Hp Hc]; simpl in *.

Lemma producer_ok sp s todo acc pp got cp :
  spsc_inv s todo acc pp got cp →
  producer_step sp s todo acc pp = None ∨
  ∃ s' todo' acc' pp', producer_step sp s todo acc pp = Some (Ok (s', Producer todo' acc' pp')) ∧
    spsc_inv s' todo' acc' pp' got cp.
Proof.
  intros H. inv_open H. destruct pp as [|x|x i|x]; simpl in *.
  - destruct todo as [|[blocking x] todo]; [by left|]. simpl in *.
    destruct (_ && _) eqn:E.
    + right. do 4 eexists. split; [reflexivity|]. apply andb_true_iff in E as [E%Z.ltb_lt _].
      constructor; rewrite ?length_app; simpl; try lia; try done.
      * by replace (_ - 1) with (Z.of_nat (length acc) - 0) by lia.
      * intros i y Hi Hge Hlt. rewrite lookup_app_l in Hi by lia. apply Hdata; [done|lia..].
      * by apply prefix_app_r.
      * by rewrite last_snoc.
      * destruct cp; simpl in *; try done; try (by apply lookup_app_l_Some).
        destruct Hc; split; [by apply lookup_app_l_Some|done].
    + destruct blocking; [by left|]. right. do 4 eexists. split; [reflexivity|].
      constructor; simpl; try lia; try done.
  - right. do 4 eexists. split; [reflexivity|]. constructor; simpl; try done.
    + replace (_ - 0) with (Z.of_nat (length acc) - 1 + 1) by lia. apply index_incr; [done|lia].
    + split; [done|]. apply Hhead.
  - right. do 4 eexists. split; [reflexivity|].
    destruct Hp as [Hlast Hi]. pose proof (Z.mod_pos_bound i N).
    constructor; simpl; try done.
    + unfold slot_write. by rewrite length_insert.
    + intros j y Hj Hge Hlt. unfold slot_write. rewrite Hi.
      destruct (decide (Z.of_nat j = Z.of_nat (length acc) - 1)) as [Ej|Hne].
      * rewrite (last_lookup_acc acc x j) in Hj by done. injection Hj as ->.
        rewrite Ej. apply list_lookup_insert_eq. lia.
      * rewrite list_lookup_insert_ne; [apply Hdata; [done|lia..]|].
        intros E%Z2Nat.inj; [|apply Z.mod_pos_bound; lia..]. symmetry in E.
        revert E. apply slots_differ. destruct cp; simpl in *; lia.
  - right. unfold sem_release. rewrite (proj2 (Z.ltb_lt _ _)).
    + cbn [mbind outcome_bind]. do 4 eexists. split; [reflexivity|].
      constructor; simpl; try done; try lia.
    + destruct cp; simpl in *; lia.
Qed.

(** Bounds that follow from the counters: at most [N] items are in flight. *)
Lemma inv_bounds s todo acc pp got cp :
  spsc_inv s todo acc pp got cp →
  Z.of_nat (length got) + c_acq cp ≤ Z.of_nat (length acc) - p_rel pp ∧
  Z.of_nat (length acc) ≤ Z.of_nat (length got) + c_rel cp + N ∧
  Z.of_nat (length acc) ≤ M.
Proof. intros H. inv_open H. lia. Qed.

Lemma got_snoc (acc got : list T) x :
  got `prefix_of` acc → acc !! length got = Some x → got ++ [x] `prefix_of` acc.
Proof.
  intros [k ->] Hx. rewrite lookup_app_r, Nat.sub_diag in Hx by lia.
  destruct k as [|y k]; [done|]. injection Hx as ->. exists k. by rewrite <- app_assoc.
Qed.

Lemma consumer_ok s todo acc pp got cp :
  spsc_inv s todo acc pp got cp →
  consumer_step s got cp = None ∨
  ∃ s' got' cp', consumer_step s got cp = Some (Ok (s', Consumer got' cp')) ∧
    spsc_inv s' todo acc pp got' cp'.
Proof.
  intros H. pose proof (inv_bounds _ _ _ _ _ _ H) as (Hb1 & Hb2 & Hb3). inv_open H.
  assert (p_wr pp ≤ p_rel pp ∧ 0 ≤ p_rel pp) as Hpr by (destruct pp; simpl; lia).
  destruct cp as [| |i|x|x|x e|x|x e|x]; simpl in *.
  - destruct (Z.ltb_spec 0 (m_sem_empty s)); [|by left].
    right. do 3 eexists. split; [reflexivity|]. constructor; simpl; try done; lia.
  - right. do 3 eexists. split; [reflexivity|]. constructor; simpl; try done.
    + replace (Z.of_nat (length got) + 1) with (Z.of_nat (length got) + 0 + 1) by lia. apply index_incr; [done|lia].
    + destruct Htail as [E _]. by rewrite E, Z.add_0_r.
  - right. destruct (lookup_lt_is_Some_2 acc (length got)) as [x Hx]; [lia|].
    unfold slot_read. rewrite Hc, (Hdata _ x Hx) by lia. cbn [mbind outcome_bind].
    do 3 eexists. split; [reflexivity|]. constructor; simpl; try done.
    intros j y Hj Hge Hlt. apply Hdata; [done|lia..].
  - right. unfold sem_release. rewrite (proj2 (Z.ltb_lt _ _)) by lia. cbn [mbind outcome_bind].
    do 3 eexists. split; [reflexivity|]. constructor; simpl; try done; lia.
  - right. do 3 eexists. split; [reflexivity|]. by constructor.
  - right. do 3 eexists. split; [reflexivity|]. destruct Hc.
    constructor; simpl; try done. by apply index_cas.
  - right. do 3 eexists. split; [reflexivity|]. by constructor.
  - right. do 3 eexists. split; [reflexivity|].
    constructor; simpl; try done. by apply index_cas.
  - right. rewrite Hpost. cbn [mbind outcome_bind]. do 3 eexists. split; [reflexivity|].
    constructor; rewrite ?length_app; simpl; try done; try lia.
    + rewrite Z.add_0_r, Nat2Z.inj_add. exact Htail.
    + intros j y Hj Hge Hlt. apply Hdata; [done|lia..].
    + by apply got_snoc.
Qed.

Lemma init_inv todo :
  Z.of_nat (length todo) ≤ M → spsc_inv CircularQueue_init todo [] PIdle [] CIdle.
Proof.
  intros Hl. constructor; simpl; try done; try lia.
  - rewrite length_replicate. lia.
Qed.

Lemma spsc_step s todo acc pp got cp c' :
  spsc_inv s todo acc pp got cp →
  step (s, [Producer todo acc pp; Consumer got cp]) c' →
  ∃ s' todo' acc' pp' got' cp', c' = (s', [Producer todo' acc' pp'; Consumer got' cp']) ∧
    spsc_inv s' todo' acc' pp' got' cp'.
Proof.
  intros Hinv Hstep. inversion Hstep as [s0 ts i t sp s' t' Hi Ht]; subst.
  destruct i as [|[|i]]; [| |done]; injection Hi as <-; cbn [thread_step] in Ht.
  - destruct (producer_ok sp _ _ _ _ _ _ Hinv) as [E|(s1 & td & ac & p & E & H1)];
      rewrite E in Ht; simplify_eq. simpl. eauto 10.
  - destruct (consumer_ok _ _ _ _ _ _ Hinv) as [E|(s1 & g & p & E & H1)];
      rewrite E in Ht; simplify_eq. simpl. eauto 10.
Qed.

Definition spsc_ok (c : config) : Prop :=
  ∃ s todo acc pp got cp, c = (s, [Producer todo acc pp; Consumer got cp]) ∧
    spsc_inv s todo acc pp got cp.

Lemma spsc_reachable todo c :
  Z.of_nat (length todo) ≤ M →
  rtc step (CircularQueue_init, [Producer todo [] PIdle; Consumer [] CIdle]) c → spsc_ok c.
Proof.
  intros Hl Hr. eapply (rtc_preserve step spsc_ok); [| |exact Hr].
  - intros c1 c2 (s & td & ac & p & g & q & -> & H) Hs. by eapply spsc_step.
  - do 6 eexists. split; [reflexivity|]. by apply init_inv.
Qed.

(** Two accesses to the same slot that nothing orders. *)
Definition data_race (pp : producer_pc) (cp : consumer_pc) : Prop :=
  match pp, cp with
  | PIndexed _ i, CIndexed j => i mod N = j mod N
  | _, _ => False
  end.

Lemma spsc_no_wrong s todo acc pp got cp :
  spsc_inv s todo acc pp got cp → ¬ goes_wrong (s, [Producer todo acc pp; Consumer got cp]).
Proof.
  intros Hinv (t & sp & u & Ht & E). simpl in Ht, E.
  apply elem_of_cons in Ht as [->|Ht].
  - destruct (producer_ok sp _ _ _ _ _ _ Hinv) as [E'|(? & ? & ? & ? & E' & _)]; simpl in E; congruence.
  - apply elem_of_cons in Ht as [->|Ht]; [|by apply elem_of_nil in Ht].
    destruct (consumer_ok _ _ _ _ _ _ Hinv) as [E'|(? & ? & ? & E' & _)]; simpl in E; congruence.
Qed.

Lemma spsc_no_race s todo acc pp got cp :
  spsc_inv s todo acc pp got cp → ¬ data_race pp cp.
Proof.
  intros Hinv. pose proof (inv_bounds _ _ _ _ _ _ Hinv) as (Hb1 & Hb2 & _). inv_open Hinv.
  destruct pp as [| |x i|]; try tauto. destruct cp as [| |j| | | | | |]; try tauto. simpl in *.
  destruct Hp as [_ Hi]. rewrite Hi, Hc. intros E. symmetry in E. revert E. apply slots_differ. lia.
Qed.

(** Neither thread waits for ever for the other. *)
Lemma spsc_progress s todo acc pp got cp :
  spsc_inv s todo acc pp got cp →
  (todo = [] ∧ pp = PIdle ∧ cp = CIdle ∧ got = acc) ∨
  ∃ c', step (s, [Producer todo acc pp; Consumer got cp]) c'.
Proof.
  intros Hinv. destruct (producer_ok false _ _ _ _ _ _ Hinv) as [E|(s1 & td & ac & p & E & _)].
  2:{ right. eexists. by apply (step_thread _ _ 0%nat (Producer todo acc pp) false s1 (Producer td ac p)). }
  destruct (consumer_ok _ _ _ _ _ _ Hinv) as [E'|(s1 & g & p & E' & _)].
  2:{ right. eexists. by apply (step_thread _ _ 1%nat (Consumer got cp) false s1 (Consumer g p)). }
  left. destruct cp; simpl in E'; try done. destruct pp; simpl in E; try done.
  inv_open Hinv. destruct (Z.ltb_spec 0 (m_sem_empty s)); [done|].
  destruct todo as [|[b x] todo]; [|destruct (Z.ltb_spec 0 (m_sem_full s)); [by destruct b|lia]].
  split_and!; try done. destruct Hgot as [k ->]. rewrite length_app in *.
  destruct k; [by rewrite app_nil_r|simpl in *; lia].
Qed.
End Spsc.
End CircularQueue.

(** ** Schedules

    A schedule names the thread that makes each step; it evaluates to the state
    it leads to. *)
Fixpoint run_schedule {T} (N : Z) (post : Z → outcome Z) (sched : list nat) (c : config (T := T))
    : option config :=
  match sched with
  | [] => Some c
  | i :: sched' =>
      match c.2 !! i ≫= thread_step N post false c.1 with
      | Some (Ok (s', t')) => run_schedule N post sched' (s', <[i := t']> c.2)
      | _ => None
      end
  end.

Lemma run_schedule_rtc {T} N post sched (c c' : config (T := T)) :
  run_schedule N post sched c = Some c' → rtc (step N post) c c'.
Proof.
  revert c. induction sched as [|i sched IH]; intros [s ts] H; cbn [run_schedule] in H.
  { injection H as ->. constructor. }
  destruct (_ ≫= _) as [[[s' t']| | |]|] eqn:E; try done.
  apply bind_Some in E as (t & Ht & E). eapply rtc_l; [|by apply IH].
  by econstructor.
Qed.



(** If the last statement of [pop] released [m_sem_full], as its position
    suggests, each pop would release it twice: one push and one pop already
    raise the counter above its maximum, whatever the capacity. *)
Theorem post_release_exceeds_maximum {T : Type} (N : Z) (b : bool) (x : T) calls (HN : 1 ≤ N < 2 ^ 32) :
  ∃ c, rtc (step N (sem_release N))
    (CircularQueue_init N, [Producer ((b, x) :: calls) [] PIdle; Consumer [] CIdle]) c ∧
    goes_wrong N (sem_release N) c.
Proof.
  set (d := replicate (Z.to_nat N) (@None T)).
  set (s := mkShared (cas_mod N 1 1) (cas_mod N 1 1) (slot_write N d 0 x) 0 N).
  exists (s, [Producer calls [x] PIdle; Consumer [] (CHeadDone x)]).
  split.
  - eapply (run_schedule_rtc _ _ [0; 0; 0; 0; 1; 1; 1; 1; 1; 1; 1; 1]%nat).
    unfold CircularQueue_init. fold d. cbn -[Z.ltb slot_write u32 Z.sub Z.add d slot_read cas_mod].
    rewrite (proj2 (Z.ltb_lt 0 N)) by lia. rewrite orb_true_r.
    cbn -[Z.ltb slot_write u32 Z.sub Z.add d slot_read cas_mod sem_release].
    unfold sem_release. rewrite (proj2 (Z.ltb_lt 0 N)) by lia.
    cbn -[Z.ltb slot_write u32 Z.sub Z.add d slot_read cas_mod].
    change (0 <? 0 + 1) with true. cbn -[Z.ltb slot_write u32 Z.sub Z.add d slot_read cas_mod].
    assert (slot_read N (slot_write N d 0 x) 0 = Ok x) as ->.
    { unfold slot_read, slot_write. rewrite list_lookup_insert_eq; [done|].
      unfold d. rewrite length_replicate. pose proof (Z.mod_pos_bound 0 N). lia. }
    cbn -[Z.ltb slot_write u32 Z.sub Z.add d slot_read cas_mod].
    unfold sem_release. rewrite (proj2 (Z.ltb_lt (N - 1) N)) by lia.
    cbn -[Z.ltb slot_write u32 Z.sub Z.add d slot_read cas_mod].
    unfold s. do 3 f_equal. lia.
  - exists (Consumer [] (CHeadDone x)), false, bad_precondition. split; [set_solver|].
    cbn. f_equal. unfold sem_release. by rewrite Z.ltb_irrefl.
Qed.

Lemma post_release_exceeds_maximum_witness :
  ∃ c, rtc (step 10 (sem_release 10))
    (CircularQueue_init 10, [Producer [(true, 1)] [] PIdle; Consumer [] CIdle]) c ∧
    goes_wrong 10 (sem_release 10) c.
Proof. apply (post_release_exceeds_maximum 10 true 1 []). lia. Defined.

(** ** The two readings of the last statement of [pop] *)

Inductive post_reading := LeftOut | AsRelease.

Definition post_of (N : Z) (r : post_reading) : Z → outcome Z :=
  match r with LeftOut => Ok | AsRelease => sem_release N end.

(** A producer that makes these calls, and a consumer. *)
Definition spsc_start {T} (N : Z) (calls : list (bool * T)) : config :=
  (CircularQueue_init N, [Producer calls [] PIdle; Consumer [] CIdle]).

(** C13: one producer and one consumer, where the capacity divides 2^32 or fewer than
    2^32 items are pushed.  If the statement [m_sem_full.post()], which names a member
    that does not exist, is left out, then in every interleaving of their steps the
    popped items are a prefix of the accepted ones (first in, first out, nothing lost
    or duplicated), no operation has undefined behaviour, the two never access the
    same slot at the same time, at most [N] items are in the queue, and one of them can
    always continue until every accepted item was popped.  If it is a [release], the
    first item that is pushed and popped leads to a release beyond the maximum. *)
Theorem spsc_correct {T : Type} (N M : Z) (calls : list (bool * T))
    (HN : 1 ≤ N < 2 ^ 32) (HM : (N | 2 ^ 32) ∨ M < 2 ^ 32) (Hcalls : Z.of_nat (length calls) ≤ M) :
  (∀ c, rtc (step N (post_of N LeftOut)) (spsc_start N calls) c →
     ∃ s todo acc pp got cp, c = (s, [Producer todo acc pp; Consumer got cp]) ∧
       got `prefix_of` acc ∧
       (length acc ≤ length got + 1 + Z.to_nat N)%nat ∧
       ¬ goes_wrong N (post_of N LeftOut) c ∧ ¬ data_race N pp cp ∧
       ((todo = [] ∧ got = acc) ∨ ∃ c', step N (post_of N LeftOut) c c')) ∧
  (calls ≠ [] →
     ∃ c, rtc (step N (post_of N AsRelease)) (spsc_start N calls) c ∧ goes_wrong N (post_of N AsRelease) c).
Proof.
  split.
  - intros c Hreach.
    destruct (spsc_reachable N Ok M HN HM (fun _ => eq_refl) calls c Hcalls Hreach)
      as (s & todo & acc & pp & got & cp & -> & Hinv).
    exists s, todo, acc, pp, got, cp. split; [done|].
    pose proof (inv_bounds _ _ _ _ _ _ _ _ Hinv) as (_ & Hb & _).
    split_and!; [apply Hinv| |by eapply spsc_no_wrong|by eapply spsc_no_race|].
    + destruct cp; simpl in Hb; lia.
    + destruct (spsc_progress N Ok M HN HM (fun _ => eq_refl) _ _ _ _ _ _ Hinv) as [(-> & _ & _ & ->)|]; auto.
  - destruct calls as [|[b x] calls]; [done|]. intros _. by apply post_release_exceeds_maximum.
Qed.

Lemma spsc_correct_witness :
  (∃ c : config (T := Z), rtc (step 1 (post_of 1 LeftOut)) (spsc_start 1 [(true, 5); (false, 6); (true, 7)]) c ∧
     ¬ goes_wrong 1 (post_of 1 LeftOut) c) ∧
  ∃ c : config (T := Z), rtc (step 1 (post_of 1 AsRelease)) (spsc_start 1 [(true, 5); (false, 6); (true, 7)]) c ∧
     goes_wrong 1 (post_of 1 AsRelease) c.
Proof.
  destruct (spsc_correct 1 3 [(true, 5); (false, 6); (true, 7)] ltac:(lia)
    (or_introl (Z.divide_1_l _)) ltac:(simpl; lia)) as [Hleft Hrelease].
  split; [|by apply Hrelease]. set (c0 := spsc_start 1 _).
  destruct (run_schedule 1 (post_of 1 LeftOut) [0; 0; 0; 0; 0; 1; 1; 1; 1; 0; 0; 1; 1; 1]%nat c0) as [c|] eqn:E;
    [|vm_compute in E; discriminate].
  exists c. pose proof (run_schedule_rtc _ _ _ _ _ E) as Hr. split; [exact Hr|].
  destruct (Hleft c Hr) as (? & ? & ? & ? & ? & ? & _ & _ & _ & H & _). exact H.
Defined.
