(* ===== verification/Loops.v ===== *)
(** * Counting loops and vectors

    [for_loop] is [for (int j = ...; j < bound; ++j)] with a body that updates a
    state; [vec_get] and [vec_set] are [operator[]] of [std::vector] and
    [std::array], which has undefined behaviour out of range. *)

From Stdlib Require Import ZArith Lia.
From stdpp Require Import base list.
From S2P Require Import Prelude.
Local Open Scope Z_scope.

Definition vec_get {A} (l : list A) (i : Z) : outcome A :=
  if 0 <=? i then match l !! Z.to_nat i with Some x => Ok x | None => Undef oob_access end
  else Undef oob_access.

Definition vec_set {A} (l : list A) (i : Z) (x : A) : outcome (list A) :=
  if (0 <=? i) && (i <? Z.of_nat (length l)) then Ok (<[Z.to_nat i := x]> l)
  else Undef oob_access.

(** [std::swap(l[i], l[j])]. *)
Definition vec_swap {A} (l : list A) (i j : Z) : outcome (list A) :=
  x ← vec_get l i; y ← vec_get l j; l ← vec_set l i y; vec_set l j x.

Lemma vec_get_ok {A} (l : list A) i :
  0 ≤ i < Z.of_nat (length l) → ∃ x, vec_get l i = Ok x ∧ l !! Z.to_nat i = Some x.
Proof.
  intros Hi. destruct (lookup_lt_is_Some_2 l (Z.to_nat i)) as [x Hx]; [lia|].
  exists x. unfold vec_get. rewrite (proj2 (Z.leb_le 0 i)), Hx by lia. done.
Qed.

Lemma vec_set_ok {A} (l : list A) i x :
  0 ≤ i < Z.of_nat (length l) → vec_set l i x = Ok (<[Z.to_nat i := x]> l).
Proof. intros Hi. unfold vec_set. by rewrite (proj2 (Z.leb_le 0 i)), (proj2 (Z.ltb_lt _ _)) by lia. Qed.

Lemma vec_get_oob {A} (l : list A) i : Z.of_nat (length l) ≤ i → vec_get l i = Undef oob_access.
Proof.
  intros Hi. unfold vec_get. rewrite (proj2 (Z.leb_le 0 i)), lookup_ge_None_2 by lia. done.
Qed.

Lemma insert_insert_perm {A} (l : list A) i j x y :
  l !! i = Some x → l !! j = Some y → <[j := x]> (<[i := y]> l) ≡ₚ l.
Proof.
  intros Hi Hj. destruct (decide (i = j)) as [->|Hne].
  { rewrite list_insert_insert_eq, list_insert_id; [done|congruence]. }
  assert (∀ i j x y (l : list A), (i < j)%nat → l !! i = Some x → l !! j = Some y →
          <[j := x]> (<[i := y]> l) ≡ₚ l) as Hlt.
  { clear. intros i j x y l Hlt Hi Hj.
    pose proof (take_drop_middle l i x Hi) as E1.
    assert (drop (S i) l !! (j - S i)%nat = Some y) as Hj' by (rewrite lookup_drop; rewrite <- Hj; f_equal; lia).
    pose proof (take_drop_middle _ _ _ Hj') as E2.
    set (a := take i l) in *. set (b := take (j - S i) (drop (S i) l)) in *.
    set (c := drop (S (j - S i)) (drop (S i) l)) in *.
    assert (length a = i) as La by (unfold a; apply lookup_lt_Some in Hi; rewrite length_take; lia).
    assert (length b = (j - S i)%nat) as Lb.
    { unfold b. apply lookup_lt_Some in Hj'. rewrite length_take. lia. }
    assert (l = a ++ x :: b ++ y :: c) as El by by rewrite E2, E1. clearbody a b c.
    rewrite El. rewrite insert_app_r_alt, La, Nat.sub_diag by lia. simpl.
    rewrite insert_app_r_alt, La by lia. replace (j - i)%nat with (S (j - S i)) by lia. simpl.
    rewrite insert_app_r_alt, Lb, Nat.sub_diag by lia. simpl.
    apply Permutation_app_head.
    rewrite <- (Permutation_middle b c x), <- (Permutation_middle b c y). apply perm_swap. }
  destruct (decide (i < j)%nat); [by apply Hlt|].
  rewrite list_insert_insert_ne by done. apply Hlt; [lia|done..].
Qed.

Lemma vec_swap_ok {A} (l : list A) i j :
  0 ≤ i < Z.of_nat (length l) → 0 ≤ j < Z.of_nat (length l) →
  ∃ l', vec_swap l i j = Ok l' ∧ l' ≡ₚ l.
Proof.
  intros Hi Hj. unfold vec_swap.
  destruct (vec_get_ok l i Hi) as (x & -> & Hx). destruct (vec_get_ok l j Hj) as (y & -> & Hy).
  cbn [mbind outcome_bind]. rewrite vec_set_ok by done. cbn [mbind outcome_bind].
  rewrite vec_set_ok by (by rewrite length_insert).
  eexists. split; [done|]. by apply insert_insert_perm.
Qed.

(** ** Loops *)

Fixpoint for_loop {S} (fuel : nat) (j bound : Z) (body : Z → S → fuelled S) (s : S) : fuelled S :=
  if j <? bound then
    match fuel with
    | O => OutOfFuel
    | Datatypes.S fuel' =>
        s ← body j s; j' ← Done (int32 (j + 1)); for_loop fuel' j' bound body s
    end
  else mret s.

(** The rule for loops: an invariant of the counter and the state. *)
Lemma for_loop_inv {S} (I : Z → S → Prop) fuel j bound body s :
  0 ≤ j ≤ bound → bound ≤ int_max → bound - j ≤ Z.of_nat fuel →
  (∀ k s, j ≤ k < bound → I k s → ∃ s', body k s = Done (Ok s') ∧ I (k + 1) s') →
  I j s → ∃ s', for_loop fuel j bound body s = Done (Ok s') ∧ I bound s'.
Proof.
  revert j s. induction fuel as [|fuel IH]; intros j s Hj Hb Hf Hbody Hs.
  { assert (j = bound) as -> by lia. simpl. rewrite Z.ltb_irrefl. eauto. }
  cbn [for_loop]. destruct (Z.ltb_spec j bound).
  - destruct (Hbody j s) as (s1 & -> & H1); [lia|done|]. cbn [mbind fuelled_bind].
    rewrite int32_ok by (unfold int_min, int_max in *; lia). cbn [mbind fuelled_bind].
    apply IH; [lia..| |done]. intros k s2 Hk. apply Hbody. lia.
  - assert (j = bound) as -> by lia. eauto.
Qed.

(** What a loop that returned has established. *)
Lemma for_loop_partial {S} (I : Z → S → Prop) fuel j bound body s s' :
  j ≤ bound →
  (∀ k s s', j ≤ k < bound → I k s → body k s = Done (Ok s') → I (k + 1) s') →
  I j s → for_loop fuel j bound body s = Done (Ok s') → I bound s'.
Proof.
  revert j s. induction fuel as [|fuel IH]; intros j s Hj Hbody Hs E.
  { simpl in E. destruct (Z.ltb_spec j bound); [done|]. injection E as <-. by replace bound with j by lia. }
  cbn [for_loop] in E. destruct (Z.ltb_spec j bound).
  - apply fbind_ok in E as (s1 & E1 & E). apply fbind_ok in E as (j' & Ej & E).
    unfold int32 in Ej. destruct (in_int (j + 1)); [|done]. injection Ej as <-.
    eapply IH; [| |by eapply (Hbody j); [lia|..]|exact E]; [lia|].
    intros k s2 s3 Hk. apply Hbody. lia.
  - injection E as <-. by replace bound with j by lia.
Qed.

(** A loop one of whose iterations fails, and no iteration of which ends otherwise
    than by success or that failure, fails. *)
Lemma for_loop_fails {S} (u : ub) k fuel j bound body (s : S) :
  0 ≤ j ≤ k → k < bound ≤ int_max → bound - j ≤ Z.of_nat fuel →
  (∀ s, body k s = Done (Undef u)) →
  (∀ i s, (∃ s', body i s = Done (Ok s')) ∨ body i s = Done (Undef u)) →
  for_loop fuel j bound body s = Done (Undef u).
Proof.
  intros Hj Hk Hf Hfail Hbody. revert j s Hj Hf.
  induction fuel as [|fuel IH]; intros j s Hj Hf; [lia|].
  cbn [for_loop]. rewrite (proj2 (Z.ltb_lt j bound)) by lia.
  destruct (decide (j = k)) as [->|Hne]; [by rewrite Hfail|].
  destruct (Hbody j s) as [(s' & ->)| ->]; [|done]. cbn [mbind fuelled_bind].
  rewrite int32_ok by (unfold int_min, int_max in *; lia). cbn [mbind fuelled_bind].
  apply IH; lia.
Qed.

(** A loop whose iterations succeed or fail in one way does so itself. *)
Lemma for_loop_or {S} (u : ub) fuel j bound body (s : S) :
  0 ≤ j ≤ bound → bound ≤ int_max → bound - j ≤ Z.of_nat fuel →
  (∀ i s, (∃ s', body i s = Done (Ok s')) ∨ body i s = Done (Undef u)) →
  (∃ s', for_loop fuel j bound body s = Done (Ok s')) ∨ for_loop fuel j bound body s = Done (Undef u).
Proof.
  intros Hj Hb Hf Hbody. revert j s Hj Hf. induction fuel as [|fuel IH]; intros j s Hj Hf; cbn [for_loop].
  { rewrite (proj2 (Z.ltb_ge j bound)) by lia. by left; exists s. }
  destruct (Z.ltb_spec j bound); [|by left; exists s].
  destruct (Hbody j s) as [(s' & ->)| ->]; [|by right]. cbn [mbind fuelled_bind].
  rewrite int32_ok by (unfold int_min, int_max in *; lia). cbn [mbind fuelled_bind]. apply IH; lia.
Qed.
