(* ===== verification/Finance.v ===== *)
(** * The best single trade (cjunk/practice/financialAnalysis.cc)

    [Solution::maxProfit] scans the prices once, with the minimum seen so far and
    the best profit so far.  Prices are [int]s; [n = prices.size()] is converted
    to [int], [prices[i]] out of range and a difference that does not fit in
    [int] are undefined behaviour. *)

From Stdlib Require Import ZArith Lia.
From stdpp Require Import base list.
From S2P Require Import Prelude.
Local Open Scope Z_scope.

(** Conversion of a [size_t] to [int]. *)
Definition size_to_int (n : nat) : Z := (Z.of_nat n + 2 ^ 31) mod 2 ^ 32 - 2 ^ 31.

Definition vector_at (l : list Z) (i : Z) : outcome Z :=
  match l !! Z.to_nat i with
  | Some x => if 0 <=? i then Ok x else Undef oob_access
  | None => Undef oob_access
  end.

(** The [for] loop from index [i]; it makes at most [n] iterations. *)
Fixpoint maxProfit_loop (fuel : nat) (prices : list Z) (n i min_price max_profit : Z) : fuelled Z :=
  if i <? n then
    match fuel with
    | O => OutOfFuel
    | S fuel' =>
        p ← Done (vector_at prices i);
        if p <? min_price then
          i' ← Done (int32 (i + 1)); maxProfit_loop fuel' prices n i' p max_profit
        else
          d ← Done (int32 (p - min_price));
          i' ← Done (int32 (i + 1));
          maxProfit_loop fuel' prices n i' min_price (Z.max max_profit d)
    end
  else Done (Ok max_profit).

Definition maxProfit (prices : list Z) : fuelled Z :=
  let n := size_to_int (length prices) in
  if n =? 0 then Done (Ok 0)
  else
    min_price ← Done (vector_at prices 0);
    maxProfit_loop (length prices) prices n 1 min_price 0.

(** What [main] prints for its price list. *)
Example maxProfit_main : maxProfit [7; 1; 5; 3; 6; 4] = Done (Ok 5).
Proof. reflexivity. Qed.

(** ** Specification *)

(** [r] is the largest difference between a price and an earlier (or the same) one. *)
Definition best_trade (l : list Z) (r : Z) : Prop :=
  (∃ i j x y, (i ≤ j)%nat ∧ l !! i = Some x ∧ l !! j = Some y ∧ r = y - x) ∧
  (∀ i j x y, (i ≤ j)%nat → l !! i = Some x → l !! j = Some y → y - x ≤ r).

(** The scan on unbounded integers. *)
Fixpoint scan (rest : list Z) (mn mx : Z) : Z :=
  match rest with
  | [] => mx
  | p :: rest' => if p <? mn then scan rest' p mx else scan rest' mn (Z.max mx (p - mn))
  end.

Lemma scan_ge rest mn mx : mx ≤ scan rest mn mx.
Proof.
  revert mn mx. induction rest as [|p rest IH]; intros mn mx; simpl; [lia|].
  destruct (p <? mn); [apply IH|]. specialize (IH mn (Z.max mx (p - mn))). lia.
Qed.

Lemma vector_at_ok l i x : l !! i = Some x → vector_at l (Z.of_nat i) = Ok x.
Proof.
  intros Hl. unfold vector_at. rewrite Nat2Z.id, Hl. by rewrite (proj2 (Z.leb_le _ _)) by lia.
Qed.

(** The machine loop computes the scan, or overflows when its result does not fit. *)
Lemma maxProfit_loop_scan fuel seen rest mn mx :
  Z.of_nat (length (seen ++ rest)) ≤ int_max → (length rest ≤ fuel)%nat →
  Forall (fun p => int_min ≤ p ≤ int_max) rest → int_min ≤ mn ≤ int_max → 0 ≤ mx ≤ int_max →
  maxProfit_loop fuel (seen ++ rest) (Z.of_nat (length (seen ++ rest))) (Z.of_nat (length seen)) mn mx
  = Done (if scan rest mn mx <=? int_max then Ok (scan rest mn mx) else Undef signed_overflow).
Proof.
  revert fuel seen mn mx. induction rest as [|p rest IH]; intros fuel seen mn mx Hlen Hf Hr Hmn Hmx.
  { rewrite app_nil_r. destruct fuel; cbn [maxProfit_loop]; rewrite Z.ltb_irrefl; simpl;
      by rewrite (proj2 (Z.leb_le _ _)) by lia. }
  apply Forall_cons in Hr as [Hp Hr]. simpl in Hf. destruct fuel as [|fuel]; [lia|].
  cbn [maxProfit_loop]. rewrite length_app in *. simpl in Hlen.
  rewrite (proj2 (Z.ltb_lt _ _)) by (simpl; lia).
  rewrite (vector_at_ok _ _ p) by (rewrite lookup_app_r, Nat.sub_diag by lia; done).
  cbn [mbind fuelled_bind scan].
  rewrite (int32_ok (Z.of_nat (length seen) + 1)) by (unfold int_min, int_max in *; lia).
  cbn [mbind fuelled_bind].
  specialize (IH fuel (seen ++ [p])). rewrite <- app_assoc in IH. simpl in IH.
  rewrite !length_app in IH. simpl in IH. change (length (p :: rest)) with (S (length rest)).
  replace (Z.of_nat (length seen) + 1) with (Z.of_nat (length seen + 1)) by lia.
  destruct (Z.ltb_spec p mn); [apply IH; [lia|lia|done|lia..]|].
  unfold int32 at 1. destruct (in_int (p - mn)) eqn:E.
  - apply in_int_spec in E. cbn [mbind fuelled_bind].
    apply IH; [lia|lia|done|lia..].
  - cbn [mbind fuelled_bind]. pose proof (scan_ge rest mn (Z.max mx (p - mn))).
    rewrite (proj2 (Z.leb_gt _ _)); [done|].
    destruct (decide (int_min ≤ p - mn ≤ int_max)) as [HH%in_int_spec|]; [congruence|].
    unfold int_min in *. lia.
Qed.

(** No later trade, against the earlier minimum or among the remaining prices,
    beats the scan. *)
Lemma scan_upper rest mn mx :
  0 ≤ mx →
  (∀ j y, rest !! j = Some y → y - mn ≤ scan rest mn mx) ∧
  (∀ i j x y, (i ≤ j)%nat → rest !! i = Some x → rest !! j = Some y → y - x ≤ scan rest mn mx).
Proof.
  revert mn mx. induction rest as [|p rest IH]; intros mn mx Hmx; [by split; intros; simplify_eq|].
  simpl. pose proof (scan_ge rest p mx). pose proof (scan_ge rest mn (Z.max mx (p - mn))).
  destruct (IH p mx) as [IH1 IH2]; [lia|].
  destruct (IH mn (Z.max mx (p - mn))) as [IH3 IH4]; [lia|].
  destruct (Z.ltb_spec p mn); split.
  - intros [|j] y Hj; [injection Hj as ->|specialize (IH1 j y Hj)]; lia.
  - intros [|i] [|j] x y Hij Hi Hj; simpl in *; simplify_eq; try lia.
    + by apply (IH1 j).
    + apply (IH2 i j); [lia|done..].
  - intros [|j] y Hj; [injection Hj as ->|specialize (IH3 j y Hj)]; lia.
  - intros [|i] [|j] x y Hij Hi Hj; simpl in *; simplify_eq; try lia.
    + specialize (IH3 j y Hj). lia.
    + apply (IH4 i j); [lia|done..].
Qed.

(** The scan is the profit of an actual trade, or the best one of before. *)
Lemma scan_attained rest mn mx :
  scan rest mn mx = mx ∨
  ∃ j y, rest !! j = Some y ∧
    (scan rest mn mx = y - mn ∨
     ∃ i x, (i ≤ j)%nat ∧ rest !! i = Some x ∧ scan rest mn mx = y - x).
Proof.
  revert mn mx. induction rest as [|p rest IH]; intros mn mx; simpl; [by left|].
  destruct (p <? mn).
  - destruct (IH p mx) as [->|(j & y & Hj & [E|(i & x & Hij & Hi & E)])]; [by left|..]; right.
    + exists (S j), y. split; [done|]. right. exists 0%nat, p. split; [lia|done].
    + exists (S j), y. split; [done|]. right. exists (S i), x. split; [lia|done].
  - destruct (IH mn (Z.max mx (p - mn))) as [E|(j & y & Hj & [E|(i & x & Hij & Hi & E)])].
    + rewrite E. destruct (Z.max_spec mx (p - mn)) as [[_ ->]|[_ ->]]; [|by left].
      right. exists 0%nat, p. auto.
    + right. exists (S j), y. auto.
    + right. exists (S j), y. split; [done|]. right. exists (S i), x. split; [lia|done].
Qed.

Lemma scan_best p rest : best_trade (p :: rest) (scan rest p 0).
Proof.
  split.
  - destruct (scan_attained rest p 0) as [->|(j & y & Hj & [E|(i & x & Hij & Hi & E)])].
    + exists 0%nat, 0%nat, p, p. repeat split; lia.
    + exists 0%nat, (S j), p, y. repeat split; [lia|done..].
    + exists (S i), (S j), x, y. repeat split; [lia|done..].
  - destruct (scan_upper rest p 0) as [H1 H2]; [lia|]. pose proof (scan_ge rest p 0).
    intros [|i] [|j] x y Hij Hi Hj; simpl in *; simplify_eq; try lia; [by apply (H1 j)|].
    apply (H2 i j); [lia|done..].
Qed.

Lemma best_trade_unique l r r' : best_trade l r → best_trade l r' → r = r'.
Proof.
  intros [(i & j & x & y & Hij & Hi & Hj & ->) Hu] [(i' & j' & x' & y' & Hij' & Hi' & Hj' & ->) Hu'].
  specialize (Hu' i j x y Hij Hi Hj). specialize (Hu i' j' x' y' Hij' Hi' Hj'). lia.
Qed.

(** C16: [maxProfit] terminates and returns the largest difference between a
    price and an earlier one, for every non-empty list of prices; if that
    difference does not fit in [int], the subtraction overflows. *)
Theorem maxProfit_correct (prices : list Z) (r : Z)
    (Hlen : Z.of_nat (length prices) ≤ int_max)
    (Hprices : Forall (fun p => int_min ≤ p ≤ int_max) prices)
    (Hbest : best_trade prices r) :
  maxProfit prices = Done (if r <=? int_max then Ok r else Undef signed_overflow).
Proof.
  destruct prices as [|p rest]; [destruct Hbest as [(? & ? & ? & ? & _ & ? & _) _]; done|].
  rewrite (best_trade_unique _ _ _ Hbest (scan_best p rest)).
  unfold maxProfit. assert (size_to_int (length (p :: rest)) = Z.of_nat (length (p :: rest))) as ->.
  { unfold size_to_int, int_max in *. rewrite Z.mod_small by lia. lia. }
  rewrite (proj2 (Z.eqb_neq _ 0)) by (simpl; lia).
  cbn [mbind fuelled_bind vector_at lookup list_lookup Z.to_nat Z.leb Z.compare].
  apply Forall_cons in Hprices as [Hp Hrest].
  apply (maxProfit_loop_scan _ [p] rest); simpl in *; try done; unfold int_max in *; lia.
Qed.

Lemma maxProfit_correct_witness : maxProfit [7; 1; 5; 3; 6; 4] = Done (Ok 5).
Proof.
  apply (maxProfit_correct [7; 1; 5; 3; 6; 4] 5).
  - unfold int_max. simpl. lia.
  - repeat constructor; unfold int_min, int_max; lia.
  - apply (scan_best 7 [1; 5; 3; 6; 4]).
Defined.
