(* ===== verification/NodeJson.v ===== *)
(** * The eight-character strings and the [Node] serializer

    [std::array<char, 8>] holds the short strings of three programs: the class
    [SmallString] of cjunk/practice/smallString.cc, [Node] of
    cjunk/trivialJson/json.hpp with its visitor in json.cpp, and [JsonNode] of
    SmallMemoryModel.cpp (its storage and copies are in [HeapCopy]).  An array
    always has 8 characters; a shorter string is followed by NULs.

    A [Node] is a tree (its [ListPtr] may be null); [visit] returns the text and
    the lines it logs to standard output. *)

From Stdlib Require Import ZArith Lia Ascii.
From stdpp Require Import base list sets strings.
From S2P Require Import Prelude Double JsonValue JsonParser JsonGrammar JsonComplete JsonSound JsonSerialize JsonTheorems.

(** ** Arrays of eight characters *)

(** [std::copy_n(src, n, array.begin())] into a zero-initialized array. *)
Definition array8_copy (src : bytes) (n : nat) : bytes :=
  take n src ++ replicate (8 - n) nul.

(** smallString.cc *)
Definition SmallString_ctor (str : bytes) : bytes := array8_copy str (length str `min` 8).
Definition SmallString_size (characters : bytes) : nat := length (until_nul characters).
Definition SmallString_deref (characters : bytes) : bytes :=
  take (SmallString_size characters) characters.

(** json.hpp: [length] counts the terminator of the C string [s]. *)
Fixpoint Node_length (s : bytes) : nat :=
  match s with
  | [] => 1
  | c :: s' => if decide (c = nul) then 1 else Node_length s' + 1
  end.

(** The array the constructor from [char const *] stores for the text [s] before the
    terminator. *)
Definition Node_chars (s : bytes) : bytes := array8_copy (s ++ [nul]) (Node_length s `min` 8).

Definition no_nul (s : bytes) : Prop := Forall (fun c => c ≠ nul) s.

Lemma until_nul_app s r : no_nul s → until_nul (s ++ r) = s ++ until_nul r.
Proof. induction 1 as [|c s Hc Hs IH]; simpl; [done|]. by rewrite decide_False, IH. Qed.

Lemma until_nul_pad l n : until_nul (l ++ replicate n nul) = until_nul l.
Proof.
  induction l as [|c l IH]; simpl; [by destruct n|]. case_decide; [done|]. by rewrite IH.
Qed.

Lemma SmallString_deref_until characters : SmallString_deref characters = until_nul characters.
Proof.
  unfold SmallString_deref, SmallString_size. destruct (until_nul_prefix characters) as [k E].
  rewrite E at 2. apply take_app_length.
Qed.

Lemma array8_length src : length (array8_copy src (length src `min` 8)) = 8.
Proof. unfold array8_copy. rewrite length_app, length_take, length_replicate. lia. Qed.

Lemma until_nul_id s : no_nul s → until_nul s = s.
Proof. intros H. rewrite <- (app_nil_r s) at 1. rewrite until_nul_app by done. apply app_nil_r. Qed.

(** The array always has eight characters, and [*] gives back exactly the
    characters of the argument up to its first NUL or its eighth character: a
    string without NULs survives if and only if it has at most eight
    characters. *)
Theorem small_string_value (str : bytes) :
  length (SmallString_ctor str) = 8 ∧
  SmallString_deref (SmallString_ctor str) = until_nul (take 8 str) ∧
  SmallString_size (SmallString_ctor str) ≤ 8 ∧
  (no_nul str → (SmallString_deref (SmallString_ctor str) = str ↔ length str ≤ 8)).
Proof.
  assert (SmallString_deref (SmallString_ctor str) = until_nul (take 8 str)) as E.
  { rewrite SmallString_deref_until. unfold SmallString_ctor, array8_copy.
    rewrite until_nul_pad. destruct (decide (length str ≤ 8)).
    - rewrite Nat.min_l by done. by rewrite !take_ge by lia.
    - by rewrite Nat.min_r by lia. }
  split; [apply array8_length|]. split; [done|]. split.
  - unfold SmallString_size. destruct (until_nul_prefix (SmallString_ctor str)) as [k Hk].
    pose proof (array8_length str) as L. fold (SmallString_ctor str) in L.
    rewrite Hk, length_app in L. lia.
  - intros Hs. rewrite E, until_nul_id by (by apply Forall_take). split.
    + intros <-. rewrite length_take. lia.
    + intros. by rewrite take_ge.
Qed.

Lemma Node_length_no_nul s : no_nul s → Node_length s = S (length s).
Proof. induction 1 as [|c s Hc Hs IH]; simpl; [done|]. rewrite decide_False, IH by done. lia. Qed.

Lemma Node_chars_until s : no_nul s → until_nul (Node_chars s) = take 8 s.
Proof.
  intros Hs. unfold Node_chars, array8_copy. rewrite until_nul_pad, Node_length_no_nul by done.
  destruct (decide (length s < 8)).
  - rewrite !take_ge by (rewrite ?length_app; simpl; lia).
    rewrite until_nul_app by done. simpl. apply app_nil_r.
  - rewrite Nat.min_r, take_app_le by lia. apply until_nul_id. by apply Forall_take.
Qed.

(** [main] of smallString.cc: its static assertions, what it prints, and the size it
    returns. *)
Definition small_string_main : bool * bytes * Z :=
  let s := SmallString_ctor [] in
  let a := SmallString_ctor #"A" in
  (bool_decide (SmallString_size s = 0) && bool_decide (SmallString_deref s = []) && bool_decide (SmallString_deref a = #"A"),
   SmallString_deref a ++ #"size: " ++ to_string_int (Z.of_nat (SmallString_size a)) ++ [newline],
   Z.of_nat (SmallString_size a)).

Example small_string_main_result : small_string_main = (true, #"Asize: 1" ++ [newline], 1%Z).
Proof. vm_compute. reflexivity. Qed.

(** ** [Node] and its visitor *)

Inductive Node :=
| NSmallString (s : bytes)
| NInt64 (i : Z)
| NDouble (d : double)
| NListPtr (l : option (list Node)).

Section NodeInd.
Context (P : Node → Prop).
Context (Hs : ∀ s, P (NSmallString s)) (Hi : ∀ i, P (NInt64 i)) (Hd : ∀ d, P (NDouble d))
        (Hn : P (NListPtr None)) (Hl : ∀ l, Forall P l → P (NListPtr (Some l))).

Fixpoint Node_nested_ind (n : Node) : P n :=
  match n with
  | NSmallString s => Hs s
  | NInt64 i => Hi i
  | NDouble d => Hd d
  | NListPtr None => Hn
  | NListPtr (Some l) => Hl l
      ((fix go (l : list Node) : Forall P l :=
          match l with
          | [] => Forall_nil_2 P
          | x :: l' => Forall_cons_2 P x l' (Node_nested_ind x) (go l')
          end) l)
  end.
End NodeInd.

(** The constructors from a C string and from an integer; [Node()] holds eight NULs. *)
Definition Node_of_cstr (s : bytes) : Node := NSmallString (Node_chars s).
Definition Node_default : Node := NSmallString (replicate 8 nul).

(** The lines the visitor writes to [std::cout], without the mangled type name. *)
Inductive log_line := log_char_array | log_to_string.

(** The loop over a list, with the separator in front of every item but the first. *)
Section Items.
Context (visit_item : Node → bytes * list log_line).

Fixpoint visit_items (first : bool) (l : list Node) : bytes * list log_line :=
  match l with
  | [] => ([], [])
  | o :: l' =>
      let '(t1, log1) := visit_item o in
      let '(t2, log2) := visit_items false l' in
      ((if first then [] else #",") ++ t1 ++ t2, log1 ++ log2)
  end.
End Items.

Fixpoint visit (n : Node) : bytes * list log_line :=
  match n with
  | NSmallString s => ([dquote] ++ until_nul s ++ [dquote], [log_char_array])
  | NInt64 i => (to_string_int i, [log_to_string])
  | NDouble d => (to_string_double d, [log_to_string])
  | NListPtr None => (#"nullptr!!!", [])
  | NListPtr (Some l) =>
      let '(t, log) := visit_items visit true l in (#"[" ++ t ++ #"]", log)
  end.

Definition serialize (n : Node) : bytes := (visit n).1.

Example serialize_cat : serialize (Node_of_cstr #"Cat") = qlit "'Cat'".
Proof. reflexivity. Qed.
Example serialize_default : serialize Node_default = qlit "''".
Proof. reflexivity. Qed.
Example serialize_list_nodes :
  serialize (NListPtr (Some [NInt64 1; NListPtr (Some []); NInt64 (-2)])) = #"[1,[],-2]".
Proof. reflexivity. Qed.
Example serialize_1_1 : serialize (NDouble (ddiv (double_of_Z 11) (double_of_Z 10))) = #"1.100000".
Proof. vm_compute. reflexivity. Qed.

(** ** The texts are in the grammar of the parser *)

(** Nodes that have a JSON value: lists are not null, strings need no escape. *)
Inductive denotes : Node → JsonValue → Prop :=
| denotes_string s : plain_key (until_nul s) → denotes (NSmallString s) (JString (until_nul s))
| denotes_int i : in_llong i = true → denotes (NInt64 i) (JLong i)
| denotes_list l vs : Forall2 denotes l vs → denotes (NListPtr (Some l)) (JArray vs).

Lemma items_gelems l vs :
  Forall2 (fun n v => gval v (serialize n)) l vs → l ≠ [] →
  ∀ first, ∃ t,
  (visit_items visit first l).1 = (if first : bool then t else ","%char :: t) ∧ gelems vs t.
Proof.
  induction 1 as [|n v l vs Hv Hl IH]; [done|]. intros _ first.
  cbn [visit_items]. unfold serialize in Hv. destruct (visit n) as [t1 log1]. simpl in Hv.
  destruct Hl as [|n2 v2 l vs Hv2 Hl].
  - exists t1. split; [destruct first; simpl; by rewrite app_nil_r|].
    pose proof (gelems_one [] v t1 []) as Hg. rewrite app_nil_r in Hg. by apply Hg; [constructor| |constructor].
  - destruct (IH ltac:(done) false) as (t & E & Ht).
    destruct (visit_items visit false (n2 :: l)) as [t2 log2]. simpl in E. subst t2.
    exists (t1 ++ ","%char :: t). split; [by destruct first|].
    apply (gelems_cons [] v t1 []); [constructor|done|constructor|done].
Qed.

Lemma serialize_node_gval n v : denotes n v → gval v (serialize n).
Proof.
  revert v. induction n as [s|i|d| |l IH] using Node_nested_ind; intros v Hd; inversion Hd; subst.
  - apply g_string. by apply chars_plain_key.
  - apply g_number. by apply gnumber_to_string.
  - destruct (decide (l = [])) as [->|Hne].
    { inversion H0; subst. apply (g_array_empty []). constructor. }
    assert (Forall2 (fun n v => gval v (serialize n)) l vs) as Hall.
    { clear -IH H0. induction H0; inversion IH; subst; constructor; auto. }
    destruct (items_gelems l vs Hall Hne true) as (t & E & Ht).
    unfold serialize. cbn [visit]. destruct (visit_items visit true l) as [t' log]. simpl in E. subst t'.
    by apply g_array.
Qed.

(** C18: what [Node::serialize] writes for a tree of lists, integers and short
    strings that need no escape is read back by the JSON parser of
    middleware/src/nonworking_json.cpp as the same tree, if its root is no integer. *)
Theorem node_serialize_parses (n : Node) (v : JsonValue)
    (Hdenotes : denotes n v) (Hnum : is_number v = false) :
  parse (serialize n) = Done (Ok v).
Proof.
  apply parse_accepts. pose proof (serialize_node_gval n v Hdenotes) as Hg.
  apply (gdoc_intro v [] _ []) in Hg; [|constructor..|by rewrite Hnum].
  by rewrite app_nil_r in Hg.
Qed.

Lemma node_serialize_parses_witness :
  parse (serialize (NListPtr (Some [NInt64 (-5); Node_of_cstr #"Cat"; NListPtr (Some [])])))
  = Done (Ok (JArray [JLong (-5); JString #"Cat"; JArray []])).
Proof.
  apply node_serialize_parses; [|reflexivity].
  repeat constructor; vm_compute; discriminate.
Defined.

(** A quote is not escaped. *)
Example node_quote_not_escaped :
  parse (serialize (NListPtr (Some [Node_of_cstr [dquote]])))
  = Done (Throw (runtime_error #"Expected ',' or ']' in array")).
Proof. vm_compute. reflexivity. Qed.

(** A [Node] made from a C string serializes to its first eight characters
    between quotes, so two texts that share them cannot be told apart; a node
    whose list pointer is null writes a text that is not JSON. *)
Theorem node_string_truncated (s : bytes) (Hs : no_nul s) :
  serialize (Node_of_cstr s) = [dquote] ++ take 8 s ++ [dquote] ∧
  (plain_key s → parse (serialize (Node_of_cstr s)) = Done (Ok (JString (take 8 s)))) ∧
  ∀ v, parse (serialize (NListPtr None)) ≠ Done (Ok v).
Proof.
  assert (serialize (Node_of_cstr s) = [dquote] ++ take 8 s ++ [dquote]) as E.
  { unfold serialize. simpl. by rewrite Node_chars_until. }
  split; [done|]. split.
  - intros Hp. rewrite E. apply parse_accepts.
    assert (gval (JString (take 8 s)) (dquote :: take 8 s ++ [dquote])) as Hg.
    { apply g_string, chars_plain_key. by apply Forall_take. }
    apply (gdoc_intro _ [] _ []) in Hg; [|constructor..|done]. by rewrite app_nil_r in Hg.
  - intros v H. vm_compute in H. discriminate.
Qed.

Lemma node_string_truncated_witness :
  serialize (Node_of_cstr #"abcdefghij") = qlit "'abcdefgh'".
Proof. apply (node_string_truncated #"abcdefghij"). repeat constructor; discriminate. Defined.

(** ** The tests of trivialJson/tests/main.cpp *)

(** [JsonNode j(v); REQUIRE(j.serialize().length() > 0); CHECK(expected == j.serialize())]. *)
Definition serialize_test (j : Node) (expected : bytes) : bool :=
  bool_decide (0 < length (serialize j)) && bool_decide (expected = serialize j).
Definition serialize_float : bool :=
  serialize_test (NDouble (decimal_to_double false 11 (-1))) #"1.100000".
Definition serialize_empty : bool := serialize_test Node_default [dquote; dquote].
Definition serialize_string : bool := serialize_test (Node_of_cstr #"Cat") (dquote :: #"Cat" ++ [dquote]).

(** All of them pass. *)
Example node_tests_pass : serialize_float && serialize_empty && serialize_string = true.
Proof. vm_compute. reflexivity. Qed.
