(* ===== verification/Ownership.v ===== *)
(** * Trees of owned cells: copying, destroying and assigning

    Two programs of the repository keep JSON trees in a [std::variant] whose
    large alternatives are behind [std::unique_ptr]:
    cjunk/trivialJson/SmallMemoryModel.cpp ([HeapCopy]) and
    middleware/src/nonworking_json.cpp ([JsonValueHeap]).  Their copy
    constructors and assignments are the same visitor, written out here once
    over the alternatives: a variant is a leaf stored in place or a pointer to a
    cell, and a cell holds its own contents and child variants.  [repr h s v F]
    says that [s] denotes the tree [v] and owns exactly the cells [F]; the
    footprints of different children are disjoint, as [unique_ptr] demands. *)

From Stdlib Require Import ZArith Lia Ascii.
From stdpp Require Import base list gmap sets.
From S2P Require Import Prelude.

Abbreviation loc := nat (only parsing).

(** [L]: alternatives stored in place.  [K]: alternatives that are pointers.
    [C]: what a cell holds besides its children, such as the keys of a map. *)
Inductive data (L K : Type) :=
| Leaf (l : L)
| Own (k : K) (p : loc).
Arguments Leaf {L K} l.
Arguments Own {L K} k p.

Record cell (L K C : Type) := mkCell { contents : C; children : list (data L K) }.
Arguments mkCell {L K C} contents children.
Arguments contents {L K C} c.
Arguments children {L K C} c.

(** Where an object of the class lives: in a variable, or in a cell. *)
Inductive ref := RVar (x : nat) | RElem (p : loc) (i : nat).
#[export] Instance ref_eq_dec : EqDecision ref.
Proof. solve_decision. Defined.

Inductive tree (L C : Type) :=
| TLeaf (l : L)
| TNode (c : C) (l : list (tree L C)).
Arguments TLeaf {L C} l.
Arguments TNode {L C} c l.

(** The nesting of cells, the fuel the recursions need. *)
Fixpoint height {L C} (v : tree L C) : nat :=
  match v with
  | TLeaf _ => 0
  | TNode _ l => S (fold_right (fun v n => height v `max` n) 0 l)
  end.
Definition heights {L C} (l : list (tree L C)) : nat := fold_right (fun v n => height v `max` n) 0 l.

Section Ownership.
Context {L K C : Type} `{EqDecision K}.
(** The alternative whose pointer points to a cell with these contents. *)
Context (kind_of : C → K).
(** Whether assigning the alternative to a variant that holds another one reads the
    source after the old value was destroyed: [std::variant] does so, by
    [emplace], for the types whose construction cannot throw, and builds a
    temporary first for the others.  An empty class is not read at all. *)
Context (emplaced : L → bool).

Abbreviation data := (data L K).
Abbreviation cell := (cell L K C).
Abbreviation tree := (tree L C).
Abbreviation heap := (gmap nat cell).

(** [std::make_unique]: a cell at a location that was not in use. *)
Definition alloc (h : heap) (c : cell) : heap * loc :=
  let p := fresh (dom h) in (<[p := c]> h, p).

(** Dereferencing the pointer of alternative [k]. *)
Definition deref (h : heap) (k : K) (p : loc) : outcome cell :=
  match h !! p with
  | Some c => if decide (kind_of (contents c) = k) then Ok c else Undef null_deref
  | None => Undef null_deref
  end.

(** ** Operations *)

Section CopyAll.
Context (copy_one : heap → data → fuelled (heap * data)).

(** The element-wise copy of [std::vector] and [std::map]. *)
Fixpoint copy_all (h : heap) (l : list data) : fuelled (heap * list data) :=
  match l with
  | [] => mret (h, [])
  | s :: l' =>
      '(h, s') ← copy_one h s;
      '(h, l'') ← copy_all h l';
      mret (h, s' :: l'')
  end.
End CopyAll.

(** The copy constructor: a new cell with a copy of the pointee for the pointers, [data =
    arg] for the rest.  The fuel bounds the nesting. *)
Fixpoint copy (fuel : nat) (h : heap) (s : data) : fuelled (heap * data) :=
  match s with
  | Leaf l => mret (h, Leaf l)
  | Own k p =>
      match fuel with
      | O => OutOfFuel
      | S fuel' =>
          c ← Done (deref h k p);
          '(h, l) ← copy_all (copy fuel') h (children c);
          let '(h, q) := alloc h (mkCell (contents c) l) in mret (h, Own k q)
      end
  end.

Section DestroyAll.
Context (destroy_one : heap → data → fuelled heap).
Fixpoint destroy_all (h : heap) (l : list data) : fuelled heap :=
  match l with
  | [] => mret h
  | s :: l' => h ← destroy_one h s; destroy_all h l'
  end.
End DestroyAll.

(** The destructor: each owned cell is freed once, after its children; freeing a cell
    that is not allocated is undefined behaviour. *)
Fixpoint destroy (fuel : nat) (h : heap) (s : data) : fuelled heap :=
  match s with
  | Leaf _ => mret h
  | Own k p =>
      match fuel with
      | O => OutOfFuel
      | S fuel' =>
          c ← Done (deref h k p);
          h ← destroy_all (destroy fuel') h (children c);
          mret (delete p h)
      end
  end.

(** ** Objects and assignment *)

Record state := mkState { vars : gmap nat data; heap_of : heap }.

(** Reading an object through a reference; the reference dangles if its cell was
    freed. *)
Definition load (σ : state) (r : ref) : outcome data :=
  match r with
  | RVar x => match vars σ !! x with Some s => Ok s | None => Undef dangling end
  | RElem p i =>
      match heap_of σ !! p with
      | Some c => match children c !! i with Some s => Ok s | None => Undef oob_access end
      | None => Undef dangling
      end
  end.

Definition store (σ : state) (r : ref) (s : data) : outcome state :=
  match r with
  | RVar x => Ok (mkState (<[x := s]> (vars σ)) (heap_of σ))
  | RElem p i =>
      match heap_of σ !! p with
      | Some c => Ok (mkState (vars σ) (<[p := mkCell (contents c) (<[i := s]> (children c))]> (heap_of σ)))
      | None => Undef dangling
      end
  end.

Definition with_heap (σ : state) (h : heap) : state := mkState (vars σ) h.

(** [operator=]: nothing for [this == &other]; a pointer alternative is copied in full
    before the old value is destroyed; an alternative stored in place is read
    after that if it is [emplaced], and before if not. *)
Definition assign (fuel : nat) (σ : state) (this other : ref) : fuelled state :=
  if decide (this = other) then mret σ
  else
    s ← Done (load σ other);
    match s with
    | Leaf l =>
        old ← Done (load σ this);
        h ← destroy fuel (heap_of σ) old;
        s' ← (if emplaced l then Done (load (with_heap σ h) other) else mret (Leaf l));
        Done (store (with_heap σ h) this s')
    | Own k p =>
        '(h, s') ← copy fuel (heap_of σ) s;
        old ← Done (load (with_heap σ h) this);
        h ← destroy fuel h old;
        Done (store (with_heap σ h) this s')
    end.

(** ** What a variant denotes and owns *)

Inductive repr (h : heap) : data → tree → gset loc → Prop :=
| repr_leaf l : repr h (Leaf l) (TLeaf l) ∅
| repr_own k p c vs F :
    deref h k p = Ok c → reprs h (children c) vs F → p ∉ F →
    repr h (Own k p) (TNode (contents c) vs) ({[p]} ∪ F)
with reprs (h : heap) : list data → list tree → gset loc → Prop :=
| reprs_nil : reprs h [] [] ∅
| reprs_cons s v F l vs F' :
    repr h s v F → reprs h l vs F' → F ## F' → reprs h (s :: l) (v :: vs) (F ∪ F').

Scheme repr_mind := Minimality for repr Sort Prop
  with reprs_mind := Minimality for reprs Sort Prop.
Combined Scheme repr_mutind from repr_mind, reprs_mind.

Lemma deref_agree h h' k p : h' !! p = h !! p → deref h' k p = deref h k p.
Proof using Type. unfold deref. by intros ->. Qed.

Lemma deref_dom h k p c : deref h k p = Ok c → p ∈ dom h.
Proof using Type. unfold deref. destruct (h !! p) eqn:E; [|done]. intros _. by apply elem_of_dom_2 in E. Qed.

Lemma deref_kind h k p c : deref h k p = Ok c → kind_of (contents c) = k.
Proof using Type. unfold deref. destruct (h !! p); [|done]. case_decide; [|done]. by intros [= <-]. Qed.

(** A variant depends only on the cells it owns. *)
Lemma repr_agree h h' :
  (∀ s v F, repr h s v F → (∀ p, p ∈ F → h' !! p = h !! p) → repr h' s v F) ∧
  (∀ l vs F, reprs h l vs F → (∀ p, p ∈ F → h' !! p = h !! p) → reprs h' l vs F).
Proof using Type.
  apply repr_mutind; try (intros; by constructor).
  - intros k p c vs F Hp _ IH Hn Hag. constructor; [|apply IH; set_solver|done].
    rewrite (deref_agree h h') by set_solver. done.
  - intros s v F l vs F' _ IH1 _ IH2 Hd Hag. constructor; [apply IH1|apply IH2|done]; set_solver.
Qed.

Lemma repr_owns h :
  (∀ s v F, repr h s v F → F ⊆ dom h) ∧ (∀ l vs F, reprs h l vs F → F ⊆ dom h).
Proof using Type. apply repr_mutind; intros; try set_solver. apply deref_dom in H. set_solver. Qed.

(** ** Copying *)

Lemma alloc_spec h c h' p :
  alloc h c = (h', p) → (p ∉ dom h) ∧ h' = <[p := c]> h ∧ dom h' = {[p]} ∪ dom h.
Proof using Type.
  unfold alloc. intros [= <- <-]. split; [apply is_fresh|]. split; [done|].
  apply leibniz_equiv. apply dom_insert.
Qed.

(** What a copy made in a heap [h1] leaves: every old cell as it was, and new cells
    that the copy owns. *)
Record copied (h1 h2 : heap) (F : gset loc) : Prop := {
  cp_keeps : ∀ p, p ∈ dom h1 → h2 !! p = h1 !! p;
  cp_fresh : F ## dom h1;
  cp_dom : dom h2 = dom h1 ∪ F;
}.

Lemma copied_refl h : copied h h ∅.
Proof using Type. split; [done|set_solver|]. by rewrite (right_id_L ∅ union). Qed.

Lemma copied_trans h1 h2 h3 F F' :
  copied h1 h2 F → copied h2 h3 F' → copied h1 h3 (F ∪ F') ∧ F ## F'.
Proof using Type.
  intros [K1 D1 E1] [K2 D2 E2]. rewrite E1 in D2. apply disjoint_union_r in D2 as [D2 D3].
  split; [|done]. split.
  - intros p Hp. rewrite K2, K1; [done|done|]. rewrite E1. by apply elem_of_union_l.
  - by apply disjoint_union_l.
  - by rewrite E2, E1, (assoc_L union).
Qed.

Lemma copied_alloc h1 h2 F c h3 p :
  copied h1 h2 F → alloc h2 c = (h3, p) →
  copied h1 h3 ({[p]} ∪ F) ∧ (p ∉ F) ∧ h3 !! p = Some c ∧ (∀ q, q ∈ F → h3 !! q = h2 !! q).
Proof using Type.
  intros [Kp D E] (Hp & -> & Ed)%alloc_spec. rewrite E in Hp.
  apply not_elem_of_union in Hp as [Hp1 Hp2].
  split; [split|split; [done|split]].
  - intros q Hq. rewrite lookup_insert_ne by congruence. by apply Kp.
  - apply disjoint_union_l. split; [|done]. intros q Hq%elem_of_singleton. congruence.
  - rewrite Ed, E, (assoc_L union), (comm_L union {[p]}), (assoc_L union). done.
  - by rewrite lookup_insert_eq.
  - intros q Hq. rewrite lookup_insert_ne by congruence. done.
Qed.

Lemma copied_repr h1 h2 F s v G : copied h1 h2 F → repr h1 s v G → repr h2 s v G.
Proof using Type.
  intros [Kp _ _] Hr. apply (proj1 (repr_agree h1 h2)); [done|].
  intros p Hp. apply Kp. by apply (proj1 (repr_owns h1) _ _ _ Hr).
Qed.

(** [s] can be copied in every heap that agrees on its cells. *)
Definition copyable (h1 : heap) (fuel : nat) (s : data) (v : tree) : Prop :=
  ∃ h2 s' F', copy fuel h1 s = Done (Ok (h2, s')) ∧ copied h1 h2 F' ∧ repr h2 s' v F'.
Definition copyables (h1 : heap) (fuel : nat) (l : list data) (vs : list tree) : Prop :=
  ∃ h2 l' F', copy_all (copy fuel) h1 l = Done (Ok (h2, l')) ∧ copied h1 h2 F' ∧ reprs h2 l' vs F'.

Lemma copy_ok h :
  (∀ s v F, repr h s v F → ∀ h1 fuel, (∀ p, p ∈ F → h1 !! p = h !! p) → height v ≤ fuel →
    copyable h1 fuel s v) ∧
  (∀ l vs F, reprs h l vs F → ∀ h1 fuel, (∀ p, p ∈ F → h1 !! p = h !! p) → heights vs ≤ fuel →
    copyables h1 fuel l vs).
Proof using Type.
  apply repr_mutind.
  - intros l h1 fuel _ _. eexists h1, _, ∅. split; [by destruct fuel|].
    split; [apply copied_refl|constructor].
  - intros k p c vs F Hp Hrs IH Hn h1 fuel Hag Hf. destruct fuel as [|fuel]; [simpl in Hf; lia|].
    destruct (IH h1 fuel) as (h2 & l' & F' & E & Hc & Hr); [set_solver|simpl in Hf; unfold heights; lia|].
    destruct (alloc h2 (mkCell (contents c) l')) as [h3 q] eqn:Ea.
    destruct (copied_alloc _ _ _ _ _ _ Hc Ea) as (Hc' & Hq & Hl & Hag').
    exists h3, (Own k q), ({[q]} ∪ F'). split; [|split; [done|]].
    + cbn [copy]. rewrite (deref_agree h h1), Hp by set_solver. cbn [mbind fuelled_bind].
      rewrite E. cbn [mbind fuelled_bind]. by rewrite Ea.
    + apply (repr_own h3 k q (mkCell (contents c) l')); [|by apply (proj2 (repr_agree h2 h3))|done].
      unfold deref. rewrite Hl. simpl. by rewrite decide_True by (by apply deref_kind in Hp).
  - intros h1 fuel _ _. exists h1, [], ∅. split; [done|]. split; [apply copied_refl|constructor].
  - intros s v F l vs F' Hs IHs Hl IHl Hd h1 fuel Hag Hf. simpl in Hf.
    destruct (IHs h1 fuel) as (h2 & s' & G & E & Hc & Hr); [set_solver|lia|].
    destruct (IHl h2 fuel) as (h3 & l' & G' & E' & Hc' & Hr'); [|lia|].
    { intros p Hp. destruct Hc as [Kp _ _]. rewrite Kp; [set_solver|].
      apply (proj2 (repr_owns h)) in Hl. apply elem_of_dom. rewrite Hag by set_solver.
      apply elem_of_dom. set_solver. }
    destruct (copied_trans _ _ _ _ _ Hc Hc') as [Hcc Hdis].
    exists h3, (s' :: l'), (G ∪ G'). split; [|split; [done|]].
    + cbn [copy_all]. rewrite E. cbn [mbind fuelled_bind]. rewrite E'. done.
    + constructor; [|done|done]. by apply (copied_repr h2 h3 G').
Qed.

(** ** Destruction *)

(** The heap without the cells [F]. *)
Definition freed (h1 h2 : heap) (F : gset loc) : Prop :=
  ∀ p, h2 !! p = if decide (p ∈ F) then None else h1 !! p.

Lemma freed_refl h : freed h h ∅.
Proof using Type. intros p. by rewrite decide_False by set_solver. Qed.

Lemma freed_trans h1 h2 h3 F F' : freed h1 h2 F → freed h2 h3 F' → freed h1 h3 (F ∪ F').
Proof using Type. intros E1 E2 p. rewrite E2, E1. repeat case_decide; try done; set_solver. Qed.

Lemma freed_delete h1 h2 F p : freed h1 h2 F → freed h1 (delete p h2) ({[p]} ∪ F).
Proof using Type.
  intros E q. destruct (decide (q = p)) as [->|Hne].
  - rewrite lookup_delete_eq, decide_True; [done|set_solver].
  - rewrite lookup_delete_ne, E by congruence. repeat case_decide; try done; set_solver.
Qed.

Lemma freed_repr h1 h2 F s v G : freed h1 h2 F → F ## G → repr h1 s v G → repr h2 s v G.
Proof using Type.
  intros Hf Hd Hr. apply (proj1 (repr_agree h1 h2)); [done|].
  intros p Hp. rewrite Hf, decide_False; set_solver.
Qed.

Lemma destroy_ok h :
  (∀ s v F, repr h s v F → ∀ h1 fuel, (∀ p, p ∈ F → h1 !! p = h !! p) → height v ≤ fuel →
    ∃ h2, destroy fuel h1 s = Done (Ok h2) ∧ freed h1 h2 F) ∧
  (∀ l vs F, reprs h l vs F → ∀ h1 fuel, (∀ p, p ∈ F → h1 !! p = h !! p) → heights vs ≤ fuel →
    ∃ h2, destroy_all (destroy fuel) h1 l = Done (Ok h2) ∧ freed h1 h2 F).
Proof using Type.
  apply repr_mutind.
  - intros; exists h1; split; [by destruct fuel|apply freed_refl].
  - intros k p c vs F Hp Hrs IH Hn h1 fuel Hag Hf. destruct fuel as [|fuel]; [simpl in Hf; lia|].
    destruct (IH h1 fuel) as (h2 & E & Hfr); [set_solver|simpl in Hf; unfold heights; lia|].
    exists (delete p h2). split; [|by apply freed_delete].
    cbn [destroy]. rewrite (deref_agree h h1), Hp by set_solver. cbn [mbind fuelled_bind]. by rewrite E.
  - intros h1 fuel _ _. exists h1. split; [done|apply freed_refl].
  - intros s v F l vs F' Hs IHs Hl IHl Hd h1 fuel Hag Hf. simpl in Hf.
    destruct (IHs h1 fuel) as (h2 & E & Hfr); [set_solver|lia|].
    destruct (IHl h2 fuel) as (h3 & E' & Hfr'); [|lia|].
    { intros p Hp. rewrite Hfr, decide_False by set_solver. apply Hag. set_solver. }
    exists h3. split; [|by apply (freed_trans h1 h2 h3)].
    cbn [destroy_all]. by rewrite E.
Qed.

(** ** Assigning to a variable *)

(** The source lives in a cell of the old value, and is read after that was destroyed. *)
Definition read_too_late (F : gset loc) (s : data) (other : ref) : bool :=
  match s, other with
  | Leaf l, RElem p _ => emplaced l && bool_decide (p ∈ F)
  | _, _ => false
  end.

(** The state after the variable [x] has taken a new value, of tree [w], instead of one
    that owned [F]: the cells of the old value are gone, those of the new one are
    new, and what did not share cells with the old value is as before. *)
Definition assigned (σ σ' : state) (x : nat) (F : gset loc) (w : tree) : Prop :=
  ∃ s' F', vars σ' = <[x := s']> (vars σ) ∧ repr (heap_of σ') s' w F' ∧ F' ## dom (heap_of σ) ∧
    (∀ p, p ∈ dom (heap_of σ') ↔ p ∈ F' ∨ (p ∈ dom (heap_of σ) ∧ p ∉ F)) ∧
    (∀ t u G, repr (heap_of σ) t u G → F ## G → repr (heap_of σ') t u G).

Lemma assigned_intro σ x F w h1 h2 s' F' :
  F ⊆ dom (heap_of σ) → copied (heap_of σ) h1 F' → freed h1 h2 F → repr h1 s' w F' →
  assigned σ (mkState (<[x := s']> (vars σ)) h2) x F w.
Proof using Type.
  intros HF Hc Hfr Hr. pose proof (cp_fresh _ _ _ Hc) as Hnew. pose proof (cp_dom _ _ _ Hc) as Hdom.
  exists s', F'. split; [done|]. split; [|split; [done|split]]; simpl.
  - apply (freed_repr h1 h2 F); [done| |done]. set_solver.
  - intros p. rewrite elem_of_dom, Hfr. case_decide as Hp.
    + split; [by intros [? ?]|]. intros [Hp'|[_ ?]]; [set_solver|done].
    + rewrite <- elem_of_dom, Hdom. set_solver.
  - intros t u G Ht Hd. apply (freed_repr h1 h2 F); [done|done|]. by apply (copied_repr (heap_of σ) h1 F').
Qed.

Lemma load_freed σ h F other s :
  load σ other = Ok s → freed (heap_of σ) h F →
  load (with_heap σ h) other =
    match other with
    | RElem p _ => if decide (p ∈ F) then Undef dangling else Ok s
    | RVar _ => Ok s
    end.
Proof using Type.
  intros Hl Hfr. destruct other as [y|p i]; [done|]. simpl in *. rewrite Hfr. by case_decide.
Qed.

Lemma assign_var σ x other old v F s w G fuel :
  vars σ !! x = Some old → repr (heap_of σ) old v F → other ≠ RVar x →
  load σ other = Ok s → repr (heap_of σ) s w G → height v `max` height w ≤ fuel →
  if read_too_late F s other then assign fuel σ (RVar x) other = Done (Undef dangling)
  else ∃ σ', assign fuel σ (RVar x) other = Done (Ok σ') ∧ assigned σ σ' x F w.
Proof using Type.
  intros Hx Hold Hne Hload Hs Hfuel. pose proof (proj1 (repr_owns (heap_of σ)) _ _ _ Hold) as HF.
  unfold assign. rewrite decide_False, Hload by congruence. cbn [mbind fuelled_bind].
  destruct Hs as [l|k p c vs G Hd Hvs Hp].
  - cbn [load]. rewrite Hx. cbn [mbind fuelled_bind].
    destruct (proj1 (destroy_ok (heap_of σ)) old v F Hold (heap_of σ) fuel) as (h & E & Hfr); [done|lia|].
    rewrite E. cbn [mbind fuelled_bind].
    pose proof (load_freed σ h F other (Leaf l) Hload Hfr) as Hl. unfold read_too_late.
    assert (assigned σ (mkState (<[x := Leaf l]> (vars σ)) h) x F (TLeaf l)) as Has.
    { eapply assigned_intro; [done|apply copied_refl|done|constructor]. }
    destruct (emplaced l); [rewrite Hl|]; destruct other as [y|q i]; simpl;
      try (eexists; split; [reflexivity|exact Has]).
    destruct (decide (q ∈ F)); [by rewrite bool_decide_true|].
    rewrite bool_decide_false by done. eexists. split; [reflexivity|exact Has].
  - simpl. pose proof (repr_own _ k p c vs G Hd Hvs Hp) as Hs.
    destruct (proj1 (copy_ok (heap_of σ)) _ _ _ Hs (heap_of σ) fuel) as (h1 & s' & F' & E & Hc & Hr');
      [done|lia|].
    rewrite E. cbn [mbind fuelled_bind load with_heap vars]. rewrite Hx. cbn [mbind fuelled_bind].
    pose proof (copied_repr _ _ _ _ _ _ Hc Hold) as Hold1.
    destruct (proj1 (destroy_ok h1) old v F Hold1 h1 fuel) as (h2 & E2 & Hfr); [done|lia|].
    rewrite E2. eexists. split; [done|]. by eapply assigned_intro.
Qed.

Lemma copy_deep h s v F fuel :
  repr h s v F → height v ≤ fuel →
  ∃ h' s' F', copy fuel h s = Done (Ok (h', s')) ∧
    repr h' s' v F' ∧ repr h' s v F ∧ F' ## dom h ∧ dom h' = dom h ∪ F'.
Proof using Type.
  intros Hr Hfuel.
  destruct (proj1 (copy_ok h) s v F Hr h fuel) as (h' & s' & F' & E & Hc & Hr'); [done..|].
  exists h', s', F'. split; [done|]. split; [done|].
  split; [by apply (copied_repr h h' F')|]. split; apply Hc.
Qed.
End Ownership.

(** Represents a concrete tree, computing its footprint. *)
Ltac prove_repr :=
  repeat match goal with
  | |- repr _ _ (Leaf _) _ _ => apply repr_leaf
  | |- repr _ _ (Own _ _) _ _ => eapply (repr_own _ _ _ _ (mkCell _ _)); [reflexivity| |]
  | |- reprs _ _ (children _) _ _ => cbn [children]
  | |- reprs _ _ (_ :: _) _ _ => eapply reprs_cons
  | |- reprs _ _ [] _ _ => apply reprs_nil
  end; set_solver.
