(* ===== verification/HeapCopy.v ===== *)
(** * [JsonNode] (cjunk/trivialJson/SmallMemoryModel.cpp)

    The variant of [JsonNode] keeps strings of up to eight characters in place;
    longer strings, maps and lists are behind a [std::unique_ptr].  Its copy
    constructor, destructor and copy assignment are those of [Ownership] at its
    alternatives. *)

From Stdlib Require Import ZArith Lia Ascii.
From stdpp Require Import base list gmap sets strings.
From S2P Require Import Prelude Double NodeJson Ownership.

(** ** The alternatives of [Storage] *)

Inductive in_place :=
| LNull | LBool (b : bool) | LLong (i : Z) | LDouble (d : double) | LSmallString (c : bytes).

Inductive pointer := PString | PMap | PList.
#[global] Instance pointer_eq_dec : EqDecision pointer.
Proof. solve_decision. Defined.

(** What a cell holds besides its child nodes: the characters of a string, the keys of
    a map in the order of its elements, nothing for a list. *)
Inductive pointee := OfString (s : bytes) | OfMap (keys : list bytes) | OfList.

Definition pointee_kind (c : pointee) : pointer :=
  match c with OfString _ => PString | OfMap _ => PMap | OfList => PList end.

Abbreviation storage := (data in_place pointer).
Abbreviation node_cell := (cell in_place pointer pointee).
Abbreviation node_heap := (gmap nat node_cell).
Abbreviation node_tree := (tree in_place pointee).
Abbreviation node_repr := (repr pointee_kind).

Abbreviation SString p := (Own PString p).
Abbreviation SMap p := (Own PMap p).
Abbreviation SList p := (Own PList p).

(** [std::is_nothrow_constructible] holds of every alternative stored in place, and
    [std::monostate] has no bytes to read. *)
Definition node_emplaced (l : in_place) : bool :=
  match l with LNull => false | _ => true end.

(** ** Operations *)

(** The constructor from [std::string_view]. *)
Definition JsonNode_of_view (h : node_heap) (sv : bytes) : node_heap * storage :=
  if decide (length sv ≤ 8) then (h, Leaf (LSmallString (array8_copy sv (length sv))))
  else let '(h, p) := alloc h (mkCell (OfString sv) []) in (h, SString p).

(** [explicit JsonNode(const bool b)], which is also the constructor a string literal
    selects: the conversion of a pointer to [bool] is a standard conversion and is
    preferred to the user-defined one to [std::string_view]. *)
Definition JsonNode_of_bool (b : bool) : storage := Leaf (LBool b).
Definition JsonNode_of_literal (s : bytes) : storage := JsonNode_of_bool true.

Definition JsonNode_copy : nat → node_heap → storage → fuelled (node_heap * storage) :=
  copy pointee_kind.
Definition JsonNode_destroy : nat → node_heap → storage → fuelled node_heap :=
  destroy pointee_kind.
Definition JsonNode_assign : nat → state → ref → ref → fuelled state :=
  assign pointee_kind node_emplaced.

(** [test_json_types]: the variables [node1] to [node5], [node4 = node5], and [node8]. *)
Definition test_json_types : fuelled (state (L := in_place) (K := pointer) (C := pointee)) :=
  let nodes : gmap nat storage := {[
    1 := JsonNode_of_bool true; 2 := JsonNode_of_bool false; 3 := Leaf (LLong 3);
    4 := Leaf (LDouble (decimal_to_double false 1503 (-1)));
    5 := JsonNode_of_literal #"hello" ]} in
  σ ← JsonNode_assign 1 (mkState nodes ∅) (RVar 4) (RVar 5);
  s ← Done (load σ (RVar 3));
  '(h, s) ← JsonNode_copy 1 (heap_of σ) s;
  mret (mkState (<[8 := s]> (vars σ)) h).

(** No string is stored, and [node4] ends as the [bool] that the literal became. *)
Example test_json_types_result :
  (σ ← test_json_types; mret (load σ (RVar 4), load σ (RVar 8), heap_of σ))
  = mret (Ok (Leaf (LBool true)), Ok (Leaf (LLong 3)), ∅).
Proof. vm_compute. reflexivity. Qed.

(** ** Theorems *)

(** C20: the copy constructor makes a deep copy: it terminates with fuel for the
    nesting of the node, the copy denotes the same tree, every cell it owns is
    new, and the source keeps its value and its cells. *)
Theorem jsonnode_copy_deep (h : node_heap) (s : storage) (v : node_tree) (F : gset nat) (fuel : nat)
    (Hr : node_repr h s v F) (Hfuel : height v ≤ fuel) :
  ∃ h' s' F', JsonNode_copy fuel h s = Done (Ok (h', s')) ∧
    node_repr h' s' v F' ∧ node_repr h' s v F ∧ F' ## dom h ∧ dom h' = dom h ∪ F'.
Proof. by apply copy_deep. Qed.

(** A list of a short string, a long string and a map. *)
Definition sample_heap : node_heap :=
  {[ 0 := mkCell OfList [Leaf (LSmallString (array8_copy #"hello" 5)); SString 1; SMap 2];
     1 := mkCell (OfString #"a long string") [];
     2 := mkCell (OfMap [lit "k"]) [Leaf (LLong 3)] ]}.
Definition sample_tree : node_tree :=
  TNode OfList [TLeaf (LSmallString (array8_copy #"hello" 5)); TNode (OfString #"a long string") [];
    TNode (OfMap [lit "k"]) [TLeaf (LLong 3)]].

Lemma sample_repr : ∃ F, node_repr sample_heap (SList 0) sample_tree F ∧ F ⊆ {[0; 1; 2]}.
Proof. eexists. split; [prove_repr|set_solver]. Qed.

Lemma jsonnode_copy_deep_witness :
  ∃ h' s' F', JsonNode_copy 2 sample_heap (SList 0) = Done (Ok (h', s')) ∧
    node_repr h' s' sample_tree F' ∧ F' ## dom sample_heap.
Proof.
  destruct sample_repr as (F & Hr & _).
  destruct (jsonnode_copy_deep sample_heap (SList 0) sample_tree F 2 Hr ltac:(vm_compute; lia))
    as (h' & s' & F' & E & H1 & _ & H2 & _). eauto 6.
Defined.

(** C21: assigning to a variable from another object: the variable gets a deep copy of
    the argument's tree in new cells, the cells of its old value are freed and
    nothing else is, so that no cell is leaked, shared or freed twice; except
    when the argument is a value stored in place inside the old value of the
    variable itself, such as an element of the list it held: then the argument
    is read after it was destroyed. *)
Theorem jsonnode_assign_correct (σ : state) (x : nat) (other : ref) (old s : storage)
    (v w : node_tree) (F G : gset nat) (fuel : nat)
    (Hx : vars σ !! x = Some old) (Hold : node_repr (heap_of σ) old v F) (Hne : other ≠ RVar x)
    (Hother : load σ other = Ok s) (Hs : node_repr (heap_of σ) s w G)
    (Hfuel : height v `max` height w ≤ fuel) :
  if read_too_late node_emplaced F s other
  then JsonNode_assign fuel σ (RVar x) other = Done (Undef dangling)
  else ∃ σ', JsonNode_assign fuel σ (RVar x) other = Done (Ok σ') ∧
         assigned pointee_kind σ σ' x F w.
Proof. by apply (assign_var pointee_kind node_emplaced σ x other old v F s w G). Qed.

(** [x = x.list[1]] works for the long string there, and [x = x.list[0]] does not for the
    short one. *)
Lemma jsonnode_assign_correct_witness :
  let σ := mkState {[ 7 := SList 0 : storage ]} sample_heap in
  (∃ σ', JsonNode_assign 2 σ (RVar 7) (RElem 0 1) = Done (Ok σ')) ∧
  JsonNode_assign 2 σ (RVar 7) (RElem 0 0) = Done (Undef dangling).
Proof.
  set (σ := mkState {[ 7 := SList 0 : storage ]} sample_heap).
  assert (∃ F, node_repr sample_heap (SList 0) sample_tree F ∧ 0 ∈ F) as (F & Hr & H0).
  { eexists. split; [prove_repr|set_solver]. }
  assert (node_repr sample_heap (SString 1) (TNode (OfString #"a long string") []) ({[1]} ∪ ∅)) as H1.
  { prove_repr. }
  assert (node_repr sample_heap (Leaf (LSmallString (array8_copy #"hello" 5)))
    (TLeaf (LSmallString (array8_copy #"hello" 5))) ∅) as H2 by apply repr_leaf.
  split.
  - destruct (jsonnode_assign_correct σ 7 (RElem 0 1) (SList 0) (SString 1) _ _ F _ 2 eq_refl Hr
      ltac:(done) eq_refl H1 ltac:(vm_compute; lia)) as (σ' & E & _). eauto.
  - pose proof (jsonnode_assign_correct σ 7 (RElem 0 0) (SList 0) _ _ _ F _ 2 eq_refl Hr
      ltac:(done) eq_refl H2 ltac:(vm_compute; lia)) as E.
    cbn [read_too_late node_emplaced andb] in E. by rewrite bool_decide_true in E.
Defined.
