(* ===== verification/JsonValueHeap.v ===== *)
(** * Copies of [JsonValue] (middleware/src/nonworking_json.cpp)

    [JsonValue] is the type of the values that [JsonParser] returns; here its
    variant is laid out in memory.  Arrays and objects are behind a
    [std::unique_ptr], strings are members of the variant.  The copy constructor
    and assignment are those of [Ownership] at the alternatives of this class;
    [represents] relates the layout to the values of [JsonValue]. *)

From Stdlib Require Import ZArith Lia Ascii.
From stdpp Require Import base list gmap sets strings.
From S2P Require Import Prelude Double JsonValue Ownership.

(** ** The alternatives of [data] *)

Inductive json_leaf :=
| VNull | VBool (b : bool) | VLong (i : Z) | VDouble (d : double) | VString (s : bytes).

Inductive json_pointer := ArrayPtr | ObjectPtr.
#[global] Instance json_pointer_eq_dec : EqDecision json_pointer.
Proof. solve_decision. Defined.

Inductive json_pointee := ArrayCell | ObjectCell (keys : list bytes).
Definition json_kind (c : json_pointee) : json_pointer :=
  match c with ArrayCell => ArrayPtr | ObjectCell _ => ObjectPtr end.

Abbreviation json_data := (data json_leaf json_pointer).
Abbreviation json_cell := (cell json_leaf json_pointer json_pointee).
Abbreviation json_heap := (gmap nat json_cell).

(** Copying a [std::string] may throw, so the variant builds a temporary; the
    arithmetic types are constructed in place. *)
Definition json_emplaced (l : json_leaf) : bool :=
  match l with VNull | VString _ => false | VBool _ | VLong _ | VDouble _ => true end.

(** ** Operations *)

Definition JsonValue_copy : nat → json_heap → json_data → fuelled (json_heap * json_data) :=
  copy json_kind.
Definition JsonValue_destroy : nat → json_heap → json_data → fuelled json_heap :=
  destroy json_kind.
Definition JsonValue_assign : nat → state → ref → ref → fuelled state :=
  assign json_kind json_emplaced.

(** ** Layout of a value *)

Fixpoint layout (v : JsonValue) : tree json_leaf json_pointee :=
  match v with
  | JNull => TLeaf VNull
  | JBool b => TLeaf (VBool b)
  | JLong i => TLeaf (VLong i)
  | JDouble d => TLeaf (VDouble d)
  | JString s => TLeaf (VString s)
  | JArray arr => TNode ArrayCell (layout <$> arr)
  | JObject obj => TNode (ObjectCell (obj.*1)) ((fun kv => layout kv.2) <$> obj)
  end.

(** The object [s] in the heap [h] holds the value [v] and owns the cells [F]. *)
Definition represents (h : json_heap) (s : json_data) (v : JsonValue) (F : gset nat) : Prop :=
  repr json_kind h s (layout v) F.

(** The layout loses nothing. *)
Lemma layout_inj v w : layout v = layout w → v = w.
Proof.
  revert w. induction v as [| | | | |arr IH|obj IH] using JsonValue_rec_nested; intros []; simpl; intros E;
    try done; try (injection E as ->; done).
  - injection E as E. f_equal. revert arr0 E.
    induction IH as [|v l Hv _ IHl]; intros [|w l'] E; try done.
    simpl in E. injection E as E1 E2. f_equal; auto.
  - injection E as Ek E. f_equal. revert obj0 Ek E.
    induction IH as [|[k v] l Hv _ IHl]; intros [|[k' w] l'] Ek E; try done.
    simpl in *. injection Ek as -> Ek. injection E as E1 E2. f_equal; [f_equal|]; auto.
Qed.

(** Which values are read too late, in terms of the value. *)
Lemma read_too_late_value h F s w G other :
  represents h s w G →
  read_too_late json_emplaced F s other =
    match w, other with
    | (JBool _ | JLong _ | JDouble _), RElem p _ => bool_decide (p ∈ F)
    | _, _ => false
    end.
Proof. unfold represents. destruct w; simpl; inversion 1; by destruct other. Qed.

(** ** Theorems *)

(** C6: the copy constructor of [JsonValue] and its assignment to a variable are deep:
    the copy holds the same value in cells of its own, and the assignment frees
    the cells of the old value and no others.  The one exception is assigning to
    a variable a [bool], integer or double that is an element of the array or
    object the variable itself holds, as in [v = v.get_array()[0]]: the element
    is read after it was destroyed.  Strings, arrays and objects may be taken
    out of their own container. *)
Theorem json_value_copy_assign (σ : state) (x : nat) (other : ref) (old s : json_data)
    (v w : JsonValue) (F G : gset nat) (fuel : nat)
    (Hx : vars σ !! x = Some old) (Hold : represents (heap_of σ) old v F) (Hne : other ≠ RVar x)
    (Hother : load σ other = Ok s) (Hs : represents (heap_of σ) s w G)
    (Hfuel : height (layout v) `max` height (layout w) ≤ fuel) :
  (∃ h' s' F', JsonValue_copy fuel (heap_of σ) s = Done (Ok (h', s')) ∧ represents h' s' w F' ∧
     represents h' s w G ∧ F' ## dom (heap_of σ)) ∧
  match w, other with
  | (JBool _ | JLong _ | JDouble _), RElem p _ =>
      if decide (p ∈ F) then JsonValue_assign fuel σ (RVar x) other = Done (Undef dangling)
      else ∃ σ', JsonValue_assign fuel σ (RVar x) other = Done (Ok σ') ∧
             assigned json_kind σ σ' x F (layout w)
  | _, _ => ∃ σ', JsonValue_assign fuel σ (RVar x) other = Done (Ok σ') ∧
              assigned json_kind σ σ' x F (layout w)
  end.
Proof.
  split.
  - destruct (copy_deep json_kind (heap_of σ) s (layout w) G fuel Hs) as (h' & s' & F' & E & H1 & H2 & H3 & _);
      [lia|]. exists h', s', F'. done.
  - pose proof (assign_var json_kind json_emplaced σ x other old _ F s _ G fuel Hx Hold Hne Hother Hs Hfuel) as H.
    rewrite (read_too_late_value _ _ _ _ _ _ Hs) in H.
    destruct w, other; try exact H.
    all: case_decide; [rewrite bool_decide_true in H|rewrite bool_decide_false in H]; done.
Qed.

(** The array [[[true, "text"]]] in variable 0; its inner array is cell 1. *)
Definition json_sample : json_heap :=
  {[ 0 := mkCell ArrayCell [Own ArrayPtr 1];
     1 := mkCell ArrayCell [Leaf (VBool true); Leaf (VString #"text")] ]}.

(** [v = v[0]] and [v = v[0][1]] are well defined, [v = v[0][0]] is not. *)
Lemma json_value_copy_assign_witness :
  let σ := mkState {[ 0 := Own ArrayPtr 0 : json_data ]} json_sample in
  (∃ σ', JsonValue_assign 2 σ (RVar 0) (RElem 0 0) = Done (Ok σ')) ∧
  (∃ σ', JsonValue_assign 2 σ (RVar 0) (RElem 1 1) = Done (Ok σ')) ∧
  JsonValue_assign 2 σ (RVar 0) (RElem 1 0) = Done (Undef dangling).
Proof.
  set (σ := mkState {[ 0 := Own ArrayPtr 0 : json_data ]} json_sample).
  set (inner := JArray [JBool true; JString #"text"]).
  assert (represents json_sample (Own ArrayPtr 1) inner ({[1]} ∪ (∅ ∪ (∅ ∪ ∅)))) as Hi.
  { unfold represents. simpl. prove_repr. }
  assert (∃ F, represents json_sample (Own ArrayPtr 0) (JArray [inner]) F ∧ 1 ∈ F) as (F & Hr & H1).
  { eexists. split; [unfold represents; simpl; prove_repr|set_solver]. }
  assert (represents json_sample (Leaf (VString #"text")) (JString #"text") ∅) as Ht by apply repr_leaf.
  assert (represents json_sample (Leaf (VBool true)) (JBool true) ∅) as Hb by apply repr_leaf.
  split; [|split].
  - destruct (json_value_copy_assign σ 0 (RElem 0 0) _ _ _ inner F _ 2 eq_refl Hr ltac:(done) eq_refl Hi
      ltac:(vm_compute; lia)) as (_ & σ' & E & _). eauto.
  - destruct (json_value_copy_assign σ 0 (RElem 1 1) _ _ _ _ F _ 2 eq_refl Hr ltac:(done) eq_refl Ht
      ltac:(vm_compute; lia)) as (_ & σ' & E & _). eauto.
  - destruct (json_value_copy_assign σ 0 (RElem 1 0) _ _ _ _ F _ 2 eq_refl Hr ltac:(done) eq_refl Hb
      ltac:(vm_compute; lia)) as (_ & E). by rewrite decide_True in E.
Defined.
