(* ===== verification/AntColony.v ===== *)
(** * Ant colony optimisation (cjunk/practice/antColonyOptimization.cc)

    [Model], one worker [AntColonyOptimization::ant], and the cities that [test_aco]
    draws.  Paths are vectors of [double] that hold city numbers; all arithmetic is
    binary64.  Not in the repository, hence parameters: [std::pow], the random shuffle
    of [std::random_shuffle] and the draws from [model.get_random_engine()] (which
    [Model] does not declare).  The random state is any type, with any functions that
    answer: it may as well count the calls and answer anything, so a theorem about all
    of them also covers an engine that other ants draw from in between.  What is not
    covered are the data races of the ants of [run] on that engine, and the lines of
    [test_aco] that read a path from the colony, which has no member [get_path]. *)

From Stdlib Require Import ZArith Lia Floats.SpecFloat.
From stdpp Require Import base list.
From S2P Require Import Prelude Double Loops.
Local Open Scope Z_scope.

(** [size() - 1] on [size_t]. *)
Definition size_minus_one {A} (l : list A) : Z := u64 (Z.of_nat (length l) - 1).

Section Aco.
Context (pow : double → double → double).
Context {rng : Type} (random_shuffle : rng → list double → rng * list double)
        (uniform : rng → rng * double).

Section Model.
Context (coordinates : list (list double)).

(** [std::iota(path.begin(), path.end(), 0)]. *)
Definition iota (n : nat) : list double := double_of_Z <$> seqZ 0 (Z.of_nat n).

Definition get_path (g : rng) : rng * list double := random_shuffle g (iota (length coordinates)).

Definition coord (i k : Z) : outcome double := c ← vec_get coordinates i; vec_get c k.

Definition get_distance_between (i j : Z) : outcome double :=
  xi ← coord i 0; xj ← coord j 0; yi ← coord i 1; yj ← coord j 1;
  Ok (dsqrt (dadd (pow (dsub xi xj) (double_of_Z 2)) (pow (dsub yi yj) (double_of_Z 2)))).

(** The overload on a path; its loop condition is [i < path.size() - 1]. *)
Definition get_distance (path : list double) : fuelled double :=
  for_loop (S (length path)) 0 (size_minus_one path) (fun i distance =>
    Done (a ← vec_get path i; b ← vec_get path (i + 1);
          i' ← int_of_double a; j' ← int_of_double b;
          d ← get_distance_between i' j'; Ok (dadd distance d))) dzero.

Definition get_visibility (i : Z) : fuelled double :=
  for_loop (length coordinates) 0 (Z.of_nat (length coordinates)) (fun j visibility =>
    if i =? j then mret visibility
    else d ← Done (get_distance_between i j); mret (dadd visibility (ddiv d_one d))) dzero.
End Model.

Context (coordinates : list (list double)).
Context (iterations : Z) (alpha beta rho q0 : double).

(** The largest finite [double]. *)
Definition double_max : double := S754_finite false (2 ^ 53 - 1) 971.

Record ant_state := mkAnt {
  a_rng : rng; a_path : list double; a_pheromone : list double; a_best : double }.

Definition zeros (n : nat) : list double := replicate n dzero.

(** Lines 49 to 55: the pheromone update. *)
Definition update_pheromone (path pheromone : list double) : fuelled (list double) :=
  delta ← for_loop (S (length path)) 0 (size_minus_one path) (fun j delta =>
    d ← get_distance coordinates path; Done (vec_set delta j (ddiv d_one d))) (zeros (length path));
  for_loop (length path) 0 (Z.of_nat (length path)) (fun j ph =>
    Done (p ← vec_get ph j; dj ← vec_get delta j;
          vec_set ph j (dadd (dmul (dsub d_one rho) p) dj))) pheromone.

(** Lines 56 to 69: selection probabilities and their running sums. *)
Definition cumulative (path pheromone : list double) : fuelled (list double) :=
  let n := Z.of_nat (length path) in
  '(probability, sum) ← for_loop (length path) 0 n (fun j '(pr, sum) =>
    ph ← Done (vec_get pheromone j);
    v ← get_visibility coordinates j;
    let p := dmul (pow ph alpha) (pow v beta) in
    pr ← Done (vec_set pr j p); mret (pr, dadd sum p)) (zeros (length path), dzero);
  probability ← for_loop (length path) 0 n (fun j pr =>
    Done (p ← vec_get pr j; vec_set pr j (ddiv p sum))) probability;
  cum ← Done (p0 ← vec_get probability 0; vec_set (zeros (length path)) 0 p0);
  for_loop (length path) 1 n (fun j cum =>
    Done (c ← vec_get cum (j - 1); p ← vec_get probability j; vec_set cum j (dadd c p))) cum.

(** Lines 72 to 78: the first index whose running sum exceeds [r], or 0. *)
Definition select_next (path cum : list double) (r : double) : fuelled Z :=
  next ← for_loop (length path) 0 (Z.of_nat (length path)) (fun j found =>
    match found with
    | Some _ => mret found
    | None => c ← Done (vec_get cum j); mret (if dltb r c then Some j else None)
    end) None;
  mret (default 0 next).

(** One iteration of the loop of [ant]. *)
Definition ant_iteration (s : ant_state) : fuelled ant_state :=
  let '(g, next_path) := get_path coordinates (a_rng s) in
  next_distance ← get_distance coordinates next_path;
  let '(path, best) :=
    if dltb next_distance (a_best s) then (next_path, next_distance) else (a_path s, a_best s) in
  pheromone ← update_pheromone path (a_pheromone s);
  cum ← cumulative path pheromone;
  let '(g, r) := uniform g in
  next ← select_next path cum r;
  path ← Done (if u64 next =? size_minus_one path then Ok path else vec_swap path next (next + 1));
  if dgtb q0 dzero then
    let '(g, r) := uniform g in
    path ← Done (if dltb r q0 then vec_swap path 0 1 else Ok path);
    mret (mkAnt g path pheromone best)
  else mret (mkAnt g path pheromone best).

(** The worker; its fuel is the number of iterations. *)
Definition ant (g : rng) : fuelled (rng * list double) :=
  let '(g, path) := get_path coordinates g in
  s ← for_loop (Z.to_nat iterations) 0 iterations (fun _ s => ant_iteration s)
        (mkAnt g path (replicate (length path) d_one) double_max);
  mret (a_rng s, a_path s).

(** ** Correctness

    At most [max_cities] cities: city numbers are then exact in [double]. *)

Definition max_cities : Z := 4096.

Lemma int_of_double_of_Z z : 0 ≤ z < max_cities → int_of_double (double_of_Z z) = Ok z.
Proof.
  assert (forallb (fun z => match int_of_double (double_of_Z z) with Ok y => y =? z | _ => false end)
            (seqZ 0 max_cities) = true) as H by (vm_compute; reflexivity).
  rewrite forallb_forall in H. intros Hz. specialize (H z).
  destruct (int_of_double (double_of_Z z)) as [y| | |].
  1: f_equal; apply Z.eqb_eq, H; apply list_elem_of_In, elem_of_seqZ; lia.
  all: exfalso; enough (false = true) by done; apply H; apply list_elem_of_In, elem_of_seqZ; lia.
Qed.

Context (Hshuffle : ∀ g l, (random_shuffle g l).2 ≡ₚ l).
Context (Hcities : 2 ≤ Z.of_nat (length coordinates) ≤ max_cities)
        (Hcoord : Forall (fun c => length c = 2%nat) coordinates).

Abbreviation n := (Z.of_nat (length coordinates)).

(** A path visits every city once. *)
Definition tour (path : list double) : Prop := path ≡ₚ iota (length coordinates).

Lemma tour_length path : tour path → length path = length coordinates.
Proof. intros H%Permutation_length. unfold iota in H. rewrite length_fmap, length_seqZ in H. lia. Qed.

Lemma tour_city path i d :
  tour path → path !! i = Some d → ∃ z, d = double_of_Z z ∧ 0 ≤ z < n.
Proof.
  unfold tour. intros Ht Hi%list_elem_of_lookup_2. rewrite Ht in Hi. unfold iota in Hi.
  apply list_elem_of_fmap in Hi as (z & -> & Hz%elem_of_seqZ). exists z. split; [done|lia].
Qed.

Lemma coord_ok i k : 0 ≤ i < n → 0 ≤ k < 2 → ∃ d, coord coordinates i k = Ok d.
Proof.
  intros Hi Hk. unfold coord. destruct (vec_get_ok coordinates i Hi) as (c & -> & Hc).
  rewrite Forall_lookup in Hcoord. pose proof (Hcoord _ _ Hc).
  destruct (vec_get_ok c k) as (d & E & _); [lia|]. exists d. exact E.
Qed.

Lemma between_ok i j : 0 ≤ i < n → 0 ≤ j < n → ∃ d, get_distance_between coordinates i j = Ok d.
Proof.
  intros Hi Hj. unfold get_distance_between.
  destruct (coord_ok i 0 Hi) as (? & ->); [lia|]. destruct (coord_ok j 0 Hj) as (? & ->); [lia|].
  destruct (coord_ok i 1 Hi) as (? & ->); [lia|]. destruct (coord_ok j 1 Hj) as (? & ->); [lia|].
  simpl. eauto.
Qed.

Lemma cities_int : n ≤ int_max.
Proof. unfold max_cities, int_max in *. lia. Qed.

Lemma size_minus_one_tour path : tour path → size_minus_one path = n - 1.
Proof.
  intros Ht. unfold size_minus_one. rewrite (tour_length _ Ht). apply u64_small.
  unfold max_cities in *. lia.
Qed.

Lemma get_distance_ok path : tour path → ∃ d, get_distance coordinates path = Done (Ok d).
Proof.
  intros Ht. pose proof cities_int. pose proof (tour_length _ Ht) as Hlen.
  unfold get_distance. rewrite size_minus_one_tour by done.
  destruct (for_loop_inv (fun _ _ => True) (S (length path)) 0 (n - 1) (fun i distance =>
    Done (a ← vec_get path i; b ← vec_get path (i + 1);
          i' ← int_of_double a; j' ← int_of_double b;
          d ← get_distance_between coordinates i' j'; Ok (dadd distance d))) dzero)
    as (d & -> & _); [lia..| |done|eauto].
  intros k d Hk _. destruct (vec_get_ok path k) as (a & -> & Ha); [lia|].
  destruct (vec_get_ok path (k + 1)) as (b & -> & Hb); [lia|].
  destruct (tour_city _ _ _ Ht Ha) as (za & -> & Hza). destruct (tour_city _ _ _ Ht Hb) as (zb & -> & Hzb).
  cbn [mbind outcome_bind]. rewrite !int_of_double_of_Z by lia. cbn [mbind outcome_bind].
  destruct (between_ok za zb Hza Hzb) as (x & ->). eauto.
Qed.

Lemma get_visibility_ok i : 0 ≤ i < n → ∃ d, get_visibility coordinates i = Done (Ok d).
Proof.
  intros Hi. pose proof cities_int. unfold get_visibility.
  edestruct (for_loop_inv (fun _ (_ : double) => True) (length coordinates) 0 n)
    as (d & E & _); [lia..| |done|eexists; exact E].
  intros k v Hk _. simpl. destruct (i =? k); [eauto|].
  destruct (between_ok i k Hi) as (x & ->); [lia|]. simpl. eauto.
Qed.

(** Vectors indexed by cities. *)
Definition sized_n (l : list double) : Prop := length l = length coordinates.

Lemma zeros_sized path : tour path → sized_n (zeros (length path)).
Proof. intros Ht. unfold sized_n, zeros. rewrite length_replicate. by apply tour_length. Qed.

Lemma vec_set_sized l j x : sized_n l → 0 ≤ j < n → ∃ l', vec_set l j x = Ok l' ∧ sized_n l'.
Proof.
  unfold sized_n. intros Hl Hj. rewrite vec_set_ok by (rewrite Hl; lia).
  eexists. split; [done|]. by rewrite length_insert.
Qed.

Lemma vec_get_sized l j : sized_n l → 0 ≤ j < n → ∃ x, vec_get l j = Ok x.
Proof. unfold sized_n. intros Hl Hj. destruct (vec_get_ok l j) as (x & E & _); [rewrite Hl; lia|eauto]. Qed.

Lemma update_pheromone_ok path ph :
  tour path → sized_n ph → ∃ ph', update_pheromone path ph = Done (Ok ph') ∧ sized_n ph'.
Proof.
  intros Ht Hph. pose proof cities_int. pose proof (tour_length _ Ht) as Hlen.
  unfold update_pheromone. rewrite size_minus_one_tour, Hlen by done.
  edestruct (for_loop_inv (fun _ l => sized_n l) (S (length coordinates)) 0 (n - 1))
    as (delta & -> & Hdelta); [lia..| |rewrite <- Hlen; by apply zeros_sized|].
  { intros k l Hk Hl. destruct (get_distance_ok path Ht) as (d & ->). cbn [mbind fuelled_bind].
    destruct (vec_set_sized l k (ddiv d_one d) Hl) as (l' & -> & Hl'); [lia|]. eauto. }
  cbn [mbind fuelled_bind].
  edestruct (for_loop_inv (fun _ l => sized_n l) (length coordinates) 0 n)
    as (ph' & E & Hph'); [lia..| |exact Hph|eexists; split; [exact E|done]].
  intros k l Hk Hl. cbv beta. destruct (vec_get_sized l k Hl) as (p & ->); [lia|].
  destruct (vec_get_sized delta k Hdelta) as (q & ->); [lia|]. cbn [mbind outcome_bind].
  destruct (vec_set_sized l k (dadd (dmul (dsub d_one rho) p) q) Hl) as (l' & -> & Hl'); [lia|]. eauto.
Qed.

Lemma cumulative_ok path ph :
  tour path → sized_n ph → ∃ cum, cumulative path ph = Done (Ok cum) ∧ sized_n cum.
Proof.
  intros Ht Hph. pose proof cities_int. pose proof (tour_length _ Ht) as Hlen.
  unfold cumulative. rewrite Hlen.
  edestruct (for_loop_inv (fun _ (s : list double * double) => sized_n s.1) (length coordinates) 0 n)
    as ([pr sum] & -> & Hpr); [lia..| |rewrite <- Hlen; by apply zeros_sized|].
  { intros k [l sum] Hk Hl. cbv beta iota. destruct (vec_get_sized ph k Hph) as (p & ->); [lia|].
    cbn [mbind fuelled_bind]. destruct (get_visibility_ok k) as (v & ->); [lia|].
    cbn [mbind fuelled_bind].
    destruct (vec_set_sized l k (dmul (pow p alpha) (pow v beta)) Hl) as (l' & -> & Hl'); [lia|].
    cbn [mbind fuelled_bind]. eauto. }
  cbn [mbind fuelled_bind].
  edestruct (for_loop_inv (fun _ l => sized_n l) (length coordinates) 0 n)
    as (pr' & -> & Hpr'); [lia..| |exact Hpr|].
  { intros k l Hk Hl. cbv beta. destruct (vec_get_sized l k Hl) as (p & ->); [lia|].
    cbn [mbind outcome_bind].
    destruct (vec_set_sized l k (ddiv p sum) Hl) as (l' & -> & Hl'); [lia|]. eauto. }
  cbn [mbind fuelled_bind]. destruct (vec_get_sized pr' 0 Hpr') as (p0 & ->); [lia|].
  cbn [mbind outcome_bind]. rewrite <- Hlen.
  destruct (vec_set_sized _ 0 p0 (zeros_sized path Ht)) as (c0 & -> & Hc0); [lia|].
  cbn [mbind fuelled_bind]. rewrite Hlen.
  edestruct (for_loop_inv (fun _ l => sized_n l) (length coordinates) 1 n)
    as (cum & E & Hcum); [lia..| |exact Hc0|eexists; split; [exact E|done]].
  intros k l Hk Hl. cbv beta. destruct (vec_get_sized l (k - 1) Hl) as (p & ->); [lia|].
  destruct (vec_get_sized pr' k Hpr') as (q & ->); [lia|]. cbn [mbind outcome_bind].
  destruct (vec_set_sized l k (dadd p q) Hl) as (l' & -> & Hl'); [lia|]. eauto.
Qed.

Lemma select_next_ok path cum r :
  tour path → sized_n cum → ∃ next, select_next path cum r = Done (Ok next) ∧ 0 ≤ next < n.
Proof.
  intros Ht Hcum. pose proof cities_int. unfold select_next. rewrite (tour_length _ Ht).
  edestruct (for_loop_inv (fun _ (o : option Z) => ∀ j, o = Some j → 0 ≤ j < n) (length coordinates) 0 n)
    as (o & -> & Ho); [lia..| |done|].
  { intros k [j|] Hk Hj; cbv beta iota; [eauto|].
    destruct (vec_get_sized cum k Hcum) as (c & ->); [lia|]. cbn [mbind fuelled_bind].
    destruct (dltb r c); eexists; (split; [reflexivity|]); [|done]. intros j [= <-]. lia. }
  cbn [mbind fuelled_bind]. destruct o as [j|]; simpl; eexists; (split; [reflexivity|]); [by apply Ho|lia].
Qed.

Lemma swap_tour path i j :
  tour path → 0 ≤ i < n → 0 ≤ j < n → ∃ path', vec_swap path i j = Ok path' ∧ tour path'.
Proof.
  intros Ht Hi Hj. pose proof (tour_length _ Ht) as Hlen.
  destruct (vec_swap_ok path i j) as (path' & E & Hp); [lia..|].
  exists path'. split; [done|]. unfold tour in *. by rewrite Hp.
Qed.

(** What every iteration keeps. *)
Definition ant_inv (s : ant_state) : Prop := tour (a_path s) ∧ sized_n (a_pheromone s).

Lemma ant_iteration_ok s : ant_inv s → ∃ s', ant_iteration s = Done (Ok s') ∧ ant_inv s'.
Proof.
  intros [Hpath Hph]. unfold ant_iteration.
  pose proof (Hshuffle (a_rng s) (iota (length coordinates))) as Hnew. fold (get_path coordinates (a_rng s)) in Hnew.
  destruct (get_path coordinates (a_rng s)) as [g next_path]. simpl in Hnew. change (tour next_path) in Hnew.
  destruct (get_distance_ok _ Hnew) as (nd & ->). cbn [mbind fuelled_bind].
  assert (∃ path best, (if dltb nd (a_best s) then (next_path, nd) else (a_path s, a_best s)) = (path, best)
    ∧ tour path) as (path & best & -> & Ht) by (destruct (dltb nd _); eauto).
  destruct (update_pheromone_ok path _ Ht Hph) as (ph' & -> & Hph'). cbn [mbind fuelled_bind].
  destruct (cumulative_ok path ph' Ht Hph') as (cum & -> & Hcum). cbn [mbind fuelled_bind].
  destruct (uniform g) as [g1 r].
  destruct (select_next_ok path cum r Ht Hcum) as (next & -> & Hnext). cbn [mbind fuelled_bind].
  assert (∃ path1, (if u64 next =? size_minus_one path then Ok path else vec_swap path next (next + 1))
    = Ok path1 ∧ tour path1) as (path1 & -> & Ht1).
  { rewrite size_minus_one_tour, u64_small by (try done; unfold max_cities in *; lia).
    destruct (Z.eqb_spec next (n - 1)); [eauto|]. apply swap_tour; [done|lia..]. }
  cbn [mbind fuelled_bind]. destruct (dgtb q0 dzero); [|eexists; split; [reflexivity|by split]].
  destruct (uniform g1) as [g2 r2].
  assert (∃ path2, (if dltb r2 q0 then vec_swap path1 0 1 else Ok path1) = Ok path2 ∧ tour path2)
    as (path2 & -> & Ht2).
  { destruct (dltb r2 q0); [|eauto]. apply swap_tour; [done|lia..]. }
  cbn [mbind fuelled_bind]. eexists; split; [reflexivity|by split].
Qed.

Lemma ant_tour g :
  iterations ≤ int_max →
  ∃ g' path, ant g = Done (Ok (g', path)) ∧ tour path.
Proof.
  intros Hit. unfold ant.
  pose proof (Hshuffle g (iota (length coordinates))) as Hnew. fold (get_path coordinates g) in Hnew.
  destruct (get_path coordinates g) as [g0 path]. simpl in Hnew. change (tour path) in Hnew.
  assert (ant_inv (mkAnt g0 path (replicate (length path) d_one) double_max)) as H0.
  { split; [done|]. unfold sized_n. simpl. rewrite length_replicate. by apply tour_length. }
  destruct (decide (0 ≤ iterations)).
  - destruct (for_loop_inv (fun _ s => ant_inv s) (Z.to_nat iterations) 0 iterations
      (fun _ s => ant_iteration s) _ ltac:(lia) Hit ltac:(lia) (fun _ s _ => ant_iteration_ok s) H0)
      as (s & -> & [Ht _]). cbn [mbind fuelled_bind]. eauto.
  - assert (Z.to_nat iterations = 0%nat) as -> by lia. simpl.
    rewrite (proj2 (Z.ltb_ge 0 iterations)) by lia. simpl. eauto.
Qed.

End Aco.

(** ** The cities of the test

    [test_aco] draws between 2 and 20 cities with two coordinates each. *)

Section Test.
Context {rng : Type} (dis : rng → rng * Z) (dis2 : rng → rng * double).

Definition test_coordinates (cities : Z) (g : rng) : fuelled (rng * list (list double)) :=
  for_loop (Z.to_nat cities) 0 cities (fun i s =>
    for_loop 2 0 2 (fun _ '(g, coordinates) =>
      let '(g, x) := dis2 g in
      Done (c ← vec_get coordinates i; l ← vec_set coordinates i (c ++ [x]); Ok (g, l))) s)
    (g, replicate (Z.to_nat cities) []).

Definition test_cities (gen : rng) : fuelled (rng * list (list double)) :=
  let '(gen, cities) := dis gen in test_coordinates cities gen.

(** While city [i] is filled, the cities before it have two coordinates, [i] has
    [k], the later ones none. *)
Definition filled (cities i k : Z) (cs : list (list double)) : Prop :=
  Z.of_nat (length cs) = cities ∧
  ∀ j c, cs !! j = Some c → Z.of_nat (length c) = if Z.of_nat j <? i then 2 else if Z.of_nat j =? i then k else 0.

Lemma filled_push cities i k cs x :
  filled cities i k cs → 0 ≤ i < cities →
  ∃ c cs', vec_get cs i = Ok c ∧ vec_set cs i (c ++ [x]) = Ok cs' ∧ filled cities i (k + 1) cs'.
Proof.
  intros [Hlen Hf] Hi. destruct (vec_get_ok cs i) as (c & E & Hc); [lia|].
  exists c, (<[Z.to_nat i := c ++ [x]]> cs). split; [done|]. split; [apply vec_set_ok; lia|].
  split; [by rewrite length_insert|]. intros j c' Hj.
  apply list_lookup_insert_Some in Hj as [(<- & <- & _)|[Hne Hj]].
  - specialize (Hf _ _ Hc). rewrite length_app. simpl.
    rewrite Z2Nat.id, Z.ltb_irrefl, Z.eqb_refl in * by lia. lia.
  - specialize (Hf _ _ Hj). rewrite Hf. destruct (Z.eqb_spec (Z.of_nat j) i); [lia|done].
Qed.

Lemma test_coordinates_ok cities g :
  0 ≤ cities ≤ int_max →
  ∃ g' cs, test_coordinates cities g = Done (Ok (g', cs)) ∧
    Z.of_nat (length cs) = cities ∧ Forall (fun c => length c = 2%nat) cs.
Proof.
  intros Hc. unfold test_coordinates.
  edestruct (for_loop_inv (fun i (s : rng * list (list double)) => filled cities i 0 s.2) (Z.to_nat cities) 0 cities)
    as ([g' cs] & -> & Hlen & Hf); [lia..| | |].
  2: { split; simpl; [rewrite length_replicate; lia|]. intros j c [-> _]%lookup_replicate.
       rewrite (proj2 (Z.ltb_ge _ _)) by lia. by destruct (_ =? _). }
  - intros i s Hi Hs. edestruct (for_loop_inv (fun k (s : rng * list (list double)) => filled cities i k s.2) 2 0 2)
      as (s' & E & Hs'); [lia|unfold int_max; lia|lia| |exact Hs|].
    2: { eexists. split; [exact E|]. destruct Hs' as [Hlen Hf]. split; [done|].
         intros j c Hj. rewrite (Hf j c Hj). repeat case_match; lia. }
    intros k [g1 cs] Hk Hcs. destruct (dis2 g1) as [g2 x].
    simpl in Hcs. destruct (filled_push _ _ _ _ x Hcs Hi) as (c & cs1 & -> & E & Hcs1).
    cbn [mbind outcome_bind]. rewrite E. eexists. by split; [reflexivity|].
  - simpl in Hlen, Hf. exists g', cs. split; [done|]. split; [done|]. apply Forall_lookup. intros j c Hj.
    pose proof (Hf j c Hj) as E. apply lookup_lt_Some in Hj.
    rewrite (proj2 (Z.ltb_lt _ _)) in E by lia. lia.
Qed.

End Test.

(** ** Theorems *)

(** C22: with between 2 and 4096 cities of two coordinates each an ant terminates
    without an index out of range, whatever the random draws and the value of
    [std::pow], and returns a permutation of the cities.  The cities that the test
    draws, between 2 and 20, are such cities. *)
Theorem ant_returns_tour (pow : double → double → double) (rng : Type)
    (random_shuffle : rng → list double → rng * list double) (uniform : rng → rng * double)
    (iterations : Z) (alpha beta rho q0 : double)
    (Hshuffle : ∀ g l, (random_shuffle g l).2 ≡ₚ l) (Hit : iterations ≤ int_max) :
  (∀ (coordinates : list (list double)) (g : rng),
     2 ≤ Z.of_nat (length coordinates) ≤ max_cities → Forall (fun c => length c = 2%nat) coordinates →
     ∃ g' path, ant pow random_shuffle uniform coordinates iterations alpha beta rho q0 g = Done (Ok (g', path)) ∧
       path ≡ₚ iota (length coordinates)) ∧
  ∀ (dis : rng → rng * Z) (dis2 : rng → rng * double) (gen : rng),
    (∀ g, 2 ≤ (dis g).2 ≤ 20) →
    ∃ gen' coordinates, test_cities dis dis2 gen = Done (Ok (gen', coordinates)) ∧
      2 ≤ Z.of_nat (length coordinates) ≤ max_cities ∧ Forall (fun c => length c = 2%nat) coordinates.
Proof.
  split; [intros coordinates g Hcities Hcoord; by apply ant_tour|]. intros dis dis2 gen Hdis.
  unfold test_cities. pose proof (Hdis gen) as Hd. destruct (dis gen) as [gen' cities]. simpl in Hd.
  destruct (test_coordinates_ok dis2 cities gen') as (g & cs & -> & Hlen & Hcs); [unfold int_max; lia|].
  exists g, cs. split; [done|]. split; [unfold max_cities; lia|done].
Qed.

(** Two cities; a shuffle that reverses and constant draws. *)
Definition two_cities : list (list double) :=
  [[dzero; dzero]; [double_of_Z 3; double_of_Z 4]].

Lemma ant_returns_tour_witness :
  (∃ g' path, ant dmul (fun n l => (S n, reverse l)) (fun n => (S n, dzero)) two_cities 3
      d_one d_one dzero d_one 0%nat = Done (Ok (g', path)) ∧ path ≡ₚ iota 2) ∧
  ∃ gen' coordinates, test_cities (fun n => (S n, 2)) (fun n => (S n, d_one)) 0%nat = Done (Ok (gen', coordinates)) ∧
      2 ≤ Z.of_nat (length coordinates) ≤ max_cities ∧ Forall (fun c => length c = 2%nat) coordinates.
Proof.
  destruct (ant_returns_tour dmul nat (fun n l => (S n, reverse l)) (fun n => (S n, dzero)) 3 d_one d_one dzero d_one
    ltac:(intros g l; apply reverse_Permutation) ltac:(unfold int_max; lia)) as [Hant Hcities].
  split; [apply (Hant two_cities 0%nat); [unfold max_cities; simpl; lia|repeat constructor]|].
  apply Hcities. intros g. simpl. lia.
Defined.

(** Without cities the loop bound [path.size() - 1] wraps around and the
    first iteration reads outside the empty path. *)
Theorem ant_no_cities_undefined (pow : double → double → double) (rng : Type)
    (random_shuffle : rng → list double → rng * list double) (uniform : rng → rng * double)
    (iterations : Z) (alpha beta rho q0 : double) (g : rng)
    (Hshuffle : ∀ g l, (random_shuffle g l).2 ≡ₚ l) (Hit : 0 < iterations) :
  ant pow random_shuffle uniform [] iterations alpha beta rho q0 g = Done (Undef oob_access).
Proof.
  assert (∀ g, ∃ g', get_path random_shuffle [] g = (g', [])) as Hnil.
  { intros g0. unfold get_path. pose proof (Hshuffle g0 (iota 0)) as H.
    destruct (random_shuffle g0 _) as [g' l]. simpl in H. apply Permutation_nil_r in H as ->. eauto. }
  unfold ant. destruct (Hnil g) as (g1 & ->).
  destruct (Z.to_nat iterations) as [|k] eqn:Ek; [lia|]. cbn [for_loop].
  rewrite (proj2 (Z.ltb_lt 0 iterations)) by lia.
  match goal with |- context [ant_iteration ?p ?sh ?u ?c ?a ?b ?r ?q ?s] =>
    assert (ant_iteration p sh u c a b r q s = Done (Undef oob_access)) as ->; [|done] end.
  unfold ant_iteration. cbn [a_rng]. destruct (Hnil g1) as (g2 & ->). reflexivity.
Qed.

Lemma ant_no_cities_undefined_witness :
  ant dmul (fun n l => (S n, reverse l)) (fun n => (S n, dzero)) [] 1 d_one d_one dzero d_one 0%nat
  = Done (Undef oob_access).
Proof.
  apply ant_no_cities_undefined; [|lia]. intros g l. simpl. apply reverse_Permutation.
Defined.
