(* ===== verification/ParticleFilter.v ===== *)
(** * The particle filter (cjunk/practice/geoParticleFilter.cc)

    [Particle::update], [normalize], [resample] and the loop [run_pf].  The
    type [Map] and the functions of <cmath> are not in the repository and are
    parameters.  A future is [Some r] while it refers to the result [r] of its
    task and [None] after [get]; [get] on the latter is undefined behaviour.  A
    task only touches its own particle, so a round of tasks is a map over the
    particles.  Random draws are passed as a sequence. *)

From Stdlib Require Import ZArith Lia.
From stdpp Require Import base list.
From S2P Require Import Prelude Double Loops.
Local Open Scope Z_scope.

Section Filter.
Context {Map : Type} (map_at : Map → Z → outcome (double * double)).
Context (cos sin atan exp : double → double) (atan2 : double → double → double) (pi : double).

(** The decimal constants 0.2 and 0.1. *)
Definition c_0_2 : double := decimal_to_double false 2 (-1).
Definition c_0_1 : double := decimal_to_double false 1 (-1).

Record Model := mkModel { dt : double; std_pos : double * double; std_landmark : double * double }.
Record LandmarkObs := mkObs { landmark_id : Z; dx : double; dy : double }.
Record Particle := mkParticle { p_x : double; p_y : double; p_theta : double; p_weight : double }.

Definition Particle_init : Particle := mkParticle dzero dzero dzero d_one.

Definition two : double := double_of_Z 2.

(** The three factors one observation multiplies into the weight. *)
Definition observation_weight (model : Model) (x y theta w : double) (o : LandmarkObs)
    (landmark : double * double) : double :=
  let '(landmark_x, landmark_y) := landmark in
  let distance := dsqrt (dadd (dmul (dsub x landmark_x) (dsub x landmark_x))
                              (dmul (dsub y landmark_y) (dsub y landmark_y))) in
  let bearing := dsub (atan2 (dsub landmark_y y) (dsub landmark_x x)) theta in
  let '(l0, l1) := std_landmark model in
  let '(s0, s1) := std_pos model in
  let a := atan (ddiv s1 s0) in
  let w := dmul w (ddiv d_one (dmul (dsqrt (dmul (dmul (dmul two pi) l0) l1))
    (exp (ddiv (dopp (dadd (dmul (dx o) (dx o)) (dmul (dy o) (dy o)))) (dmul (dmul two l0) l1))))) in
  let w := dmul w (ddiv d_one (dmul (dsqrt (dmul (dmul (dmul two pi) s0) s1))
    (exp (ddiv (dopp (dmul distance distance)) (dmul (dmul two s0) s1))))) in
  dmul w (ddiv d_one (dmul (dsqrt (dmul (dmul two pi) a))
    (exp (ddiv (dopp (dmul bearing bearing)) (dmul two a))))).

Fixpoint weigh (model : Model) (map : Map) (x y theta w : double) (observations : list LandmarkObs)
    : outcome double :=
  match observations with
  | [] => Ok w
  | o :: rest =>
      landmark ← map_at map (landmark_id o);
      weigh model map x y theta (observation_weight model x y theta w o landmark) rest
  end.

Definition Particle_update (model : Model) (observations : list LandmarkObs) (map : Map)
    (p : Particle) : outcome Particle :=
  let x := dadd (p_x p) (dmul (dt model) (cos (p_theta p))) in
  let y := dadd (p_y p) (dmul (dt model) (sin (p_theta p))) in
  let theta := dadd (p_theta p) (dmul (dt model)
    (dadd (dmul c_0_2 (sin (dmul (double_of_Z 10) (p_theta p)))) c_0_1)) in
  w ← weigh model map x y theta d_one observations;
  Ok (mkParticle x y theta w).

(** [std::accumulate] from 0.0, then a division of each weight. *)
Definition normalize (weights : list double) : list double :=
  let sum := fold_left dadd weights dzero in (fun w => ddiv w sum) <$> weights.

Fixpoint running (acc : double) (l : list double) : list double :=
  match l with [] => [] | w :: l' => dadd acc w :: running (dadd acc w) l' end.

Definition cumulative_weights (weights : list double) : outcome (list double) :=
  match weights with [] => Undef oob_access | w :: l => Ok (w :: running w l) end.

(** [while (random_number > cumulative_weights[index]) index++], from the suffix of
    the sums that starts at [index]. *)
Fixpoint find_index (cum : list double) (random_number : double) (index : nat) : outcome nat :=
  match cum with
  | [] => Undef oob_access
  | c :: cum' => if dgtb random_number c then find_index cum' random_number (S index) else Ok index
  end.

(** One draw of [dis(gen)] per particle. *)
Fixpoint resample_loop {P : Type} (particles : list P) (cum : list double) (n : nat)
    (draws : list double) : outcome (list P) :=
  match n, draws with
  | O, _ => Ok []
  | S _, [] => Undef bad_precondition
  | S n', r :: draws' =>
      index ← find_index cum r 0;
      p ← vec_get particles (Z.of_nat index);
      rest ← resample_loop particles cum n' draws'; Ok (p :: rest)
  end.

Definition resample {P : Type} (particles : list P) (weights draws : list double) : outcome (list P) :=
  cum ← cumulative_weights weights;
  resample_loop particles cum (length particles) draws.

(** ** The filter loop *)

Record pf_state := mkPf { particles : list Particle; futures : list (option (outcome Particle)) }.

(** [futures[j].get()]: rethrows what the task threw. *)
Definition future_get (j : Z) (s : pf_state) : outcome pf_state :=
  f ← vec_get (futures s) j;
  match f with
  | None => Undef bad_precondition
  | Some r =>
      p ← r;
      fs ← vec_set (futures s) j None;
      ps ← vec_set (particles s) j p;
      Ok (mkPf ps fs)
  end.

(** One iteration: launch, collect, print the weights and the resampled particles. *)
Definition pf_iteration (model : Model) (observations : list LandmarkObs) (map : Map)
    (num_particles : Z) (draws : list double) (s : pf_state) : fuelled pf_state :=
  let s := mkPf (particles s)
    (futures s ++ (Some <$> (Particle_update model observations map <$> particles s))) in
  s ← for_loop (Z.to_nat num_particles) 0 num_particles (fun j s => Done (future_get j s)) s;
  _ ← Done (resample (particles s) (normalize (p_weight <$> particles s)) draws);
  mret s.

Definition run_pf (model : Model) (observations : list LandmarkObs) (map : Map)
    (num_particles num_iterations : Z) (draws : Z → list double) : fuelled pf_state :=
  for_loop (Z.to_nat num_iterations) 0 num_iterations
    (fun i s => pf_iteration model observations map num_particles (draws i) s)
    (mkPf (replicate (Z.to_nat num_particles) Particle_init) []).

(** [test_particle_filter]: four landmarks, one observation of each, 100 particles and
    10 iterations.  [Landmark] and the way to fill a [Map] are not in the
    repository, and [Model] has no constructor from four numbers, so the model is
    an argument. *)
Definition landmarks : list (Z * (double * double)) :=
  [(0, (dzero, dzero)); (1, (d_one, dzero)); (2, (dzero, d_one)); (3, (d_one, d_one))].
Definition test_observations : list LandmarkObs :=
  (fun id => mkObs id dzero dzero) <$> [0; 1; 2; 3].
Definition test_particle_filter (empty : Map) (insert : Map → Z * (double * double) → Map)
    (model : Model) (draws : Z → list double) : fuelled pf_state :=
  run_pf model test_observations (fold_left insert landmarks empty) 100 10 draws.

(** ** Resampling *)

(** [i] is the first position whose running sum is not exceeded by [r]. *)
Definition first_reached (cum : list double) (r : double) (i : nat) : Prop :=
  (∃ c, cum !! i = Some c ∧ dgtb r c = false) ∧
  (∀ j c, (j < i)%nat → cum !! j = Some c → dgtb r c = true).

Lemma find_index_spec cum r k :
  (∃ i, find_index cum r k = Ok (k + i)%nat ∧ first_reached cum r i) ∨
  (find_index cum r k = Undef oob_access ∧ Forall (fun c => dgtb r c = true) cum).
Proof.
  revert k. induction cum as [|c cum IH]; intros k; simpl; [right; eauto|].
  destruct (dgtb r c) eqn:E.
  - destruct (IH (S k)) as [(i & -> & (d & Hd & Hr) & Hlt)|[-> Hall]]; [left|right; auto].
    exists (S i). split; [f_equal; lia|]. split; [by exists d|].
    intros [|j] d' Hj Hd'; [by injection Hd' as <-|]. apply (Hlt j); [lia|done].
  - left. exists 0%nat. split; [f_equal; lia|]. split; [by exists c|]. intros j; lia.
Qed.

Lemma running_length acc l : length (running acc l) = length l.
Proof. revert acc. induction l; intros; simpl; auto. Qed.

Lemma resample_loop_spec {P} (particles : list P) cum n draws :
  length cum = length particles → (n ≤ length draws)%nat →
  (Forall (fun r => ¬ Forall (fun c => dgtb r c = true) cum) (take n draws) →
    ∃ out, resample_loop particles cum n draws = Ok out ∧
      Forall2 (fun r p => ∃ i, first_reached cum r i ∧ particles !! i = Some p) (take n draws) out) ∧
  (Exists (fun r => Forall (fun c => dgtb r c = true) cum) (take n draws) →
    resample_loop particles cum n draws = Undef oob_access).
Proof.
  intros Hcum. revert draws. induction n as [|n IH]; intros draws Hdraws; simpl.
  { split; [eauto|]. intros H. inversion H. }
  destruct draws as [|r draws]; [simpl in Hdraws; lia|]. simpl in Hdraws.
  destruct (IH draws) as [IH1 IH2]; [lia|]. cbn [take].
  destruct (find_index_spec cum r 0) as [(i & -> & Hfirst)|[-> Hall]]; cbn [mbind outcome_bind].
  - assert (∃ p, vec_get particles (Z.of_nat (0 + i)) = Ok p ∧ particles !! i = Some p) as (p & -> & Hp).
    { destruct Hfirst as [(c & Hc & _) _]. apply lookup_lt_Some in Hc.
      destruct (vec_get_ok particles (Z.of_nat i)) as (p & E & Hp); [lia|].
      rewrite Nat2Z.id in Hp. eauto. }
    cbn [mbind outcome_bind]. split.
    + intros [Hr Hrest]%Forall_cons. destruct (IH1 Hrest) as (out & -> & Hout).
      cbn [mbind outcome_bind]. eexists. split; [done|]. constructor; eauto.
    + intros [Hr|Hrest]%Exists_cons; [|by rewrite (IH2 Hrest)].
      destruct Hfirst as [(c & Hc & Hle) _]. rewrite Forall_lookup in Hr. by rewrite (Hr _ _ Hc) in Hle.
  - split; [|done]. intros [Hr _]%Forall_cons. done.
Qed.

(** ** Spent futures *)

Lemma future_get_inv j s s' :
  future_get j s = Ok s' →
  0 ≤ j ∧ futures s' = <[Z.to_nat j := None]> (futures s) ∧ length (particles s') = length (particles s) ∧
  (Z.to_nat j < length (futures s))%nat.
Proof.
  unfold future_get. intros (f & Hf & E)%bind_ok. destruct f as [r|]; [|done].
  apply bind_ok in E as (p & Hp & E). apply bind_ok in E as (fs & Hfs & E).
  apply bind_ok in E as (ps & Hps & [= <-]). unfold vec_set in *. simpl.
  destruct (_ && _) eqn:E1 in Hfs; [|done]. destruct (_ && _) eqn:E2 in Hps; [|done].
  injection Hfs as <-. injection Hps as <-.
  rewrite andb_true_iff, Z.leb_le, Z.ltb_lt in E1. rewrite length_insert. repeat split; lia.
Qed.

(** After an iteration the first [n] futures have no state. *)
Lemma pf_iteration_spends model observations map n draws s s' :
  0 ≤ n → pf_iteration model observations map n draws s = Done (Ok s') →
  ∀ i, (Z.of_nat i < n) → futures s' !! i = Some None.
Proof.
  intros Hn E. unfold pf_iteration in E. apply fbind_ok in E as (s1 & E1 & E).
  apply fbind_ok in E as (ps & _ & [= <-]).
  set (s0 := mkPf _ _) in E1.
  refine (for_loop_partial (fun j s => ∀ i, Z.of_nat i < j → futures s !! i = Some None)
    _ _ _ _ _ _ Hn _ _ E1); [|lia].
  intros k s2 s3 Hk IH [= H]. destruct (future_get_inv _ _ _ H) as (_ & Hf & _ & Hlt).
  intros i Hi. rewrite Hf. destruct (decide (i = Z.to_nat k)) as [->|Hne].
  - by apply list_lookup_insert_eq.
  - rewrite list_lookup_insert_ne by done. apply IH. lia.
Qed.

Lemma pf_iteration_spent model observations map n draws s :
  1 ≤ n → futures s !! 0%nat = Some None →
  pf_iteration model observations map n draws s = Done (Undef bad_precondition).
Proof.
  intros Hn Hf. unfold pf_iteration. destruct (Z.to_nat n) as [|k] eqn:Ek; [lia|].
  cbn [for_loop]. rewrite (proj2 (Z.ltb_lt 0 n)) by lia.
  assert (future_get 0 (mkPf (particles s)
    (futures s ++ (Some <$> (Particle_update model observations map <$> particles s))))
    = Undef bad_precondition) as Hg.
  { unfold future_get, vec_get. simpl. by rewrite (lookup_app_l_Some _ _ _ _ Hf). }
  by rewrite Hg.
Qed.

(** ** The first iteration *)

Lemma weigh_total model map x y theta w observations :
  Forall (fun o => ∃ l, map_at map (landmark_id o) = Ok l) observations →
  ∃ w', weigh model map x y theta w observations = Ok w'.
Proof.
  intros H. revert w. induction H as [|o os (l & Hl) _ IH]; intros w; simpl; [eauto|].
  rewrite Hl. simpl. apply IH.
Qed.

Lemma Particle_update_total model map observations p :
  Forall (fun o => ∃ l, map_at map (landmark_id o) = Ok l) observations →
  ∃ p', Particle_update model observations map p = Ok p'.
Proof.
  intros H. unfold Particle_update.
  edestruct (weigh_total model map) as [w ->]; [exact H|]. simpl. eauto.
Qed.

(** All futures from [k] on hold a particle. *)
Definition pending (n k : Z) (s : pf_state) : Prop :=
  Z.of_nat (length (particles s)) = n ∧
  ∀ i, k ≤ Z.of_nat i < n → ∃ p, futures s !! i = Some (Some (Ok p)).

Lemma future_get_pending n k s :
  0 ≤ k < n → pending n k s → ∃ s', future_get k s = Ok s' ∧ pending n (k + 1) s'.
Proof.
  intros Hk [Hlen Hf]. destruct (Hf (Z.to_nat k)) as [p Hp]; [lia|].
  assert (k < Z.of_nat (length (futures s))) as Hlt by (apply lookup_lt_Some in Hp; lia).
  unfold future_get, vec_get. rewrite (proj2 (Z.leb_le 0 k)), Hp by lia. simpl.
  rewrite vec_set_ok by lia. simpl. rewrite vec_set_ok by lia. simpl.
  eexists. split; [done|]. split; simpl; [by rewrite length_insert|].
  intros i Hi. rewrite list_lookup_insert_ne by lia. apply Hf. lia.
Qed.

(** With every landmark known, an iteration on fresh futures fails only in [resample]. *)
Lemma pf_iteration_first model observations map n draws ps :
  Forall (fun o => ∃ l, map_at map (landmark_id o) = Ok l) observations →
  1 ≤ n ≤ int_max → Z.of_nat (length ps) = n → n ≤ Z.of_nat (length draws) →
  (∃ s, pf_iteration model observations map n draws (mkPf ps []) = Done (Ok s)) ∨
  pf_iteration model observations map n draws (mkPf ps []) = Done (Undef oob_access).
Proof.
  intros Hmap Hn Hps Hdraws. unfold pf_iteration. simpl particles. simpl futures.
  edestruct (for_loop_inv (pending n) (Z.to_nat n) 0 n (fun j s => Done (future_get j s)))
    as (s' & -> & Hlen & _); [lia|lia|lia| | |].
  - intros k s Hk Hs. destruct (future_get_pending n k s) as (s' & -> & Hs'); [lia|done|eauto].
  - split; simpl; [exact Hps|]. intros i Hi. rewrite !list_lookup_fmap.
    destruct (lookup_lt_is_Some_2 ps i) as [p ->]; [lia|]. simpl.
    destruct (Particle_update_total model map observations p Hmap) as [p' ->]. eauto.
  - cbn [mbind fuelled_bind]. unfold resample, normalize.
    destruct (particles s') as [|q qs] eqn:Eq; [simpl in Hlen; lia|].
    cbn [fmap list_fmap cumulative_weights mbind outcome_bind].
    set (w0 := ddiv (p_weight q) _). set (ws := _ <$> (p_weight <$> qs)).
    destruct (resample_loop_spec (q :: qs) (w0 :: running w0 ws) (length (q :: qs)) draws) as [Hok Hbad];
      [subst ws; simpl; by rewrite running_length, !length_fmap|lia|].
    match type of Hok with (Forall ?Q ?l → _) => destruct (decide (Forall Q l)) as [Hall|Hnall] end.
    + destruct (Hok Hall) as (out & -> & _). cbn. eauto.
    + right. rewrite Hbad; [done|].
      apply not_Forall_Exists in Hnall; [|intros r; apply _].
      eapply Exists_impl; [exact Hnall|]. intros r Hr. simpl in Hr. by apply dec_stable.
Qed.
End Filter.

(** ** Theorems *)

(** C24: [resample] picks, for each draw, the first particle whose running sum of
    weights the draw does not exceed; if some draw exceeds every running sum
    (the last one may round to less than one), the search leaves the vector. *)
Theorem resample_correct {P : Type} (particles : list P) (w : double) (ws draws : list double)
    (Hlen : length particles = length (w :: ws)) (Hdraws : (length particles ≤ length draws)%nat) :
  let cum := w :: running w ws in
  let used := take (length particles) draws in
  (Forall (fun r => ¬ Forall (fun c => dgtb r c = true) cum) used →
    ∃ out, resample particles (w :: ws) draws = Ok out ∧
      Forall2 (fun r p => ∃ i, first_reached cum r i ∧ particles !! i = Some p) used out) ∧
  (Exists (fun r => Forall (fun c => dgtb r c = true) cum) used →
    resample particles (w :: ws) draws = Undef oob_access).
Proof.
  intros cum used. unfold resample. cbn [cumulative_weights mbind outcome_bind].
  apply resample_loop_spec; [|done]. rewrite Hlen. simpl. by rewrite running_length.
Qed.

Lemma resample_correct_witness :
  ∃ out, resample [10; 20] [d_one; d_one] [d_one; double_of_Z 2] = Ok out ∧ length out = 2%nat.
Proof.
  destruct (proj1 (resample_correct [10; 20] d_one [d_one] [d_one; double_of_Z 2] eq_refl (le_n 2)))
    as (out & E & H).
  - constructor; [|constructor; [|constructor]]; intros [H1 [H2 _]%Forall_cons]%Forall_cons.
    + vm_compute in H1. discriminate.
    + vm_compute in H2. discriminate.
  - exists out. split; [done|]. by apply Forall2_length in H.
Defined.

(** The vector of futures is never cleared: the second iteration calls
    [get] on the futures of the first, so a filter with at least one particle
    that is asked for two or more iterations has undefined behaviour as soon as
    the first one succeeds. *)
Theorem second_iteration_undefined {Map : Type} (map_at : Map → Z → outcome (double * double))
    (cos sin atan exp : double → double) (atan2 : double → double → double) (pi : double)
    (model : Model) (observations : list LandmarkObs) (map : Map)
    (num_particles num_iterations : Z) (draws : Z → list double) (s : pf_state)
    (Hn : 1 ≤ num_particles) (Hit : 2 ≤ num_iterations)
    (Hfirst : pf_iteration map_at cos sin atan exp atan2 pi model observations map num_particles
       (draws 0) (mkPf (replicate (Z.to_nat num_particles) Particle_init) []) = Done (Ok s)) :
  run_pf map_at cos sin atan exp atan2 pi model observations map num_particles num_iterations draws
  = Done (Undef bad_precondition).
Proof.
  unfold run_pf. destruct (Z.to_nat num_iterations) as [|[|k]] eqn:Ek; [lia..|].
  cbn [for_loop]. rewrite (proj2 (Z.ltb_lt 0 num_iterations)) by lia.
  rewrite Hfirst. cbn [mbind fuelled_bind]. rewrite (int32_ok (0 + 1)) by (unfold int_min, int_max; lia).
  cbn [mbind fuelled_bind]. rewrite (proj2 (Z.ltb_lt (0 + 1) num_iterations)) by lia.
  rewrite pf_iteration_spent; [done|done|].
  eapply pf_iteration_spends; [|exact Hfirst|]; simpl; lia.
Qed.

Lemma second_iteration_undefined_witness :
  run_pf (fun _ : unit => fun _ => Ok (dzero, dzero)) (fun x => x) (fun x => x) (fun x => x) (fun x => x)
    (fun x _ => x) d_one (mkModel dzero (d_one, d_one) (d_one, d_one)) [] tt 1 10 (fun _ => [d_one])
  = Done (Undef bad_precondition).
Proof. eapply second_iteration_undefined; [lia|lia|]. vm_compute. reflexivity. Defined.

(** The test of the program never ends normally.  Every observation has its
    landmark, so the first iteration can only fail when it resamples; otherwise
    the second iteration uses the futures of the first again. *)
Theorem particle_filter_test_undefined {Map : Type} (map_at : Map → Z → outcome (double * double))
    (cos sin atan exp : double → double) (atan2 : double → double → double) (pi : double)
    (empty : Map) (insert : Map → Z * (double * double) → Map) (model : Model) (draws : Z → list double)
    (Hsame : ∀ m k v, map_at (insert m (k, v)) k = Ok v)
    (Hother : ∀ m k v k', k ≠ k' → map_at (insert m (k, v)) k' = map_at m k')
    (Hdraws : ∀ i, 100 ≤ Z.of_nat (length (draws i))) :
  let r := test_particle_filter map_at cos sin atan exp atan2 pi empty insert model draws in
  r = Done (Undef oob_access) ∨ r = Done (Undef bad_precondition).
Proof.
  intros r. subst r. unfold test_particle_filter.
  assert (Forall (fun o => ∃ l, map_at (fold_left insert landmarks empty) (landmark_id o) = Ok l)
    test_observations) as Hmap.
  { repeat constructor; simpl; eexists; repeat first [apply Hsame|rewrite Hother by lia]. }
  set (map := fold_left insert landmarks empty) in *.
  edestruct (pf_iteration_first map_at cos sin atan exp atan2 pi model test_observations map 100
    (draws 0) (replicate (Z.to_nat 100) Particle_init)) as [(s & E)|E];
    [done|unfold int_max; lia|by rewrite length_replicate|apply Hdraws| |].
  - right. eapply second_iteration_undefined; [lia|lia|exact E].
  - left. unfold run_pf. cbn [for_loop Z.to_nat Pos.to_nat].
    destruct (Z.to_nat 10) as [|k] eqn:Ek; [lia|]. cbn [for_loop].
    rewrite (proj2 (Z.ltb_lt 0 10)) by lia. rewrite E. done.
Qed.

Lemma particle_filter_test_undefined_witness :
  let r := test_particle_filter (fun (m : Z → outcome (double * double)) k => m k) (fun x => x) (fun x => x)
    (fun x => x) (fun x => x) (fun x _ => x) d_one (fun _ => Throw (out_of_range []))
    (fun m kv k => if decide (k = kv.1) then Ok kv.2 else m k)
    (mkModel dzero (d_one, d_one) (d_one, d_one)) (fun _ => replicate 100 dzero) in
  r = Done (Undef oob_access) ∨ r = Done (Undef bad_precondition).
Proof.
  apply particle_filter_test_undefined.
  - intros m k v. simpl. by rewrite decide_True.
  - intros m k v k' Hk. simpl. by rewrite decide_False by done.
  - intros i. by rewrite length_replicate.
Defined.
