(* ===== verification/SendFile.v ===== *)
(** * Descriptor ownership in cjunk/practice/sendFile.cc

    The classes of the file own POSIX descriptors and close them in their
    destructors.  The process state is the set of open descriptors; [open],
    [socket] and [accept] return the lowest free one, as POSIX says, and [close]
    fails on a descriptor that is not open.  Whether a call other than [close]
    succeeds is decided by the kernel, a parameter.  A failed call writes a
    message and ends the process with status 1 ([died]). *)

From Stdlib Require Import ZArith Lia Ascii.
From stdpp Require Import base list sets gmap strings.
From S2P Require Import Prelude.

(** The process: open descriptors and the number of calls made so far. *)
Record process := mkProcess { open_fds : gset nat; calls : nat }.

Inductive run (A : Type) :=
| returned (p : process) (a : A)
| died (message : bytes).          (* std::cerr << message; exit(1) *)
Arguments returned {A} p a.
Arguments died {A} message.

Definition sys (A : Type) : Type := process → run A.
#[local] Instance sys_ret : MRet sys := fun A a p => returned p a.
#[local] Instance sys_bind : MBind sys := fun A B f m p =>
  match m p with returned p' a => f a p' | died e => died e end.

(** The lowest descriptor that is not open. *)
Fixpoint lowest_from (n fuel : nat) (s : gset nat) : nat :=
  match fuel with
  | O => n
  | S fuel' => if decide (n ∈ s) then lowest_from (S n) fuel' s else n
  end.
(** Among [size s + 1] numbers one is free. *)
Definition lowest_free (s : gset nat) : nat := lowest_from 0 (size s) s.

Section Program.
(** Whether the [n]-th call to the kernel succeeds, and what [recvmsg] reports. *)
Context (kernel : nat → bool).

Record msghdr := mkMsg {
  msg_name_null : bool; msg_namelen : nat; msg_iov : list (nat * nat);
  msg_control_null : bool; msg_controllen : nat; msg_flags : nat }.
Context (received : msghdr → msghdr).

Definition sizeof_int : nat := 4.

(** A call that returns a new descriptor, and one that does not. *)
Definition new_fd (message : bytes) : sys nat := fun p =>
  if kernel (calls p) then
    let fd := lowest_free (open_fds p) in
    returned (mkProcess ({[fd]} ∪ open_fds p) (S (calls p))) fd
  else died message.

Definition call (message : bytes) : sys unit := fun p =>
  if kernel (calls p) then returned (mkProcess (open_fds p) (S (calls p))) tt else died message.

Definition close_message : bytes := #"close() failed: ".

Definition close (fd : nat) : sys unit := fun p =>
  if decide (fd ∈ open_fds p) then returned (mkProcess (open_fds p ∖ {[fd]}) (calls p)) tt
  else died close_message.

(** ** Classes: a constructor returns the descriptor, a destructor takes it *)

Definition Socket_ctor : sys nat := new_fd #"socket() failed: ".
Definition Socket_dtor (sock_ : nat) : sys unit := close sock_.

Definition Server_ctor : sys nat := sock ← Socket_ctor; _ ← call #"bind() failed: "; mret sock.
(** The body of the destructor, then the destructor of the member [sock_]. *)
Definition Server_dtor (sock_ : nat) : sys unit := _ ← close sock_; Socket_dtor sock_.
Definition Server_Listen (sock_ : nat) : sys unit := call #"listen() failed: ".
Definition Server_Accept (sock_ : nat) : sys nat := new_fd #"accept() failed: ".

Definition Client_ctor : sys nat := sock ← Socket_ctor; _ ← call #"connect() failed: "; mret sock.
Definition Client_dtor (sock_ : nat) : sys unit := _ ← close sock_; Socket_dtor sock_.

Definition File_ctor : sys nat := new_fd #"open() failed: ".
Definition File_dtor (fd_ : nat) : sys unit := close fd_.

Definition FileDescriptor_dtor (fd_ : nat) : sys unit := close fd_.

Fixpoint close_all (fds : list nat) : sys unit :=
  match fds with [] => mret tt | fd :: fds' => _ ← close fd; close_all fds' end.

(** A vector of objects that each own a descriptor: their numbers, and the
    capacity of the vector.  The classes have a destructor and so no move
    constructor: growing the vector copies the objects and destroys the old ones. *)
Record fd_vector := mkVec { elems : list nat; capacity : nat }.

Definition push_back (v : fd_vector) (fd : nat) : sys fd_vector :=
  if decide (length (elems v) = capacity v) then
    _ ← close_all (elems v);
    mret (mkVec (elems v ++ [fd]) ((2 * capacity v) `max` 1))
  else mret (mkVec (elems v ++ [fd]) (capacity v)).

(** [fds_.push_back(FileDescriptor(fd))]: the temporary is destroyed afterwards. *)
Definition FileDescriptorVector_Add (v : fd_vector) (fd : nat) : sys fd_vector :=
  v ← push_back v fd; _ ← FileDescriptor_dtor fd; mret v.

Definition FileVector_Add (v : fd_vector) : sys fd_vector :=
  fd ← File_ctor; v ← push_back v fd; _ ← File_dtor fd; mret v.

(** Both vector classes close every element in their destructor; then the vector
    destroys its elements. *)
Definition vector_dtor (v : fd_vector) : sys unit := _ ← close_all (elems v); close_all (elems v).

Definition vector_fd (v : fd_vector) (i : nat) : nat := nth i (elems v) 0.

(** ** [main] *)

Fixpoint add_files (i n : nat) (files fds : fd_vector) : sys (fd_vector * fd_vector) :=
  match n with
  | O => mret (files, fds)
  | S n' =>
      files ← FileVector_Add files;
      fds ← FileDescriptorVector_Add fds (vector_fd files i);
      add_files (S i) n' files fds
  end.

Definition iovecs : list (nat * nat) := (fun i => (i, sizeof_int)) <$> seq 0 10.
Definition fresh_msg : msghdr := mkMsg true 0 iovecs true 0 0.

Definition check (b : bool) (message : bytes) : sys unit := if b then mret tt else fun _ => died message.

Fixpoint check_iov (i : nat) (l : list (nat * nat)) : sys unit :=
  match l with
  | [] => mret tt
  | (base, len) :: l' =>
      _ ← check (Nat.eqb len sizeof_int) #"msg_iovlen != sizeof(i)";
      _ ← check (Nat.eqb base i)
        #"msg_iovbase != reinterpret_cast<void*>(static_cast<uintptr_t>(i))";
      check_iov (S i) l'
  end.

Definition main : sys nat :=
  server ← Server_ctor;
  _ ← Server_Listen server;
  client ← Server_Accept server;
  '(files, fds) ← add_files 0 10 (mkVec [] 0) (mkVec [] 0);
  _ ← call #"sendmsg() failed: ";
  _ ← call #"recvmsg() failed: ";
  let msg2 := received fresh_msg in
  _ ← check_iov 0 (take 10 (msg_iov msg2));
  _ ← check (Nat.eqb (msg_controllen msg2) 0) #"msg_controllen != 0";
  _ ← check (Nat.eqb (msg_flags msg2) 0) #"msg_flags != 0";
  _ ← check (Nat.eqb (msg_namelen msg2) 0) #"msg_namelen != 0";
  _ ← check (msg_name_null msg2) #"msg_name != nullptr";
  _ ← check (Nat.eqb (length (msg_iov msg2)) 10) #"msg_iovlen != 10";
  _ ← vector_dtor fds;
  _ ← vector_dtor files;
  _ ← Server_dtor server;
  mret 0.

(** ** Lifetimes *)

Lemma lowest_from_free n fuel s :
  (∀ k, k < n → k ∈ s) → size s ≤ n + fuel → lowest_from n fuel s ∉ s.
Proof using Type.
  revert n. induction fuel as [|fuel IH]; intros n Hlow Hsize; simpl.
  - intros Hn. assert (list_to_set (seq 0 (S n)) ⊆ s) as Hsub.
    { intros k Hk%elem_of_list_to_set%elem_of_seq.
      destruct (decide (k = n)) as [->|]; [done|apply Hlow; lia]. }
    apply subseteq_size in Hsub. rewrite size_list_to_set, length_seq in Hsub by apply NoDup_seq. lia.
  - case_decide; [|done]. apply IH; [|lia].
    intros k Hk. destruct (decide (k = n)) as [->|]; [done|apply Hlow; lia].
Qed.

Lemma lowest_free_free s : lowest_free s ∉ s.
Proof using Type. apply lowest_from_free; [lia|done]. Qed.

Lemma close_open fd p :
  fd ∈ open_fds p → close fd p = returned (mkProcess (open_fds p ∖ {[fd]}) (calls p)) tt.
Proof using Type. intros H. unfold close. by rewrite decide_True. Qed.

Lemma close_closed fd p : fd ∉ open_fds p → close fd p = died close_message.
Proof using Type. intros H. unfold close. by rewrite decide_False. Qed.

Lemma close_twice fd p : (_ ← close fd; close fd) p = died close_message.
Proof using Type.
  unfold mbind, sys_bind. destruct (decide (fd ∈ open_fds p)) as [H|H].
  - rewrite close_open by done. apply close_closed. simpl. clear. set_solver.
  - by rewrite close_closed.
Qed.

(** The first file added is closed by the temporary's destructor, and the
    temporary [FileDescriptor] closes its number again. *)
Lemma add_files_dies n p :
  add_files 0 (S n) (mkVec [] 0) (mkVec [] 0) p
  = if kernel (calls p) then died close_message else died #"open() failed: ".
Proof.
  cbn [add_files]. unfold FileVector_Add, File_ctor, new_fd, File_dtor, mbind, sys_bind.
  destruct (kernel (calls p)); [|done].
  set (fd := lowest_free (open_fds p)).
  unfold push_back at 1. cbn [elems capacity length close_all]. rewrite decide_True by done.
  unfold mbind, sys_bind, mret, sys_ret. cbn [app].
  rewrite close_open by (simpl; set_solver).
  unfold FileDescriptorVector_Add, push_back, mbind, sys_bind, mret, sys_ret.
  cbn [elems capacity length close_all vector_fd nth]. rewrite decide_True by done.
  unfold FileDescriptor_dtor, mret, sys_ret. cbn [open_fds calls].
  rewrite close_closed; [done|]. simpl. set_solver.
Qed.
End Program.

(** ** Theorems *)

(** [main] never returns: whatever the kernel answers it ends with status 1,
    and when every call succeeds the message is that of [close], before any
    message is sent (five calls were made). *)
Theorem sendfile_main_dies (kernel : nat → bool) (received : msghdr → msghdr) (p : process) :
  (∃ message, main kernel received p = died message) ∧
  ((∀ n, kernel n = true) → main kernel received p = died close_message).
Proof.
  unfold main, Server_ctor, Socket_ctor, Server_Listen, Server_Accept, new_fd, call.
  unfold mbind, sys_bind, mret, sys_ret. split.
  - repeat (match goal with |- context [if kernel ?n then _ else _] => destruct (kernel n) end;
      cbn [calls open_fds]; [|by eexists]).
    all: rewrite add_files_dies; destruct (kernel _); eauto.
  - intros Hk. repeat (rewrite Hk; cbn [calls open_fds]). rewrite add_files_dies. by rewrite Hk.
Qed.

(** C27: an object of [Socket] or [File] gives its descriptor back: after its
    constructor and destructor the open descriptors are those of before; but a
    [Server] or [Client] whose construction succeeded dies in its destructor,
    because the body and the member both close the socket. *)
Theorem descriptor_lifetimes (kernel : nat → bool) (p : process) :
  ((∀ n, kernel n = true) →
    (∃ p', (fd ← Socket_ctor kernel; Socket_dtor fd) p = returned p' tt ∧ open_fds p' = open_fds p) ∧
    (∃ p', (fd ← File_ctor kernel; File_dtor fd) p = returned p' tt ∧ open_fds p' = open_fds p)) ∧
  (∀ p1 fd, Server_ctor kernel p = returned p1 fd → Server_dtor fd p1 = died close_message) ∧
  (∀ p1 fd, Client_ctor kernel p = returned p1 fd → Client_dtor fd p1 = died close_message).
Proof.
  split; [|split; intros; apply close_twice].
  intros Hk. pose proof (lowest_free_free (open_fds p)) as Hfree.
  assert (∀ message, ∃ p', (fd ← new_fd kernel message; close fd) p = returned p' tt ∧
    open_fds p' = open_fds p) as Hscope.
  { intros message. unfold new_fd, mbind, sys_bind. rewrite Hk, close_open by (simpl; set_solver).
    eexists. split; [reflexivity|]. simpl. apply leibniz_equiv. set_solver. }
  split; apply Hscope.
Qed.
