(* ===== verification/Explore.v ===== *)
(** * Exhaustive exploration of finite state machines

    Small concurrent parts of the repository have finitely many states.  For
    them an invariant is proved by computing the reachable states: [explore]
    collects them, and [explored_sound] says that every reachable state is among
    them as soon as the collected list is closed under steps, which [closed_b]
    decides. *)

From Stdlib Require Import ZArith Lia.
From stdpp Require Import base list sets relations.
From S2P Require Import Prelude.

Section Explore.
Context {S : Type} `{EqDecision S} (next : S → list S).

Definition steps_to (s s' : S) : Prop := s' ∈ next s.

(** Breadth-first search with a visited list. *)
Fixpoint explore (fuel : nat) (visited todo : list S) : list S :=
  match fuel with
  | O => visited
  | Datatypes.S fuel' =>
      match todo with
      | [] => visited
      | s :: todo' =>
          if decide (s ∈ visited) then explore fuel' visited todo'
          else explore fuel' (s :: visited) (todo' ++ next s)
      end
  end.

Definition closed_b (l : list S) : bool :=
  forallb (fun s => forallb (fun s' => bool_decide (s' ∈ l)) (next s)) l.

Lemma explored_sound l init s :
  closed_b l = true → init ∈ l → rtc steps_to init s → s ∈ l.
Proof.
  intros Hc Hi. apply (rtc_preserve steps_to (fun s => s ∈ l)); [|done].
  intros s1 s2 H1 H2. unfold closed_b in Hc. rewrite forallb_forall in Hc.
  apply list_elem_of_In, Hc in H1. rewrite forallb_forall in H1.
  apply list_elem_of_In, H1, bool_decide_eq_true in H2. done.
Qed.

(** A state that satisfies [goal] can be reached in at most [fuel] steps. *)
Fixpoint reaches (goal : S → bool) (fuel : nat) (s : S) : bool :=
  if goal s then true
  else match fuel with
       | O => false
       | Datatypes.S fuel' =>
           (fix any (l : list S) : bool :=
              match l with
              | [] => false
              | s' :: l' => if reaches goal fuel' s' then true else any l'
              end) (next s)
       end.

Lemma reaches_rtc goal fuel s : reaches goal fuel s = true → ∃ s', rtc steps_to s s' ∧ goal s' = true.
Proof.
  revert s. induction fuel as [|fuel IH]; intros s; cbn [reaches].
  { destruct (goal s) eqn:E; [|done]. intros _. exists s. split; [constructor|done]. }
  destruct (goal s) eqn:E; [intros _; exists s; split; [constructor|done]|].
  assert (∀ l, (∀ s', s' ∈ l → s' ∈ next s) →
    (fix any (l : list S) : bool := match l with
       | [] => false | s' :: l' => if reaches goal fuel s' then true else any l' end) l = true →
    ∃ s', rtc steps_to s s' ∧ goal s' = true) as Hany.
  { induction l as [|s1 l IHl]; intros Hl; [done|].
    destruct (reaches goal fuel s1) eqn:E1.
    - intros _. destruct (IH s1 E1) as (s' & Hr & Hg). exists s'. split; [|done].
      eapply rtc_l; [|done]. apply Hl. by left.
    - apply IHl. intros s' Hs'. apply Hl. by right. }
  by apply Hany.
Qed.

(** The state that a list of choices leads to. *)
Fixpoint follow (choices : list nat) (s : S) : option S :=
  match choices with [] => Some s | i :: l => next s !! i ≫= follow l end.

Lemma follow_rtc choices s s' : follow choices s = Some s' → rtc steps_to s s'.
Proof.
  revert s. induction choices as [|i l IH]; intros s; cbn; [by intros [= ->]|].
  intros (s1 & Hi & H)%bind_Some. eapply rtc_l; [by eapply list_elem_of_lookup_2|by apply IH].
Qed.

Lemma follow_to choices s (goal : S → bool) :
  match follow choices s with Some s' => goal s' | None => false end = true → ∃ s', rtc steps_to s s' ∧ goal s' = true.
Proof.
  destruct (follow choices s) as [s'|] eqn:E; [|done]. intros Hg. exists s'. split; [by eapply follow_rtc|done].
Qed.

(** Safety of every reachable state, from one computation. *)
Lemma explored_safe (init : S) (fuel : nat) (ok : S → bool) :
  (let l := explore fuel [] [init] in bool_decide (init ∈ l) && closed_b l && forallb ok l) = true →
  ∀ s, rtc steps_to init s → ok s = true.
Proof.
  intros H s Hr. cbv zeta in H. rewrite !andb_true_iff in H. destruct H as [[Hi Hc] Hall].
  apply bool_decide_eq_true in Hi. pose proof (explored_sound _ _ _ Hc Hi Hr) as Hs.
  rewrite forallb_forall in Hall. by apply Hall, list_elem_of_In.
Qed.

Lemma not_stuck s : negb (bool_decide (next s = [])) = true → ∃ s', steps_to s s'.
Proof.
  intros H%negb_true_iff%bool_decide_eq_false. unfold steps_to. destruct (next s) as [|s' l]; [done|]. exists s'. by left.
Qed.

(** Safety and progress of every reachable state, from one computation. *)
Lemma explored_all (init : S) (fuel depth : nat) (ok goal : S → bool) :
  (let l := explore fuel [] [init] in
   bool_decide (init ∈ l) && closed_b l && forallb (fun s => ok s && reaches goal depth s) l) = true →
  ∀ s, rtc steps_to init s → ok s = true ∧ ∃ s', rtc steps_to s s' ∧ goal s' = true.
Proof.
  intros H s Hr. cbv zeta in H. rewrite !andb_true_iff in H. destruct H as [[Hi Hc] Hall].
  apply bool_decide_eq_true in Hi. pose proof (explored_sound _ _ _ Hc Hi Hr) as Hs.
  rewrite forallb_forall in Hall. apply list_elem_of_In, Hall, andb_true_iff in Hs as [Hok Hre].
  split; [done|]. by apply reaches_rtc in Hre.
Qed.
End Explore.
