(* ===== verification/NetworkStream.v ===== *)
(** * Threads and flags of cjunk/practice/networkframeStream.cpp

    [NetworkStreamBase] holds five plain [bool] flags, two [std::thread]s and a socket.
    The methods of the stream classes are sequences of statements on them; the loops of
    the read and the write thread run in between, one access to a flag at a time.  A
    statement may throw: [join] on a thread that is not joinable, the creation of a
    thread, [socket_.close()].  An exception that leaves a constructor destroys what is
    constructed; one that leaves a destructor, and the destruction of a joinable thread,
    call [std::terminate].  Resolution, connection and transfers are decided by the
    network.

    The flags are not atomic.  Each thread remembers the flags it has accessed since it
    was created and the ones that the main thread has written since then: only the
    creation and the join of a thread order its accesses and those of the main thread,
    so a flag that is in both is a data race, undefined behaviour whatever order the
    accesses are made in.  [raced] remembers that one has happened. *)

From Stdlib Require Import ZArith Lia Ascii.
From stdpp Require Import base list sets strings relations.
From S2P Require Import Prelude Explore.

(** ** State *)

Inductive flag := running | reading | writing | connected | disconnected.
#[global] Instance flag_eq_dec : EqDecision flag.
Proof. solve_decision. Defined.

(** A [std::thread] member: not joinable, before its access to [is_running_],
    [is_connected_] or its own flag, inside a blocking transfer, after a transfer that
    reported an error, or with its function returned. *)
Inductive pc := not_joinable | at_running | at_connected | at_enabled | in_transfer | at_error | finished.
#[global] Instance pc_eq_dec : EqDecision pc.
Proof. solve_decision. Defined.

Record thr := mkThr { at_ : pc; accessed : list flag; main_wrote : list flag }.
#[global] Instance thr_eq_dec : EqDecision thr.
Proof. solve_decision. Defined.

Definition no_thread : thr := mkThr not_joinable [] [].
Definition new_thread : thr := mkThr at_running [] [].
Definition joinable (t : thr) : bool := negb (bool_decide (at_ t = not_joinable)).

Record NetworkStreamBase := mkStream {
  is_running_ : bool; is_reading_ : bool; is_writing_ : bool;
  is_connected_ : bool; is_disconnected_ : bool; socket_open : bool;
  read_thread_ : thr; write_thread_ : thr; raced : bool }.
#[global] Instance stream_eq_dec : EqDecision NetworkStreamBase.
Proof. solve_decision. Defined.

Definition NetworkStreamBase_init : NetworkStreamBase :=
  mkStream false false false false false false no_thread no_thread false.

(** A flag joins a list of flags, which is kept in the order of [all_flags]. *)
Definition all_flags : list flag := [running; reading; writing; connected; disconnected].
Definition add_flag (f : flag) (l : list flag) : list flag := filter (fun g => g = f ∨ g ∈ l) all_flags.

(** Both sides have accessed a flag, and the main thread wrote it. *)
Definition conflict (t : thr) : bool := existsb (fun f => bool_decide (f ∈ main_wrote t)) (accessed t).

Definition with_flag (f : flag) (b : bool) (s : NetworkStreamBase) : NetworkStreamBase :=
  match f with
  | running => mkStream b (is_reading_ s) (is_writing_ s) (is_connected_ s) (is_disconnected_ s) (socket_open s) (read_thread_ s) (write_thread_ s) (raced s)
  | reading => mkStream (is_running_ s) b (is_writing_ s) (is_connected_ s) (is_disconnected_ s) (socket_open s) (read_thread_ s) (write_thread_ s) (raced s)
  | writing => mkStream (is_running_ s) (is_reading_ s) b (is_connected_ s) (is_disconnected_ s) (socket_open s) (read_thread_ s) (write_thread_ s) (raced s)
  | connected => mkStream (is_running_ s) (is_reading_ s) (is_writing_ s) b (is_disconnected_ s) (socket_open s) (read_thread_ s) (write_thread_ s) (raced s)
  | disconnected => mkStream (is_running_ s) (is_reading_ s) (is_writing_ s) (is_connected_ s) b (socket_open s) (read_thread_ s) (write_thread_ s) (raced s)
  end.
Definition with_socket (o : bool) (s : NetworkStreamBase) : NetworkStreamBase :=
  mkStream (is_running_ s) (is_reading_ s) (is_writing_ s) (is_connected_ s) (is_disconnected_ s) o (read_thread_ s) (write_thread_ s) (raced s).

(** New threads; a conflict in one of them is a data race. *)
Definition with_threads (r w : thr) (s : NetworkStreamBase) : NetworkStreamBase :=
  mkStream (is_running_ s) (is_reading_ s) (is_writing_ s) (is_connected_ s) (is_disconnected_ s)
    (socket_open s) r w (raced s || conflict r || conflict w).

(** The main thread writes a flag: as long as a thread is not joined it counts. *)
Definition main_writes (f : flag) (t : thr) : thr :=
  if joinable t then mkThr (at_ t) (accessed t) (add_flag f (main_wrote t)) else t.
Definition main_set (f : flag) (b : bool) (s : NetworkStreamBase) : NetworkStreamBase :=
  with_threads (main_writes f (read_thread_ s)) (main_writes f (write_thread_ s)) (with_flag f b s).

(** ** Statements *)

Inductive stmt :=
| set_flag (f : flag) (b : bool)
| connect_socket              (* boost::asio::connect succeeded *)
| spawn_read | spawn_write    (* read_thread_ = std::thread(...) *)
| join_read | join_write
| close_if_connected          (* if (is_connected_) socket_.close(); *)
| destroy_members.            (* ~socket_, ~read_thread_, ~write_thread_ *)
#[global] Instance stmt_eq_dec : EqDecision stmt.
Proof. solve_decision. Defined.

Inductive result := next_state (s : NetworkStreamBase) | throws | joinable_destroyed.

(** The outcomes that a statement may have; a statement that has none waits. *)
Definition exec (i : stmt) (s : NetworkStreamBase) : list result :=
  match i with
  | set_flag f b => [next_state (main_set f b s)]
  | connect_socket => [next_state (with_socket true s)]
  | spawn_read =>
      if joinable (read_thread_ s) then [joinable_destroyed]
      else [next_state (with_threads new_thread (write_thread_ s) s); throws]
  | spawn_write =>
      if joinable (write_thread_ s) then [joinable_destroyed]
      else [next_state (with_threads (read_thread_ s) new_thread s); throws]
  | join_read =>
      match at_ (read_thread_ s) with
      | not_joinable => [throws]
      | finished => [next_state (with_threads no_thread (write_thread_ s) s)]
      | _ => []
      end
  | join_write =>
      match at_ (write_thread_ s) with
      | not_joinable => [throws]
      | finished => [next_state (with_threads (read_thread_ s) no_thread s)]
      | _ => []
      end
  | close_if_connected => if is_connected_ s then [next_state (with_socket false s); throws] else [next_state s]
  | destroy_members =>
      if joinable (read_thread_ s) || joinable (write_thread_ s) then [joinable_destroyed]
      else [next_state (with_socket false s)]
  end.

(** ** Methods *)

(** Whether the host name is resolved and the connection is made. *)
Inductive network := unresolved | unreachable | reachable.

(** The constructor of [NetworkVideoStreamObservable]. *)
Definition Video_ctor (n : network) : list stmt :=
  match n with
  | unresolved | unreachable => []
  | reachable =>
      [connect_socket; set_flag connected true; set_flag disconnected false; set_flag running true;
       set_flag reading true; set_flag writing true; spawn_read; spawn_write]
  end.
Definition Video_dtor : list stmt :=
  [set_flag running false; set_flag reading false; set_flag writing false; join_read; join_write; destroy_members].

Definition Reader_ctor (n : network) : list stmt :=
  match n with
  | unresolved | unreachable => []
  | reachable => [connect_socket; set_flag connected true]
  end.
Definition Reader_start : list stmt :=
  [set_flag running true; set_flag reading true; set_flag writing true; spawn_read; spawn_write].
Definition Reader_stop : list stmt :=
  [set_flag running false; set_flag reading false; set_flag writing false; join_read; join_write].
Definition Reader_dtor : list stmt := [close_if_connected; destroy_members].

Definition Writer_ctor (n : network) : list stmt := Reader_ctor n.
(** The body of [start] is compiled out; [stop] is that of the base class. *)
Definition Writer_start : list stmt := [].
Definition Base_stop : list stmt := [set_flag running false].
Definition Writer_dtor : list stmt := [close_if_connected; destroy_members].

(** ** The loops *)

(** A thread goes on after an access to a flag. *)
Definition goto (f : flag) (p : pc) (t : thr) : thr := mkThr p (add_flag f (accessed t)) (main_wrote t).

(** [read_loop] and [write_loop] of [FFmpegNetworkStreamReader]: the transfers are
    compiled out, so an iteration only sleeps or spins.  [enabled] is the flag of the
    loop, [is_reading_] or [is_writing_]. *)
Definition reader_loop_step (s : NetworkStreamBase) (enabled : flag) (t : thr) : list thr :=
  match at_ t with
  | at_running => [goto running (if is_running_ s then at_connected else finished) t]
  | at_connected => [goto connected (if is_connected_ s then at_enabled else at_running) t]
  | at_enabled => [goto enabled at_running t]
  | _ => []
  end.

(** The loops of [NetworkVideoStreamObservable]: with the network delivering ([true]) or
    reporting an error ([false]); without an answer the thread stays in the transfer. *)
Definition video_loop_step (s : NetworkStreamBase) (enabled : flag) (value : bool) (t : thr) (answer : option bool)
    : option (NetworkStreamBase * thr) :=
  match at_ t with
  | at_running => Some (s, goto running (if is_running_ s then at_enabled else finished) t)
  | at_enabled => Some (s, goto enabled (if value then in_transfer else at_running) t)
  | in_transfer =>
      match answer with
      | None => None
      | Some ok => Some (s, mkThr (if ok then at_running else at_error) (accessed t) (main_wrote t))
      end
  | at_error =>
      Some (with_flag enabled false (with_flag disconnected true (with_flag connected false s)),
            goto enabled finished (goto disconnected finished (goto connected finished t)))
  | _ => None
  end.

(** ** [FFmpegNetworkStream]: a reader and a writer *)

(** The constructor is running, or the destructor, or an exception has left the
    constructor. *)
Inductive phase := constructing | destroying | unwinding.
#[global] Instance phase_eq_dec : EqDecision phase.
Proof. solve_decision. Defined.

(** Why the process was terminated: a joinable thread was destroyed, or an exception
    left a destructor. *)
Inductive cause := destroyed_joinable | left_destructor.
#[global] Instance cause_eq_dec : EqDecision cause.
Proof. solve_decision. Defined.

(** Each statement is tagged with its object: [true] for [reader_].  A terminated
    process remembers when, and whether there was a data race before. *)
Inductive ff_config :=
| ff_run (reader writer : NetworkStreamBase) (p : phase) (prog : list (bool * stmt))
| ff_terminated (p : phase) (raced : bool) (why : cause).
#[global] Instance ff_config_eq_dec : EqDecision ff_config.
Proof. solve_decision. Defined.

Definition on_reader (l : list stmt) : list (bool * stmt) := pair true <$> l.
Definition on_writer (l : list stmt) : list (bool * stmt) := pair false <$> l.

(** The constructor, the destructor, and the destruction of the members in reverse
    order. *)
Definition FFmpegNetworkStream_ctor (n_reader n_writer : network) : list (bool * stmt) :=
  on_reader (Reader_ctor n_reader) ++ on_writer (Writer_ctor n_writer) ++
  on_reader Reader_start ++ on_writer Writer_start.
Definition FFmpegNetworkStream_members : list (bool * stmt) := on_writer Writer_dtor ++ on_reader Reader_dtor.
Definition FFmpegNetworkStream_dtor : list (bool * stmt) :=
  on_reader Reader_stop ++ on_writer Base_stop ++ FFmpegNetworkStream_members.

Definition ff_after (r w : NetworkStreamBase) (p : phase) (of_reader : bool) (prog : list (bool * stmt)) (x : result)
    : ff_config :=
  match x with
  | next_state s => if of_reader then ff_run s w p prog else ff_run r s p prog
  | joinable_destroyed => ff_terminated p (raced r || raced w) destroyed_joinable
  | throws =>
      match p with
      | constructing => ff_run r w unwinding FFmpegNetworkStream_members
      | _ => ff_terminated p (raced r || raced w) left_destructor
      end
  end.

Definition ff_next (c : ff_config) : list ff_config :=
  match c with
  | ff_terminated _ _ _ => []
  | ff_run r w p prog =>
      (match prog with
       | [] => match p with constructing => [ff_run r w destroying FFmpegNetworkStream_dtor] | _ => [] end
       | (of_reader, i) :: prog => ff_after r w p of_reader prog <$> exec i (if of_reader : bool then r else w)
       end) ++
      ((fun t => ff_run (with_threads t (write_thread_ r) r) w p prog) <$> reader_loop_step r reading (read_thread_ r)) ++
      ((fun t => ff_run (with_threads (read_thread_ r) t r) w p prog) <$> reader_loop_step r writing (write_thread_ r))
  end.

Definition ff_init (n_reader n_writer : network) : ff_config :=
  ff_run NetworkStreamBase_init NetworkStreamBase_init constructing (FFmpegNetworkStream_ctor n_reader n_writer).

(** The sockets are closed and no thread is left. *)
Definition released (s : NetworkStreamBase) : bool :=
  negb (socket_open s) && negb (joinable (read_thread_ s)) && negb (joinable (write_thread_ s)).

(** What holds of every configuration: how a life ends, and that it goes on until then. *)
Definition ff_ok (c : ff_config) : bool :=
  match c with
  | ff_run r w destroying [] => raced r && (released r && released w)
  | ff_run r w unwinding [] => negb (raced r) && (released r && released w)
  | ff_terminated p raced why =>
      bool_decide (p = destroying) && raced && bool_decide (why = left_destructor) ||
      bool_decide (p = unwinding) && negb raced
  | ff_run _ _ _ _ => negb (bool_decide (ff_next c = []))
  end.

(** ** [NetworkVideoStreamObservable] *)

Inductive vd_config :=
| vd_run (s : NetworkStreamBase) (p : phase) (prog : list stmt)
| vd_terminated (p : phase) (raced : bool) (why : cause).
#[global] Instance vd_config_eq_dec : EqDecision vd_config.
Proof. solve_decision. Defined.

Definition read_loop_step (s : NetworkStreamBase) (answer : option bool) : list NetworkStreamBase :=
  match video_loop_step s reading (is_reading_ s) (read_thread_ s) answer with
  | None => []
  | Some (s, t) => [with_threads t (write_thread_ s) s]
  end.
Definition write_loop_step (s : NetworkStreamBase) (answer : option bool) : list NetworkStreamBase :=
  match video_loop_step s writing (is_writing_ s) (write_thread_ s) answer with
  | None => []
  | Some (s, t) => [with_threads (read_thread_ s) t s]
  end.

(** An exception that leaves the constructor destroys the base class. *)
Definition vd_after (s : NetworkStreamBase) (p : phase) (prog : list stmt) (x : result) : vd_config :=
  match x with
  | next_state s => vd_run s p prog
  | joinable_destroyed => vd_terminated p (raced s) destroyed_joinable
  | throws =>
      match p with
      | constructing => vd_run s unwinding [destroy_members]
      | _ => vd_terminated p (raced s) left_destructor
      end
  end.

(** The steps that need no answer of the network, and those the network makes. *)
Definition vd_silent (c : vd_config) : list vd_config :=
  match c with
  | vd_terminated _ _ _ => []
  | vd_run s p prog =>
      (match prog with
       | [] => match p with constructing => [vd_run s destroying Video_dtor] | _ => [] end
       | i :: prog => vd_after s p prog <$> exec i s
       end) ++
      ((fun s' => vd_run s' p prog) <$> (read_loop_step s None ++ write_loop_step s None))
  end.
Definition vd_answers (c : vd_config) : list vd_config :=
  match c with
  | vd_terminated _ _ _ => []
  | vd_run s p prog =>
      (fun s' => vd_run s' p prog) <$>
        (read_loop_step s (Some true) ++ read_loop_step s (Some false) ++
         write_loop_step s (Some true) ++ write_loop_step s (Some false))
  end.
Definition vd_next (c : vd_config) : list vd_config := vd_silent c ++ vd_answers c.

Definition vd_init (n : network) : vd_config := vd_run NetworkStreamBase_init constructing (Video_ctor n).

(** After a connection the object is gone only with a data race behind it. *)
Definition vd_connected_ok (c : vd_config) : bool :=
  match c with
  | vd_run s destroying [] => raced s && released s
  | vd_run s unwinding [] => negb (raced s) && released s
  | vd_run _ _ _ => true
  | vd_terminated p raced why => bool_decide (p = unwinding) && negb raced && bool_decide (why = destroyed_joinable)
  end.
(** Without one the destructor is only left by an exception. *)
Definition vd_unconnected_ok (c : vd_config) : bool :=
  match c with
  | vd_run s p prog => negb (raced s) && negb (bool_decide (vd_next c = []))
  | vd_terminated p raced why => bool_decide (p = destroying) && negb raced && bool_decide (why = left_destructor)
  end.

(** ** Theorems *)

Lemma andb_released r w : released r && released w = true → released r = true ∧ released w = true.
Proof. apply andb_true_iff. Qed.

(** C28: whether or not the reader and the writer connect, in every interleaving with its
    threads and whatever throws, a life of an [FFmpegNetworkStream] ends in one of
    three ways, and goes on until then.  If both threads could be created, there is a
    data race on a plain [bool] before they are joined, undefined behaviour in every
    execution: the object is gone with the race behind it, or the process is
    terminated after it because [socket_.close()] threw in a destructor.  If the first
    thread cannot be created, an exception leaves the constructor with the sockets
    closed and without a thread.  If the second one cannot, or [close] throws on that
    way, the process is terminated. *)
Theorem ffmpeg_stream_lifetime (n_reader n_writer : network) (c : ff_config)
    (Hreach : rtc (steps_to ff_next) (ff_init n_reader n_writer) c) :
  match c with
  | ff_run r w destroying [] => raced r = true ∧ released r = true ∧ released w = true
  | ff_run r w unwinding [] => raced r = false ∧ released r = true ∧ released w = true
  | ff_terminated p raced why => p = destroying ∧ raced = true ∧ why = left_destructor ∨ p = unwinding ∧ raced = false
  | ff_run _ _ _ _ => ∃ c', steps_to ff_next c c'
  end.
Proof.
  assert (ff_ok c = true) as H.
  { apply (explored_safe ff_next (ff_init n_reader n_writer) 2000 ff_ok); [destruct n_reader, n_writer; vm_compute; reflexivity|done]. }
  destruct c as [r w p prog|p raced why].
  - destruct p, prog; try (by apply not_stuck); apply andb_true_iff in H as [Hr H%andb_released].
    + done.
    + by apply negb_true_iff in Hr.
  - apply orb_true_iff in H as [H|H]; rewrite ?andb_true_iff, ?negb_true_iff, ?bool_decide_eq_true in H; [left|right]; tauto.
Qed.

(** Every end is reached: with both threads, with one and with none. *)
Lemma ffmpeg_stream_lifetime_witness :
  (∃ r w, rtc (steps_to ff_next) (ff_init reachable unresolved) (ff_run r w destroying []) ∧ raced r = true) ∧
  (∃ r w, rtc (steps_to ff_next) (ff_init reachable unresolved) (ff_run r w unwinding []) ∧ raced r = false) ∧
  rtc (steps_to ff_next) (ff_init reachable unresolved) (ff_terminated unwinding false destroyed_joinable).
Proof.
  split_and!.
  - destruct (reaches_rtc ff_next (fun c => match c with ff_run _ _ destroying [] => true | _ => false end) 60
      (ff_init reachable unresolved)) as ([r w [] []|] & Hr & Hc); [vm_compute; reflexivity|try discriminate..].
    exists r, w. split; [exact Hr|]. apply (ffmpeg_stream_lifetime reachable unresolved _ Hr).
  - destruct (follow ff_next [0; 0; 0; 0; 0; 1; 0; 0; 0; 0] (ff_init reachable unresolved)) as [c|] eqn:E; [|vm_compute in E; discriminate].
    pose proof (follow_rtc _ _ _ _ E) as Hr. vm_compute in E. injection E as <-. eexists _, _. split; [exact Hr|].
    apply (ffmpeg_stream_lifetime reachable unresolved _ Hr).
  - apply (follow_rtc _ [0; 0; 0; 0; 0; 0; 1; 0; 0; 0; 0]). vm_compute. reflexivity.
Defined.

(** A [NetworkVideoStreamObservable] that could not connect can only end in
    [std::terminate], because its destructor joins threads that were never started; one
    that connected is gone with a data race behind it, unless a thread could not be
    created. *)
Theorem video_stream_lifetime (n : network) (c : vd_config)
    (Hreach : rtc (steps_to vd_next) (vd_init n) c) :
  match n with
  | unresolved | unreachable =>
      match c with
      | vd_terminated p raced why => p = destroying ∧ raced = false ∧ why = left_destructor
      | vd_run _ _ _ => ∃ c', steps_to vd_next c c'
      end
  | reachable =>
      match c with
      | vd_run s destroying [] => raced s = true ∧ released s = true
      | vd_run s unwinding [] => raced s = false ∧ released s = true
      | vd_run _ _ _ => True
      | vd_terminated p raced why => p = unwinding ∧ raced = false ∧ why = destroyed_joinable
      end
  end.
Proof.
  destruct n.
  3: { assert (vd_connected_ok c = true) as H by
         (apply (explored_safe vd_next (vd_init reachable) 4000 vd_connected_ok); [vm_compute; reflexivity|done]).
       destruct c as [s [] []|]; try done; cbn in H;
         rewrite ?andb_true_iff, ?negb_true_iff, ?bool_decide_eq_true in H; tauto. }
  all: assert (vd_unconnected_ok c = true) as H by
         (apply (explored_safe vd_next (vd_init unresolved) 400 vd_unconnected_ok); [vm_compute; reflexivity|done]);
       (destruct c as [s p prog|]; unfold vd_unconnected_ok in H;
         rewrite ?andb_true_iff, ?bool_decide_eq_true in H; [apply not_stuck; tauto|]; rewrite ?negb_true_iff in H; tauto).
Qed.

Lemma video_stream_lifetime_witness :
  ∃ c, rtc (steps_to vd_next) (vd_init unreachable) c ∧ c = vd_terminated destroying false left_destructor.
Proof.
  destruct (reaches_rtc vd_next (fun c => match c with vd_terminated _ _ _ => true | _ => false end) 20
    (vd_init unreachable)) as ([s p prog|p ra why] & Hr & Hc); [vm_compute; reflexivity|discriminate|].
  exists (vd_terminated p ra why). split; [exact Hr|].
  destruct (video_stream_lifetime unreachable _ Hr) as (-> & -> & ->). reflexivity.
Defined.

(** The destructor waits without a bound: after a successful connection there is a
    reachable state in which it is at [read_thread_.join()] while both threads are
    inside a transfer, and no step is possible until the network answers (nothing
    closes the socket first). *)
Theorem video_stream_join_blocks :
  ∃ s prog, rtc (steps_to vd_next) (vd_init reachable) (vd_run s destroying prog) ∧
    head prog = Some join_read ∧ is_running_ s = false ∧ vd_silent (vd_run s destroying prog) = [].
Proof.
  set (stuck := fun c => match c with
    | vd_run s destroying (join_read :: _) => bool_decide (vd_silent c = []) && negb (is_running_ s)
    | _ => false end).
  destruct (reaches_rtc vd_next stuck 60 (vd_init reachable)) as ([s [] [|[] prog]|] & Hr & Hc);
    [vm_compute; reflexivity|try discriminate..].
  apply andb_true_iff in Hc as [Hs%bool_decide_eq_true Hn%negb_true_iff]. exists s, (join_read :: prog). done.
Qed.
