(* ===== verification/VideoDecoder.v ===== *)
(** * [X264FrameDecoder] of cjunk/practice/networkframeStream.cpp

    The class is compiled with [USE_X264].  The answers of FFmpeg are a
    parameter; [av_packet_] and [av_frame_stream_] are pointers, and no function
    sets the first.  The file uses a codec context where FFmpeg wants a frame; it is
    read as a frame with its size, format and planes.  A frame has three planes with
    their line sizes; in the YUV 4:2:0 format that [read] insists on, the second and
    third planes have half the rows.  What the pointers own is in
    [DecoderLifetime]. *)

From Stdlib Require Import ZArith Lia Ascii.
From stdpp Require Import base list gmap strings.
From S2P Require Import Prelude Loops Double.
Local Open Scope Z_scope.

Record AVFrame := mkFrame {
  width : Z; height : Z; yuv420p : bool;
  plane : nat → list Z; linesize : nat → Z; tb_num : Z; tb_den : Z }.

(** A frame that was allocated or reset: no picture, no format. *)
Definition blank_frame : AVFrame := mkFrame 0 0 false (fun _ => []) (fun _ => 0) 0 1.

(** What the calls to FFmpeg return. *)
Record ffmpeg := mkFFmpeg {
  open_input_ok : bool; find_stream_info_ok : bool;
  best_stream : Z; find_decoder_ok : bool; open2_ok : bool; frame_alloc_ok : bool; best_stream_again : Z;
  stream_codec : AVFrame;
  read_frame_ok : bool; packet_stream_index : Z; send_packet_ok : bool;
  receive_frame : option AVFrame }.

Record X264FrameDecoder := mkDecoder {
  av_packet_ : option unit; av_frame_stream_ : option AVFrame; av_frame_stream_index_ : Z }.

(** [p->...]. *)
Definition deref_ptr {A} (p : option A) : outcome A :=
  match p with Some a => Ok a | None => Undef null_deref end.

(** The member initialisers, and the constructor: [av_init_packet] writes to the packet. *)
Definition X264FrameDecoder_init : X264FrameDecoder := mkDecoder None None 0.
Definition X264FrameDecoder_ctor : outcome X264FrameDecoder :=
  _ ← deref_ptr (av_packet_ X264FrameDecoder_init); Ok X264FrameDecoder_init.

Definition with_frame (d : X264FrameDecoder) (f : AVFrame) : X264FrameDecoder :=
  mkDecoder (av_packet_ d) (Some f) (av_frame_stream_index_ d).

(** [av_frame_stream_->...]. *)
Definition deref (d : X264FrameDecoder) : outcome AVFrame := deref_ptr (av_frame_stream_ d).

(** [open]: the decoder, the returned value and the printed message. *)
Definition decoder_open (ff : ffmpeg) (d : X264FrameDecoder) : X264FrameDecoder * bool * bytes :=
  if negb (open_input_ok ff) then (d, false, #"Error: avformat_open_input")
  else if negb (find_stream_info_ok ff) then (d, false, #"Error: avformat_find_stream_info")
  else if best_stream ff <? 0 then (d, false, #"Error: av_find_best_stream")
  else if negb (find_decoder_ok ff) then (d, false, #"Error: avcodec_find_decoder")
  else if negb (open2_ok ff) then (d, false, #"Error: avcodec_open2")
  else
    let allocated := if frame_alloc_ok ff then Some blank_frame else None in
    if best_stream_again ff <? 0 then
      (mkDecoder (av_packet_ d) allocated (best_stream_again ff), false, #"Error: av_find_best_stream")
    else (mkDecoder (av_packet_ d) (Some (stream_codec ff)) (best_stream_again ff), true, []).

(** The target image: its size and the pixels written so far. *)
Record Mat := mkMat { rows : Z; cols : Z; pixels : gmap (Z * Z) (Z * Z * Z) }.

(** [frame.create(h, w, CV_8UC3)] unless the size is already right. *)
Definition mat_create (f : AVFrame) (m : Mat) : Mat :=
  if (width f =? cols m) && (height f =? rows m) then m else mkMat (height f) (width f) ∅.

Definition mat_at (m : Mat) (i j : Z) (px : Z * Z * Z) : outcome Mat :=
  if (0 <=? i) && (i <? rows m) && (0 <=? j) && (j <? cols m) then
    Ok (mkMat (rows m) (cols m) (<[(i, j) := px]> (pixels m)))
  else Undef oob_access.

(** One pixel: the same row and column of each of the three planes. *)
Definition save_pixel (f : AVFrame) (i j : Z) (m : Mat) : outcome Mat :=
  y ← vec_get (plane f 0) (i * linesize f 0 + j);
  u ← vec_get (plane f 1) (i * linesize f 1 + j);
  v ← vec_get (plane f 2) (i * linesize f 2 + j);
  mat_at m i j (y, u, v).

Definition save_frame (f : AVFrame) (m : Mat) : fuelled Mat :=
  for_loop (Z.to_nat (height f)) 0 (height f) (fun i m =>
    for_loop (Z.to_nat (width f)) 0 (width f) (fun j m => Done (save_pixel f i j m)) m) m.

(** [read]: the decoder, the image, the returned value and the message.  The checks are
    repeated as in the code; [avcodec_receive_frame] resets the frame first. *)
Definition bad_format : bytes := #"Error: av_frame_stream_->format is not AV_PIX_FMT_YUV420P".
Definition decoder_read (ff : ffmpeg) (d : X264FrameDecoder) (m : Mat)
    : fuelled (X264FrameDecoder * Mat * bool * bytes) :=
  match av_frame_stream_ d with
  | None => mret (d, m, false, #"Error: av_frame_stream_ is NULL")
  | Some f =>
      if (width f =? 0) || (height f =? 0) then
        mret (d, m, false, #"Error: av_frame_stream_->width or av_frame_stream_->height is 0")
      else if negb (yuv420p f) then mret (d, m, false, bad_format)
      else
        let m := mat_create f m in
        _ ← Done (deref_ptr (av_packet_ d));
        if negb (read_frame_ok ff) then mret (d, m, false, #"Error: av_read_frame")
        else if negb (packet_stream_index ff =? av_frame_stream_index_ d) then
          mret (d, m, false, #"Error: av_packet_->stream_index != av_frame_stream_index_")
        else if negb (send_packet_ok ff) then mret (d, m, false, #"Error: avcodec_send_packet")
        else
          match receive_frame ff with
          | None => mret (with_frame d blank_frame, m, false, #"Error: avcodec_receive_frame")
          | Some f =>
              let d := with_frame d f in
              let m := mat_create f m in
              if negb (yuv420p f) then mret (d, m, false, bad_format) else
              let m := mat_create f m in
              if negb (yuv420p f) then mret (d, m, false, bad_format) else
              let m := mat_create f m in
              if negb (yuv420p f) then mret (d, m, false, bad_format) else
              if negb (yuv420p f) then mret (d, m, false, bad_format) else
              if negb (yuv420p f) then mret (d, m, false, bad_format) else
              m ← save_frame f m; mret (d, m, true, [])
          end
  end.

Definition set_frame_size (d : X264FrameDecoder) (w h : Z) : outcome X264FrameDecoder :=
  f ← deref d; Ok (with_frame d (mkFrame w h (yuv420p f) (plane f) (linesize f) (tb_num f) (tb_den f))).
Definition set_frame_rate_ratio (d : X264FrameDecoder) (num den : Z) : outcome X264FrameDecoder :=
  f ← deref d; Ok (with_frame d (mkFrame (width f) (height f) (yuv420p f) (plane f) (linesize f) num den)).
Definition set_frame_rate (d : X264FrameDecoder) (fps : Z) : outcome X264FrameDecoder :=
  set_frame_rate_ratio d 1 fps.

(** [(int)(fps * 100)]. *)
Definition hundredfold (d : double) : outcome Z := int_of_double (dmul d (double_of_Z 100)).

(** The overloads for [double]; [time_base.num] is assigned before [time_base.den]. *)
Definition set_frame_rate_double (d : X264FrameDecoder) (fps : double) : outcome X264FrameDecoder :=
  deref d;; den ← hundredfold fps; set_frame_rate_ratio d 1 den.
Definition set_frame_rate_ratio_double (d : X264FrameDecoder) (num den : double) : outcome X264FrameDecoder :=
  deref d;; num ← hundredfold num; den ← hundredfold den; set_frame_rate_ratio d num den.

(** [test_x264_frame_decoder] up to its endless loop. *)
Definition test_x264_frame_decoder (ff : ffmpeg) : outcome X264FrameDecoder :=
  d ← X264FrameDecoder_ctor;
  d ← set_frame_size d 640 480;
  d ← set_frame_rate d 30;
  Ok (decoder_open ff d).1.1.

(** ** Theorems *)

(** The sizes FFmpeg documents for the planes of a YUV 4:2:0 frame. *)
Record yuv420_planes (f : AVFrame) : Prop := {
  chroma_u : Z.of_nat (length (plane f 1)) = linesize f 1 * ((height f + 1) / 2);
  chroma_v : Z.of_nat (length (plane f 2)) = linesize f 2 * ((height f + 1) / 2);
  chroma_line : 0 ≤ linesize f 1;
}.

Lemma save_pixel_outcomes f i j m :
  (∃ m', save_pixel f i j m = Ok m') ∨ save_pixel f i j m = Undef oob_access.
Proof.
  unfold save_pixel, mat_at.
  assert (∀ l k, (∃ x, vec_get l k = Ok x) ∨ vec_get (A := Z) l k = Undef oob_access) as Hget.
  { intros l k. unfold vec_get. destruct (0 <=? k); [destruct (l !! _)|]; eauto. }
  destruct (Hget (plane f 0) (i * linesize f 0 + j)) as [(y & ->)| ->]; [|by right].
  destruct (Hget (plane f 1) (i * linesize f 1 + j)) as [(u & ->)| ->]; [|by right].
  destruct (Hget (plane f 2) (i * linesize f 2 + j)) as [(v & ->)| ->]; [|by right].
  cbn [mbind outcome_bind]. destruct (_ && _); eauto.
Qed.

(** Copying a YUV 4:2:0 picture of two or more rows reads outside the chroma
    planes, whatever the line sizes.  It does not get there: the constructor writes
    through the packet pointer, which is null and stays so, as [read] does when
    the frame has a size and the right format; and before [open] the frame
    pointer that [set_frame_size] uses is null, too. *)
Theorem yuv420_copy_out_of_bounds (f : AVFrame) (m : Mat) (ff : ffmpeg)
    (Hplanes : yuv420_planes f) (Hw : 1 ≤ width f ≤ int_max) (Hh : 2 ≤ height f ≤ int_max) :
  save_frame f m = Done (Undef oob_access) ∧
  test_x264_frame_decoder ff = Undef null_deref ∧
  set_frame_size X264FrameDecoder_init 640 480 = Undef null_deref ∧
  (∀ index, yuv420p f = true →
     decoder_read ff (mkDecoder None (Some f) index) m = Done (Undef null_deref)).
Proof.
  split; [|split; [done|split; [done|]]].
  2: { intros index Hf. unfold decoder_read. cbn [av_frame_stream_ av_packet_].
       rewrite (proj2 (Z.eqb_neq _ _)), (proj2 (Z.eqb_neq _ _)), Hf by lia. done. } destruct Hplanes as [Hu _ Hl]. unfold save_frame.
  set (k := (height f + 1) / 2) in *.
  assert (1 ≤ k < height f) as Hk.
  { clear -Hh. subst k. Z.to_euclidean_division_equations. lia. }
  assert (∀ j m, 0 ≤ j → save_pixel f k j m = Undef oob_access) as Hoob.
  { intros j m' Hj. unfold save_pixel.
    destruct (vec_get (plane f 0) (k * linesize f 0 + j)) as [y| |u|] eqn:E.
    - cbn [mbind outcome_bind]. rewrite (vec_get_oob (plane f 1)) by (rewrite Hu; lia). done.
    - unfold vec_get in E. repeat case_match; discriminate.
    - unfold vec_get in E. repeat case_match; try discriminate; by injection E as <-.
    - unfold vec_get in E. repeat case_match; discriminate. }
  apply (for_loop_fails oob_access k); [lia..| |].
  - intros m'. apply (for_loop_fails oob_access 0); [lia..|by intros; rewrite Hoob|].
    intros i m2. destruct (save_pixel_outcomes f k i m2) as [(m3 & ->)| ->]; eauto.
  - intros i m'. destruct (decide (0 ≤ width f)); [|lia].
    assert (∀ fuel j m, (∃ m', for_loop fuel j (width f) (fun j m => Done (save_pixel f i j m)) m = Done (Ok m'))
      ∨ for_loop fuel j (width f) (fun j m => Done (save_pixel f i j m)) m = Done (Undef oob_access)
      ∨ width f - j > Z.of_nat fuel ∨ j < 0) as Hgen.
    { induction fuel as [|fuel IH]; intros j m0; cbn [for_loop]; destruct (Z.ltb_spec j (width f)); eauto.
      { right; right; left. lia. }
      destruct (save_pixel_outcomes f i j m0) as [(m1 & ->)| ->]; [|by right; left].
      cbn [mbind fuelled_bind]. destruct (decide (0 ≤ j)); [|right; right; right; lia].
      rewrite int32_ok by (unfold int_min, int_max in *; lia). cbn [mbind fuelled_bind].
      destruct (IH (j + 1) m1) as [?|[?|[?|?]]]; eauto; right; right; [left|right]; lia. }
    destruct (Hgen (Z.to_nat (width f)) 0 m') as [?|[?|[?|?]]]; eauto; lia.
Qed.

(** A frame of 2 by 2 pixels: one chroma sample per plane. *)
Definition tiny_frame : AVFrame :=
  mkFrame 2 2 true (fun i => match i with O => [1; 2; 3; 4] | _ => [9] end)
    (fun i => match i with O => 2 | _ => 1 end) 1 30.

Lemma yuv420_copy_out_of_bounds_witness :
  save_frame tiny_frame (mkMat 2 2 ∅) = Done (Undef oob_access).
Proof.
  apply (yuv420_copy_out_of_bounds tiny_frame (mkMat 2 2 ∅)
    (mkFFmpeg true true 0 true true true 0 tiny_frame true 0 true None)); [|simpl; unfold int_max; lia..].
  constructor; vm_compute; congruence.
Defined.

(** The overloads of [set_frame_rate] do not agree: for every whole rate up to 240 the
    one for [double] sets a time base a hundred times smaller than the one for [int],
    while the overloads with two arguments set the same ratio. *)
Theorem frame_rate_overloads (d : X264FrameDecoder) (fps : Z) :
  1 ≤ fps ≤ 240 →
  set_frame_rate_double d (double_of_Z fps) = set_frame_rate_ratio d 1 (100 * fps) ∧
  set_frame_rate_ratio_double d (double_of_Z fps) d_one = set_frame_rate_ratio d (100 * fps) 100.
Proof.
  intros Hf.
  assert (∀ z, 1 ≤ z ≤ 240 → hundredfold (double_of_Z z) = Ok (100 * z)) as H100.
  { assert (forallb (fun z => bool_decide (hundredfold (double_of_Z z) = Ok (100 * z))) (seqZ 1 240) = true) as Hall
      by (vm_compute; reflexivity).
    intros z Hz. rewrite forallb_forall in Hall. specialize (Hall z). apply bool_decide_eq_true_1 in Hall; [done|]. apply list_elem_of_In, elem_of_seqZ. lia. }
  unfold set_frame_rate_double, set_frame_rate_ratio_double, d_one. rewrite !H100 by lia.
  unfold set_frame_rate_ratio. by destruct (deref d).
Qed.
