(* ===== verification/DecoderLifetime.v ===== *)
(** * What the pointers of [X264FrameDecoder] own (cjunk/practice/networkframeStream.cpp)

    [open] and the destructor over a heap of FFmpeg's objects.  A format context owns
    its streams and their codec contexts, and [avformat_close_input] frees them with
    it; the other functions that free take one object.  All accept a null pointer.
    [VideoDecoder] has what the calls compute. *)

From Stdlib Require Import ZArith Lia Ascii.
From stdpp Require Import base list gmap sets strings.
From S2P Require Import Prelude VideoDecoder.
Local Open Scope Z_scope.

(** ** Objects *)

(** The live objects, what each context owns, and the next name. *)
Record av_heap := mkAv { av_live : gset nat; av_owned : gmap nat (list nat); av_next : nat }.

Definition av_alloc (h : av_heap) : nat * av_heap :=
  (av_next h, mkAv ({[av_next h]} ∪ av_live h) (av_owned h) (S (av_next h))).

(** A stream and its codec context for each of [n] streams, owned by the context. *)
Definition av_streams (context n : nat) (h : av_heap) : av_heap :=
  let objects := seq (av_next h) (2 * n) in
  mkAv (list_to_set objects ∪ av_live h) (<[context := objects]> (av_owned h)) (av_next h + 2 * n).
Definition owned_by (context : nat) (h : av_heap) : list nat := default [] (av_owned h !! context).
Definition av_stream (context : nat) (k : Z) (h : av_heap) : outcome nat :=
  match (if 0 <=? k then owned_by context h !! (2 * Z.to_nat k)%nat else None) with
  | Some s => Ok s | None => Undef oob_access end.
Definition av_stream_codec (stream : nat) : nat := S stream.

(** [av_free], and a use of an object. *)
Definition free_object (i : nat) (h : av_heap) : outcome av_heap :=
  if decide (i ∈ av_live h) then Ok (mkAv (av_live h ∖ {[i]}) (av_owned h) (av_next h)) else Undef dangling.
Fixpoint free_objects (l : list nat) (h : av_heap) : outcome av_heap :=
  match l with [] => Ok h | i :: l => h ← free_object i h; free_objects l h end.
Definition av_free (p : option nat) (h : av_heap) : outcome av_heap :=
  match p with None => Ok h | Some i => free_object i h end.
Definition av_use (p : option nat) (h : av_heap) : outcome unit :=
  match p with
  | None => Ok tt
  | Some i => if decide (i ∈ av_live h) then Ok tt else Undef dangling
  end.
(** [avformat_close_input(&p)]: everything the context owns, and the context. *)
Definition close_input (p : option nat) (h : av_heap) : outcome av_heap :=
  match p with
  | None => Ok h
  | Some c => h ← free_objects (owned_by c h) h; free_object c h
  end.

(** ** The decoder *)

Record pointers := mkPointers {
  p_codec_context : option nat; p_frame : option nat; p_packet : option nat;
  p_format : option nat; p_codec_stream : option nat; p_frame_stream : option nat }.
Definition no_pointers : pointers := mkPointers None None None None None None.

(** [open], where the input has [streams] streams: the returned value, the members and
    the heap.  A failed [avformat_open_input] frees the context and resets the
    pointer. *)
Definition open_pointers (ff : ffmpeg) (streams : nat) (context_alloc_ok : bool) (h : av_heap)
    : outcome (bool * pointers * av_heap) :=
  let '(format, h) := av_alloc h in
  if negb (open_input_ok ff) then h ← av_free (Some format) h; Ok (false, no_pointers, h)
  else
    let h := av_streams format streams h in
    let p := mkPointers None None None (Some format) None None in
    if negb (find_stream_info_ok ff) then Ok (false, p, h)
    else if best_stream ff <? 0 then Ok (false, p, h)
    else
      stream ← av_stream format (best_stream ff) h;
      if negb context_alloc_ok then Undef null_deref
      else
        let '(context, h) := av_alloc h in
        let p := mkPointers (Some context) None None (Some format) (Some stream) None in
        if negb (find_decoder_ok ff) then Ok (false, p, h)
        else if negb (open2_ok ff) then Ok (false, p, h)
        else
          let '(frame, h) := if frame_alloc_ok ff then (let '(i, h) := av_alloc h in (Some i, h)) else (None, h) in
          if best_stream_again ff <? 0 then
            Ok (false, mkPointers (Some context) None None (Some format) (Some stream) frame, h)
          else
            again ← av_stream format (best_stream_again ff) h;
            Ok (true, mkPointers (Some context) None None (Some format) (Some stream)
                        (Some (av_stream_codec again)), h).

(** [~X264FrameDecoder]. *)
Definition decoder_dtor (p : pointers) (h : av_heap) : outcome av_heap :=
  _ ← av_use (p_codec_context p) h;
  h ← av_free (p_packet p) h;
  h ← av_free (p_frame p) h;
  h ← av_free (p_codec_context p) h;
  h ← av_free (p_frame_stream p) h;
  h ← av_free (p_codec_stream p) h;
  close_input (p_format p) h.

(** ** Freeing *)

Lemma free_object_outcome i h :
  (∃ h', free_object i h = Ok h' ∧ (i ∉ av_live h') ∧ av_live h' ⊆ av_live h ∧ av_owned h' = av_owned h) ∨
  free_object i h = Undef dangling.
Proof. unfold free_object. case_decide; [left|by right]. eexists. split; [done|]. simpl. set_solver. Qed.

(** An object that is gone cannot be freed with others. *)
Lemma free_objects_dead l i h : i ∈ l → i ∉ av_live h → free_objects l h = Undef dangling.
Proof.
  revert h. induction l as [|j l IH]; intros h Hi Hd; [set_solver|]. simpl.
  destruct (free_object_outcome j h) as [(h' & E & _ & Hsub & _)|E]; rewrite E; [|done]. simpl.
  apply elem_of_cons in Hi as [->|Hi]; [|by apply IH; set_solver].
  unfold free_object in E. by rewrite decide_False in E.
Qed.

Lemma free_objects_all l h :
  NoDup l → list_to_set l ⊆ av_live h →
  free_objects l h = Ok (mkAv (av_live h ∖ list_to_set l) (av_owned h) (av_next h)).
Proof.
  revert h. induction l as [|i l IH]; intros [live owned next] Hnd Hsub; simpl in *.
  - do 2 f_equal. set_solver.
  - apply NoDup_cons in Hnd as [Hi Hnd]. unfold free_object. simpl.
    rewrite decide_True by set_solver. simpl. rewrite IH; [|done|].
    + simpl. do 2 f_equal. set_solver.
    + simpl. intros j Hj. assert (j ≠ i) by (intros ->; apply elem_of_list_to_set in Hj; done). set_solver.
Qed.

(** [av_free] leaves the other objects and the ownership alone. *)
Lemma av_free_outcome p h :
  (∃ h', av_free p h = Ok h' ∧ (∀ i, i ∉ av_live h → i ∉ av_live h') ∧ av_owned h' = av_owned h ∧
     (∀ i, p = Some i → i ∉ av_live h')) ∨
  av_free p h = Undef dangling.
Proof.
  destruct p as [i|]; simpl; [|left; eexists; by split_and!].
  destruct (free_object_outcome i h) as [(h' & -> & Hi & Hsub & Ho)|]; [left|by right].
  exists h'. split_and!; [done|set_solver|done|by intros ? [= <-]].
Qed.

(** ** Destruction *)

(** A decoder whose [p_codec_stream] belongs to its format context is freed twice. *)
Lemma decoder_dtor_double p format stream h :
  p_format p = Some format → p_codec_stream p = Some stream → stream ∈ owned_by format h →
  decoder_dtor p h = Undef dangling.
Proof.
  intros Hf Hs Ho. unfold decoder_dtor. rewrite Hf, Hs.
  destruct (av_use (p_codec_context p) h) as [[]| |u|] eqn:Eu; simpl;
    try (unfold av_use in Eu; repeat case_match; simplify_eq; done).
  do 4 (match goal with |- context [av_free ?q ?h] =>
    destruct (av_free_outcome q h) as [(? & -> & _ & ? & _)| ->]; [|done] end; simpl).
  destruct (free_object_outcome stream x2) as [(h' & -> & Hd & _ & Ho')| ->]; [|done]. simpl.
  assert (owned_by format h' = owned_by format h) as -> by (unfold owned_by; congruence).
  by rewrite (free_objects_dead _ stream).
Qed.

(** A context with its streams and nothing else is freed completely. *)
Lemma close_input_all n : 
  ∃ h', close_input (Some 0%nat) (av_streams 0 n (mkAv {[0%nat]} ∅ 1)) = Ok h' ∧ av_live h' = ∅.
Proof.
  unfold close_input, owned_by, av_streams. simpl av_owned. rewrite lookup_insert_eq. simpl default.
  rewrite free_objects_all by first [apply NoDup_seq | simpl; set_solver]. simpl.
  unfold free_object. simpl. rewrite decide_True.
  - eexists. split; [done|]. simpl. apply leibniz_equiv. set_solver.
  - apply elem_of_difference. split; [set_solver|]. intros Hi%elem_of_list_to_set%elem_of_seq. lia.
Qed.

Lemma av_stream_owned format k h stream :
  av_stream format k h = Ok stream → stream ∈ owned_by format h.
Proof.
  unfold av_stream. destruct (0 <=? k); [|done]. destruct (_ !! _) eqn:E; [|done]. intros [= <-].
  by eapply list_elem_of_lookup_2.
Qed.

Lemma av_stream_ok format n k h :
  0 ≤ k < Z.of_nat n → ∃ stream, av_stream format k (av_streams format n h) = Ok stream.
Proof.
  intros Hk. unfold av_stream, owned_by, av_streams. simpl av_owned. rewrite (proj2 (Z.leb_le 0 k)) by lia.
  rewrite lookup_insert_eq. cbn [default from_option id]. rewrite lookup_seq_lt by lia. eauto.
Qed.

(** Destroying a decoder that has been opened once.  If [open] failed before it found the
    video stream, everything is given back.  From then on the destructor frees the
    stream, which belongs to the format context, and closing the context frees it
    again, whether [open] succeeds or not. *)
Theorem decoder_destruction (ff : ffmpeg) (streams : nat) (context_alloc_ok r : bool) (p : pointers) (h : av_heap)
    (Hopen : open_pointers ff streams context_alloc_ok (mkAv ∅ ∅ 0) = Ok (r, p, h)) :
  if open_input_ok ff && find_stream_info_ok ff && (0 <=? best_stream ff)
  then decoder_dtor p h = Undef dangling
  else r = false ∧ ∃ h', decoder_dtor p h = Ok h' ∧ av_live h' = ∅.
Proof.
  revert Hopen. unfold open_pointers. cbn [av_alloc av_next av_live av_owned].
  set (h0 := mkAv _ _ _). destruct (open_input_ok ff); cbn [negb andb].
  2: { unfold av_free, free_object. rewrite decide_True by (simpl; set_solver). simpl. intros [= <- <- <-].
       split; [done|]. eexists. split; [done|]. simpl. apply leibniz_equiv. set_solver. }
  assert (∀ h' : av_heap, h' = av_streams 0 streams h0 →
    ∃ h'', decoder_dtor (mkPointers None None None (Some 0%nat) None None) h' = Ok h'' ∧ av_live h'' = ∅) as Hall.
  { intros h' ->. destruct (close_input_all streams) as (h'' & E & Hl). exists h''. split; [|done].
    unfold decoder_dtor. cbn -[close_input av_streams]. rewrite <- E. subst h0. by rewrite union_empty_r_L. }
  destruct (find_stream_info_ok ff); cbn [negb andb]; [|intros [= <- <- <-]; auto].
  rewrite Z.ltb_antisym. destruct (0 <=? best_stream ff); cbn [negb]; [|intros [= <- <- <-]; auto].
  intros (stream & Hs%av_stream_owned & E)%bind_ok.
  assert (owned_by 0 h = owned_by 0 (av_streams 0 streams h0) ∧ p_format p = Some 0%nat ∧ p_codec_stream p = Some stream)
    as (Ho & Hf & Hc).
  { revert E. cbn [av_alloc]. destruct context_alloc_ok; cbn [negb]; [|done].
    destruct (find_decoder_ok ff); cbn [negb]; [|by intros [= <- <- <-]].
    destruct (open2_ok ff); cbn [negb]; [|by intros [= <- <- <-]].
    destruct (frame_alloc_ok ff), (best_stream_again ff <? 0); cbn [av_alloc];
      try (by intros [= <- <- <-]); by intros (again & _ & [= <- <- <-])%bind_ok. }
  eapply decoder_dtor_double; [done..|by rewrite Ho].
Qed.

(** One video stream, and every call succeeds. *)
Definition good_input : ffmpeg := mkFFmpeg true true 0 true true true 0 tiny_frame true 0 true None.

Lemma decoder_destruction_witness :
  match open_pointers good_input 1 true (mkAv ∅ ∅ 0) with
  | Ok (r, p, h) => r = true ∧ decoder_dtor p h = Undef dangling
  | _ => False
  end.
Proof.
  destruct (open_pointers good_input 1 true (mkAv ∅ ∅ 0)) as [[[r p] h]| | |] eqn:E;
    [|vm_compute in E; discriminate..].
  split; [vm_compute in E; congruence|]. exact (decoder_destruction good_input 1 true r p h E).
Defined.
