(* ===== verification/Perceptron.v ===== *)
(** * The neural network of cjunk/practice/perceptron.cc

    [Perceptron], [Layer] and [Network]; weights, biases and signals are
    binary64, [std::exp] is a parameter, and the random weights a constructor
    draws are passed to it.  [x[i]] and [weights[i]] out of range are undefined
    behaviour. *)

From Stdlib Require Import ZArith Lia.
From stdpp Require Import base list.
From S2P Require Import Prelude Double Loops.
Local Open Scope Z_scope.

Section Network.
Context (exp : double → double).

Record Perceptron := mkPerceptron { weights : list double; bias : double }.
Definition Layer : Type := list Perceptron.
Definition Network : Type := list Layer.

Definition sigmoid (x : double) : double := ddiv d_one (dadd d_one (exp (dopp x))).

(** The loop runs over the input, not over the weights. *)
Definition Perceptron_run (p : Perceptron) (x : list double) : fuelled double :=
  sum ← for_loop (length x) 0 (Z.of_nat (length x)) (fun i sum =>
    Done (xi ← vec_get x i; wi ← vec_get (weights p) i; Ok (dadd sum (dmul xi wi)))) dzero;
  mret (sigmoid (dadd sum (bias p))).

Definition Perceptron_set_weights (p : Perceptron) (w : list double) : Perceptron :=
  mkPerceptron w (bias p).

Fixpoint Layer_run (l : Layer) (x : list double) : fuelled (list double) :=
  match l with
  | [] => mret []
  | p :: l' => y ← Perceptron_run p x; ys ← Layer_run l' x; mret (y :: ys)
  end.

Definition Layer_set_weights (l : Layer) (w : list (list double)) : fuelled Layer :=
  for_loop (length l) 0 (Z.of_nat (length l)) (fun i l =>
    Done (p ← vec_get l i; wi ← vec_get w i; vec_set l i (Perceptron_set_weights p wi))) l.

(** Every layer is run on [output], which starts empty; [x] is not used. *)
Fixpoint layers_run (ls : list Layer) (output : list double) : fuelled (list double) :=
  match ls with
  | [] => mret output
  | l :: ls' => output ← Layer_run l output; layers_run ls' output
  end.
Definition Network_run (n : Network) (x : list double) : fuelled (list double) := layers_run n [].

Definition Network_set_weights (n : Network) (w : list (list (list double))) : fuelled Network :=
  for_loop (length n) 0 (Z.of_nat (length n)) (fun i n =>
    l ← Done (vec_get n i); wi ← Done (vec_get w i);
    l ← Layer_set_weights l wi; Done (vec_set n i l)) n.

(** ** Construction, with the drawn weights as a function of their position *)

Context (draw : nat → nat → nat → double).

Definition Perceptron_init (layer p inputs : nat) : Perceptron :=
  mkPerceptron ((fun i => draw layer p i) <$> seq 0 inputs) d_one.
Definition Layer_init (layer inputs outputs : nat) : Layer :=
  (fun p => Perceptron_init layer p inputs) <$> seq 0 outputs.
Definition Network_init (inputs outputs hidden : nat) : Network :=
  ((fun l => Layer_init l inputs inputs) <$> seq 0 hidden) ++ [Layer_init hidden inputs outputs].

(** ** Shapes *)

Definition layer_shape (inputs outputs : nat) (l : Layer) : Prop :=
  length l = outputs ∧ Forall (fun p => length (weights p) = inputs) l.

Lemma Layer_init_shape layer inputs outputs : layer_shape inputs outputs (Layer_init layer inputs outputs).
Proof.
  split; [unfold Layer_init; by rewrite length_fmap, length_seq|].
  apply Forall_fmap, Forall_forall. intros p _. simpl. by rewrite length_fmap, length_seq.
Qed.

Lemma Perceptron_run_ok p x :
  (length x ≤ length (weights p))%nat → Z.of_nat (length x) ≤ int_max →
  ∃ y, Perceptron_run p x = Done (Ok y).
Proof.
  intros Hlen Hint. unfold Perceptron_run.
  edestruct (for_loop_inv (fun _ (_ : double) => True) (length x) 0 (Z.of_nat (length x)))
    as (s & -> & _); [lia..| |done|eexists; reflexivity].
  intros k s Hk _. cbv beta. destruct (vec_get_ok x k) as (a & -> & _); [lia|].
  destruct (vec_get_ok (weights p) k) as (b & -> & _); [lia|]. eexists. by split.
Qed.

(** An input that is longer than the weights runs past their end. *)
Lemma Perceptron_run_oob p x :
  (length (weights p) < length x)%nat → Z.of_nat (length x) ≤ int_max →
  Perceptron_run p x = Done (Undef oob_access).
Proof.
  intros Hlen Hint. unfold Perceptron_run.
  rewrite (for_loop_fails oob_access (Z.of_nat (length (weights p)))); [done|lia..| |].
  - intros s. destruct (vec_get_ok x (Z.of_nat (length (weights p)))) as (a & -> & _); [lia|].
    cbn [mbind outcome_bind]. by rewrite vec_get_oob by lia.
  - intros i s. unfold vec_get. destruct (0 <=? i); [|by right].
    destruct (x !! _); [|by right]. cbn [mbind outcome_bind]. destruct (weights p !! _); [left|by right].
    cbn [mbind outcome_bind]. eauto.
Qed.

Lemma Layer_run_ok l x inputs :
  Forall (fun p => length (weights p) = inputs) l → (length x ≤ inputs)%nat → Z.of_nat inputs ≤ int_max →
  ∃ ys, Layer_run l x = Done (Ok ys) ∧ length ys = length l.
Proof.
  intros Hl Hx Hi. induction Hl as [|p l Hp Hl (ys & E & Hys)]; [eexists; by split|].
  destruct (Perceptron_run_ok p x) as (y & Ey); [lia..|].
  cbn [Layer_run]. rewrite Ey. cbn [mbind fuelled_bind]. rewrite E. cbn [mbind fuelled_bind].
  eexists. split; [done|]. simpl. lia.
Qed.

Lemma hidden_run_ok ls inputs output :
  Forall (layer_shape inputs inputs) ls → (length output ≤ inputs)%nat → Z.of_nat inputs ≤ int_max →
  ∃ ys, layers_run ls output = Done (Ok ys) ∧ (length ys ≤ inputs)%nat.
Proof.
  intros Hls Ho Hi. revert output Ho. induction Hls as [|l ls [Hlen Hw] Hls IH]; intros output Ho; [eauto|].
  destruct (Layer_run_ok l output inputs Hw Ho Hi) as (ys & E & Hys).
  cbn [layers_run]. rewrite E. apply IH. lia.
Qed.

Lemma layers_run_app ls ls' output :
  layers_run (ls ++ ls') output = layers_run ls output ≫= layers_run ls'.
Proof.
  revert output. induction ls as [|l ls IH]; intros output; [done|].
  cbn [layers_run app]. destruct (Layer_run l output) as [[]|]; try done. apply IH.
Qed.
End Network.

(** ** Theorems *)

(** A network made by the constructor runs on every input without an index out
    of range and returns one value per output, whatever weights were drawn; but
    the value does not depend on the input: [Network::run] feeds the first layer
    an empty vector. *)
Theorem network_run_ignores_input (exp : double → double) (draw : nat → nat → nat → double)
    (inputs outputs hidden : nat) (x y : list double) (Hi : Z.of_nat inputs ≤ int_max) :
  ∃ out, Network_run exp (Network_init draw inputs outputs hidden) x = Done (Ok out) ∧
    Network_run exp (Network_init draw inputs outputs hidden) y = Done (Ok out) ∧
    length out = outputs.
Proof.
  unfold Network_run, Network_init. rewrite layers_run_app.
  destruct (hidden_run_ok exp ((fun l => Layer_init draw l inputs inputs) <$> seq 0 hidden) inputs [])
    as (ys & E & Hys); [|simpl; lia|done|].
  { apply Forall_fmap, Forall_forall. intros l _. apply Layer_init_shape. }
  rewrite E. cbn [mbind fuelled_bind layers_run].
  destruct (Layer_init_shape draw hidden inputs outputs) as [Hlen Hw].
  destruct (Layer_run_ok exp _ ys inputs Hw Hys Hi) as (out & E' & Hout).
  exists out. rewrite E'. cbn [mbind fuelled_bind]. split_and!; [done..|lia].
Qed.

Lemma network_run_ignores_input_witness :
  ∃ out, Network_run (fun x => x) (Network_init (fun _ _ _ => d_one) 2 1 1) [d_one; dzero] = Done (Ok out) ∧
    Network_run (fun x => x) (Network_init (fun _ _ _ => d_one) 2 1 1) [dzero; dzero] = Done (Ok out) ∧
    length out = 1%nat.
Proof. apply (network_run_ignores_input (fun x => x) (fun _ _ _ => d_one) 2 1 1). vm_compute. congruence. Defined.
