(* ===== verification/StreamBuf.v ===== *)
(** * The upper-casing stream buffer (example_streambuffer/)

    [outbuf] of testHello.cpp, which also keeps what it wrote, and of
    gnustream.cpp, which does not.  [std::ostream] hands the buffer one character
    at a time and stops at the first failure; a character is a signed [char],
    [overflow] receives its unsigned value and returns an [int], and EOF is -1.
    Whether [putchar] succeeds is a parameter. *)

From Stdlib Require Import ZArith Lia Ascii.
From stdpp Require Import base list strings.
From S2P Require Import Prelude.
Local Open Scope Z_scope.

Definition EOF : Z := -1.

(** [static_cast<char>] on a character value, and back to its byte. *)
Definition to_char (c : Z) : Z := let b := c mod 256 in if b <? 128 then b else b - 256.
Definition to_byte (c : Z) : ascii := chr (c mod 256).

(** [std::toupper(char, getloc())] in the classic locale. *)
Definition toupper_char (c : Z) : Z := if (97 <=? c) && (c <=? 122) then c - 32 else c.

Record outbuf := mkOutbuf { m_internalBuffer : bytes; out_stdout : bytes }.

Section Streams.
(** Whether the write of the [n]-th character to standard output succeeds. *)
Context (putchar_ok : nat → bool).

(** [overflow] of testHello.cpp; the second component is the returned [int_type]. *)
Definition overflow (ob : outbuf) (c : Z) : outbuf * Z :=
  if c =? EOF then (ob, c)
  else
    let c := toupper_char (to_char c) in
    let buf := m_internalBuffer ob ++ [to_byte c] in
    if putchar_ok (length (out_stdout ob)) then
      (mkOutbuf buf (out_stdout ob ++ [to_byte c]), c)
    else (mkOutbuf buf (out_stdout ob), EOF).

(** [overflow] of gnustream.cpp. *)
Definition overflow_gnu (out : bytes) (c : Z) : bytes * Z :=
  if c =? EOF then (out, c)
  else
    let c := toupper_char (to_char c) in
    if putchar_ok (length out) then (out ++ [to_byte c], c) else (out, EOF).

(** An output stream: the buffer and whether the stream is still good. *)
Record ostream := mkStream { rdbuf : outbuf; good : bool }.

(** [xsputn]: a character after the other, until [overflow] returns EOF. *)
Fixpoint xsputn (ob : outbuf) (s : bytes) : outbuf * bool :=
  match s with
  | [] => (ob, true)
  | ch :: s' =>
      let '(ob, r) := overflow ob (code ch) in
      if r =? EOF then (ob, false) else xsputn ob s'
  end.

(** Formatted output of a text: nothing if the stream has failed before. *)
Definition put_text (out : ostream) (s : bytes) : ostream :=
  if good out then let '(ob, ok) := xsputn (rdbuf out) s in mkStream ob ok else out.

Definition put_all (out : ostream) (texts : list bytes) : ostream := fold_left put_text texts out.
Definition dump (out : ostream) : bytes := m_internalBuffer (rdbuf out).

Definition ostream_init : ostream := mkStream (mkOutbuf [] []) true.

(** ** What reaches the buffer *)

(** The character written is the upper-case letter; the returned value is EOF
    exactly for the byte 255, although it was written. *)
Lemma overflow_char c :
  (code c =? EOF) = false ∧
  to_byte (toupper_char (to_char (code c))) = toupper c ∧
  (toupper_char (to_char (code c)) =? EOF) = (code c =? 255).
Proof using Type. destruct c as [[] [] [] [] [] [] [] []]; vm_compute; auto. Qed.

Context (Hputchar : ∀ n, putchar_ok n = true).

Definition printable (s : bytes) : Prop := Forall (fun c => code c ≠ 255) s.

Lemma xsputn_printable ob s :
  printable s →
  xsputn ob s = (mkOutbuf (m_internalBuffer ob ++ (toupper <$> s)) (out_stdout ob ++ (toupper <$> s)), true).
Proof.
  intros Hs. revert ob. induction Hs as [|c s Hc Hs IH]; intros ob; simpl.
  { rewrite !app_nil_r. by destruct ob. }
  destruct (overflow_char c) as (E1 & E2 & E3).
  unfold overflow. rewrite E1, Hputchar, E3, (proj2 (Z.eqb_neq _ _) Hc). rewrite IH. simpl.
  by rewrite E2, <- !app_assoc.
Qed.

Lemma put_all_printable out texts :
  good out = true → Forall printable texts →
  put_all out texts = mkStream
    (mkOutbuf (m_internalBuffer (rdbuf out) ++ (toupper <$> mjoin texts))
              (out_stdout (rdbuf out) ++ (toupper <$> mjoin texts))) true.
Proof.
  intros Hg Ht. revert out Hg. induction Ht as [|t texts Ht Hts IH]; intros out Hg; simpl.
  { rewrite !app_nil_r. destruct out as [[] g]; simpl in *. by rewrite Hg. }
  unfold put_all in *. cbn [fold_left]. unfold put_text at 2. rewrite Hg, xsputn_printable by done.
  rewrite IH by done. simpl. by rewrite !fmap_app, <- !app_assoc.
Qed.

(** A byte 255 is written, and then the stream is in error. *)
Lemma xsputn_255 ob s t :
  printable s → xsputn ob (s ++ "255"%char :: t)
  = (mkOutbuf (m_internalBuffer ob ++ (toupper <$> s) ++ ["255"%char])
              (out_stdout ob ++ (toupper <$> s) ++ ["255"%char]), false).
Proof.
  intros Hs. revert ob. induction Hs as [|c s Hc Hs IH]; intros ob; simpl.
  { unfold overflow. rewrite Hputchar. reflexivity. }
  destruct (overflow_char c) as (E1 & E2 & E3).
  unfold overflow. rewrite E1, Hputchar, E3, (proj2 (Z.eqb_neq _ _) Hc). rewrite IH. simpl.
  by rewrite E2, <- !app_assoc.
Qed.
End Streams.

(** ** The test of testHello.cpp *)

Definition example1_texts : list bytes :=
  [#"31 hexadecimal: "; #"1f"; [newline]; #"2343 som info !!"; [newline]].
Definition example1_expected : bytes :=
  #"31 HEXADECIMAL: 1F" ++ [backslash; "n"%char] ++ #"2343 SOM INFO !!" ++ [backslash; "n"%char].

Definition gnu_texts : list bytes := [#"31 hexadecimal: "; #"1f"; [newline]].
Definition custom_texts : list bytes := [#" this is text to custom class1."].

(** A [SerialPortFake] is a stream on the buffer it is given. *)
Definition SerialPortFake (sb : outbuf) : ostream := mkStream sb true.

(** The outcome of [EXPECT_EQ] and the stream the test leaves. *)
Definition example1 (putchar_ok : nat → bool) : bool * ostream :=
  let out := put_all putchar_ok ostream_init example1_texts in
  (bool_decide (dump out = example1_expected), out).
Definition customClass (putchar_ok : nat → bool) : ostream :=
  put_all putchar_ok (SerialPortFake (mkOutbuf [] [])) custom_texts.
Definition gnuTest (putchar_ok : nat → bool) : ostream := put_all putchar_ok ostream_init gnu_texts.

(** [main] of gnustream.cpp: what it prints, whether the stream is good at the end,
    and the exit status. *)
Fixpoint xsputn_gnu (putchar_ok : nat → bool) (out s : bytes) : bytes * bool :=
  match s with
  | [] => (out, true)
  | ch :: s' =>
      let '(out, r) := overflow_gnu putchar_ok out (code ch) in
      if r =? EOF then (out, false) else xsputn_gnu putchar_ok out s'
  end.
Definition put_gnu (putchar_ok : nat → bool) (out : bytes * bool) (s : bytes) : bytes * bool :=
  if out.2 then xsputn_gnu putchar_ok out.1 s else out.
Definition gnu_main (putchar_ok : nat → bool) : bytes * bool * Z :=
  (fold_left (put_gnu putchar_ok) gnu_texts ([], true), 0).

(** The two buffers print the same, whichever character fails. *)
Lemma overflow_gnu_same putchar_ok ob c :
  overflow_gnu putchar_ok (out_stdout ob) c
  = (out_stdout (overflow putchar_ok ob c).1, (overflow putchar_ok ob c).2).
Proof. unfold overflow, overflow_gnu. by repeat case_match. Qed.

Lemma xsputn_gnu_same putchar_ok ob s :
  xsputn_gnu putchar_ok (out_stdout ob) s
  = (out_stdout (xsputn putchar_ok ob s).1, (xsputn putchar_ok ob s).2).
Proof.
  revert ob. induction s as [|c s IH]; intros ob; simpl; [done|].
  rewrite overflow_gnu_same. destruct (overflow putchar_ok ob (code c)) as [ob' r]. simpl.
  by destruct (r =? EOF).
Qed.

Lemma gnu_same putchar_ok texts out :
  fold_left (put_gnu putchar_ok) texts (out_stdout (rdbuf out), good out)
  = (out_stdout (rdbuf (put_all putchar_ok out texts)), good (put_all putchar_ok out texts)).
Proof.
  revert out. unfold put_all. induction texts as [|t texts IH]; intros out; simpl; [done|].
  rewrite <- IH. f_equal. unfold put_gnu, put_text. simpl. destruct (good out) eqn:Hg; simpl; [|by rewrite Hg].
  rewrite xsputn_gnu_same. by destruct (xsputn putchar_ok (rdbuf out) t).
Qed.

(** The program prints what the test prints on the same terminal, and always exits
    with 0; on one that accepts everything the two other tests print their text in
    upper case, and the first one fails. *)
Lemma gnu_main_same putchar_ok :
  gnu_main putchar_ok = (out_stdout (rdbuf (gnuTest putchar_ok)), good (gnuTest putchar_ok), 0).
Proof. unfold gnu_main, gnuTest. by rewrite <- gnu_same. Qed.

Example tests_printed :
  out_stdout (rdbuf (customClass (fun _ => true))) = #" THIS IS TEXT TO CUSTOM CLASS1." ∧
  (gnu_main (fun _ => true)).1 = (#"31 HEXADECIMAL: 1F" ++ [newline], true) ∧
  (example1 (fun _ => true)).1 = false ∧
  (gnu_main (fun n => bool_decide (n < 3)%nat)).1 = (#"31 ", false).
Proof. vm_compute. done. Qed.

(** C33: everything written through the stream reaches the buffer and standard
    output in upper case and in order, as long as no byte is 255; from such a
    byte on the stream is in error, because the [char] -1 that [overflow] returns
    is taken for EOF.  The text [example1] expects has a backslash and a letter
    where the stream wrote line ends. *)
Theorem outbuf_uppercases (putchar_ok : nat → bool) (texts : list bytes) (s t : bytes)
    (Hputchar : ∀ n, putchar_ok n = true) (Htexts : Forall printable texts) (Hs : printable s) :
  dump (put_all putchar_ok ostream_init texts) = toupper <$> mjoin texts ∧
  good (put_all putchar_ok ostream_init texts) = true ∧
  (let out := put_all putchar_ok ostream_init (texts ++ [s ++ "255"%char :: t]) in
   good out = false ∧ dump out = (toupper <$> mjoin texts) ++ (toupper <$> s) ++ ["255"%char]) ∧
  dump (put_all putchar_ok ostream_init example1_texts) ≠ example1_expected.
Proof.
  split_and!.
  - by rewrite put_all_printable.
  - by rewrite put_all_printable.
  - cbv zeta. unfold put_all. rewrite fold_left_app. fold (put_all putchar_ok ostream_init texts).
    rewrite put_all_printable by done. cbn [fold_left put_text good].
    unfold put_text. cbn [good rdbuf]. rewrite xsputn_255 by done. simpl. done.
  - rewrite put_all_printable; [vm_compute; discriminate|done|done|].
    repeat constructor; vm_compute; discriminate.
Qed.

Lemma outbuf_uppercases_witness :
  dump (put_all (fun _ => true) ostream_init [#"abc"; #" X1"]) = #"ABC X1".
Proof.
  apply (outbuf_uppercases (fun _ => true) [#"abc"; #" X1"] [] []); [done|..];
    repeat constructor; vm_compute; discriminate.
Defined.
