(* ===== verification/Promise.v ===== *)
(** * Chained callbacks (cjunk/practice/chainablePromise.cc)

    A [ChainablePromise] holds a functor and a vector of children, by value:
    [then] pushes a copy and returns another.  A functor is an identifier with a
    pure function; running a promise gives the list of the calls it makes, in
    order. *)

From Stdlib Require Import ZArith Lia.
From stdpp Require Import base list.
From S2P Require Import Prelude.

Section Promise.
Context {T : Type}.

(** The recorded name of a functor and what it computes. *)
Record Runnable := mkRunnable { name : nat; apply : T → T }.

Inductive ChainablePromise := mkPromise (m_functor : Runnable) (m_children : list ChainablePromise).

Definition m_functor (p : ChainablePromise) : Runnable := let '(mkPromise f _) := p in f.
Definition m_children (p : ChainablePromise) : list ChainablePromise := let '(mkPromise _ l) := p in l.

(** The default constructor: the identity. *)
Definition identity_functor : Runnable := mkRunnable 0 (fun arg => arg).
Definition Promise_default : ChainablePromise := mkPromise identity_functor [].
Definition Promise_of (f : Runnable) : ChainablePromise := mkPromise f [].

(** Both overloads of [then]: the changed object and the returned copy. *)
Definition then_promise (self promise : ChainablePromise) : ChainablePromise * ChainablePromise :=
  (mkPromise (m_functor self) (m_children self ++ [promise]), promise).
Definition then_functor (self : ChainablePromise) (f : Runnable) : ChainablePromise * ChainablePromise :=
  then_promise self (Promise_of f).

(** [operator()]: the calls [(functor, argument)] in the order they are made; the
    children receive the result, and the futures vector stays empty. *)
Fixpoint call (p : ChainablePromise) (arg : T) : list (nat * T) :=
  match p with
  | mkPromise f children =>
      let result := apply f arg in
      (name f, arg) ::
      (fix run (l : list ChainablePromise) : list (nat * T) :=
         match l with [] => [] | c :: l' => call c result ++ run l' end) children
  end.

(** [runAsync] calls the functor alone. *)
Definition runAsync (p : ChainablePromise) (arg : T) : T := apply (m_functor p) arg.

Lemma call_unfold f children arg :
  call (mkPromise f children) arg = (name f, arg) :: mjoin ((fun c => call c (apply f arg)) <$> children).
Proof. simpl. f_equal. induction children as [|c l IH]; simpl; [done|]. by rewrite IH. Qed.

(** A chain of callbacks, as the test writes it: each [then] on what the previous
    one returned. *)
Fixpoint then_chain (p : ChainablePromise) (fs : list Runnable) : ChainablePromise :=
  match fs with [] => p | f :: fs' => let '(_, q) := then_functor p f in then_chain q fs' end.

(** The object the chain started from, after the whole expression. *)
Definition after_chain (p : ChainablePromise) (fs : list Runnable) : ChainablePromise :=
  match fs with [] => p | f :: _ => (then_functor p f).1 end.

(** The chain that was meant: each callback below the one before. *)
Fixpoint nested (f : Runnable) (fs : list Runnable) : ChainablePromise :=
  match fs with [] => mkPromise f [] | g :: fs' => mkPromise f [nested g fs'] end.
Definition results (f : Runnable) (fs : list Runnable) (arg : T) : list (nat * T) :=
  (fix go (f : Runnable) (fs : list Runnable) (arg : T) : list (nat * T) :=
     (name f, arg) :: match fs with [] => [] | g :: fs' => go g fs' (apply f arg) end) f fs arg.

Lemma nested_call f fs arg : call (nested f fs) arg = results f fs arg.
Proof.
  revert f arg. induction fs as [|g fs IH]; intros f arg; simpl; [done|].
  rewrite IH, app_nil_r. done.
Qed.
End Promise.

(** Calling a promise calls its functor first and then, in the order they
    were added and each with that result, its children; but because [then]
    returns a copy, of a chain of callbacks [p.then(f1).then(f2)...] only [f1] is
    ever attached to [p]: a call makes the calls of [p] and one call of [f1],
    and no call of [f2] or any later one. *)
Theorem promise_chain_attaches_first {T : Type} (p : ChainablePromise (T := T))
    (f : Runnable) (fs : list Runnable) (arg : T) :
  call (after_chain p (f :: fs)) arg = call p arg ++ [(name f, apply (m_functor p) arg)] ∧
  (∀ g h, m_children (after_chain p (g :: h :: fs)) = m_children p ++ [Promise_of g]) ∧
  then_chain p (f :: fs) = Promise_of (default f (last fs)) ∧
  call (nested f fs) arg = results f fs arg.
Proof.
  split_and!; [|done| |apply nested_call].
  - destruct p as [f0 children]. cbn [after_chain then_functor then_promise fst m_functor m_children].
    rewrite !call_unfold, fmap_app, join_app. simpl. done.
  - revert p f. induction fs as [|g fs IH]; intros p f; [done|].
    change (then_chain p (f :: g :: fs)) with (then_chain (Promise_of f) (g :: fs)). rewrite IH.
    destruct fs as [|h fs]; [done|]. change (last (g :: h :: fs)) with (last (h :: fs)).
    destruct (last (h :: fs)) eqn:E; [done|]. by apply last_None in E.
Qed.
