(* ===== verification/MotorControl.v ===== *)
(** * Matrices and the filter step of cjunk/practice/motorcontrol.hpp

    [Matrix] stores [int]s; its compound operators work element by element, the
    product too.  The step of [KalmanFilter] (repeated in [ClarkeTransform] and
    [ParkTransform]) uses [*], [+], [-], [transpose], [inverse] and [Identity],
    which [Matrix] does not declare: they are the operations of a class of
    matrix structures, with the laws a step relies on. *)

From Stdlib Require Import ZArith Lia.
From stdpp Require Import base list.
From S2P Require Import Prelude Loops.
Local Open Scope Z_scope.

Record Matrix := mkMatrix { m_n : Z; m_m : Z; m_data : list (list Z) }.

Definition cell_get (d : list (list Z)) (i j : Z) : outcome Z := r ← vec_get d i; vec_get r j.
Definition cell_set (d : list (list Z)) (i j x : Z) : outcome (list (list Z)) :=
  r ← vec_get d i; r ← vec_set r j x; vec_set d i r.

(** The double loop of a compound operator. *)
Definition each_cell (op : Z → Z → outcome Z) (self other : Matrix) : fuelled Matrix :=
  d ← for_loop (Z.to_nat (m_n self)) 0 (m_n self) (fun i d =>
    for_loop (Z.to_nat (m_m self)) 0 (m_m self) (fun j d =>
      Done (x ← cell_get d i j; y ← cell_get (m_data other) i j;
            z ← op x y; cell_set d i j z)) d) (m_data self);
  mret (mkMatrix (m_n self) (m_m self) d).

Definition Matrix_add (self other : Matrix) : fuelled Matrix := each_cell (fun x y => int32 (x + y)) self other.
Definition Matrix_sub (self other : Matrix) : fuelled Matrix := each_cell (fun x y => int32 (x - y)) self other.
Definition Matrix_mul (self other : Matrix) : fuelled Matrix := each_cell (fun x y => int32 (x * y)) self other.

(** The constructors: a matrix of zeros whose rows are then set, to [init] or to the
    element of [data] with the number of the row. *)
Definition fill_rows (n m : Z) (value : Z → outcome Z) : fuelled Matrix :=
  d ← for_loop (Z.to_nat n) 0 n (fun i d =>
    for_loop (Z.to_nat m) 0 m (fun j d => Done (x ← value i; cell_set d i j x)) d)
    (replicate (Z.to_nat n) (replicate (Z.to_nat m) 0));
  mret (mkMatrix n m d).
Definition Matrix_init (n m init : Z) : fuelled Matrix := fill_rows n m (fun _ => Ok init).
Definition Matrix_of_data (n m : Z) (data : list Z) : fuelled Matrix := fill_rows n m (vec_get data).

(** What [Matrix_init] returns, below. *)
Definition Matrix_fill (n m init : Z) : Matrix :=
  mkMatrix n m (replicate (Z.to_nat n) (replicate (Z.to_nat m) init)).

(** A matrix whose rows and columns are those it announces. *)
Definition shape (n m : Z) (d : list (list Z)) : Prop :=
  Z.of_nat (length d) = n ∧ Forall (fun r => Z.of_nat (length r) = m) d.
Definition wf_matrix (a : Matrix) : Prop :=
  0 ≤ m_n a ≤ int_max ∧ 0 ≤ m_m a ≤ int_max ∧ shape (m_n a) (m_m a) (m_data a).

(** The element in row [i] and column [j], when it exists. *)
Definition elem (d : list (list Z)) (i j : Z) : option Z := d !! Z.to_nat i ≫= fun r => r !! Z.to_nat j.

Lemma elem_total n m d i j : shape n m d → 0 ≤ i < n → 0 ≤ j < m → ∃ x, elem d i j = Some x.
Proof.
  intros [Hn Hm] Hi Hj. destruct (lookup_lt_is_Some_2 d (Z.to_nat i)) as [r Hr]; [lia|].
  rewrite Forall_lookup in Hm. pose proof (Hm _ _ Hr).
  destruct (lookup_lt_is_Some_2 r (Z.to_nat j)) as [x Hx]; [lia|].
  exists x. unfold elem. by rewrite Hr.
Qed.

Lemma cell_get_elem n m d i j x :
  shape n m d → 0 ≤ i < n → 0 ≤ j < m → elem d i j = Some x → cell_get d i j = Ok x.
Proof.
  intros [Hn Hm] Hi Hj. unfold elem, cell_get. intros (r & Hr & Hx)%bind_Some.
  unfold vec_get. rewrite (proj2 (Z.leb_le 0 i)), Hr by lia. cbn [mbind outcome_bind].
  by rewrite (proj2 (Z.leb_le 0 j)), Hx by lia.
Qed.

Lemma cell_set_elem n m d i j x :
  shape n m d → 0 ≤ i < n → 0 ≤ j < m →
  ∃ d', cell_set d i j x = Ok d' ∧ shape n m d' ∧
    ∀ i' j', 0 ≤ i' → 0 ≤ j' →
      elem d' i' j' = if decide (i' = i ∧ j' = j) then Some x else elem d i' j'.
Proof.
  intros [Hn Hm] Hi Hj. unfold cell_set.
  destruct (vec_get_ok d i) as (r & -> & Hr); [lia|]. cbn [mbind outcome_bind].
  pose proof (proj1 (Forall_lookup _ d) Hm _ _ Hr) as Hrl. simpl in Hrl.
  rewrite vec_set_ok by lia. cbn [mbind outcome_bind]. rewrite vec_set_ok by lia.
  eexists. split; [reflexivity|]. split.
  - split; [by rewrite length_insert|]. apply Forall_insert; [done|]. by rewrite length_insert.
  - intros i' j' Hi' Hj'. unfold elem. destruct (decide (i' = i)) as [->|Hne].
    + rewrite list_lookup_insert_eq by lia. rewrite Hr. simpl.
      destruct (decide (j' = j)) as [->|Hne].
      * rewrite decide_True by done. apply list_lookup_insert_eq. lia.
      * rewrite decide_False by tauto. apply list_lookup_insert_ne. lia.
    + rewrite decide_False by tauto. by rewrite list_lookup_insert_ne by lia.
Qed.

(** What a compound operator leaves, if no element overflows. *)
Lemma each_cell_spec op f a b :
  wf_matrix a → shape (m_n a) (m_m a) (m_data b) →
  (∀ i j x y, 0 ≤ i < m_n a → 0 ≤ j < m_m a → elem (m_data a) i j = Some x →
    elem (m_data b) i j = Some y → op x y = Ok (f x y)) →
  ∃ d, each_cell op a b = Done (Ok (mkMatrix (m_n a) (m_m a) d)) ∧ shape (m_n a) (m_m a) d ∧
    ∀ i j x y, 0 ≤ i < m_n a → 0 ≤ j < m_m a → elem (m_data a) i j = Some x →
      elem (m_data b) i j = Some y → elem d i j = Some (f x y).
Proof.
  intros (Hn & Hm & Ha) Hb Hop. unfold each_cell.
  (* the rows before [i], and in row [i] the columns before [j], are done *)
  set (Inv := fun (i j : Z) (d : list (list Z)) => shape (m_n a) (m_m a) d ∧
    ∀ i' j' x y, 0 ≤ i' < m_n a → 0 ≤ j' < m_m a → elem (m_data a) i' j' = Some x →
      elem (m_data b) i' j' = Some y →
      elem d i' j' = Some (if decide (i' < i ∨ (i' = i ∧ j' < j)) then f x y else x)).
  edestruct (for_loop_inv (fun i d => Inv i 0 d) (Z.to_nat (m_n a)) 0 (m_n a))
    as (d & -> & [Hd Hdone]); [lia..| | |].
  - intros i d Hi HI. cbv beta.
    edestruct (for_loop_inv (fun j d => Inv i j d) (Z.to_nat (m_m a)) 0 (m_m a))
      as (d' & -> & [Hd' HI']); [lia..| |exact HI|].
    + intros j d1 Hj [Hd1 H1]. cbv beta.
      destruct (elem_total _ _ _ i j Ha Hi Hj) as (x & Hx).
      destruct (elem_total _ _ _ i j Hb Hi Hj) as (y & Hy).
      pose proof (H1 i j x y Hi Hj Hx Hy) as He. rewrite decide_False in He by lia.
      rewrite (cell_get_elem _ _ _ _ _ _ Hd1 Hi Hj He), (cell_get_elem _ _ _ _ _ _ Hb Hi Hj Hy).
      cbn [mbind outcome_bind]. rewrite (Hop i j x y Hi Hj Hx Hy). cbn [mbind outcome_bind].
      destruct (cell_set_elem _ _ d1 i j (f x y) Hd1 Hi Hj) as (d2 & -> & Hd2 & H2).
      eexists. split; [done|]. split; [done|]. intros i' j' x' y' Hi' Hj' Hx' Hy'.
      rewrite H2 by lia. destruct (decide (i' = i ∧ j' = j)) as [[-> ->]|Hne].
      * rewrite decide_True by lia. congruence.
      * rewrite (H1 i' j' x' y') by done. f_equal. repeat case_decide; try done; lia.
    + exists d'. split; [done|]. split; [done|]. intros i' j' x y Hi' Hj' Hx Hy.
      rewrite (HI' i' j' x y) by done. f_equal. repeat case_decide; try done; lia.
  - split; [done|]. intros i j x y Hi Hj Hx Hy. by rewrite decide_False by lia.
  - cbn [mbind fuelled_bind]. exists d. split; [done|]. split; [done|]. intros i j x y Hi Hj Hx Hy.
    rewrite (Hdone i j x y) by done. by rewrite decide_True by lia.
Qed.

Lemma Matrix_fill_wf n m init :
  0 ≤ n ≤ int_max → 0 ≤ m ≤ int_max → wf_matrix (Matrix_fill n m init).
Proof.
  intros Hn Hm. split; [done|]. split; [done|]. split; simpl; [rewrite length_replicate; lia|].
  apply Forall_replicate. rewrite length_replicate. lia.
Qed.

(** Two matrices of a shape with the same elements are equal. *)
Lemma shape_ext n m d d' :
  shape n m d → shape n m d' →
  (∀ i j, 0 ≤ i < n → 0 ≤ j < m → elem d i j = elem d' i j) → d = d'.
Proof.
  intros [Hn Hm] [Hn' Hm'] He. apply list_eq. intros i.
  destruct (decide (i < length d)%nat) as [Hi|]; [|by rewrite !lookup_ge_None_2 by lia].
  destruct (lookup_lt_is_Some_2 d i Hi) as [r Hr].
  destruct (lookup_lt_is_Some_2 d' i) as [r' Hr']; [lia|]. rewrite Hr, Hr'. f_equal.
  rewrite Forall_lookup in Hm, Hm'. pose proof (Hm _ _ Hr). pose proof (Hm' _ _ Hr').
  apply list_eq. intros j. destruct (decide (j < length r)%nat); [|by rewrite !lookup_ge_None_2 by lia].
  specialize (He (Z.of_nat i) (Z.of_nat j) ltac:(lia) ltac:(lia)). unfold elem in He.
  rewrite !Nat2Z.id, Hr, Hr' in He. exact He.
Qed.

(** ** Constructors *)

Lemma fill_rows_spec n m value f :
  0 ≤ n ≤ int_max → 0 ≤ m ≤ int_max → (∀ i, 0 ≤ i < n → value i = Ok (f i)) →
  ∃ d, fill_rows n m value = Done (Ok (mkMatrix n m d)) ∧ shape n m d ∧
    ∀ i j, 0 ≤ i < n → 0 ≤ j < m → elem d i j = Some (f i).
Proof.
  intros Hn Hm Hv. unfold fill_rows.
  set (Inv := fun (i j : Z) (d : list (list Z)) => shape n m d ∧
    ∀ i' j', 0 ≤ i' < n → 0 ≤ j' < m → (i' < i ∨ (i' = i ∧ j' < j)) → elem d i' j' = Some (f i')).
  edestruct (for_loop_inv (fun i d => Inv i 0 d) (Z.to_nat n) 0 n) as (d & -> & [Hd Hdone]); [lia..| | |].
  - intros i d Hi HI. cbv beta.
    edestruct (for_loop_inv (fun j d => Inv i j d) (Z.to_nat m) 0 m)
      as (d' & -> & [Hd' HI']); [lia..| |exact HI|].
    + intros j d1 Hj [Hd1 H1]. cbv beta. rewrite Hv by done. cbn [mbind outcome_bind].
      destruct (cell_set_elem _ _ d1 i j (f i) Hd1 Hi Hj) as (d2 & -> & Hd2 & H2).
      eexists. split; [done|]. split; [done|]. intros i' j' Hi' Hj' Hlt. rewrite H2 by lia.
      case_decide as Hc; [by destruct Hc as [-> _]|]. apply H1; lia.
    + exists d'. split; [done|]. split; [done|]. intros i' j' Hi' Hj' Hlt. apply HI'; lia.
  - split; [apply (Matrix_fill_wf n m 0); done|]. intros; lia.
  - cbn [mbind fuelled_bind]. exists d. split; [done|]. split; [done|]. intros i j Hi Hj. apply Hdone; lia.
Qed.

Lemma Matrix_init_fill n m init :
  0 ≤ n ≤ int_max → 0 ≤ m ≤ int_max → Matrix_init n m init = Done (Ok (Matrix_fill n m init)).
Proof.
  intros Hn Hm. destruct (fill_rows_spec n m (fun _ => Ok init) (fun _ => init) Hn Hm) as (d & E & Hd & Hel); [done|].
  unfold Matrix_init. rewrite E. unfold Matrix_fill. do 3 f_equal.
  apply (shape_ext n m); [done|apply (Matrix_fill_wf n m init); done|].
  intros i j Hi Hj. rewrite Hel by done. unfold elem.
  rewrite lookup_replicate_2 by lia. simpl. by rewrite lookup_replicate_2 by lia.
Qed.

(** A write of an element read from an array fails out of range only. *)
Lemma cell_write_or data d i j :
  (∃ d', Done (x ← vec_get data i; cell_set d i j x) = Done (Ok d')) ∨
  Done (x ← vec_get data i; cell_set d i j x) = Done (Undef oob_access).
Proof.
  unfold cell_set, vec_get, vec_set. repeat case_match; simplify_eq/=; try (by right); try (by left; eexists).
  all: repeat case_match; simplify_eq/=; try (by right); try (by left; eexists).
Qed.

(** The constructor from an array takes one element per row; an array has as many
    elements as the matrix has columns, so that with more rows than columns it is
    read out of range. *)
Lemma Matrix_of_data_square n m data :
  0 ≤ n ≤ int_max → 1 ≤ m ≤ int_max → Z.of_nat (length data) = m →
  if decide (n ≤ m) then
    ∃ d, Matrix_of_data n m data = Done (Ok (mkMatrix n m d)) ∧
      ∀ i j, 0 ≤ i < n → 0 ≤ j < m → elem d i j = data !! Z.to_nat i
  else Matrix_of_data n m data = Done (Undef oob_access).
Proof.
  intros Hn Hm Hd. case_decide as Hle.
  - destruct (fill_rows_spec n m (vec_get data) (fun i => nth (Z.to_nat i) data 0)) as (d & E & _ & Hel); [lia..| |].
    { intros i Hi. destruct (vec_get_ok data i) as (x & -> & Hx); [lia|]. f_equal. symmetry. by apply nth_lookup_Some. }
    exists d. split; [done|]. intros i j Hi Hj. rewrite Hel by done.
    destruct (vec_get_ok data i) as (x & _ & Hx); [lia|]. rewrite Hx. f_equal. by apply nth_lookup_Some.
  - unfold Matrix_of_data, fill_rows. rewrite (for_loop_fails oob_access m); [done|lia..| |].
    + intros d. destruct (Z.to_nat m) eqn:Em; [lia|]. cbn [for_loop]. rewrite (proj2 (Z.ltb_lt 0 m)) by lia.
      rewrite vec_get_oob by lia. done.
    + intros i d. apply for_loop_or; [lia..|]. intros j d'. apply cell_write_or.
Qed.

(** ** Theorems on [Matrix] *)

(** When no sum overflows, [a += b] followed by [a -= b] gives [a] back, and the
    element of [a += b] in every position is the sum of the two elements there. *)
Theorem matrix_add_sub (a b : Matrix) (Ha : wf_matrix a) (Hb : wf_matrix b)
    (Hshape : shape (m_n a) (m_m a) (m_data b))
    (Hfit : ∀ i j x y, elem (m_data a) i j = Some x → elem (m_data b) i j = Some y →
       int_min ≤ x ≤ int_max ∧ int_min ≤ x + y ≤ int_max) :
  ∃ c, Matrix_add a b = Done (Ok c) ∧ Matrix_sub c b = Done (Ok a) ∧
    ∀ i j x y, 0 ≤ i < m_n a → 0 ≤ j < m_m a → elem (m_data a) i j = Some x →
      elem (m_data b) i j = Some y → elem (m_data c) i j = Some (x + y).
Proof.
  destruct (each_cell_spec (fun x y => int32 (x + y)) Z.add a b Ha Hshape) as (d & E & Hd & Hel).
  { intros i j x y _ _ Hx Hy. apply int32_ok, (Hfit i j x y Hx Hy). }
  exists (mkMatrix (m_n a) (m_m a) d). split; [exact E|].
  split; [|exact Hel]. destruct Ha as (Hn & Hm & Hsa).
  destruct (each_cell_spec (fun x y => int32 (x - y)) Z.sub (mkMatrix (m_n a) (m_m a) d) b)
    as (d' & E' & Hd' & Hel'); [done|done| |].
  { intros i j x y Hi Hj Hx Hy. simpl in *. destruct (elem_total _ _ _ i j Hsa Hi Hj) as (x0 & Hx0).
    rewrite (Hel i j x0 y Hi Hj Hx0 Hy) in Hx. injection Hx as <-.
    apply int32_ok. pose proof (Hfit i j x0 y Hx0 Hy). lia. }
  unfold Matrix_sub. rewrite E'. simpl. do 2 f_equal. destruct a as [n m da]. simpl in *. f_equal.
  apply (shape_ext n m); [done..|]. intros i j Hi Hj.
  destruct (elem_total _ _ _ i j Hsa Hi Hj) as (x & Hx).
  destruct (elem_total _ _ _ i j Hshape Hi Hj) as (y & Hy).
  rewrite (Hel' i j (x + y) y) by eauto. rewrite Hx. f_equal. lia.
Qed.

Lemma matrix_add_sub_witness :
  ∃ c, Matrix_add (Matrix_fill 3 3 2) (Matrix_fill 3 3 5) = Done (Ok c) ∧
    Matrix_sub c (Matrix_fill 3 3 5) = Done (Ok (Matrix_fill 3 3 2)).
Proof.
  destruct (matrix_add_sub (Matrix_fill 3 3 2) (Matrix_fill 3 3 5)) as (c & E1 & E2 & _).
  - apply Matrix_fill_wf; unfold int_max; lia.
  - apply Matrix_fill_wf; unfold int_max; lia.
  - apply (Matrix_fill_wf 3 3 5); unfold int_max; lia.
  - assert (∀ n i j x, elem (replicate 3 (replicate 3 n)) i j = Some x → x = n) as Hall.
    { intros n i j x (r & [-> _]%lookup_replicate & [-> _]%lookup_replicate)%bind_Some. done. }
    intros i j x y ->%Hall ->%Hall. unfold int_min, int_max. lia.
  - eauto.
Defined.

(** ** The filter step, over any matrix structure *)

Class MatrixOps (M : Type) := {
  mplus : M → M → M; mminus : M → M → M; mtimes : M → M → M;
  mtranspose : M → M; minverse : M → M; midentity : M; mzero : M }.

Class MatrixLaws (M : Type) {ops : MatrixOps M} : Prop := {
  mminus_diag : ∀ a, mminus a a = mzero;
  mtimes_zero : ∀ a, mtimes a mzero = mzero;
  mplus_zero : ∀ a, mplus a mzero = a }.

(** [operator()]: the new [x_] and [P_]; there is no measurement among the arguments,
    and the innovation compares [y = H * x_] with [H * x_]. *)
Definition KalmanFilter_step {M} {ops : MatrixOps M} (x P F Q H R u : M) : M * M :=
  let x_ := mplus (mtimes F x) u in
  let P_ := mplus (mtimes (mtimes F P) (mtranspose F)) Q in
  let y := mtimes H x_ in
  let S := mplus (mtimes (mtimes H P_) (mtranspose H)) R in
  let K := mtimes (mtimes P_ (mtranspose H)) (minverse S) in
  (mplus x_ (mtimes K (mminus y (mtimes H x_))), mtimes (mminus midentity (mtimes K H)) P_).

(** The same statements are repeated in the other two classes. *)
Definition ClarkeTransform_step {M} {ops : MatrixOps M} : M → M → M → M → M → M → M → M * M := KalmanFilter_step.
Definition ParkTransform_step {M} {ops : MatrixOps M} : M → M → M → M → M → M → M → M * M := KalmanFilter_step.

(** The three classes have the members of a [Matrix] with as many columns as rows,
    and the constructors with [init] fill [m] of the columns. *)
Definition square_zeros (n : Z) : Matrix := Matrix_fill n n 0.
Definition square_init (n m init : Z) : fuelled Matrix :=
  d ← for_loop (Z.to_nat n) 0 n (fun i d =>
    for_loop (Z.to_nat m) 0 m (fun j d => Done (cell_set d i j init)) d) (m_data (square_zeros n));
  mret (mkMatrix n m d).
Definition KalmanFilter_zeros : Z → Matrix := square_zeros.
Definition KalmanFilter_init : Z → Z → Z → fuelled Matrix := square_init.
Definition ClarkeTransform_zeros : Z → Matrix := square_zeros.
Definition ClarkeTransform_init : Z → Z → Z → fuelled Matrix := square_init.
Definition ParkTransform_zeros : Z → Matrix := square_zeros.
Definition ParkTransform_init : Z → Z → Z → fuelled Matrix := square_init.

(** The members of a filter are not read by its step. *)
Definition test_filter {ops : MatrixOps Matrix} : fuelled (Matrix * Matrix) :=
  kalman_filter ← KalmanFilter_init 3 3 0;
  x ← Matrix_init 3 3 0; P ← Matrix_init 3 3 0; F ← Matrix_init 3 3 0; Q ← Matrix_init 3 3 0;
  H ← Matrix_init 3 3 0; R ← Matrix_init 3 3 0; u ← Matrix_init 3 3 0;
  x_ ← Matrix_init 3 3 0; P_ ← Matrix_init 3 3 0;
  mret (KalmanFilter_step x P F Q H R u).
Definition test_park {ops : MatrixOps Matrix} : fuelled (Matrix * Matrix) :=
  park_transform ← ParkTransform_init 3 3 0;
  x ← Matrix_init 3 3 0; P ← Matrix_init 3 3 0; F ← Matrix_init 3 3 0; Q ← Matrix_init 3 3 0;
  H ← Matrix_init 3 3 0; R ← Matrix_init 3 3 0; u ← Matrix_init 3 3 0;
  x_ ← Matrix_init 3 3 0; P_ ← Matrix_init 3 3 0;
  mret (ParkTransform_step x P F Q H R u).

(** A filter with no more columns to fill than it has is made, with [init] in those
    and 0 in the others. *)
Lemma square_init_spec n m init :
  0 ≤ n ≤ int_max → 0 ≤ m ≤ n →
  ∃ d, square_init n m init = Done (Ok (mkMatrix n m d)) ∧ shape n n d ∧
    ∀ i j, 0 ≤ i < n → 0 ≤ j < n → elem d i j = Some (if j <? m then init else 0).
Proof.
  intros Hn Hm. unfold square_init.
  set (Inv := fun (i j : Z) (d : list (list Z)) => shape n n d ∧
    ∀ i' j', 0 ≤ i' < n → 0 ≤ j' < n →
      elem d i' j' = Some (if decide (j' < m ∧ (i' < i ∨ (i' = i ∧ j' < j))) then init else 0)).
  edestruct (for_loop_inv (fun i d => Inv i 0 d) (Z.to_nat n) 0 n) as (d & -> & [Hd Hdone]); [lia..| | |].
  - intros i d Hi HI. cbv beta.
    edestruct (for_loop_inv (fun j d => Inv i j d) (Z.to_nat m) 0 m)
      as (d' & -> & [Hd' HI']); [lia..| |exact HI|].
    + intros j d1 Hj [Hd1 H1]. cbv beta.
      destruct (cell_set_elem _ _ d1 i j init Hd1 Hi ltac:(lia)) as (d2 & -> & Hd2 & H2).
      eexists. split; [done|]. split; [done|]. intros i' j' Hi' Hj'. rewrite H2, H1 by lia.
      repeat case_decide; try done; lia.
    + exists d'. split; [done|]. split; [done|]. intros i' j' Hi' Hj'. rewrite HI' by done.
      f_equal. repeat case_decide; try done; lia.
  - split; [apply (Matrix_fill_wf n n 0); lia|]. intros i j Hi Hj. rewrite decide_False by lia.
    unfold elem. simpl. rewrite lookup_replicate_2 by lia. simpl. by rewrite lookup_replicate_2 by lia.
  - cbn [mbind fuelled_bind]. exists d. split; [done|]. split; [done|]. intros i j Hi Hj.
    rewrite Hdone by done. f_equal. destruct (Z.ltb_spec j m); case_decide; try done; lia.
Qed.

(** Whatever [*] and [inverse] are, both tests end, with the result of the step on
    nine zero matrices. *)
Lemma tests_end {ops : MatrixOps Matrix} :
  let z := Matrix_fill 3 3 0 in
  test_filter = Done (Ok (KalmanFilter_step z z z z z z z)) ∧ test_park = test_filter.
Proof. done. Qed.

(** The update of the state is without effect: for every choice of the matrices
    the new state is the prediction [F * x + u], independent of [P], [Q], [H] and
    [R]. *)
Theorem kalman_state_is_prediction {M : Type} {ops : MatrixOps M} {laws : MatrixLaws M}
    (x P F Q H R u P' Q' H' R' : M) :
  (KalmanFilter_step x P F Q H R u).1 = mplus (mtimes F x) u ∧
  (KalmanFilter_step x P F Q H R u).1 = (KalmanFilter_step x P' F Q' H' R' u).1.
Proof.
  assert (∀ P Q H R, (KalmanFilter_step x P F Q H R u).1 = mplus (mtimes F x) u) as E.
  { intros. simpl. by rewrite mminus_diag, mtimes_zero, mplus_zero. }
  by rewrite !E.
Qed.

(** Integers as 1 by 1 matrices. *)
Definition Z_ops : MatrixOps Z := {|
  mplus := Z.add; mminus := Z.sub; mtimes := Z.mul;
  mtranspose := fun a => a; minverse := fun a => 1 / a; midentity := 1; mzero := 0 |}.

Lemma Z_laws : MatrixLaws Z (ops := Z_ops).
Proof. split; simpl; intros; lia. Qed.

Lemma kalman_state_is_prediction_witness :
  (KalmanFilter_step (ops := Z_ops) 4 1 3 0 2 1 5).1 = 17.
Proof. apply (kalman_state_is_prediction (ops := Z_ops) (laws := Z_laws) 4 1 3 0 2 1 5 0 0 0 0). Defined.
