(* ===== verification/Uart.v ===== *)
(** * The register-level FIFO and UART driver (cjunk/practice/uartfifo.c)

    The status registers are read from the hardware: [fifo_status n] and
    [uart_status n] are the values of the [n]-th read, a parameter, as are the bit
    masks.  The model records every write to a data register and every status
    read, in order.  A busy-wait loop runs with fuel. *)

From Stdlib Require Import ZArith Lia Ascii.
From stdpp Require Import base list.
From S2P Require Import Prelude.
Local Open Scope Z_scope.

(** ** Fields of the status register

    [FIFO_STATUS & MASK] and [(FIFO_STATUS & ~MASK) | (v & MASK)]; a [uint8_t]
    result keeps the low byte. *)

Definition field_get (mask status : Z) : Z := u8 (Z.land status mask).
Definition field_set (mask status v : Z) : Z := Z.lor (Z.land status (Z.lnot mask)) (Z.land v mask).

Section Masks.
Context (FIFO_STATUS_FULL FIFO_STATUS_EMPTY FIFO_STATUS_SIZE FIFO_STATUS_MAX_SIZE : Z).

Definition fifo_is_ready_to_push (status : Z) : bool := Z.land status FIFO_STATUS_FULL =? 0.
Definition fifo_is_ready_to_pop (status : Z) : bool := Z.land status FIFO_STATUS_EMPTY =? 0.
Definition fifo_is_empty (status : Z) : bool := negb (fifo_is_ready_to_pop status).
Definition fifo_is_full (status : Z) : bool := negb (fifo_is_ready_to_push status).
Definition fifo_clear (status : Z) : Z := FIFO_STATUS_EMPTY.
Definition fifo_get_size (status : Z) : Z := field_get FIFO_STATUS_SIZE status.
Definition fifo_get_max_size (status : Z) : Z := field_get FIFO_STATUS_MAX_SIZE status.
Definition fifo_set_size (status size : Z) : Z := field_set FIFO_STATUS_SIZE status size.
Definition fifo_set_max_size (status size : Z) : Z := field_set FIFO_STATUS_MAX_SIZE status size.
End Masks.

Lemma land_field_set mask status v : Z.land (field_set mask status v) mask = Z.land v mask.
Proof.
  apply Z.bits_inj'. intros n Hn. unfold field_set.
  rewrite !Z.land_spec, Z.lor_spec, !Z.land_spec, Z.lnot_spec by done.
  destruct (Z.testbit mask n), (Z.testbit v n), (Z.testbit status n); done.
Qed.

Lemma land_field_set_other mask mask' status v :
  Z.land mask mask' = 0 → Z.land (field_set mask status v) mask' = Z.land status mask'.
Proof.
  intros Hd. apply Z.bits_inj'. intros n Hn. unfold field_set.
  rewrite !Z.land_spec, Z.lor_spec, !Z.land_spec, Z.lnot_spec by done.
  apply (f_equal (fun z => Z.testbit z n)) in Hd. rewrite Z.land_spec, Z.bits_0 in Hd.
  destruct (Z.testbit mask n), (Z.testbit mask' n), (Z.testbit v n), (Z.testbit status n); done.
Qed.

(** ** Driver *)

Inductive event := ev_fifo_write (b : Z) | ev_uart_write (b : Z) | ev_fifo_poll | ev_uart_poll | ev_fifo_read.

(** The reads of each status register so far, the bytes popped so far, the trace. *)
Record device := mkDevice { fifo_polls : nat; uart_polls : nat; fifo_reads : nat; trace : list event }.

Section Driver.
Context (FULL EMPTY TX_READY : Z) (fifo_status uart_status : nat → Z) (fifo_data : nat → Z).

Definition push_value (data : Z) (d : device) : device :=
  mkDevice (fifo_polls d) (uart_polls d) (fifo_reads d) (trace d ++ [ev_fifo_write data]).
Definition pop_value (d : device) : Z * device :=
  (fifo_data (fifo_reads d),
   mkDevice (fifo_polls d) (uart_polls d) (S (fifo_reads d)) (trace d ++ [ev_fifo_read; ev_fifo_write 0])).

Definition poll_fifo (d : device) : device :=
  mkDevice (S (fifo_polls d)) (uart_polls d) (fifo_reads d) (trace d ++ [ev_fifo_poll]).
Definition poll_uart (d : device) : device :=
  mkDevice (fifo_polls d) (S (uart_polls d)) (fifo_reads d) (trace d ++ [ev_uart_poll]).

(** [while (!ready()) {}] on the FIFO status. *)
Fixpoint wait_fifo (ready : Z → bool) (fuel : nat) (d : device) : fuelled device :=
  if ready (fifo_status (fifo_polls d)) then mret (poll_fifo d)
  else match fuel with O => OutOfFuel | S f => wait_fifo ready f (poll_fifo d) end.

Definition fifo_push_value (fuel : nat) (data : Z) (d : device) : fuelled device :=
  d ← wait_fifo (fifo_is_ready_to_push FULL) fuel d; mret (push_value data d).
Definition fifo_pop_value (fuel : nat) (d : device) : fuelled (Z * device) :=
  d ← wait_fifo (fifo_is_ready_to_pop EMPTY) fuel d; mret (pop_value d).

(** [for (uint8_t i = 0; i < length; i++)] over [data[0..length)]. *)
Fixpoint fifo_push_array (fuel : nat) (data : list Z) (length : nat) (d : device) : fuelled device :=
  match length with
  | O => mret d
  | S n =>
      match data with
      | [] => Done (Undef oob_access)
      | b :: data' => d ← fifo_push_value fuel b d; fifo_push_array fuel data' n d
      end
  end.

(** [strlen] of the string that starts a block of memory. *)
Definition strlen (memory : bytes) : outcome Z :=
  if decide (nul ∈ memory) then Ok (Z.of_nat (length (until_nul memory))) else Undef oob_access.

(** [uint8_t length = strlen(string)]; [string] is the memory the pointer leads to. *)
Definition fifo_push_string (fuel : nat) (string : bytes) (d : device) : fuelled device :=
  n ← Done (strlen string);
  fifo_push_array fuel (code <$> string) (Z.to_nat (u8 n)) d.

Fixpoint fifo_pop_array (fuel : nat) (length : nat) (d : device) : fuelled (list Z * device) :=
  match length with
  | O => mret ([], d)
  | S n =>
      '(b, d) ← fifo_pop_value fuel d;
      '(l, d) ← fifo_pop_array fuel n d; mret (b :: l, d)
  end.

(** The length byte, then that many bytes; the block has no terminating NUL. *)
Definition fifo_pop_string (fuel : nat) (d : device) : fuelled (list Z * device) :=
  '(n, d) ← fifo_pop_value fuel d; fifo_pop_array fuel (Z.to_nat (u8 n)) d.

Fixpoint wait_until_ready_to_send (fuel : nat) (d : device) : fuelled device :=
  if negb (Z.land (uart_status (uart_polls d)) TX_READY =? 0) then mret (poll_uart d)
  else match fuel with O => OutOfFuel | S f => wait_until_ready_to_send f (poll_uart d) end.

Definition send_byte (fuel : nat) (data : Z) (d : device) : fuelled device :=
  wait_until_ready_to_send fuel
    (mkDevice (fifo_polls d) (uart_polls d) (fifo_reads d) (trace d ++ [ev_uart_write data])).

Fixpoint send_array (fuel : nat) (data : list Z) (length : nat) (d : device) : fuelled device :=
  match length with
  | O => mret d
  | S n =>
      match data with
      | [] => Done (Undef oob_access)
      | b :: data' => d ← send_byte fuel b d; send_array fuel data' n d
      end
  end.

(** The bytes written to the FIFO, in order. *)
Definition fifo_writes (d : device) : list Z :=
  omap (fun e => match e with ev_fifo_write b => Some b | _ => None end) (trace d).

(** ** Waiting *)

Definition always_eventually (ready : Z → bool) : Prop :=
  ∀ n, ∃ m, (n ≤ m)%nat ∧ ready (fifo_status m) = true.

Lemma fifo_writes_poll d : fifo_writes (poll_fifo d) = fifo_writes d.
Proof. unfold fifo_writes. simpl. rewrite omap_app. apply app_nil_r. Qed.

Lemma wait_fifo_done ready k d :
  ready (fifo_status (fifo_polls d + k)) = true →
  ∃ d', (∀ fuel, (k ≤ fuel)%nat → wait_fifo ready fuel d = Done (Ok d')) ∧
    fifo_writes d' = fifo_writes d.
Proof.
  revert d. induction k as [|k IH]; intros d Hk.
  - rewrite Nat.add_0_r in Hk. exists (poll_fifo d). split; [|apply fifo_writes_poll].
    intros fuel _. destruct fuel; simpl; by rewrite Hk.
  - destruct (ready (fifo_status (fifo_polls d))) eqn:E.
    + exists (poll_fifo d). split; [|apply fifo_writes_poll].
      intros fuel _. destruct fuel; simpl; by rewrite E.
    + destruct (IH (poll_fifo d)) as (d' & E' & Hd').
      { simpl. rewrite <- Hk. do 2 f_equal. lia. }
      exists d'. split; [|by rewrite Hd', fifo_writes_poll].
      intros [|fuel] Hf; [lia|]. cbn [wait_fifo]. rewrite E. apply E'. lia.
Qed.

Lemma fifo_push_value_done b d :
  always_eventually (fifo_is_ready_to_push FULL) →
  ∃ d' f0, (∀ fuel, (f0 ≤ fuel)%nat → fifo_push_value fuel b d = Done (Ok d')) ∧
    fifo_writes d' = fifo_writes d ++ [b].
Proof.
  intros Hr. destruct (Hr (fifo_polls d)) as (m & Hm & Hready).
  destruct (wait_fifo_done (fifo_is_ready_to_push FULL) (m - fifo_polls d) d) as (d' & E & Hd').
  { rewrite <- Hready. do 2 f_equal. lia. }
  exists (push_value b d'), (m - fifo_polls d)%nat. split.
  - intros fuel Hf. unfold fifo_push_value. by rewrite E.
  - unfold fifo_writes in *. simpl. by rewrite omap_app, Hd'.
Qed.

Lemma fifo_push_array_done data n d :
  always_eventually (fifo_is_ready_to_push FULL) → (n ≤ length data)%nat →
  ∃ d' f0, (∀ fuel, (f0 ≤ fuel)%nat → fifo_push_array fuel data n d = Done (Ok d')) ∧
    fifo_writes d' = fifo_writes d ++ take n data.
Proof.
  intros Hr. revert n d. induction data as [|b data IH]; intros n d Hn; simpl in Hn.
  { exists d, 0%nat. assert (n = 0%nat) as -> by lia. split; [done|]. by rewrite app_nil_r. }
  destruct n as [|n]; [exists d, 0%nat; split; [done|]; by rewrite app_nil_r|].
  destruct (fifo_push_value_done b d Hr) as (d1 & f1 & E1 & W1).
  destruct (IH n d1) as (d2 & f2 & E2 & W2); [lia|].
  exists d2, (f1 `max` f2)%nat. split.
  - intros fuel Hf. cbn [fifo_push_array]. rewrite E1 by lia. cbn [mbind fuelled_bind]. apply E2. lia.
  - by rewrite W2, W1, <- app_assoc.
Qed.
End Driver.

(** ** Theorems *)

(** The setters of the status register change exactly their field: the getter
    returns the low byte of the new value under the mask, setting twice keeps
    the last value, and a field with a disjoint mask, or the FULL and EMPTY bits,
    keep their value. *)
Theorem status_fields_independent (SIZE MAX_SIZE FULL EMPTY status v w : Z)
    (H1 : Z.land SIZE MAX_SIZE = 0) (H2 : Z.land SIZE FULL = 0) (H3 : Z.land SIZE EMPTY = 0) :
  fifo_get_size SIZE (fifo_set_size SIZE status v) = u8 (Z.land v SIZE) ∧
  fifo_set_size SIZE (fifo_set_size SIZE status v) w = fifo_set_size SIZE status w ∧
  fifo_get_max_size MAX_SIZE (fifo_set_size SIZE status v) = fifo_get_max_size MAX_SIZE status ∧
  fifo_is_full FULL (fifo_set_size SIZE status v) = fifo_is_full FULL status ∧
  fifo_is_empty EMPTY (fifo_set_size SIZE status v) = fifo_is_empty EMPTY status.
Proof.
  unfold fifo_get_size, fifo_get_max_size, fifo_is_full, fifo_is_empty, fifo_is_ready_to_push,
    fifo_is_ready_to_pop, field_get, fifo_set_size.
  rewrite land_field_set, !(land_field_set_other SIZE) by done. split_and!; try done.
  apply Z.bits_inj'. intros n Hn. unfold field_set.
  rewrite !Z.lor_spec, !Z.land_spec, Z.lor_spec, !Z.land_spec, !Z.lnot_spec by done.
  destruct (Z.testbit SIZE n), (Z.testbit v n), (Z.testbit w n), (Z.testbit status n); done.
Qed.

Lemma status_fields_independent_witness :
  fifo_get_size 0x1c (fifo_set_size 0x1c 0x83 0xff) = 0x1c ∧
  fifo_get_max_size 0x60 (fifo_set_size 0x1c 0x83 0xff) = fifo_get_max_size 0x60 0x83.
Proof.
  destruct (status_fields_independent 0x1c 0x60 0x02 0x01 0x83 0xff 0 eq_refl eq_refl eq_refl)
    as (E1 & _ & E2 & _). by split.
Defined.

(** C38: if the FIFO is ready again and again, [fifo_push_string] terminates for every
    string that ends with a NUL, and writes its characters (those before the first
    NUL) in order, but only the first [strlen mod 256] of them: a string of 256
    characters writes nothing.  Without a NUL [strlen] leaves the block. *)
Theorem push_string_delivers (FULL : Z) (fifo_status : nat → Z) (memory : bytes) (d : device)
    (Hready : always_eventually fifo_status (fifo_is_ready_to_push FULL)) :
  let s := until_nul memory in
  if decide (nul ∈ memory) then
    ∃ d' f0, (∀ fuel, (f0 ≤ fuel)%nat → fifo_push_string FULL fifo_status fuel memory d = Done (Ok d')) ∧
      fifo_writes d' = fifo_writes d ++ take (length s mod 256) (code <$> s)
  else ∀ fuel, fifo_push_string FULL fifo_status fuel memory d = Done (Undef oob_access).
Proof.
  intros s. unfold fifo_push_string, strlen. destruct (decide (nul ∈ memory)) as [Hn|Hn]; [|done].
  fold s. cbn [mbind fuelled_bind]. destruct (until_nul_prefix memory) as [rest Er]. fold s in Er.
  assert (Z.to_nat (u8 (Z.of_nat (length s))) = (length s mod 256)%nat) as ->.
  { unfold u8. rewrite <- (Nat2Z.id (length s mod 256)%nat), Nat2Z.inj_mod. done. }
  assert ((length s mod 256 ≤ length s)%nat) as Hle by apply Nat.Div0.mod_le.
  assert (take (length s mod 256) (code <$> s) = take (length s mod 256) (code <$> memory)) as ->.
  { rewrite Er, fmap_app, take_app_le; [done|]. by rewrite length_fmap. }
  apply fifo_push_array_done; [done|].
  rewrite Er, length_fmap, length_app. lia.
Qed.

Lemma push_string_delivers_witness :
  ∃ d' f0, (∀ fuel, (f0 ≤ fuel)%nat →
      fifo_push_string 1 (fun n => Z.of_nat (n mod 3)) fuel ["o"; "k"; nul; "x"]%char (mkDevice 0 0 0 []) = Done (Ok d')) ∧
    fifo_writes d' = [111; 107].
Proof.
  apply (push_string_delivers 1 (fun n => Z.of_nat (n mod 3)) ["o"; "k"; nul; "x"]%char (mkDevice 0 0 0 [])).
  intros n. exists (3 * n)%nat. split; [lia|]. rewrite Nat.mul_comm, Nat.Div0.mod_mul. reflexivity.
Defined.
