(* ===== verification/Functional.v ===== *)
(** * Lists and iterators of cjunk/practice/functional.cc

    [ImmutableList], [ImmutableMap] and the four iterators over a
    [std::array<T, size>].  An iterator is the array and an [int] position;
    [at] converts the position to [size_t] and throws when it is out of range,
    also for the position -1 that a reverse iterator reaches. *)

From Stdlib Require Import ZArith Lia Ascii.
From stdpp Require Import base list strings.
From S2P Require Import Prelude.
Local Open Scope Z_scope.

Section Lists.
Context {T : Type}.

Definition array_at (l : list T) (i : Z) : outcome T :=
  match l !! Z.to_nat (u64 i) with
  | Some x => Ok x
  | None => Throw (out_of_range #"array::at")
  end.

Definition ImmutableList_at (l : list T) (i : Z) : outcome T := array_at l i.

(** [ImmutableMap::operator[]]. *)
Definition ImmutableMap_at {U} (l : list T) (f : T → U) (i : Z) : outcome U :=
  x ← ImmutableList_at l i; Ok (f x).

(** The four iterators: [Filter] and [FilterReverse] also hold a predicate. *)
Record iter := mkIter { it_list : list T; it_i : Z }.

Definition ListIterator (l : list T) : iter := mkIter l 0.
Definition ReverseIterator (l : list T) : iter := mkIter l (Z.of_nat (length l) - 1).
Definition Filter (l : list T) (p : T → bool) : iter := mkIter l 0.
Definition FilterReverse (l : list T) (p : T → bool) : iter := mkIter l (Z.of_nat (length l) - 1).

Definition it_deref (it : iter) : outcome T := array_at (it_list it) (it_i it).
Definition it_next (it : iter) : outcome iter := i ← int32 (it_i it + 1); Ok (mkIter (it_list it) i).
Definition it_prev (it : iter) : outcome iter := i ← int32 (it_i it - 1); Ok (mkIter (it_list it) i).
Definition it_eqb (a b : iter) : bool := it_i a =? it_i b.

(** The elements [n] rounds of dereference and increment deliver. *)
Fixpoint collect (advance : iter → outcome iter) (n : nat) (it : iter) : outcome (list T * iter) :=
  match n with
  | O => Ok ([], it)
  | S n' =>
      x ← it_deref it; it ← advance it;
      '(xs, it) ← collect advance n' it; Ok (x :: xs, it)
  end.

Lemma array_at_ok l i x : l !! i = Some x → Z.of_nat (length l) ≤ int_max → array_at l (Z.of_nat i) = Ok x.
Proof.
  intros Hx Hl. pose proof (lookup_lt_Some _ _ _ Hx). unfold array_at.
  rewrite u64_small by (unfold int_max in *; lia). by rewrite Nat2Z.id, Hx.
Qed.

Lemma collect_forward l i n :
  Z.of_nat (length l) ≤ int_max → (i + n ≤ length l)%nat →
  collect it_next n (mkIter l (Z.of_nat i)) = Ok (take n (drop i l), mkIter l (Z.of_nat (i + n))).
Proof.
  intros Hl. revert i. induction n as [|n IH]; intros i Hn; cbn [collect]; [by rewrite Nat.add_0_r|].
  destruct (lookup_lt_is_Some_2 l i) as [x Hx]; [lia|].
  unfold it_deref. cbn [it_list it_i]. rewrite (array_at_ok l i x Hx Hl). cbn [mbind outcome_bind].
  assert (it_next (mkIter l (Z.of_nat i)) = Ok (mkIter l (Z.of_nat (S i)))) as ->.
  { unfold it_next. cbn [it_list it_i]. rewrite int32_ok by (unfold int_min, int_max in *; lia).
    cbn [mbind outcome_bind]. do 2 f_equal. lia. }
  cbn [mbind outcome_bind]. rewrite IH by lia. cbn [mbind outcome_bind]. rewrite (drop_S l x i Hx). simpl.
  by rewrite Nat.add_succ_r.
Qed.

Lemma collect_backward l n :
  Z.of_nat (length l) ≤ int_max → (n ≤ length l)%nat →
  collect it_prev n (mkIter l (Z.of_nat n - 1)) = Ok (reverse (take n l), mkIter l (-1)).
Proof.
  intros Hl. induction n as [|n IH]; intros Hn; [done|]. cbn [collect].
  destruct (lookup_lt_is_Some_2 l n) as [x Hx]; [lia|].
  replace (Z.of_nat (S n) - 1) with (Z.of_nat n) by lia.
  unfold it_deref. cbn [it_list it_i]. rewrite (array_at_ok l n x Hx Hl). cbn [mbind outcome_bind].
  assert (it_prev (mkIter l (Z.of_nat n)) = Ok (mkIter l (Z.of_nat n - 1))) as ->.
  { unfold it_prev. cbn [it_list it_i]. by rewrite int32_ok by (unfold int_min, int_max in *; lia). }
  cbn [mbind outcome_bind]. rewrite IH by lia. cbn [mbind outcome_bind].
  rewrite (take_S_r _ _ _ Hx), reverse_snoc. done.
Qed.
End Lists.

(** [test_map]: the lines it prints; [map[i]] may throw. *)
Fixpoint print_mapped {U} (l : list Z) (f : Z → U) (show : U → bytes) (i : Z) (n : nat) : outcome (list bytes) :=
  match n with
  | O => Ok []
  | S n => x ← ImmutableMap_at l f i; lines ← print_mapped l f show (i + 1) n; Ok ((show x ++ [newline]) :: lines)
  end.
Definition test_map : outcome (list bytes) :=
  print_mapped [1; 2; 3; 4; 5] (fun i => i * 2) to_string_int 0 5.

Example test_map_prints :
  test_map = Ok ((fun s => s ++ [newline]) <$> [ #"2"; #"4"; #"6"; #"8"; #"10"]).
Proof. vm_compute. reflexivity. Qed.

(** Over a list of [size] elements the forward iterator delivers the elements
    in order, the reverse iterator delivers them in reverse order, and both throw
    when they are dereferenced once more; [Filter] and [FilterReverse] deliver
    the same elements whatever their predicate. *)
Theorem iterators_traverse {T : Type} (l : list T) (p : T → bool)
    (Hl : Z.of_nat (length l) ≤ int_max) :
  (∃ it, collect it_next (length l) (Filter l p) = Ok (l, it) ∧
     collect it_next (length l) (ListIterator l) = Ok (l, it) ∧
     it_deref it = Throw (out_of_range #"array::at")) ∧
  (∃ it, collect it_prev (length l) (FilterReverse l p) = Ok (reverse l, it) ∧
     collect it_prev (length l) (ReverseIterator l) = Ok (reverse l, it) ∧
     it_deref it = Throw (out_of_range #"array::at")).
Proof.
  assert (∀ k, Z.of_nat (length l) ≤ u64 k → it_deref (mkIter l k) = Throw (out_of_range #"array::at"))
    as Hend.
  { intros k Hk. unfold it_deref, array_at. simpl. by rewrite lookup_ge_None_2 by lia. }
  split.
  - exists (mkIter l (Z.of_nat (0 + length l))).
    pose proof (collect_forward l 0 (length l) Hl (le_n _)) as E. rewrite drop_0, take_ge in E by lia.
    split; [exact E|]. split; [exact E|]. apply Hend.
    rewrite u64_small by (unfold int_max in *; lia). lia.
  - exists (mkIter l (-1)).
    pose proof (collect_backward l (length l) Hl (le_n _)) as E. rewrite take_ge in E by lia.
    split; [exact E|]. split; [exact E|]. apply Hend. change (u64 (-1)) with (2 ^ 64 - 1).
    unfold int_max in *. lia.
Qed.

Lemma iterators_traverse_witness :
  ∃ it, collect it_next 5 (Filter [1; 2; 3; 4; 5] Z.even) = Ok ([1; 2; 3; 4; 5], it).
Proof.
  destruct (iterators_traverse [1; 2; 3; 4; 5] Z.even) as [(it & E & _) _];
    [unfold int_max; simpl; lia|]. exists it. exact E.
Defined.
