(* ===== verification/Radio.v ===== *)
(** * The software radio reader (cjunk/swradio/radio.cpp)

    The object state of [Radio]; [buffer_count] is never initialised ([None]).
    The driver calls of [Config] and the destructor only go to the device; what
    they request is recorded. *)

From Stdlib Require Import ZArith Lia Ascii.
From stdpp Require Import base list strings.
From S2P Require Import Prelude Double Memory.
Local Open Scope Z_scope.

Record Radio := mkRadio {
  fd : Z; buffer_count : option Z; buffer_index : Z; buffer_ready : Z }.

Inductive request := QUERYCAP | S_FREQUENCY (hz : Z) | S_MODULATOR.

(** [v4l2_open] returned [opened]. *)
Definition Radio_ctor (opened : Z) : outcome Radio :=
  if opened <? 0 then Throw (runtime_error #"could not open")
  else Ok (mkRadio opened None 0 0).

(** The requests [Config] sends, in order: the second frequency replaces the first. *)
Definition Config (r : Radio) : list request :=
  [QUERYCAP; S_FREQUENCY 140000000; S_MODULATOR; S_FREQUENCY 0].

Definition read_ready (r : Radio) : Z := buffer_ready r.
Definition read_index (r : Radio) : Z := buffer_index r.
Definition read_count (r : Radio) : outcome Z :=
  match buffer_count r with Some n => Ok n | None => Undef uninit_read end.

(** [read]: the caller's block, the new object and the result. *)
Definition read (r : Radio) (buffer : block) (buffer_size : Z) : outcome (Radio * block * Z) :=
  if buffer_ready r =? 0 then Ok (r, buffer, 0)
  else
    off ← int32 (buffer_index r * buffer_size);
    src ← load buffer off buffer_size;
    buffer ← store buffer 0 src;
    n ← read_count r;
    i ← int32 (buffer_index r + 1);
    if n =? 0 then Undef div_by_zero
    else
      ready ← int32 (buffer_ready r - 1);
      Ok (mkRadio (fd r) (buffer_count r) (Z.rem i n) ready, buffer, buffer_size).

(** The reads of [main]. *)
Fixpoint read_many (n : nat) (r : Radio) (buffer : block) (size : Z) : outcome (Radio * list Z) :=
  match n with
  | O => Ok (r, [])
  | S n' =>
      '(r, buffer, k) ← read r buffer size;
      '(r, ks) ← read_many n' r buffer size; Ok (r, k :: ks)
  end.

(** No method ever makes [buffer_ready] positive: every read of a new object
    returns 0 and leaves the object and the buffer as they were. *)
Lemma radio_reads_nothing opened n buffer size r :
  Radio_ctor opened = Ok r → read_many n r buffer size = Ok (r, replicate n 0).
Proof.
  unfold Radio_ctor. destruct (opened <? 0); [done|]. intros [= <-].
  induction n as [|n IH]; [done|]. simpl. by rewrite IH.
Qed.

(** ** The program *)

(** [Timer]: the start of the clock, in its ticks. *)
Record Timer := mkTimer { start : Z }.

Section Program.
(** The ticks of the clock in a second, and the text of a [double] on a stream. *)
Context (ticks : Z) (print_double : double → bytes).

Definition elapsed (t : Timer) (now : Z) : double := ddiv (double_of_Z (now - start t)) (double_of_Z ticks).

(** [~Timer], and [~Radio], which closes the descriptor. *)
Definition Timer_dtor (t : Timer) (now : Z) : bytes := #"elapsed time: " ++ print_double (elapsed t now) ++ [newline].
Definition Radio_dtor (r : Radio) : Z := fd r.

(** [main]: the results of the reads, the descriptor that is closed and the line that is
    printed.  The exception of the constructor is not caught, which ends the process. *)
Definition radio_main (opened began now : Z) : outcome (list Z * Z * bytes) :=
  let t := mkTimer began in
  match Radio_ctor opened with
  | Ok radio =>
      '(radio, counts) ← read_many (Z.to_nat 1000000) radio (fresh_block 4096) 4096;
      Ok (counts, Radio_dtor radio, Timer_dtor t now)
  | Throw _ => Exit 134
  | Undef u => Undef u
  | Exit c => Exit c
  end.

(** A million reads deliver nothing; the device is closed before the time is printed. *)
Lemma radio_main_spec opened began now :
  radio_main opened began now =
  if opened <? 0 then Exit 134
  else Ok (replicate (Z.to_nat 1000000) 0, opened, Timer_dtor (mkTimer began) now).
Proof.
  unfold radio_main. destruct (Radio_ctor opened) as [r| | |] eqn:E.
  - rewrite (radio_reads_nothing opened) by done. unfold Radio_ctor in E.
    destruct (opened <? 0); [done|]. by injection E as <-.
  - unfold Radio_ctor in E. by destruct (opened <? 0).
  - unfold Radio_ctor in E. by destruct (opened <? 0).
  - unfold Radio_ctor in E. by destruct (opened <? 0).
Qed.
End Program.
