(* ===== verification/Fft.v ===== *)
(** * The spectrum wrapper (middleware/src/stupid_fft.h)

    The transform of FFTW and [std::abs], [std::arg] on complex numbers are
    parameters; the class stores the result and offers views of it. *)

From Stdlib Require Import ZArith Lia.
From stdpp Require Import base list.
From S2P Require Import Prelude Double.

Section Fft.
Context (fftw : list (double * double) → list (double * double)) (cabs carg : double * double → double).

Definition PI : double := decimal_to_double false 314159265358979323846 (-20).

Record FFT := mkFFT { fft_result_ : list (double * double); fft_size_ : nat }.

(** The constructor; [fftw] returns as many values as it is given. *)
Definition FFT_ctor (data : list double) : FFT :=
  let out := fftw ((fun x => (x, dzero)) <$> data) in
  mkFFT (take (length data) out) (length data).

Definition fft_length (f : FFT) : nat := fft_size_ f.
Definition view (g : double * double → double) (f : FFT) : list double := g <$> fft_result_ f.

Definition degrees (z : double * double) : double := ddiv (dmul (carg z) (double_of_Z 180)) PI.
Definition unwrap (d : double) : double := if dltb d dzero then dadd d (double_of_Z 360) else d.

Definition get_real (f : FFT) : list double := view fst f.
Definition get_imag (f : FFT) : list double := view snd f.
Definition get_abs (f : FFT) : list double := view cabs f.
Definition get_phase (f : FFT) : list double := view carg f.
Definition get_real_phase (f : FFT) : list double := view degrees f.
Definition get_imag_phase (f : FFT) : list double := view degrees f.
Definition get_real_phase_unwrapped (f : FFT) : list double := view (fun z => unwrap (degrees z)) f.
Definition get_imag_phase_unwrapped (f : FFT) : list double := view (fun z => unwrap (degrees z)) f.
Definition get_real_phase_unwrapped_deg (f : FFT) : list double := view degrees f.
Definition get_imag_phase_unwrapped_deg (f : FFT) : list double := view degrees f.
Definition get_real_phase_unwrapped_deg_shifted (f : FFT) : list double :=
  view (fun z => dsub (unwrap (degrees z)) (double_of_Z 180)) f.

(** Every view has one entry per sample. *)
Lemma view_length g data :
  (∀ l, length (fftw l) = length l) → length (view g (FFT_ctor data)) = fft_length (FFT_ctor data).
Proof.
  intros Hl. unfold view, FFT_ctor. simpl. rewrite length_fmap, length_take, Hl, length_fmap. lia.
Qed.

(** Unwrapping is what distinguishes the two degree views, and the shift is the last step. *)
Lemma unwrapped_from_phase f : get_real_phase_unwrapped f = unwrap <$> get_real_phase f.
Proof. unfold get_real_phase_unwrapped, get_real_phase, view. by rewrite <- list_fmap_compose. Qed.

Lemma shifted_from_unwrapped f :
  get_real_phase_unwrapped_deg_shifted f
  = (fun d => dsub d (double_of_Z 180)) <$> get_real_phase_unwrapped f.
Proof.
  unfold get_real_phase_unwrapped_deg_shifted, get_real_phase_unwrapped, view.
  by rewrite <- list_fmap_compose.
Qed.
End Fft.
