(* ===== verification/Egl.v ===== *)
(** * GL and EGL resources in cjunk/practice/egl/egl_test.cpp

    The driver hands out names; the state is the set of live objects and the
    drawn primitives.  Whether a shader compiles and the program links is
    decided by the driver, and so is what the EGL calls return.  A member that no
    constructor initialises is [None]; reading it is undefined behaviour. *)

From Stdlib Require Import ZArith Lia Ascii.
From stdpp Require Import base list gmap sets strings.
From S2P Require Import Prelude.

(** ** GL objects *)

Inductive kind := program_obj | shader_obj | vao_obj | buffer_obj.
#[global] Instance kind_eq_dec : EqDecision kind.
Proof. solve_decision. Defined.

Record gl := mkGl { next_name : nat; live : list (kind * nat); drawn : list nat }.

Definition gl_create (k : kind) (g : gl) : nat * gl :=
  (next_name g, mkGl (S (next_name g)) ((k, next_name g) :: live g) (drawn g)).
Definition gl_delete (k : kind) (n : nat) (g : gl) : gl :=
  mkGl (next_name g) (filter (fun o => o ≠ (k, n)) (live g)) (drawn g).
(** [glDrawArrays(GL_TRIANGLES, 0, count)]: a triangle per three vertices. *)
Definition gl_draw_triangles (count : nat) (g : gl) : gl :=
  mkGl (next_name g) (live g) (drawn g ++ [count / 3]).

(** [triangle] and [square] differ in the number of vertices. *)
Definition draw_shape (count : nat) (g : gl) : gl :=
  let '(vao, g) := gl_create vao_obj g in
  let '(vbo, g) := gl_create buffer_obj g in
  let g := gl_draw_triangles count g in
  gl_delete vao_obj vao (gl_delete buffer_obj vbo g).
Definition triangle (program : nat) (g : gl) : gl := draw_shape 3 g.
Definition square (program : nat) (g : gl) : gl := draw_shape 4 g.

(** How [test_egl] ended. *)
Inductive ending := vs_failed | fs_failed | link_failed | drew.

(** [test_egl] with the driver's answers; the names are returned for the caller to
    inspect. *)
Definition test_egl (vs_ok fs_ok link_ok : bool) (g : gl) : ending * (nat * nat * nat) * gl :=
  let '(program, g) := gl_create program_obj g in
  let '(vs, g) := gl_create shader_obj g in
  if negb vs_ok then (vs_failed, (program, vs, 0), gl_delete shader_obj vs g)
  else
    let '(fs, g) := gl_create shader_obj g in
    if negb fs_ok then (fs_failed, (program, vs, fs), gl_delete shader_obj fs g)
    else if negb link_ok then (link_failed, (program, vs, fs), gl_delete program_obj program g)
    else (drew, (program, vs, fs), triangle program g).

(** The names in use are below the next one. *)
Definition gl_wf (g : gl) : Prop := Forall (fun o => o.2 < next_name g) (live g).

Lemma filter_fresh g k n : gl_wf g → next_name g ≤ n → filter (fun o => o ≠ (k, n)) (live g) = live g.
Proof.
  unfold gl_wf. intros Hwf Hn. induction Hwf as [|o l Ho Hl IH]; [done|].
  rewrite filter_cons_True, IH; [done|]. intros ->. simpl in Ho. lia.
Qed.

Lemma draw_shape_live count g :
  gl_wf g → live (draw_shape count g) = live g ∧ drawn (draw_shape count g) = drawn g ++ [count / 3] ∧
    gl_wf (draw_shape count g).
Proof.
  intros Hwf. unfold draw_shape. simpl.
  assert (filter (fun o => o ≠ (vao_obj, next_name g))
    (filter (fun o => o ≠ (buffer_obj, S (next_name g)))
      ((buffer_obj, S (next_name g)) :: (vao_obj, next_name g) :: live g)) = live g) as E.
  { rewrite filter_cons_False by tauto. rewrite filter_cons_True by congruence.
    rewrite filter_cons_False by tauto. rewrite !filter_fresh by (done || lia). done. }
  rewrite E. split; [done|]. split; [done|]. unfold gl_wf in *. simpl. rewrite E.
  eapply Forall_impl; [exact Hwf|]. simpl. intros; lia.
Qed.

(** [triangle] and [square] release every object they create (and [square], with
    its four vertices, draws one triangle like [triangle]); [test_egl] leaves
    objects behind on every path: the program if the vertex shader fails, the
    program and the vertex shader if the fragment shader fails, both shaders if
    linking fails, and all three when it draws. *)
Theorem gl_objects_left (g : gl) (vs_ok fs_ok link_ok : bool) (Hwf : gl_wf g) :
  (live (triangle 0 g) = live g ∧ live (square 0 g) = live g ∧
   drawn (square 0 g) = drawn g ++ [1] ∧ drawn (triangle 0 g) = drawn g ++ [1]) ∧
  let '(e, (program, vs, fs), g') := test_egl vs_ok fs_ok link_ok g in
  live g' = match e with
            | vs_failed => [(program_obj, program)]
            | fs_failed => [(shader_obj, vs); (program_obj, program)]
            | link_failed => [(shader_obj, fs); (shader_obj, vs)]
            | drew => [(shader_obj, fs); (shader_obj, vs); (program_obj, program)]
            end ++ live g.
Proof.
  split.
  - destruct (draw_shape_live 3 g Hwf) as (E1 & E2 & _). destruct (draw_shape_live 4 g Hwf) as (E3 & E4 & _).
    done.
  - unfold test_egl. simpl. destruct vs_ok; simpl.
    2: { rewrite filter_cons_False by tauto. rewrite filter_cons_True by congruence.
         by rewrite filter_fresh by (done || lia). }
    destruct fs_ok; simpl.
    2: { rewrite filter_cons_False by tauto. rewrite !filter_cons_True by (intros [=]; lia).
         by rewrite filter_fresh by (done || lia). }
    destruct link_ok; simpl.
    2: { rewrite !filter_cons_True by congruence. rewrite filter_cons_False by tauto.
         by rewrite filter_fresh by (done || lia). }
    destruct (draw_shape_live 3 (mkGl (S (S (S (next_name g))))
      ((shader_obj, S (S (next_name g))) :: (shader_obj, S (next_name g)) ::
       (program_obj, next_name g) :: live g) (drawn g))) as (E & _); [|exact E].
    unfold gl_wf in *. simpl. repeat constructor; simpl; try lia.
    eapply Forall_impl; [exact Hwf|]. simpl. intros; lia.
Qed.

Lemma gl_objects_left_witness :
  live (test_egl true true false (mkGl 1 [] [])).2 = [(shader_obj, 3); (shader_obj, 2)].
Proof. apply (gl_objects_left (mkGl 1 [] []) true true false). constructor. Defined.

(** ** EGL wrappers *)

(** [MyDisplay]: construction and destruction, with the number of initialised displays. *)
Definition MyDisplay_ctor (display initialize : bool) (open : nat) : outcome nat :=
  if negb display then Throw (runtime_error #"eglGetDisplay failed")
  else if negb initialize then Throw (runtime_error #"eglInitialize failed")
  else Ok (S open).
Definition MyDisplay_dtor (open : nat) : nat := open - 1.

Lemma MyDisplay_balanced display initialize open n :
  MyDisplay_ctor display initialize open = Ok n → MyDisplay_dtor n = open.
Proof. unfold MyDisplay_ctor, MyDisplay_dtor. destruct display, initialize; simpl; intros [= <-]; lia. Qed.

(** A member that may be uninitialised. *)
Definition member {A} (m : option A) : outcome A :=
  match m with Some a => Ok a | None => Undef uninit_read end.

(** [Config], [Surface] and [Context] pass their own [m_display] (and [m_config]),
    which their constructors do not set, to EGL. *)
Definition Config_ctor (choose : bool) (num_configs : nat) : outcome unit :=
  _ ← member (None : option unit);
  if negb choose then Throw (runtime_error #"eglChooseConfig failed")
  else if decide (num_configs = 0) then Throw (runtime_error #"eglChooseConfig returned no configs")
  else Ok tt.
Definition Surface_ctor (create : bool) : outcome unit :=
  _ ← member (None : option unit); _ ← member (None : option unit);
  if negb create then Throw (runtime_error #"eglCreateWindowSurface failed") else Ok tt.
Definition Context_ctor (create : bool) : outcome unit :=
  _ ← member (None : option unit); _ ← member (None : option unit);
  if negb create then Throw (runtime_error #"eglCreateContext failed") else Ok tt.
(** The destructors of [Surface] and [Context] pass the same unset [m_display] on, if
    there is something to destroy. *)
Definition Surface_dtor (m_surface : bool) : outcome unit :=
  if m_surface then member (None : option unit) else Ok tt.
Definition Context_dtor (m_context : bool) : outcome unit :=
  if m_context then member (None : option unit) else Ok tt.

(** [EGL]: the constructor creates the display; nothing assigns [m_config]. *)
Record EGL := mkEGL { m_display : option unit; m_config : option unit }.
Definition EGL_ctor : EGL := mkEGL (Some tt) None.

(** [new Display] is read as a [MyDisplay], which may throw; [open] counts the
    initialised displays. *)
Definition EGL_new (display initialize : bool) (open : nat) : outcome (EGL * nat) :=
  open ← MyDisplay_ctor display initialize open; Ok (EGL_ctor, open).

(** [delete] of the display, if the object still exists. *)
Definition delete_display (alive : bool) (open : nat) : outcome nat :=
  if alive then Ok (MyDisplay_dtor open) else Undef dangling.
(** [~EGL]: its [delete m_display] is read as deleting what the [unique_ptr] holds; the
    destructor of the member follows and finds the same pointer. *)
Definition EGL_dtor (e : EGL) (open : nat) : outcome nat :=
  match m_display e with
  | None => Ok open
  | Some _ => open ← delete_display true open; delete_display false open
  end.

Definition ptr_get (p : option unit) : outcome unit :=
  match p with Some c => Ok c | None => Undef null_deref end.
Definition EGL_get_config (e : EGL) : outcome unit := ptr_get (m_config e).

(** Both overloads of [create_window]; [create] is the answer of EGL. *)
Definition create_window (e : EGL) (create : bool) : outcome unit :=
  _ ← ptr_get (m_display e); _ ← ptr_get (m_config e);
  if negb create then Throw (runtime_error #"eglCreateWindowSurface failed") else Ok tt.

(** The local [Surface] or [Context] is destroyed when its handle has been returned. *)
Definition create_surface (e : EGL) (create : bool) : outcome unit :=
  _ ← Surface_ctor create; Surface_dtor true.
Definition create_context (e : EGL) (create : bool) : outcome unit :=
  _ ← Context_ctor create; Context_dtor false.
Definition create_surface_current (e : EGL) (create current : bool) : outcome unit :=
  _ ← Surface_ctor create;
  _ ← ptr_get (m_display e);
  if negb current then Throw (runtime_error #"eglMakeCurrent failed") else Surface_dtor true.

(** No operation of a constructed [EGL] object returns, whatever the driver
    answers: the windows dereference the configuration that was never created,
    and the surfaces and contexts pass a display that no constructor set; nor can
    the constructor of [Config] run to its end. *)
Lemma egl_operations_undefined (choose create current : bool) (num_configs : nat) :
  EGL_get_config EGL_ctor = Undef null_deref ∧
  create_window EGL_ctor create = Undef null_deref ∧
  Config_ctor choose num_configs = Undef uninit_read ∧
  create_surface EGL_ctor create = Undef uninit_read ∧
  create_context EGL_ctor create = Undef uninit_read ∧
  create_surface_current EGL_ctor create current = Undef uninit_read.
Proof. repeat split. Qed.

(** [main]: [test_egl], which is not a member of [EGL], is read as the function; what GL
    holds and how the drawing ended are returned to be inspected. *)
Definition egl_main (display initialize vs_ok fs_ok link_ok : bool) (g : gl) : outcome (ending * gl * Z) :=
  '(e, open) ← EGL_new display initialize 0;
  let '(how, _, g) := test_egl vs_ok fs_ok link_ok g in
  _ ← EGL_dtor e open;
  Ok (how, g, 0%Z).

(** The program never returns 0: it throws if there is no display, and otherwise the
    display is deleted by the destructor and once more by its smart pointer. *)
Theorem egl_main_never_returns (display initialize vs_ok fs_ok link_ok : bool) (g : gl) :
  egl_main display initialize vs_ok fs_ok link_ok g =
  if negb display then Throw (runtime_error #"eglGetDisplay failed")
  else if negb initialize then Throw (runtime_error #"eglInitialize failed")
  else Undef dangling.
Proof.
  unfold egl_main, EGL_new, MyDisplay_ctor. destruct display, initialize; try done.
  simpl. by destruct (test_egl vs_ok fs_ok link_ok g) as [[how names] g'].
Qed.
