(* ===== verification/Kalman.v ===== *)
(** * The Kalman filter of cjunk/practice/kalmanFilter.cc

    Eigen's dynamic vectors and matrices are an interface: a type with a number of rows
    and of columns, and operations whose results have the documented shape.  What the
    coefficients are (sums of rounded products in an order that Eigen chooses, an
    inverse that may not exist) is left open.  An operation on matrices that do not fit
    fails an assertion of Eigen, undefined behaviour when assertions are off.  A
    [VectorXd] is a matrix of one column.  The template parameter [Model] is a record of
    the functions the filter calls. *)

From Stdlib Require Import Lia.
From stdpp Require Import base list.
From S2P Require Import Prelude.

(** ** Eigen *)

Class Eigen := {
  matrix : Type;
  shape : matrix → nat * nat;
  e_plus : matrix → matrix → matrix;
  e_minus : matrix → matrix → matrix;
  e_times : matrix → matrix → matrix;
  e_transpose : matrix → matrix;
  e_inverse : matrix → matrix;
  e_identity : nat → nat → matrix;
  shape_plus A B : shape A = shape B → shape (e_plus A B) = shape A;
  shape_minus A B : shape A = shape B → shape (e_minus A B) = shape A;
  shape_times A B : (shape A).2 = (shape B).1 → shape (e_times A B) = ((shape A).1, (shape B).2);
  shape_transpose A : shape (e_transpose A) = ((shape A).2, (shape A).1);
  shape_inverse A : (shape A).1 = (shape A).2 → shape (e_inverse A) = shape A;
  shape_identity r c : shape (e_identity r c) = (r, c) }.

Section Kalman.
Context `{Eigen}.

(** The operators, with their assertions. *)
Definition plus (A B : matrix) : outcome matrix :=
  if decide (shape A = shape B) then Ok (e_plus A B) else Undef bad_precondition.
Definition minus (A B : matrix) : outcome matrix :=
  if decide (shape A = shape B) then Ok (e_minus A B) else Undef bad_precondition.
Definition times (A B : matrix) : outcome matrix :=
  if decide ((shape A).2 = (shape B).1) then Ok (e_times A B) else Undef bad_precondition.
Definition inverse (A : matrix) : outcome matrix :=
  if decide ((shape A).1 = (shape A).2) then Ok (e_inverse A) else Undef bad_precondition.

(** What [KalmanFilter<Model>] uses of its parameter: the transition [f] and its
    Jacobian [F], the observation [h] and its Jacobian [H], and the covariances
    of the two noises. *)
Record Model := mkModel {
  f : matrix → matrix; F : matrix → matrix; Q : matrix;
  h : matrix → matrix; H_ : matrix → matrix; R : matrix }.

Record KalmanFilter := mkFilter { x_ : matrix; P_ : matrix }.

Definition init (x0 P0 : matrix) : KalmanFilter := mkFilter x0 P0.

Context (model_ : Model).

(** The Jacobian is taken at the state that was assigned in the line before. *)
Definition predict (k : KalmanFilter) : outcome KalmanFilter :=
  let x := f model_ (x_ k) in
  FP ← times (F model_ x) (P_ k);
  FPF ← times FP (e_transpose (F model_ x));
  P ← plus FPF (Q model_);
  Ok (mkFilter x P).

Definition update (k : KalmanFilter) (z : matrix) : outcome KalmanFilter :=
  y ← minus z (h model_ (x_ k));
  let H := H_ model_ (x_ k) in
  HP ← times H (P_ k);
  HPH ← times HP (e_transpose H);
  S ← plus HPH (R model_);
  PH ← times (P_ k) (e_transpose H);
  S' ← inverse S;
  K ← times PH S';
  Ky ← times K y;
  x ← plus (x_ k) Ky;
  KH ← times K H;
  IKH ← minus (e_identity (shape (P_ k)).1 (shape (P_ k)).2) KH;
  P ← times IKH (P_ k);
  Ok (mkFilter x P).

(** ** Sequences of calls *)

Inductive call := Predict | Update (z : matrix).

Fixpoint run_calls (k : KalmanFilter) (calls : list call) : outcome KalmanFilter :=
  match calls with
  | [] => Ok k
  | Predict :: calls => k ← predict k; run_calls k calls
  | Update z :: calls => k ← update k z; run_calls k calls
  end.

(** ** Shapes *)

(** A model with [n] state variables and [m] measurements. *)
Record conforming (n m : nat) : Prop := {
  c_f x : shape x = (n, 1) → shape (f model_ x) = (n, 1);
  c_F x : shape x = (n, 1) → shape (F model_ x) = (n, n);
  c_Q : shape (Q model_) = (n, n);
  c_h x : shape x = (n, 1) → shape (h model_ x) = (m, 1);
  c_H x : shape x = (n, 1) → shape (H_ model_ x) = (m, n);
  c_R : shape (R model_) = (m, m) }.

Definition filter_of (n : nat) (k : KalmanFilter) : Prop := shape (x_ k) = (n, 1) ∧ shape (P_ k) = (n, n).

(** An operation whose operands fit, with the shape of its result. *)
Lemma plus_bind {B} A C s (g : matrix → outcome B) (P : outcome B → Prop) :
  shape A = s → shape C = s → (∀ D, shape D = s → P (g D)) → P (plus A C ≫= g).
Proof. intros HA HC HP. unfold plus. rewrite decide_True by congruence. apply HP. by rewrite shape_plus by congruence. Qed.
Lemma minus_bind {B} A C s (g : matrix → outcome B) (P : outcome B → Prop) :
  shape A = s → shape C = s → (∀ D, shape D = s → P (g D)) → P (minus A C ≫= g).
Proof. intros HA HC HP. unfold minus. rewrite decide_True by congruence. apply HP. by rewrite shape_minus by congruence. Qed.
Lemma times_bind {B} A C p q r (g : matrix → outcome B) (P : outcome B → Prop) :
  shape A = (p, q) → shape C = (q, r) → (∀ D, shape D = (p, r) → P (g D)) → P (times A C ≫= g).
Proof.
  intros HA HC HP. unfold times. rewrite decide_True by (by rewrite HA, HC). apply HP.
  rewrite shape_times by (by rewrite HA, HC). by rewrite HA, HC.
Qed.
Lemma inverse_bind {B} A p (g : matrix → outcome B) (P : outcome B → Prop) :
  shape A = (p, p) → (∀ D, shape D = (p, p) → P (g D)) → P (inverse A ≫= g).
Proof.
  intros HA HP. unfold inverse. rewrite decide_True by (by rewrite HA). apply HP. by rewrite shape_inverse, HA by (by rewrite HA).
Qed.

Lemma predict_shapes n m k : conforming n m → filter_of n k → ∃ k', predict k = Ok k' ∧ filter_of n k'.
Proof.
  intros [Hf HF HQ _ _ _] [Hx HP]. unfold predict. pose proof (Hf _ Hx) as Hx'. pose proof (HF _ Hx') as HF'.
  apply (times_bind _ _ n n n); [done..|]. intros FP E1.
  apply (times_bind _ _ n n n); [done|by rewrite shape_transpose, HF'|]. intros FPF E2.
  apply (plus_bind _ _ (n, n)); [done..|]. intros P E3. eexists. by split.
Qed.

Lemma update_shapes n m k z :
  conforming n m → filter_of n k → shape z = (m, 1) → ∃ k', update k z = Ok k' ∧ filter_of n k'.
Proof.
  intros [_ _ _ Hh HH HR] [Hx HP] Hz. unfold update. pose proof (Hh _ Hx) as Hh'. pose proof (HH _ Hx) as HH'.
  assert (shape (e_transpose (H_ model_ (x_ k))) = (n, m)) as Ht by (by rewrite shape_transpose, HH').
  apply (minus_bind _ _ (m, 1)); [done..|]. intros y Ey.
  apply (times_bind _ _ m n n); [done..|]. intros A1 E1. apply (times_bind _ _ m n m); [done..|]. intros A2 E2.
  apply (plus_bind _ _ (m, m)); [done..|]. intros S ES. apply (times_bind _ _ n n m); [done..|]. intros A3 E3.
  apply (inverse_bind _ m); [done|]. intros S' ES'. apply (times_bind _ _ n m m); [done..|]. intros K EK.
  apply (times_bind _ _ n m 1); [done..|]. intros A4 E4. apply (plus_bind _ _ (n, 1)); [done..|]. intros x Ex.
  apply (times_bind _ _ n m n); [done..|]. intros A5 E5.
  apply (minus_bind _ _ (n, n)); [by rewrite shape_identity, HP|done|]. intros A6 E6.
  apply (times_bind _ _ n n n); [done..|]. intros P EP. eexists. by split.
Qed.

Definition measurements (calls : list call) : list matrix :=
  omap (fun c => match c with Update z => Some z | Predict => None end) calls.

(** With a model whose functions have the shapes of their names, every sequence of
    predictions and updates keeps the shapes of the state and its covariance and fails
    no assertion exactly if every measurement has as many entries as the model
    observes; a measurement of another length fails the first line of [update]. *)
Theorem kalman_shapes (n m : nat) (Hm : conforming n m) (k : KalmanFilter) (Hk : filter_of n k) (calls : list call) :
  if decide (Forall (fun z => shape z = (m, 1)) (measurements calls))
  then ∃ k', run_calls k calls = Ok k' ∧ filter_of n k'
  else run_calls k calls = Undef bad_precondition.
Proof.
  revert k Hk. induction calls as [|[|z] calls IH]; intros k Hk.
  - rewrite decide_True by constructor. by exists k.
  - cbn [run_calls]. destruct (predict_shapes n m k Hm Hk) as (k' & -> & Hk'). by apply IH.
  - change (measurements (Update z :: calls)) with (z :: measurements calls). cbn [run_calls].
    destruct (decide (shape z = (m, 1))) as [Hz|Hz].
    + destruct (update_shapes n m k z Hm Hk Hz) as (k' & -> & Hk'). specialize (IH k' Hk'). cbn [mbind outcome_bind].
      destruct (decide (Forall _ (measurements calls))) as [Hc|Hc].
      * by rewrite decide_True by (by constructor).
      * by rewrite decide_False by (by inversion 1).
    + rewrite decide_False by (by inversion 1). unfold update, minus.
      rewrite decide_False; [done|]. destruct Hk as [Hx _]. by rewrite (c_h _ _ Hm _ Hx).
Qed.
End Kalman.
