(* ===== verification/AsyncInput.v ===== *)
(** * Standard input on another thread (cjunk/practice/asyncStdin.cc, asyncio.cc)

    [StandardInput] starts a task that reads standard input and pushes the
    characters to a queue, which [main] empties under the same mutex.  Each
    thread is a step function over the shared object; a step is [None] while the
    thread waits.  The members are destroyed in the reverse order of their
    declaration: the condition variable, the mutex, and only then the future,
    whose destructor waits for the task.

    The task reads one byte into the uninitialised [int c].  The bytes that
    [fread] does not write are an arbitrary value, chosen anew in every
    iteration ([garbage]); the machine is little-endian. *)

From Stdlib Require Import ZArith Lia Ascii.
From stdpp Require Import base list sets strings relations.
From S2P Require Import Prelude.

(** ** State *)

Inductive task_pc :=
| TCheck                (* while(m_running) *)
| TRead                 (* fread(&c, 1, 1, stdin) *)
| TTest (c : Z)         (* if(c != EOF) *)
| TLock (c : Z)         (* unique_lock lock(m_mutex) *)
| THeld (c : Z)         (* m_queue.push(c); m_condition.notify_one() *)
| TUnlock               (* ~unique_lock *)
| TDone.

Inductive main_pc :=
| MSleep
| MHas | MHasHeld       (* hasChar *)
| MPop | MPopHeld       (* popChar *)
| MDtor                 (* m_running = false *)
| MCondition | MMutex | MFuture   (* the members' destructors *)
| MDone.

Record StandardInput := mkInput {
  stdin_ : bytes;             (* not yet read *)
  m_queue : bytes;
  m_running : bool;
  m_mutex : option bool;      (* held by: the task (true) or main (false) *)
  mutex_alive : bool;
  condition_alive : bool;
  task : task_pc;
  main : main_pc;
  printed : bytes }.          (* what main wrote *)

(** The constructor; [input] is what standard input will deliver before its end. *)
Definition StandardInput_ctor (input : bytes) : StandardInput :=
  mkInput input [] true None true true TCheck MSleep [].

Definition at_task (s : StandardInput) (t : task_pc) : StandardInput :=
  mkInput (stdin_ s) (m_queue s) (m_running s) (m_mutex s) (mutex_alive s) (condition_alive s) t (main s) (printed s).
Definition at_main (s : StandardInput) (p : main_pc) : StandardInput :=
  mkInput (stdin_ s) (m_queue s) (m_running s) (m_mutex s) (mutex_alive s) (condition_alive s) (task s) p (printed s).
Definition with_mutex (s : StandardInput) (m : option bool) : StandardInput :=
  mkInput (stdin_ s) (m_queue s) (m_running s) m (mutex_alive s) (condition_alive s) (task s) (main s) (printed s).
Definition with_queue (s : StandardInput) (q : bytes) (out : bytes) : StandardInput :=
  mkInput (stdin_ s) q (m_running s) (m_mutex s) (mutex_alive s) (condition_alive s) (task s) (main s) out.
Definition with_stdin (s : StandardInput) (i : bytes) : StandardInput :=
  mkInput i (m_queue s) (m_running s) (m_mutex s) (mutex_alive s) (condition_alive s) (task s) (main s) (printed s).
Definition stopped (s : StandardInput) : StandardInput :=
  mkInput (stdin_ s) (m_queue s) false (m_mutex s) (mutex_alive s) (condition_alive s) (task s) (main s) (printed s).
Definition without_condition (s : StandardInput) : StandardInput :=
  mkInput (stdin_ s) (m_queue s) (m_running s) (m_mutex s) (mutex_alive s) false (task s) (main s) (printed s).
Definition without_mutex (s : StandardInput) : StandardInput :=
  mkInput (stdin_ s) (m_queue s) (m_running s) (m_mutex s) false (condition_alive s) (task s) (main s) (printed s).

(** [EOF] as the bits of an [int], and the [char] made of an [int]. *)
Definition EOF_bits : Z := 2 ^ 32 - 1.
Definition low_char (c : Z) : ascii := chr (c mod 256).

(** ** The threads *)

Definition inputCharTask (garbage : Z) (s : StandardInput) : option (outcome StandardInput) :=
  match task s with
  | TCheck => Some (Ok (at_task s (if m_running s then TRead else TDone)))
  | TRead =>
      match stdin_ s with
      | x :: rest => Some (Ok (at_task (with_stdin s rest) (TTest (garbage / 256 * 256 + code x))))
      | [] => Some (Ok (at_task s (TTest garbage)))
      end
  | TTest c => Some (Ok (at_task s (if (c =? EOF_bits)%Z then TCheck else TLock c)))
  | TLock c =>
      if mutex_alive s then
        match m_mutex s with
        | None => Some (Ok (at_task (with_mutex s (Some true)) (THeld c)))
        | Some _ => None
        end
      else Some (Undef dangling)
  | THeld c =>
      if condition_alive s then
        Some (Ok (at_task (with_queue s (m_queue s ++ [low_char c]) (printed s)) TUnlock))
      else Some (Undef dangling)
  | TUnlock =>
      if mutex_alive s then Some (Ok (at_task (with_mutex s None) TCheck)) else Some (Undef dangling)
  | TDone => None
  end.

(** [main], with [hasChar], [popChar] and the destructor it calls. *)
Definition main_step (s : StandardInput) : option (outcome StandardInput) :=
  match main s with
  | MSleep => Some (Ok (at_main s MHas))
  | MHas =>
      match m_mutex s with
      | None => Some (Ok (at_main (with_mutex s (Some false)) MHasHeld))
      | Some _ => None
      end
  | MHasHeld =>
      Some (Ok (at_main (with_mutex s None) (match m_queue s with [] => MDtor | _ :: _ => MPop end)))
  | MPop =>
      match m_mutex s with
      | None => Some (Ok (at_main (with_mutex s (Some false)) MPopHeld))
      | Some _ => None
      end
  | MPopHeld =>
      match m_queue s with
      | [] => Some (Undef empty_pop)
      | c :: q => Some (Ok (at_main (with_mutex (with_queue s q (printed s ++ [c])) None) MHas))
      end
  | MDtor => Some (Ok (at_main (stopped s) MCondition))
  | MCondition => Some (Ok (at_main (without_condition s) MMutex))
  | MMutex =>
      match m_mutex s with
      | None => Some (Ok (at_main (without_mutex s) MFuture))
      | Some _ => Some (Undef bad_precondition)
      end
  | MFuture => match task s with TDone => Some (Ok (at_main s MDone)) | _ => None end
  | MDone => None
  end.

Inductive step : StandardInput → StandardInput → Prop :=
| step_task garbage s s' :
    (0 ≤ garbage < 2 ^ 32)%Z → inputCharTask garbage s = Some (Ok s') → step s s'
| step_main s s' : main_step s = Some (Ok s') → step s s'.

(** A schedule: which thread moves, and what the task finds in [c]. *)
Fixpoint schedule (l : list (option Z)) (s : StandardInput) : option StandardInput :=
  match l with
  | [] => Some s
  | t :: l' =>
      match (match t with Some g => inputCharTask g s | None => main_step s end) with
      | Some (Ok s') => schedule l' s'
      | _ => None
      end
  end.

Definition valid_choice (t : option Z) : bool :=
  match t with Some g => (0 <=? g)%Z && (g <? 2 ^ 32)%Z | None => true end.

Lemma schedule_rtc l s s' :
  forallb valid_choice l = true →
  schedule l s = Some s' → rtc step s s'.
Proof.
  revert s. induction l as [|t l IH]; intros s Hg; simpl; [intros [= ->]; constructor|].
  apply andb_true_iff in Hg as [Ht Hl].
  destruct t as [g|]; [destruct (inputCharTask g s) as [[s1| | |]|] eqn:E
                      |destruct (main_step s) as [[s1| | |]|] eqn:E]; try done; intros Hs.
  - apply andb_true_iff in Ht as [?%Z.leb_le ?%Z.ltb_lt].
    eapply rtc_l; [by eapply step_task|by apply IH].
  - eapply rtc_l; [by eapply step_main|by apply IH].
Qed.

Definition after (l : list (option Z)) (s : StandardInput) : StandardInput := default s (schedule l s).

Lemma after_rtc l s :
  forallb valid_choice l = true →
  match schedule l s with Some _ => true | None => false end = true → rtc step s (after l s).
Proof. intros Hl E. apply (schedule_rtc l); [done|]. unfold after. by destruct (schedule l s). Qed.

(** At end of file the task finds the letter A in [c] and pushes it; [main] pops it. *)
Definition invented_run : list (option Z) :=
  [Some 0; Some 65; Some 0; Some 0; Some 0; Some 0; None; None; None; None; None]%Z.
(** The task is about to read when [main] finds no character and destroys the object;
    then a character arrives. *)
Definition destroyed_run : list (option Z) := [Some 0%Z; None; None; None; None; None; None].
Definition late_lock : list (option Z) := [Some 0; Some 0]%Z.

(** ** Invariant *)

(** The character on its way from [fread] to the queue. *)
Definition in_flight (t : task_pc) : bytes :=
  match t with
  | TTest c => if (c =? EOF_bits)%Z then [] else [low_char c]
  | TLock c | THeld c => [low_char c]
  | _ => []
  end.

(** [taken] is what was read of the input; [extra] are characters that were not. *)
Record input_inv (input : bytes) (s : StandardInput) : Prop := {
  inv_stream : ∃ taken extra,
    printed s ++ m_queue s ++ in_flight (task s) = taken ++ extra ∧
    taken ++ stdin_ s = input ∧ (extra ≠ [] → stdin_ s = []);
  inv_pop : match main s with MPop | MPopHeld => m_queue s ≠ [] | _ => True end }.

Lemma low_char_read g x : low_char (g / 256 * 256 + code x) = x.
Proof.
  unfold low_char. rewrite Z.add_comm, Z.mod_add by lia.
  assert (0 ≤ code x < 256)%Z as Hx.
  { unfold code. pose proof (N_ascii_bounded x). lia. }
  rewrite Z.mod_small by lia. unfold chr, code. by rewrite N2Z.id, ascii_N_embedding.
Qed.

(** A byte other than 255 is not mistaken for [EOF], whatever the rest of [c] holds. *)
Lemma read_not_eof g x : code x ≠ 255%Z → (g / 256 * 256 + code x =? EOF_bits)%Z = false.
Proof.
  intros Hx. apply Z.eqb_neq. intros E. apply (f_equal (fun z => z mod 256)%Z) in E.
  rewrite Z.add_comm, Z.mod_add in E by lia. rewrite Z.mod_small in E.
  - by rewrite E in Hx.
  - unfold code. pose proof (N_ascii_bounded x). lia.
Qed.

Lemma task_preserves input g s s' :
  Forall (fun x => code x ≠ 255%Z) input → input_inv input s →
  inputCharTask g s = Some (Ok s') → input_inv input s'.
Proof.
  intros Hin [(taken & extra & E & Ei & Hx) Hp] Hs. destruct s as [i q r m ma ca t p out]. simpl in *.
  unfold inputCharTask in Hs. simpl in Hs. destruct t as [| |c|c|c| |]; simpl in *.
  - injection Hs as <-. split; simpl; [|done]. exists taken, extra. by destruct r.
  - destruct i as [|x rest]; injection Hs as <-; (split; simpl; [|done]).
    + exists taken, (extra ++ if (g =? EOF_bits)%Z then [] else [low_char g]).
      split; [|split; [done|done]]. rewrite app_nil_r in E. by rewrite (app_assoc out), E, app_assoc.
    + destruct (decide (extra = [])) as [->|Hne]; [|by specialize (Hx Hne)].
      exists (taken ++ [x]), []. rewrite read_not_eof, low_char_read.
      * rewrite !app_nil_r in *. rewrite app_assoc, E, <- app_assoc. done.
      * subst input. apply Forall_app in Hin as [_ Hin]. by apply Forall_cons in Hin as [? _].
  - injection Hs as <-. split; simpl; [|done]. exists taken, extra. by destruct (c =? EOF_bits)%Z.
  - destruct ma; [|done]. destruct m; [done|]. injection Hs as <-. split; simpl; [|done]. eauto.
  - destruct ca; [|done]. injection Hs as <-. split; simpl.
    + exists taken, extra. by rewrite app_nil_r.
    + destruct p; try done; by destruct q.
  - destruct ma; [|done]. injection Hs as <-. split; simpl; eauto.
  - done.
Qed.

Lemma main_preserves input s s' :
  input_inv input s → main_step s = Some (Ok s') → input_inv input s'.
Proof.
  intros [(taken & extra & E & Ei & Hx) Hp] Hs. destruct s as [i q r m ma ca t p out]. simpl in *.
  unfold main_step in Hs. simpl in Hs.
  assert (∃ taken extra, out ++ q ++ in_flight t = taken ++ extra ∧
    taken ++ i = input ∧ (extra ≠ [] → i = [])) as Hst by eauto.
  destruct p; simpl in *.
  all: repeat match type of Hs with context [match ?x with _ => _ end] => destruct x eqn:? end; try done.
  all: injection Hs as <-; split; simpl; try done.
  exists taken, extra. by rewrite <- app_assoc.
Qed.

Lemma reachable_inv input s :
  Forall (fun x => code x ≠ 255%Z) input → rtc step (StandardInput_ctor input) s → input_inv input s.
Proof.
  intros Hin. apply rtc_preserve.
  - intros s1 s2 H1 H2. destruct H2; eauto using task_preserves, main_preserves.
  - split; simpl; [|done]. by exists [], [].
Qed.

(** ** [kbhit] of asyncio.cc *)

(** The terminal: its local flags, the status flags of the descriptor, and the
    characters that can be read. *)
Record terminal := mkTerminal { c_lflag : Z; fl : Z; pending : bytes }.

Section Kbhit.
(** The values of [ICANON | ECHO] and [O_NONBLOCK] on the platform. *)
Context (ICANON_ECHO O_NONBLOCK : Z).

Definition kbhit (t : terminal) : bool * terminal :=
  let oldt := c_lflag t in
  let newt := Z.ldiff oldt ICANON_ECHO in
  let t := mkTerminal newt (fl t) (pending t) in            (* tcsetattr(&newt) *)
  let oldf := fl t in
  let t := mkTerminal (c_lflag t) (Z.lor oldf O_NONBLOCK) (pending t) in
  let ch := head (pending t) in                             (* getchar *)
  let t := mkTerminal (c_lflag t) (fl t) (tail (pending t)) in
  let t := mkTerminal oldt (fl t) (pending t) in            (* tcsetattr(&oldt) *)
  let t := mkTerminal (c_lflag t) oldf (pending t) in
  match ch with
  | Some c => (true, mkTerminal (c_lflag t) (fl t) (c :: pending t))   (* ungetc *)
  | None => (false, t)
  end.

(** [kbhit] tells whether a character is there, and leaves the terminal, its flags and
    the characters as they were. *)
Lemma kbhit_observes t : kbhit t = (bool_decide (pending t ≠ []), t).
Proof. destruct t as [l f p]. by destruct p. Qed.
End Kbhit.

(** ** Theorems *)

