(* ===== verification/DumpSerial.v ===== *)
(** * The serial dump of middleware/src/dump_serial.cpp

    [configPort] edits the flag words of a terminal; the loop of [main] prints
    what each [read] delivers.  The buffer of 1024 characters is a member of the
    loop's state: it is not cleared between reads, and its cells are
    uninitialised ([None]) until something is read into them.  What [read]
    returns is given by the device: a list with the characters of each call, empty
    for an error or no data. *)

From Stdlib Require Import ZArith Lia Ascii Btauto.
From stdpp Require Import base list strings.
From S2P Require Import Prelude.

(** ** [configPort] *)

Record termios := mkTermios { c_cflag : Z; c_lflag : Z; c_oflag : Z; c_ispeed : Z; c_ospeed : Z }.

Lemma termios_ext a b :
  c_cflag a = c_cflag b → c_lflag a = c_lflag b → c_oflag a = c_oflag b → c_ispeed a = c_ispeed b →
  c_ospeed a = c_ospeed b → a = b.
Proof. destruct a, b. simpl. congruence. Qed.

Section Config.
(** The platform's constants, and the speeds that [cfsetispeed] accepts. *)
Context (CLOCAL CREAD CSIZE CS8 PARENB CSTOPB CRTSCTS ICANON ECHO ECHOE ISIG OPOST : Z).
Context (valid_speed : Z → bool).

(** [cfsetispeed] and [cfsetospeed] fail without effect on a value that is not a speed;
    the failure is not looked at. *)
Definition cfsetspeed (old baud : Z) : Z := if valid_speed baud then baud else old.

Definition configPort (options : termios) (baud : Z) : termios :=
  let ispeed := cfsetspeed (c_ispeed options) baud in
  let ospeed := cfsetspeed (c_ospeed options) baud in
  let cflag := Z.lor (c_cflag options) (Z.lor CLOCAL CREAD) in
  let cflag := Z.ldiff cflag CSIZE in
  let cflag := Z.lor cflag CS8 in
  let cflag := Z.ldiff cflag PARENB in
  let cflag := Z.ldiff cflag CSTOPB in
  let cflag := Z.ldiff cflag CRTSCTS in
  let lflag := Z.ldiff (c_lflag options) (Z.lor (Z.lor (Z.lor ICANON ECHO) ECHOE) ISIG) in
  let oflag := Z.ldiff (c_oflag options) OPOST in
  mkTermios cflag lflag oflag ispeed ospeed.

(** Each flag of the control word on its own. *)
Lemma configPort_cflag options baud i :
  Z.testbit (c_cflag (configPort options baud)) i =
    ((((Z.testbit (c_cflag options) i || (Z.testbit CLOCAL i || Z.testbit CREAD i))
       && negb (Z.testbit CSIZE i)) || Z.testbit CS8 i)
     && negb (Z.testbit PARENB i) && negb (Z.testbit CSTOPB i) && negb (Z.testbit CRTSCTS i)).
Proof using Type. unfold configPort. simpl. by rewrite !Z.ldiff_spec, !Z.lor_spec, !Z.ldiff_spec, !Z.lor_spec. Qed.

(** Configuring twice is configuring once. *)
Lemma configPort_idempotent options baud :
  configPort (configPort options baud) baud = configPort options baud.
Proof using Type.
  apply termios_ext.
  - apply Z.bits_inj. intros i. rewrite configPort_cflag, (configPort_cflag options).
    generalize (Z.testbit (c_cflag options) i).
    destruct (Z.testbit CLOCAL i), (Z.testbit CREAD i), (Z.testbit CSIZE i), (Z.testbit CS8 i),
      (Z.testbit PARENB i), (Z.testbit CSTOPB i), (Z.testbit CRTSCTS i); by intros [].
  - apply Z.bits_inj. intros i. simpl. rewrite !Z.ldiff_spec. btauto.
  - apply Z.bits_inj. intros i. simpl. rewrite !Z.ldiff_spec. btauto.
  - simpl. unfold cfsetspeed. by destruct (valid_speed baud).
  - simpl. unfold cfsetspeed. by destruct (valid_speed baud).
Qed.
End Config.

(** ** The loop of [main] *)

Definition BUFFER_SIZE : nat := 1024.

(** [std::cout << buffer.data()]: the characters before the first NUL. *)
Fixpoint print_cstr (b : list (option ascii)) : outcome bytes :=
  match b with
  | [] => Undef oob_access
  | None :: _ => Undef uninit_read
  | Some c :: b' => if decide (c = nul) then Ok [] else s ← print_cstr b'; Ok (c :: s)
  end.

(** [read] overwrites the beginning of the buffer. *)
Definition read_into (b : list (option ascii)) (r : bytes) : list (option ascii) :=
  (Some <$> r) ++ drop (length r) b.

(** One iteration: the buffer afterwards and what was printed. *)
Definition dump_iteration (b : list (option ascii)) (r : bytes) : outcome (list (option ascii) * bytes) :=
  let bytesRead := length r in
  let b := read_into b r in
  if decide (0 < bytesRead) then
    let b := if decide (bytesRead < BUFFER_SIZE) then <[bytesRead := Some nul]> b
             else <[BUFFER_SIZE - 1 := Some nul]> b in
    s ← print_cstr b; Ok (b, s ++ [newline])
  else Ok (b, []).

(** The output of the loop on the first calls of [read]; the loop itself has no exit. *)
Fixpoint dump_loop (b : list (option ascii)) (reads : list bytes) : outcome bytes :=
  match reads with
  | [] => Ok []
  | r :: reads' =>
      '(b, out) ← dump_iteration b r;
      out' ← dump_loop b reads';
      Ok (out ++ out')
  end.

(** The program: exit status 1 without its two arguments or without the device, and
    otherwise the output so far. *)
Inductive run := returned (status : Z) (message : bytes) | running (out : outcome bytes).
Definition dump_main (argc : nat) (opened : bool) (reads : list bytes) : run :=
  if decide (argc < 3) then returned 1 #"Usage: "
  else if opened then running (dump_loop (replicate BUFFER_SIZE None) reads)
  else returned 1 #"Error opening serial device".

(** What one call contributes. *)
Definition dumped (r : bytes) : bytes :=
  match r with [] => [] | _ => until_nul (take (BUFFER_SIZE - 1) r) ++ [newline] end.

Lemma print_cstr_ok (s : bytes) rest : print_cstr ((Some <$> s) ++ Some nul :: rest) = Ok (until_nul s).
Proof.
  induction s as [|c s IH]; [done|]. rewrite fmap_cons. cbn [app print_cstr until_nul].
  case_decide; [done|]. by rewrite IH.
Qed.

Lemma dump_iteration_ok b r :
  length b = BUFFER_SIZE → length r ≤ BUFFER_SIZE →
  ∃ b', dump_iteration b r = Ok (b', dumped r) ∧ length b' = BUFFER_SIZE.
Proof.
  intros Hb Hr. unfold dump_iteration.
  assert (length (read_into b r) = BUFFER_SIZE) as Hl.
  { unfold read_into. rewrite length_app, length_fmap, length_drop. lia. }
  destruct (decide (0 < length r)) as [Hpos|Hz]; [|destruct r; [eauto|simpl in Hz; lia]].
  assert (dumped r = until_nul (take (BUFFER_SIZE - 1) r) ++ [newline]) as ->.
  { destruct r; [simpl in Hpos; lia|done]. }
  assert (∀ n, n < BUFFER_SIZE → n ≤ length r →
    print_cstr (<[n := Some nul]> (read_into b r)) = Ok (until_nul (take n r))) as Hprint.
  { intros n Hn Hle. rewrite insert_take_drop by lia.
    assert (take n (read_into b r) = Some <$> take n r) as ->.
    { unfold read_into. rewrite take_app_le by (rewrite length_fmap; lia). by rewrite fmap_take. }
    apply print_cstr_ok. }
  destruct (decide (length r < BUFFER_SIZE)) as [Hlt|Hge].
  - rewrite Hprint by lia. rewrite !take_ge by lia. eexists. split; [done|]. by rewrite length_insert.
  - rewrite Hprint by (unfold BUFFER_SIZE in *; lia). eexists. split; [done|]. by rewrite length_insert.
Qed.

Lemma dump_loop_ok b reads :
  length b = BUFFER_SIZE → Forall (fun r => length r ≤ BUFFER_SIZE) reads →
  dump_loop b reads = Ok (concat (dumped <$> reads)).
Proof.
  intros Hb Hr. revert b Hb. induction Hr as [|r reads H1 _ IH]; intros b Hb; [done|].
  destruct (dump_iteration_ok b r Hb H1) as (b' & E & Hb'). cbn [dump_loop]. rewrite E.
  cbn [mbind outcome_bind]. by rewrite (IH b' Hb').
Qed.

(** ** Theorems *)

(** C19: whatever the device delivers, in pieces of at most 1024 characters, the loop
    reads neither uninitialised nor foreign memory, and prints for every
    non-empty piece its characters before the first NUL, but never the 1024th,
    and a line end: a full buffer loses its last character.  Text without NUL in
    shorter pieces is printed in full.  The program returns only with status 1,
    before the loop. *)
Theorem dump_prints (reads : list bytes) (Hr : Forall (fun r => length r ≤ BUFFER_SIZE) reads)
    (argc : nat) (opened : bool) :
  dump_main argc opened reads =
    (if decide (argc < 3) then returned 1 #"Usage: "
     else if opened then running (Ok (concat (dumped <$> reads)))
     else returned 1 #"Error opening serial device") ∧
  (∀ r, r ≠ [] → length r < BUFFER_SIZE → nul ∉ r → dumped r = r ++ [newline]) ∧
  (∀ r, length r = BUFFER_SIZE → nul ∉ r → dumped r = take (BUFFER_SIZE - 1) r ++ [newline]).
Proof.
  assert (∀ r : bytes, nul ∉ r → until_nul r = r) as Hid.
  { induction r as [|c r IH]; [done|]. intros [Hc Hn]%not_elem_of_cons. simpl.
    rewrite decide_False by congruence. by rewrite IH. }
  split; [|split].
  - unfold dump_main. case_decide; [done|]. destruct opened; [|done].
    by rewrite dump_loop_ok by (done || apply length_replicate).
  - intros r Hne Hlen Hn. destruct r as [|c r]; [done|]. unfold dumped. rewrite take_ge by lia. by rewrite Hid.
  - intros r Hlen Hn. destruct r as [|c r]; [done|]. unfold dumped. rewrite Hid; [done|].
    intros H. apply Hn. rewrite <- (take_drop (BUFFER_SIZE - 1)). apply elem_of_app. by left.
Qed.

Lemma dump_prints_witness :
  dump_main 3 true [ #"abc"; []; #"de"] = running (Ok (#"abc" ++ [newline] ++ #"de" ++ [newline])).
Proof.
  assert (Forall (fun r : bytes => length r ≤ BUFFER_SIZE) [ #"abc"; []; #"de"]) as H.
  { repeat constructor; unfold BUFFER_SIZE; simpl; lia. }
  destruct (dump_prints _ H 3 true) as [E _]. rewrite E. reflexivity.
Defined.
