(* ===== verification/Elves.v ===== *)
(** * Object lifetimes in raii.cc

    [Elf] prints its number and its address from its constructors and its destructor;
    the sequence of those lines is the observable behaviour of the test case.  The
    objects that exist are a finite map from addresses to numbers: an address is a
    place in a block of the heap or an automatic variable.  Where a new block is, and
    how much a full vector grows, is up to the library, a parameter each.

    A [std::vector<Elf>] that is full is reallocated: [Elf] declares a copy
    constructor and so has no move constructor, hence the elements are copied and the
    old ones destroyed.  Growing a [std::vector<std::unique_ptr<Elf>>] moves pointers
    and prints nothing.

    A scope is any sequence of the operations of the test case, with the test case as
    one of them; at its end the variables are destroyed in the reverse order of their
    declaration. *)

From Stdlib Require Import ZArith Lia Ascii.
From stdpp Require Import base list gmap sets strings.
From S2P Require Import Prelude.

(** ** Objects and lines *)

Inductive addr := Heap (block index : nat) | Stack (i : nat).
#[export] Instance addr_eq_dec : EqDecision addr.
Proof. solve_decision. Defined.
#[export] Instance addr_countable : Countable addr.
Proof.
  refine (inj_countable' (fun a => match a with Heap b i => inl (b, i) | Stack i => inr i end)
    (fun x => match x with inl (b, i) => Heap b i | inr i => Stack i end) _). by intros [].
Defined.

Inductive event :=
| New (id : Z) (this : addr)           (* "new elf    (id). addr this" *)
| Copy (id : Z) (this : addr)          (* "copy of    (id) addr this" *)
| Killed (id : Z) (this : addr)        (* "killed elf (id). addr this" *)
| Say (text : bytes).

Record store := mkStore { objects : gmap addr Z; blocks : gset nat; out : list event }.

Definition E (A : Type) : Type := store → outcome (A * store).
#[export] Instance E_ret : MRet E := fun A a st => Ok (a, st).
#[export] Instance E_bind : MBind E := fun A B f m st => '(a, st) ← m st; f a st.

Definition undef {A} (u : ub) : E A := fun _ => Undef u.

(** The constructors, the destructor, and a use of an object. *)
Definition construct (this : addr) (id : Z) (how : Z → addr → event) : E () := fun st =>
  Ok ((), mkStore (<[this := id]> (objects st)) (blocks st) (out st ++ [how id this])).
Definition id_of (this : addr) : E Z := fun st =>
  match objects st !! this with Some id => Ok (id, st) | None => Undef dangling end.
Definition destroy (this : addr) : E () :=
  id ← id_of this;
  (fun st => Ok ((), mkStore (delete this (objects st)) (blocks st) (out st ++ [Killed id this]))) : E ().
Definition copy_to (this other : addr) : E () := id ← id_of other; construct this id Copy.
Definition say (t : bytes) : E () := fun st => Ok ((), mkStore (objects st) (blocks st) (out st ++ [Say t])).

(** [Elf::toString]: an [int] written to a stream. *)
Definition toString (this : addr) : E bytes := id ← id_of this; mret (to_string_int id).

(** The text of a line; how an address is written is the library's. *)
Definition line (show : addr → bytes) (e : event) : bytes :=
  match e with
  | New id this => #"new elf    (" ++ to_string_int id ++ #"). " ++ [chr 9] ++ #"addr " ++ show this
  | Copy id this => #"copy of    (" ++ to_string_int id ++ #") " ++ [chr 9] ++ #"addr " ++ show this
  | Killed id this => #"killed elf (" ++ to_string_int id ++ #"). " ++ [chr 9] ++ #"addr " ++ show this
  | Say text => text
  end ++ [newline].

(** A statement for each element of a list, in order. *)
Fixpoint each {A} (f : A → E ()) (l : list A) : E () :=
  match l with [] => mret () | a :: l => f a;; each f l end.

Section Elves.
Context (new_block : gset nat → nat) (grow : nat → nat).

Definition allocate : E nat := fun st =>
  let b := new_block (blocks st) in Ok (b, mkStore (objects st) ({[b]} ∪ blocks st) (out st)).
Definition deallocate (b : nat) : E () := fun st => Ok ((), mkStore (objects st) (blocks st ∖ {[b]}) (out st)).

(** [new Elf(id)] and [delete]. *)
Definition new_elf (id : Z) : E nat := b ← allocate; construct (Heap b 0) id New;; mret b.
Definition delete_elf (b : nat) : E () := destroy (Heap b 0);; deallocate b.

(** ** [std::vector<Elf>] *)

Record elf_vector := mkElves { data : nat; count : nat; room : nat }.

(** Appending: the new element is constructed first; a full vector then copies its
    elements to the new storage, destroys the old ones and gives the storage back. *)
Definition append (v : elf_vector) (make : addr → E ()) : E elf_vector :=
  if decide (count v < room v) then
    make (Heap (data v) (count v));; mret (mkElves (data v) (S (count v)) (room v))
  else
    b ← allocate;
    make (Heap b (count v));;
    each (fun i => copy_to (Heap b i) (Heap (data v) i)) (seq 0 (count v));;
    each (fun i => destroy (Heap (data v) i)) (seq 0 (count v));;
    (if decide (room v = 0) then mret () else deallocate (data v));;
    mret (mkElves b (S (count v)) (grow (room v))).

Definition emplace_back (v : elf_vector) (id : Z) : E elf_vector := append v (fun this => construct this id New).
Definition elf_push_back (v : elf_vector) (e : addr) : E elf_vector := append v (fun this => copy_to this e).

Definition elf_pop_back (v : elf_vector) : E elf_vector :=
  match count v with
  | O => undef empty_pop
  | S n => destroy (Heap (data v) n);; mret (mkElves (data v) n (room v))
  end.

(** The destructor: the elements from the first to the last. *)
Definition vector_dtor (v : elf_vector) : E () :=
  each (fun i => destroy (Heap (data v) i)) (seq 0 (count v));;
  (if decide (room v = 0) then mret () else deallocate (data v)).

(** ** A scope with the variables of the test case *)

Record scope := mkScope {
  plist : list nat;        (* vector of unique_ptr *)
  fp : list nat;           (* unique_ptr variables *)
  elfbox : elf_vector;
  locals : nat }.          (* how many automatic variables of type Elf *)

Definition open_scope : scope := mkScope [] [] (mkElves 0 0 0) 0.

Inductive operation :=
| PushNew (id : Z)         (* plist.push_back(std::unique_ptr<Elf>(new Elf(id))) *)
| PtrNew (id : Z)          (* std::unique_ptr<Elf> fp(new Elf(id)) *)
| LocalElf (id : Z)        (* Elf e{id} *)
| EmplaceBack (id : Z)
| PushBackLocal (i : nat)  (* elfbox.push_back of the i-th automatic variable *)
| PrintPlist               (* the loop over plist *)
| PopElfbox
| PopPlist
| Text (t : bytes).

Definition print_plist (l : list nat) : E () :=
  each (fun '(i, b) => t ← toString (Heap b 0); say (#"plist[" ++ to_string_int (Z.of_nat i) ++ #"] " ++ t))
    (imap pair l).

Definition do_op (s : scope) (o : operation) : E scope :=
  match o with
  | PushNew id => b ← new_elf id; mret (mkScope (plist s ++ [b]) (fp s) (elfbox s) (locals s))
  | PtrNew id => b ← new_elf id; mret (mkScope (plist s) (fp s ++ [b]) (elfbox s) (locals s))
  | LocalElf id => construct (Stack (locals s)) id New;; mret (mkScope (plist s) (fp s) (elfbox s) (S (locals s)))
  | EmplaceBack id => v ← emplace_back (elfbox s) id; mret (mkScope (plist s) (fp s) v (locals s))
  | PushBackLocal i =>
      if decide (i < locals s) then
        v ← elf_push_back (elfbox s) (Stack i); mret (mkScope (plist s) (fp s) v (locals s))
      else undef bad_precondition
  | PrintPlist => print_plist (plist s);; mret s
  | PopElfbox => v ← elf_pop_back (elfbox s); mret (mkScope (plist s) (fp s) v (locals s))
  | PopPlist =>
      match last (plist s) with
      | Some b => delete_elf b;; mret (mkScope (removelast (plist s)) (fp s) (elfbox s) (locals s))
      | None => undef empty_pop
      end
  | Text t => say t;; mret s
  end.

(** Reverse order of declaration: [e], [elfbox], [fp], [plist]. *)
Definition close_scope (s : scope) : E () :=
  each (fun i => destroy (Stack i)) (reverse (seq 0 (locals s)));;
  vector_dtor (elfbox s);;
  each delete_elf (reverse (fp s));;
  each delete_elf (plist s).

Fixpoint run_ops (s : scope) (l : list operation) : E scope :=
  match l with
  | [] => mret s
  | o :: l' => s ← do_op s o; run_ops s l'
  end.

Definition whole_scope (l : list operation) : E () := s ← run_ops open_scope l; close_scope s.
Definition run_scope (l : list operation) : outcome (list event) :=
  '(_, st) ← whole_scope l (mkStore ∅ ∅ []); Ok (out st).

(** The test case. *)
Definition elf_test : list operation :=
  [PushNew 400; PtrNew 55; LocalElf 312; Text #"creating two elves"; EmplaceBack 2; PushBackLocal 0;
   PrintPlist; Text []; Text #"poping two elves."; PopElfbox; PopPlist; Text #"leaving context."].

(** ** What a sequence of lines says of the objects

    [replay]: every constructor runs at an address where no object lives, and every
    destructor ends the object that lives there. *)
Definition replay_event (m : gmap addr Z) (e : event) : option (gmap addr Z) :=
  match e with
  | New id a | Copy id a => match m !! a with None => Some (<[a := id]> m) | Some _ => None end
  | Killed id a => if decide (m !! a = Some id) then Some (delete a m) else None
  | Say _ => Some m
  end.

Fixpoint replay (m : gmap addr Z) (l : list event) : option (gmap addr Z) :=
  match l with [] => Some m | e :: l => m ← replay_event m e; replay m l end.

Lemma replay_snoc m l e : replay m (l ++ [e]) = m ← replay m l; replay_event m e.
Proof.
  revert m. induction l as [|e' l IH]; intros m; cbn.
  - by destruct (replay_event m e).
  - destruct (replay_event m e'); [apply IH|done].
Qed.

(** ** Safety

    [safe m Q]: [m] ends in a state that satisfies [Q], or it pops from an empty
    vector, or it names a variable that does not exist; nothing else goes wrong. *)
Definition safe {A} (m : E A) (Q : A → store → Prop) (st : store) : Prop :=
  match m st with
  | Ok (a, st') => Q a st'
  | Undef u => u = empty_pop ∨ u = bad_precondition
  | _ => False
  end.

Lemma safe_ret {A} (a : A) Q st : Q a st → safe (mret a) Q st.
Proof. done. Qed.
Lemma safe_bind {A B} (m : E A) (f : A → E B) Q st :
  safe m (fun a => safe (f a) Q) st → safe (m ≫= f) Q st.
Proof. unfold safe, mbind, E_bind. destruct (m st) as [[a st']| | |]; cbn; done. Qed.
Lemma safe_mono {A} (m : E A) (Q Q' : A → store → Prop) st :
  safe m Q' st → (∀ a st', Q' a st' → Q a st') → safe m Q st.
Proof. unfold safe. destruct (m st) as [[a st']| | |]; auto. Qed.

(** The lines so far lead to the objects that exist; [live a] tells which addresses
    these are, and [used b] which blocks are in use. *)
Definition models (live : addr → Prop) (used : nat → Prop) (st : store) : Prop :=
  replay ∅ (out st) = Some (objects st) ∧ (∀ a, is_Some (objects st !! a) ↔ live a) ∧ (∀ b, b ∈ blocks st ↔ used b).

Lemma models_iff (live live' : addr → Prop) (used used' : nat → Prop) st :
  models live used st → (∀ a, live a ↔ live' a) → (∀ b, used b ↔ used' b) → models live' used' st.
Proof. intros (Hr & Hl & Hu) Ha Hb. split_and!; [done|intros a; by rewrite Hl|intros b; by rewrite Hu]. Qed.

Lemma safe_construct (how : Z → addr → event) live used a id (Q : () → store → Prop) st :
  how = New ∨ how = Copy → models live used st → ¬ live a →
  (∀ st', models (fun a' => a' = a ∨ live a') used st' → Q () st') → safe (construct a id how) Q st.
Proof.
  intros Hhow (Hr & Hl & Hu) Ha HQ. unfold safe, construct. apply HQ. split_and!; cbn; [|intros a'|done].
  - assert (objects st !! a = None) as Hn by (apply eq_None_not_Some; by rewrite Hl).
    rewrite replay_snoc, Hr. destruct Hhow as [->| ->]; cbn; by rewrite Hn.
  - rewrite <- Hl. destruct (decide (a' = a)) as [->|Hne].
    + rewrite lookup_insert_eq. split; auto.
    + rewrite lookup_insert_ne by done. naive_solver.
Qed.

Lemma safe_id_of live used a (Q : Z → store → Prop) st :
  models live used st → live a → (∀ id, objects st !! a = Some id → Q id st) → safe (id_of a) Q st.
Proof. intros (_ & Hl & _) Ha HQ. unfold safe, id_of. apply Hl in Ha as [id E]. rewrite E. auto. Qed.

Lemma safe_destroy live used a (Q : () → store → Prop) st :
  models live used st → live a →
  (∀ st', models (fun a' => a' ≠ a ∧ live a') used st' → Q () st') → safe (destroy a) Q st.
Proof.
  intros H Ha HQ. apply safe_bind. eapply safe_id_of; [exact H|done|]. intros id E. apply HQ.
  destruct H as (Hr & Hl & Hu). split_and!; cbn; [|intros a'|done].
  - rewrite replay_snoc, Hr. cbn. by rewrite decide_True.
  - rewrite <- Hl. destruct (decide (a' = a)) as [->|Hne].
    + rewrite lookup_delete_eq. split; [by intros [? ?]|tauto].
    + rewrite lookup_delete_ne by done. tauto.
Qed.

Lemma safe_copy live used a a' (Q : () → store → Prop) st :
  models live used st → live a' → ¬ live a →
  (∀ st', models (fun a' => a' = a ∨ live a') used st' → Q () st') → safe (copy_to a a') Q st.
Proof.
  intros H Ha' Ha HQ. apply safe_bind. eapply safe_id_of; [done..|]. intros id _.
  eapply safe_construct; [by right|exact H|done|done].
Qed.

Lemma safe_say live used t (Q : () → store → Prop) st :
  models live used st → (∀ st', models live used st' → Q () st') → safe (say t) Q st.
Proof.
  intros (Hr & Hl & Hu) HQ. apply HQ. split_and!; [|done|done]. cbn. by rewrite replay_snoc, Hr.
Qed.

(** A block that is not in use, as [new] promises. *)
Hypothesis new_block_fresh : ∀ X, new_block X ∉ X.

Lemma safe_allocate live used (Q : nat → store → Prop) st :
  models live used st →
  (∀ b st', ¬ used b → models live (fun b' => b' = b ∨ used b') st' → Q b st') → safe allocate Q st.
Proof.
  intros (Hr & Hl & Hu) HQ. apply HQ; [rewrite <- Hu; apply new_block_fresh|].
  split_and!; [done|done|]. intros b'. cbn. rewrite <- Hu. set_solver.
Qed.

Lemma safe_deallocate live used b (Q : () → store → Prop) st :
  models live used st →
  (∀ st', models live (fun b' => b' ≠ b ∧ used b') st' → Q () st') → safe (deallocate b) Q st.
Proof.
  intros (Hr & Hl & Hu) HQ. apply HQ. split_and!; [done|done|]. intros b'. cbn. rewrite <- Hu. set_solver.
Qed.

(** A statement for each element, with an invariant on the elements that are left. *)
Lemma safe_each {A} (f : A → E ()) (P : list A → store → Prop) l (Q : () → store → Prop) st :
  P l st → (∀ a l' st, P (a :: l') st → safe (f a) (fun _ => P l') st) → (∀ st, P [] st → Q () st) →
  safe (each f l) Q st.
Proof.
  intros H Hf HQ. revert st H. induction l as [|a l IH]; intros st H; cbn; [by apply HQ|].
  apply safe_bind. eapply safe_mono; [by apply Hf|]. intros ? st' H'. by apply IH.
Qed.

(** The destruction of some objects, one after the other. *)
Lemma safe_destroy_all {A} (at_ : A → addr) live used l (Q : () → store → Prop) st :
  models live used st → NoDup (at_ <$> l) → (∀ a, a ∈ l → live (at_ a)) →
  (∀ st', models (fun a => live a ∧ a ∉ at_ <$> l) used st' → Q () st') →
  safe (each (fun a => destroy (at_ a)) l) Q st.
Proof.
  intros H Hnd Hl HQ.
  apply (safe_each _ (fun l' st => NoDup (at_ <$> l') ∧ (∀ a, a ∈ l' → a ∈ l) ∧
    models (fun a => live a ∧ (a ∈ at_ <$> l' ∨ a ∉ at_ <$> l)) used st)).
  - split_and!; [done|done|]. eapply models_iff; [exact H| |done]. intros a.
    destruct (decide (a ∈ at_ <$> l)); tauto.
  - intros a l' st1 (Hnd' & Hin & H1). rewrite fmap_cons in Hnd'. apply NoDup_cons in Hnd' as [Ha Hnd'].
    eapply safe_destroy; [exact H1| |].
    { split; [apply Hl, Hin; by left|left; by left]. }
    intros st2 H2. split_and!; [done|intros a' ?; apply Hin; by right|]. eapply models_iff; [exact H2| |done].
    intros a'. rewrite fmap_cons, elem_of_cons. split; [|intros [? [?|Hn]]].
    + tauto.
    + split; [by intros ->|tauto].
    + split; [|tauto]. intros ->. apply Hn. apply list_elem_of_fmap. exists a. split; [done|]. apply Hin. by left.
  - intros st1 (_ & _ & H1). apply HQ. eapply models_iff; [exact H1| |done]. intros a. cbn. set_solver.
Qed.

(** The copies of some objects in another block. *)
Lemma safe_copy_all live used b d n (Q : () → store → Prop) st :
  models live used st → (∀ i, i < n → live (Heap d i)) → (∀ i, i < n → ¬ live (Heap b i)) →
  (∀ st', models (fun a => live a ∨ (∃ i, i < n ∧ a = Heap b i)) used st' → Q () st') →
  safe (each (fun i => copy_to (Heap b i) (Heap d i)) (seq 0 n)) Q st.
Proof.
  intros H Hd Hb HQ.
  apply (safe_each _ (fun l' st => NoDup l' ∧ (∀ i, i ∈ l' → i < n) ∧
    models (fun a => live a ∨ (∃ i, i < n ∧ (i ∉ l') ∧ a = Heap b i)) used st)).
  - split_and!; [apply NoDup_seq|intros i Hi%elem_of_seq; lia|]. eapply models_iff; [exact H| |done].
    intros a. split; [auto|]. intros [?|(i & Hi & Hni & ->)]; [done|]. destruct Hni. apply elem_of_seq. lia.
  - intros i l' st1 ([Hi Hnd]%NoDup_cons & Hin & H1). eapply safe_copy; [exact H1| | |].
    + left. apply Hd, Hin. by left.
    + intros [Hl|(j & Hj & Hnj & [= ->])]; [revert Hl; apply Hb, Hin; by left|]. apply Hnj. by left.
    + intros st2 H2. split_and!; [done|intros j ?; apply Hin; by right|]. eapply models_iff; [exact H2| |done].
      intros a. split.
      * intros [->|[?|(j & Hj & Hnj & ->)]]; [right; exists i; split_and!; [apply Hin; by left|done..]|by left|].
        right. exists j. split_and!; [done| |done]. intros ?. apply Hnj. by right.
      * intros [?|(j & Hj & Hnj & ->)]; [by right; left|]. destruct (decide (j = i)) as [->|]; [by left|].
        right; right. exists j. split_and!; [done| |done]. intros [->|?]%elem_of_cons; done.
  - intros st1 (_ & _ & H1). apply HQ. eapply models_iff; [exact H1| |done]. intros a.
    split; (intros [?|(i & Hi)]; [by left|right; exists i]); [tauto|]. split_and!; [tauto| |tauto]. by intros ?%not_elem_of_nil.
Qed.

(** ** Vectors beside other objects

    [L] and [U]: the objects and the blocks that are not of the vector. *)
Definition vector_objects (v : elf_vector) (a : addr) : Prop := ∃ i, i < count v ∧ a = Heap (data v) i.
Definition vector_block (v : elf_vector) (b : nat) : Prop := room v ≠ 0 ∧ b = data v.

Record beside (L : addr → Prop) (U : nat → Prop) (v : elf_vector) (st : store) : Prop := {
  b_models : models (fun a => L a ∨ vector_objects v a) (fun b => U b ∨ vector_block v b) st;
  b_within : ∀ b i, L (Heap b i) → U b;
  b_apart : room v ≠ 0 → ¬ U (data v);
  b_room : count v ≤ room v }.

(** What is known of a constructor call that may read the objects in [L]. *)
Definition makes (L : addr → Prop) (make : addr → E ()) : Prop :=
  ∀ live used a Q st, models live used st → ¬ live a → (∀ a', L a' → live a') →
  (∀ st', models (fun a' => a' = a ∨ live a') used st' → Q () st') → safe (make a) Q st.

Lemma makes_new L id : makes L (fun this => construct this id New).
Proof. intros live used a Q st H Ha _ HQ. eapply safe_construct; [by left|exact H|done|done]. Qed.
Lemma makes_copy (L : addr → Prop) e : L e → makes L (fun this => copy_to this e).
Proof. intros He live used a Q st H Ha HL HQ. eapply safe_copy; [exact H|by apply HL|done|done]. Qed.

(** A vector grows when it is full. *)
Hypothesis grow_more : ∀ n, n < grow n.

Lemma append_in_place L U v make st :
  beside L U v st → makes L make → count v < room v →
  safe (make (Heap (data v) (count v)))
    (fun _ => beside L U (mkElves (data v) (S (count v)) (room v))) st.
Proof.
  intros [H Hw Ha Hr] Hm Hlt. eapply Hm; [exact H| |by left|].
  - intros [?%Hw|(i & Hi & [= ?])]; [apply Ha; [lia|done]|lia].
  - intros st' H'. split; [|done|done|cbn; lia]. eapply models_iff; [exact H'| |done]. intros a. cbn.
    split; [intros [->|[?|(i & ? & ->)]]|intros [?|(i & Hi & ->)]]; cbn in *.
    + right. eexists. split; [|done]. cbn. lia.
    + by left.
    + right. exists i. split; [cbn; lia|done].
    + by right; left.
    + destruct (decide (i = count v)) as [->|]; [by left|]. right; right. exists i. split; [lia|done].
Qed.

Lemma append_safe L U v make st :
  beside L U v st → makes L make → safe (append v make) (fun v' => beside L U v') st.
Proof.
  intros Hv Hm. unfold append. case_decide as Hfull.
  { apply safe_bind. eapply safe_mono; [by apply append_in_place|]. done. }
  destruct Hv as [H Hw Ha Hr]. apply safe_bind. eapply safe_allocate; [exact H|]. intros b st1 Hb H1.
  assert (¬ U b) as HUb by tauto.
  assert (∀ i, ¬ (L (Heap b i) ∨ vector_objects v (Heap b i))) as Hdead.
  { intros i [?%Hw|(j & Hj & [= -> ->])]; [done|]. apply Hb. right. split; [lia|done]. }
  apply safe_bind. eapply Hm; [exact H1|apply Hdead|by left|]. clear H1. intros st2 H2.
  apply safe_bind. eapply safe_copy_all; [exact H2| | |].
  { intros i Hi. right; right. by exists i. }
  { intros i Hi [[= Hn]|Hd]; [lia|by apply Hdead in Hd]. }
  clear H2. intros st3 H3. apply safe_bind.
  eapply (safe_destroy_all (Heap (data v))); [exact H3| | |].
  { apply NoDup_fmap_2; [by intros ?? [=]|apply NoDup_seq]. }
  { intros i Hi%elem_of_seq. left; right; right. exists i. split; [lia|done]. }
  clear H3. intros st4 H4. apply safe_bind.
  assert (∀ st', models (fun a => L a ∨ vector_objects (mkElves b (S (count v)) (grow (room v))) a)
    (fun b' => U b' ∨ b' = b) st' → beside L U (mkElves b (S (count v)) (grow (room v))) st') as Hend.
  { intros st' H'. pose proof (grow_more (room v)). split; [|done|done|cbn; lia].
    eapply models_iff; [exact H'|done|]. intros b'. unfold vector_block. cbn. split; intros [?|?]; try tauto.
    right. split; [lia|done]. }
  apply (models_iff _ (fun a => L a ∨ vector_objects (mkElves b (S (count v)) (grow (room v))) a) _ 
    (fun b' => b' = b ∨ U b' ∨ vector_block v b')) in H4; [|clear -Hw Ha Hr Hdead HUb Hb Hfull|done].
  - case_decide as Hroom.
    + apply safe_ret. apply Hend. eapply models_iff; [exact H4|done|]. intros b'. unfold vector_block. tauto.
    + eapply safe_deallocate; [exact H4|]. intros st5 H5. apply Hend. eapply models_iff; [exact H5|done|].
      intros b'. unfold vector_block. split; [tauto|]. intros [?| ->].
      * split; [|tauto]. intros ->. by apply Ha.
      * split; [|tauto]. intros ->. apply Hb. right. done.
  - intros a. cbn. split.
    + intros [[[->|[?|Hv]]|(i & Hi & ->)] Hn].
      * right. exists (count v). split; [cbn; lia|done].
      * by left.
      * destruct Hn. destruct Hv as (i & Hi & ->). apply list_elem_of_fmap. exists i. split; [done|]. apply elem_of_seq. lia.
      * right. exists i. split; [cbn; lia|done].
    + intros [HL|(i & Hi & ->)]; cbn in *.
      * split; [by left; right; left|]. intros (i & -> & Hi%elem_of_seq)%list_elem_of_fmap.
        apply Ha; [lia|by eapply Hw].
      * split.
        -- destruct (decide (i = count v)) as [->|]; [by left; left|]. right. exists i. split; [lia|done].
        -- intros (j & [= -> ->] & Hj%elem_of_seq)%list_elem_of_fmap. apply Hb. right. split; [lia|done].
Qed.

(** ** The scope *)

Lemma elem_of_snoc_l (l k : list nat) b x : x ∈ (l ++ [b]) ++ k ↔ x = b ∨ x ∈ l ++ k.
Proof. rewrite !elem_of_app, list_elem_of_singleton. tauto. Qed.
Lemma elem_of_snoc_r (l k : list nat) b x : x ∈ l ++ (k ++ [b]) ↔ x = b ∨ x ∈ l ++ k.
Proof. rewrite !elem_of_app, list_elem_of_singleton. tauto. Qed.


Definition own_blocks (s : scope) : list nat := plist s ++ fp s.
Definition others (s : scope) (a : addr) : Prop :=
  match a with Heap b i => b ∈ own_blocks s ∧ i = 0 | Stack i => i < locals s end.

Record scope_ok (s : scope) (st : store) : Prop := {
  s_beside : beside (others s) (.∈ own_blocks s) (elfbox s) st;
  s_nodup : NoDup (own_blocks s) }.

Lemma scope_ok_step (s s' : scope) live used st :
  scope_ok s st → elfbox s' = elfbox s → NoDup (own_blocks s') →
  (∀ b, b ∈ own_blocks s' → room (elfbox s) ≠ 0 → b ≠ data (elfbox s)) →
  ∀ st', models live used st' →
  (∀ a, live a ↔ others s' a ∨ vector_objects (elfbox s) a) →
  (∀ b, used b ↔ b ∈ own_blocks s' ∨ vector_block (elfbox s) b) → scope_ok s' st'.
Proof.
  intros [[_ _ _ Hr] _] Ev Hnd Hv st' H' Hl Hu. split; [|done]. rewrite Ev. split; [by eapply models_iff| | |done].
  - intros b i [? _]. done.
  - intros Hr' Hin. by apply (Hv _ Hin).
Qed.

(** An object of its own, on the heap. *)
Lemma new_elf_safe s id (Q : nat → store → Prop) st :
  scope_ok s st →
  (∀ b st', b ∉ own_blocks s → (room (elfbox s) ≠ 0 → b ≠ data (elfbox s)) →
     models (fun a => a = Heap b 0 ∨ others s a ∨ vector_objects (elfbox s) a)
       (fun b' => b' = b ∨ b' ∈ own_blocks s ∨ vector_block (elfbox s) b') st' → Q b st') →
  safe (new_elf id) Q st.
Proof.
  intros [[H Hw Ha Hr] Hnd] HQ. apply safe_bind. eapply safe_allocate; [exact H|]. intros b st1 Hb H1.
  apply safe_bind. eapply safe_construct; [by left|exact H1| |].
  { intros [[? _]|(i & Hi & [= -> _])]; [tauto|]. apply Hb. right. split; [lia|done]. }
  intros st2 H2. apply safe_ret, HQ; [tauto| |done]. intros Hroom ->. apply Hb. by right.
Qed.

(** The end of such an object. *)
Lemma delete_elf_safe live used b (Q : () → store → Prop) st :
  models live used st → live (Heap b 0) →
  (∀ st', models (fun a => a ≠ Heap b 0 ∧ live a) (fun b' => b' ≠ b ∧ used b') st' → Q () st') →
  safe (delete_elf b) Q st.
Proof.
  intros H Hl HQ. apply safe_bind. eapply safe_destroy; [exact H|done|]. intros st1 H1.
  eapply safe_deallocate; [exact H1|]. exact HQ.
Qed.

Lemma others_app s a b : others s a ↔ others s a ∧ (a ≠ Heap b 0 ∨ b ∈ own_blocks s).
Proof. split; [|tauto]. intros H. split; [done|]. destruct (decide (a = Heap b 0)) as [->|]; [right; by destruct H|by left]. Qed.

Lemma print_plist_safe s st : scope_ok s st → safe (print_plist (plist s)) (fun _ => scope_ok s) st.
Proof.
  intros Hs. unfold print_plist.
  apply (safe_each _ (fun l' st => (∀ i b, (i, b) ∈ l' → b ∈ plist s) ∧ scope_ok s st)); [|intros [i b] l' st1 [Hin H1]|by intros st1 [_ H1]].
  - split; [|done]. intros i b (j & y & [= -> ->] & Hj)%elem_of_lookup_imap. by eapply list_elem_of_lookup_2.
  - destruct H1 as [[H Hw Ha Hr] Hnd]. unfold toString. apply safe_bind, safe_bind. eapply safe_id_of; [exact H| |].
    { left. split; [|done]. apply elem_of_app. left. apply (Hin i). by left. }
    intros id _. apply safe_ret. eapply safe_say; [exact H|]. intros st2 H2.
    split; [intros j c ?; apply (Hin j); by right|]. by split.
Qed.

Lemma do_op_safe s o st : scope_ok s st → safe (do_op s o) scope_ok st.
Proof.
  intros Hs. destruct o; cbn [do_op].
  - apply safe_bind. eapply new_elf_safe; [done|]. intros b st' Hb Hd H'. apply safe_ret.
    eapply scope_ok_step; [exact Hs|done| | |exact H'|..]; unfold own_blocks, others in *; cbn.
    + rewrite <- app_assoc. cbn. rewrite <- Permutation_middle. apply NoDup_cons. split; [done|apply Hs].
    + intros b' [->|Hb']%elem_of_snoc_l Hr; [auto|]. intros ->. by apply (b_apart _ _ _ _ (s_beside _ _ Hs)).
    + intros [b' i|i]; [rewrite elem_of_snoc_l; naive_solver|naive_solver].
    + intros b'. rewrite elem_of_snoc_l. tauto.
  - apply safe_bind. eapply new_elf_safe; [done|]. intros b st' Hb Hd H'. apply safe_ret.
    eapply scope_ok_step; [exact Hs|done| | |exact H'|..]; unfold own_blocks, others in *; cbn.
    + rewrite app_assoc, <- Permutation_cons_append. apply NoDup_cons. split; [done|apply Hs].
    + intros b' [->|Hb']%elem_of_snoc_r Hr; [auto|]. intros ->. by apply (b_apart _ _ _ _ (s_beside _ _ Hs)).
    + intros [b' i|i]; [rewrite elem_of_snoc_r; naive_solver|naive_solver].
    + intros b'. rewrite elem_of_snoc_r. tauto.
  - apply safe_bind. pose proof Hs as [[H Hw Ha Hr] Hnd]. eapply safe_construct; [by left|exact H| |].
    { intros [?|(i & _ & [=])]. cbn in *. lia. }
    intros st' H'. apply safe_ret. eapply scope_ok_step; [exact Hs|done|done| |exact H'|..]; cbn.
    + intros b Hb Hroom ->. by apply Ha.
    + intros [b i|i]; cbn; [naive_solver|]. split; [intros [[= ->]|[?|?]]|intros [?|?]]; [left; lia|left; lia|by right| |by right; right].
      destruct (decide (i = locals s)) as [->|]; [by left|right; left; lia].
    + done.
  - apply safe_bind. eapply safe_mono; [eapply append_safe; [apply Hs|apply makes_new]|]. intros v st' Hv.
    apply safe_ret. split; [exact Hv|apply Hs].
  - case_decide as Hi; [|by right]. apply safe_bind.
    eapply safe_mono; [eapply append_safe; [apply Hs|by apply makes_copy]|]. intros v st' Hv.
    apply safe_ret. split; [exact Hv|apply Hs].
  - apply safe_bind. eapply safe_mono; [by apply print_plist_safe|]. done.
  - unfold elf_pop_back. destruct (count (elfbox s)) as [|n] eqn:En; [by left|].
    pose proof Hs as [[H Hw Ha Hr] Hnd]. do 2 apply safe_bind. eapply safe_destroy; [exact H| |].
    { right. exists n. split; [lia|done]. }
    intros st' H'. do 2 apply safe_ret. split; [|done]. split; [|done|done|cbn; lia].
    eapply models_iff; [exact H'| |done]. intros a. cbn. split.
    + intros [Hne [?|(i & Hi & ->)]]; [by left|]. right. exists i. split; [|done]. cbn.
      destruct (decide (i = n)) as [->|]; [done|lia].
    + intros [HL|(i & Hi & ->)]; cbn in *.
      * split; [|by left]. intros ->. apply Hw in HL. apply Ha; [lia|done].
      * split; [intros [= ->]; lia|]. right. exists i. split; [lia|done].
  - destruct (last (plist s)) as [b|] eqn:El; [|by left]. apply last_Some in El as [l El].
    pose proof Hs as [[H Hw Ha Hr] Hnd].
    assert (∀ x, x ∈ own_blocks s ↔ x = b ∨ x ∈ l ++ fp s) as Hmem by (intros x; unfold own_blocks; rewrite El; apply elem_of_snoc_l).
    assert ((b ∉ l ++ fp s) ∧ NoDup (l ++ fp s)) as [Hb Hnd'].
    { apply NoDup_cons. unfold own_blocks in Hnd. rewrite El, <- app_assoc in Hnd. cbn in Hnd. by rewrite <- Permutation_middle in Hnd. }
    clear Hnd. apply safe_bind. eapply delete_elf_safe; [exact H|left; split; [by apply Hmem; left|done]|]. intros st' H'.
    apply safe_ret. rewrite El, removelast_last.
    eapply scope_ok_step; [exact Hs|done|done| |exact H'|..]; unfold own_blocks; cbn.
    + intros b' Hb' Hroom ->. apply Ha; [done|]. apply Hmem. by right.
    + intros [b' i|i]; cbn; [|naive_solver]. rewrite Hmem. clear -Hb Ha Hr Hmem. split.
      * intros [Hne [[[->|?] ->]|?]]; [done|left; done|by right].
      * intros [[Hin ->]|(j & Hj & [= -> ->])].
        -- split; [by intros [= ->]|]. left. split; [by right|done].
        -- split; [|right; by exists j]. intros [= <- ->]. apply Ha; [lia|]. apply Hmem. by left.
    + intros b'. rewrite Hmem. clear -Hb Ha Hmem. split.
      * intros [? [[?|?]|?]]; [done|by left|by right].
      * intros [?|Hv]; (split; [|tauto]); [by intros ->|]. destruct Hv as [? ->]. intros Eb. apply Ha; [done|]. apply Hmem. by left.
  - apply safe_bind. pose proof Hs as [[H Hw Ha Hr] Hnd]. eapply safe_say; [exact H|]. intros st' H'. apply safe_ret. by split.
Qed.

Lemma run_ops_safe l s st : scope_ok s st → safe (run_ops s l) scope_ok st.
Proof.
  revert s st. induction l as [|o l IH]; intros s st Hs; cbn; [by apply safe_ret|].
  apply safe_bind. eapply safe_mono; [by apply do_op_safe|]. intros s' st' Hs'. by apply IH.
Qed.

Lemma delete_all_safe live used l (Q : () → store → Prop) st :
  models live used st → NoDup l → (∀ b, b ∈ l → live (Heap b 0)) →
  (∀ st', models (fun a => live a ∧ ∀ b, b ∈ l → a ≠ Heap b 0) (fun b => used b ∧ b ∉ l) st' → Q () st') →
  safe (each delete_elf l) Q st.
Proof.
  revert live used st. induction l as [|b l IH]; intros live used st H Hnd Hl HQ; cbn [each].
  { apply safe_ret, HQ. eapply models_iff; [exact H|..]; set_solver. }
  apply NoDup_cons in Hnd as [Hb Hnd]. apply safe_bind. eapply delete_elf_safe; [exact H|apply Hl; by left|]. intros st1 H1.
  eapply IH; [exact H1|done| |].
  - intros b' Hb'. split; [intros [= ->]; done|]. apply Hl. by right.
  - intros st2 H2. apply HQ. eapply models_iff; [exact H2|..]; intros ?; cbn.
    + split; [|naive_solver (set_solver)]. intros [[? ?] ?]. split; [done|]. intros b' [->|?]%elem_of_cons; auto.
    + rewrite not_elem_of_cons. tauto.
Qed.

Lemma close_scope_safe s st :
  scope_ok s st → safe (close_scope s) (fun _ => models (fun _ => False) (fun _ => False)) st.
Proof.
  intros [[H Hw Ha Hr] Hnd]. unfold close_scope. apply safe_bind.
  eapply (safe_destroy_all Stack); [exact H| | |].
  { apply NoDup_fmap_2; [by intros ?? [=]|]. rewrite reverse_Permutation. apply NoDup_seq. }
  { intros i Hi. rewrite reverse_Permutation in Hi. apply elem_of_seq in Hi. left. cbn. lia. }
  clear H. intros st1 H1. apply safe_bind. unfold vector_dtor. apply safe_bind.
  eapply (safe_destroy_all (Heap (data (elfbox s)))); [exact H1| | |].
  { apply NoDup_fmap_2; [by intros ?? [=]|apply NoDup_seq]. }
  { intros i Hi%elem_of_seq. split; [right; exists i; split; [lia|done]|]. by intros (? & [=] & _)%list_elem_of_fmap. }
  clear H1. intros st2 H2.
  apply (models_iff _ (fun a => ∃ b, b ∈ own_blocks s ∧ a = Heap b 0) _ (fun b => b ∈ own_blocks s ∨ vector_block (elfbox s) b)) in H2; [| |done].
  2:{ intros a. cbn. split.
      - intros [[[HL|(i & Hi & ->)] Hs] Hv].
        + destruct a as [b i|i]; [destruct HL as [? ->]; eauto|]. destruct Hs. apply list_elem_of_fmap. exists i.
          split; [done|]. rewrite reverse_Permutation. apply elem_of_seq. cbn in HL. lia.
        + destruct Hv. apply list_elem_of_fmap. exists i. split; [done|]. apply elem_of_seq. lia.
      - intros (b & Hb & ->). split; [split; [by left|]|].
        + by intros (? & [=] & _)%list_elem_of_fmap.
        + intros (i & [= -> <-] & Hi%elem_of_seq)%list_elem_of_fmap. apply Ha; [lia|done]. }
  apply (safe_mono _ _ (fun _ => models (fun a => ∃ b, b ∈ own_blocks s ∧ a = Heap b 0) (.∈ own_blocks s))).
  { case_decide as Hroom.
    - apply safe_ret. eapply models_iff; [exact H2|done|]. intros b. unfold vector_block. tauto.
    - eapply safe_deallocate; [exact H2|]. intros st3 H3. eapply models_iff; [exact H3|done|]. intros b. unfold vector_block.
      split; [tauto|]. intros Hb. split; [|by left]. intros ->. by apply Ha. }
  clear H2. intros ? st3 H3. apply safe_bind. unfold own_blocks in *. apply NoDup_app in Hnd as (Hp & Hd & Hf).
  eapply delete_all_safe; [exact H3|by rewrite reverse_Permutation| |].
  { intros b Hb. rewrite reverse_Permutation in Hb. exists b. split; [set_solver|done]. }
  clear H3. intros st4 H4. eapply delete_all_safe; [exact H4|done| |].
  { intros b Hb. split; [exists b; split; [set_solver|done]|]. intros b' Hb' [= ->].
    rewrite reverse_Permutation in Hb'. by apply (Hd b'). }
  intros st5 H5. eapply models_iff; [exact H5|..]; intros x; (split; [|done]).
  - intros [[(b & [Hb|Hb]%elem_of_app & ->) H1] H2]; [by eapply H2|]. eapply H1; [|done]. by rewrite reverse_Permutation.
  - intros [[[Hb|Hb]%elem_of_app H1] H2]; [done|]. apply H1. by rewrite reverse_Permutation.
Qed.

Lemma open_scope_ok : scope_ok open_scope (mkStore ∅ ∅ []).
Proof.
  split; [|constructor]. split; [split; [done|split]| | |]; cbn.
  - intros a. rewrite lookup_empty. split; [by intros [? ?]|]. intros [Ho|(i & Hi & _)]; [|cbn in Hi; lia].
    destruct a; [by destruct Ho as [?%not_elem_of_nil _]|cbn in Ho; lia].
  - intros b. split; [set_solver|]. intros [?%not_elem_of_nil|[? _]]; done.
  - by intros b i [?%not_elem_of_nil _].
  - intros _. apply not_elem_of_nil.
  - lia.
Qed.

(** What a scope leaves: nothing. *)
Lemma run_scope_safe l :
  match run_scope l with
  | Ok ev => replay ∅ ev = Some ∅
  | Undef u => u = empty_pop ∨ u = bad_precondition
  | _ => False
  end.
Proof.
  assert (safe (whole_scope l) (fun _ => models (fun _ => False) (fun _ => False)) (mkStore ∅ ∅ [])) as H.
  { apply safe_bind. eapply safe_mono; [apply run_ops_safe, open_scope_ok|]. intros s st Hs. by apply close_scope_safe. }
  unfold safe in H. unfold run_scope. destruct (whole_scope l (mkStore ∅ ∅ [])) as [[[] st]| | |]; cbn; try done.
  destruct H as (Hr & Hl & _). rewrite Hr. f_equal. apply map_eq. intros a. rewrite lookup_empty.
  apply eq_None_not_Some. by intros ?%Hl.
Qed.
End Elves.

(** ** Theorems *)

(** The lines of the test case, with the blocks of its objects: whether the vector has
    room for the second elf or grows. *)
Definition elf_lines (grows : bool) (b1 b2 b3 b4 : nat) : list event :=
  let box := if grows then b4 else b3 in
  [New 400 (Heap b1 0); New 55 (Heap b2 0); New 312 (Stack 0); Say #"creating two elves"; New 2 (Heap b3 0)] ++
  [Copy 312 (Heap box 1)] ++ (if grows then [Copy 2 (Heap b4 0); Killed 2 (Heap b3 0)] else []) ++
  [Say #"plist[0] 400"; Say []; Say #"poping two elves."; Killed 312 (Heap box 1); Killed 400 (Heap b1 0);
   Say #"leaving context."] ++
  [Killed 312 (Stack 0); Killed 2 (Heap box 0); Killed 55 (Heap b2 0)].

(** The evaluation of a program whose addresses are not known numbers. *)
Ltac read_objects :=
  repeat first
    [ progress cbv beta iota zeta delta [
        whole_scope run_ops do_op close_scope each seq reverse rev_append imap last removelast app fmap list_fmap
        append emplace_back elf_push_back elf_pop_back vector_dtor print_plist toString new_elf delete_elf
        allocate deallocate construct destroy copy_to id_of say undef open_scope
        mbind mret E_bind E_ret outcome_bind outcome_ret
        objects blocks out data count room plist fp elfbox locals compose length]
    | match goal with E : ?new_block ?X = _ |- context [?new_block ?X] => rewrite E end
    | rewrite lookup_insert_eq | rewrite lookup_insert_ne by congruence
    | rewrite lookup_delete_eq | rewrite lookup_delete_ne by congruence
    | rewrite decide_True by lia | rewrite decide_False by lia ].

Lemma elf_test_lines new_block grow :
  (∀ X, new_block X ∉ X) → (∀ n, n < grow n) →
  ∃ b1 b2 b3 b4, NoDup [b1; b2; b3; b4] ∧
    run_scope new_block grow elf_test = Ok (elf_lines (bool_decide (grow 0 = 1)) b1 b2 b3 b4).
Proof.
  intros Hb Hg.
  assert (∃ b1, new_block ∅ = b1) as [b1 E1] by eauto.
  assert (∃ b2, new_block ({[b1]} ∪ ∅) = b2) as [b2 E2] by eauto.
  assert (∃ b3, new_block ({[b2]} ∪ ({[b1]} ∪ ∅)) = b3) as [b3 E3] by eauto.
  assert (∃ b4, new_block ({[b3]} ∪ ({[b2]} ∪ ({[b1]} ∪ ∅))) = b4) as [b4 E4] by eauto.
  assert (b2 ≠ b1) by (pose proof (Hb ({[b1]} ∪ ∅)); set_solver).
  assert (b3 ≠ b1 ∧ b3 ≠ b2) as [? ?] by (pose proof (Hb ({[b2]} ∪ ({[b1]} ∪ ∅))); set_solver).
  assert (b4 ≠ b1 ∧ b4 ≠ b2 ∧ b4 ≠ b3) as (? & ? & ?) by (pose proof (Hb ({[b3]} ∪ ({[b2]} ∪ ({[b1]} ∪ ∅)))); set_solver).
  exists b1, b2, b3, b4. split.
  { repeat constructor; rewrite ?elem_of_cons; intros ?; destruct_or?; try done; try congruence; by eapply not_elem_of_nil. }
  unfold run_scope, elf_test. pose proof (Hg 0). pose proof (Hg 1). case_bool_decide as Hg1; read_objects; reflexivity.
Qed.

(** C10: wherever [new] finds memory that is not in use, and however the library grows
    vectors, every sequence of operations of the scope ends with every elf destroyed
    exactly once: each constructor runs at an address where no elf lives, each
    destructor ends the elf that lives at its address and prints its number, and at
    the end none lives; the only thing that can go wrong is to pop from an empty
    vector or to name a variable that does not exist.  The test case itself prints
    exactly [elf_lines]. *)
Theorem elves_balanced (new_block : gset nat → nat) (grow : nat → nat)
    (Hnew : ∀ X, new_block X ∉ X) (Hgrow : ∀ n, n < grow n) :
  (∀ l, match run_scope new_block grow l with
        | Ok ev => replay ∅ ev = Some ∅
        | Undef u => u = empty_pop ∨ u = bad_precondition
        | _ => False
        end) ∧
  ∃ b1 b2 b3 b4, NoDup [b1; b2; b3; b4] ∧
    run_scope new_block grow elf_test = Ok (elf_lines (bool_decide (grow 0 = 1)) b1 b2 b3 b4).
Proof. split; [intros l; by apply run_scope_safe|by apply elf_test_lines]. Qed.

(** The smallest block that is not in use, and a vector that doubles: the second elf of
    the box makes it grow, and a longer scope uses a block again. *)
Definition first_free (X : gset nat) : nat := fresh X.
Definition doubling (n : nat) : nat := (2 * n) `max` (n + 1).

Lemma elves_balanced_witness :
  (∃ b1 b2 b3 b4, run_scope first_free doubling elf_test = Ok (elf_lines true b1 b2 b3 b4)) ∧
  ∃ ev, run_scope first_free doubling [PushNew 1; PopPlist; PtrNew 2; EmplaceBack 3; EmplaceBack 4; EmplaceBack 5] = Ok ev ∧
    replay ∅ ev = Some ∅ ∧ length ev = 16.
Proof.
  destruct (elves_balanced first_free doubling ltac:(intros X; apply is_fresh) ltac:(unfold doubling; lia)) as [Hall (b1 & b2 & b3 & b4 & _ & E)].
  split; [by exists b1, b2, b3, b4|].
  specialize (Hall [PushNew 1; PopPlist; PtrNew 2; EmplaceBack 3; EmplaceBack 4; EmplaceBack 5]%Z).
  eexists. split; [vm_compute; reflexivity|]. split; [|vm_compute; reflexivity]. vm_compute in Hall. exact Hall.
Defined.
