(* ===== verification/EchoServers.v ===== *)
(** * The WebSocket examples: cjunk/practice/websocketBase.cpp and
    cjunk/practice/beastWebsocketServer.cpp

    Of the first the program is modelled: its two tests with the construction of the
    server and of the client, the event loop that returns when nothing is pending, and
    their exceptions.  Its handler chains are not: they read into string literals and
    name a variable [socket] that their lambdas do not capture.

    In the second the interest is in the lifetime of a [Session]: the reference
    count of its [shared_ptr] is part of the state, and a handler that runs after
    its object was destroyed is undefined behaviour. *)

From Stdlib Require Import ZArith Lia Ascii.
From stdpp Require Import base list gmap strings relations.
From S2P Require Import Prelude Double.

(** ** websocketBase.cpp *)

(** [start_accept]: a connection is handled and the next one awaited, until an error;
    [completions] tells which accepts succeed. *)
Fixpoint start_accept (completions : list bool) : nat * bool :=
  match completions with
  | [] => (0, true)
  | true :: l => let '(n, accepting) := start_accept l in (S n, accepting)
  | false :: _ => (0, false)
  end.

(** [io_service.run()] of the server returns when nothing is pending: no accept, and
    no operation of a connection. *)
Definition server_idle (completions : list bool) (operations : list nat) : bool :=
  negb (start_accept completions).2 && forallb (fun n => bool_decide (n = 0)) operations.

(** The [try] of both tests: the lines on the error stream. *)
Definition report_exception (body : outcome unit) : outcome (list bytes) :=
  match body with
  | Throw e => Ok [ #"Exception: " ++ what e ++ [newline]]
  | Ok _ => Ok []
  | Undef u => Undef u
  | Exit c => Exit c
  end.

(** What the system answers to the two programs: the acceptor for a port, the
    accepts that completed, how many operations each connection still waits for, the
    resolution of an address, and whether the connection succeeds. *)
Record network := {
  open_acceptor : Z → outcome unit; accepts : list bool; operations : list nat;
  from_string : bytes → outcome bytes; connects : bool }.

(** The constructor of the server, and the test: [None] as long as the test waits. *)
Definition WebSocketServer_ctor (nw : network) (port : bytes) : outcome unit :=
  p ← stoi port; open_acceptor nw p.
Definition test_websocket_server (nw : network) : option (outcome (list bytes * Z)) :=
  match WebSocketServer_ctor nw #"8080" with
  | Ok _ => if server_idle (accepts nw) (operations nw) then Some (Ok ([], 0%Z)) else None
  | ctor => Some ((fun lines => (lines, 0%Z)) <$> report_exception ctor)
  end.

(** [start_connect]: whether the connection is established. *)
Definition start_connect (nw : network) (address port : bytes) : outcome bool :=
  _ ← from_string nw address; _ ← stoi port; Ok (connects nw).
Definition test_websocket_client (nw : network) : outcome (list bytes * bool * Z) :=
  match start_connect nw #"localhost" #"8080" with
  | Ok c => Ok ([], c, 0%Z)
  | Throw e => lines ← report_exception (Throw e); Ok (lines, false, 0%Z)
  | Undef u => Undef u
  | Exit c => Exit c
  end.

(** [main] of websocketBase.cpp: the lines of both tests, whether the client was
    connected, and the exit status; [None] as long as the server runs. *)
Definition websocket_main (nw : network) : option (outcome (list bytes * bool * Z)) :=
  match test_websocket_server nw with
  | None => None
  | Some s => Some ('(lines, _) ← s; '(lines', c, _) ← test_websocket_client nw; Ok (lines ++ lines', c, 0%Z))
  end.

(** ** beastWebsocketServer.cpp *)

(** The constructor of [Server], by the answers of the system; [set_option] throws by
    itself. *)
Definition Server_ctor (open set_option bind listen : bool) : outcome unit :=
  if negb open then Throw (system_error #"open")
  else if negb set_option then Throw (system_error #"set_option")
  else if negb bind then Throw (system_error #"bind")
  else if negb listen then Throw (system_error #"listen")
  else Ok tt.

(** An operation of a session that the event loop will complete. *)
Inductive pending := PRead (session : nat) | PWrite (session : nat) (data : bytes).
#[global] Instance pending_eq_dec : EqDecision pending.
Proof. solve_decision. Defined.

(** The reference count of each session that exists, the operations under way, and
    what was received. *)
Record loop := mkLoop {
  use_count : gmap nat nat; next_session : nat; accepting : bool; queue : list pending;
  received : list bytes }.

Definition fresh_loop : loop := mkLoop ∅ 0 true [] [].

Definition with_counts (l : loop) (m : gmap nat nat) : loop :=
  mkLoop m (next_session l) (accepting l) (queue l) (received l).
Definition enqueue (l : loop) (p : pending) : loop :=
  mkLoop (use_count l) (next_session l) (accepting l) (queue l ++ [p]) (received l).

(** A [shared_ptr] to session [i] is made, and is destroyed. *)
Definition acquire (l : loop) (i : nat) : outcome loop :=
  match use_count l !! i with
  | Some n => Ok (with_counts l (<[i := S n]> (use_count l)))
  | None => Undef dangling
  end.
Definition release (l : loop) (i : nat) : outcome loop :=
  match use_count l !! i with
  | Some (S (S n)) => Ok (with_counts l (<[i := S n]> (use_count l)))
  | Some _ => Ok (with_counts l (delete i (use_count l)))
  | None => Undef dangling
  end.

(** [do_read] and [do_write]: [self] lives until the function returns; the handler is
    bound to [this]. *)
Definition do_read (l : loop) (i : nat) : outcome loop :=
  l ← acquire l i; release (enqueue l (PRead i)) i.
Definition do_write (l : loop) (i : nat) (data : bytes) : outcome loop :=
  l ← acquire l i; release (enqueue l (PWrite i data)) i.

(** The handlers dereference [this]. *)
Definition alive_session (l : loop) (i : nat) : outcome unit :=
  match use_count l !! i with Some _ => Ok tt | None => Undef dangling end.

Definition handle_read (l : loop) (i : nat) (ec : bool) (data : bytes) : outcome loop :=
  _ ← alive_session l i;
  if negb ec then
    do_write (mkLoop (use_count l) (next_session l) (accepting l) (queue l) (received l ++ [data])) i data
  else do_read l i.

Definition handle_write (l : loop) (i : nat) (ec : bool) : outcome loop :=
  _ ← alive_session l i; if negb ec then do_read l i else Ok l.

(** [handle_accept]: the temporary [shared_ptr] ends with the full expression. *)
Definition handle_accept (l : loop) (ec : bool) : outcome loop :=
  l ← (if negb ec then
         let i := next_session l in
         l ← do_read (mkLoop (<[i := 1]> (use_count l)) (S i) (accepting l) (queue l) (received l)) i;
         release l i
       else Ok l);
  Ok (mkLoop (use_count l) (next_session l) true (queue l) (received l)).

(** What the event loop delivers next: an accept, or the completion of the [k]-th
    operation under way, with what it brought. *)
Inductive completion := Accepted (ec : bool) | Completed (k : nat) (ec : bool) (data : bytes).

Definition dispatch (l : loop) (c : completion) : outcome loop :=
  match c with
  | Accepted ec => handle_accept l ec
  | Completed k ec data =>
      match queue l !! k with
      | None => Ok l
      | Some p =>
          let l := mkLoop (use_count l) (next_session l) (accepting l) (delete k (queue l)) (received l) in
          match p with
          | PRead i => handle_read l i ec data
          | PWrite i _ => handle_write l i ec
          end
      end
  end.

Fixpoint run_loop (l : loop) (cs : list completion) : outcome loop :=
  match cs with
  | [] => Ok l
  | c :: cs' => l ← dispatch l c; run_loop l cs'
  end.

(** No session outlives the function that started it. *)
Record loop_inv (l : loop) : Prop := {
  li_none : use_count l = ∅; li_received : received l = []; li_accepting : accepting l = true }.

Lemma handle_accept_inv l ec :
  loop_inv l → ∃ l', handle_accept l ec = Ok l' ∧ loop_inv l' ∧
    queue l' = queue l ++ (if ec then [] else [PRead (next_session l)]).
Proof.
  intros [Hn Hr Ha]. unfold handle_accept. destruct ec; simpl.
  { eexists. split; [done|]. split; [by split|]. by rewrite app_nil_r. }
  unfold do_read, acquire, release, enqueue, with_counts. simpl. rewrite !lookup_insert_eq. simpl.
  rewrite lookup_insert_eq. simpl. rewrite lookup_insert_eq. eexists. split; [done|].
  split; [|done]. split; simpl; [|done|done]. rewrite Hn. by rewrite !delete_insert_eq, delete_empty.
Qed.

Lemma run_loop_inv cs l l' : loop_inv l → run_loop l cs = Ok l' → loop_inv l'.
Proof.
  revert l. induction cs as [|c cs IH]; intros l Hl; simpl; [by intros [= <-]|].
  intros (l1 & E1 & E)%bind_ok. apply (IH l1); [|done]. destruct c as [ec|k ec data]; simpl in E1.
  - destruct (handle_accept_inv l ec Hl) as (l2 & E2 & H2 & _). congruence.
  - destruct Hl as [Hn Hr Ha]. destruct (queue l !! k) as [[i|i d]|]; [| |by injection E1 as <-].
    all: unfold handle_read, handle_write, alive_session in E1; simpl in E1; rewrite Hn in E1;
      by rewrite lookup_empty in E1.
Qed.

(** ** Theorems *)

(** The program never gets a client and a server of its own to talk to each other: it
    reaches the client only after an accept failed and every connection ended, or
    after the server could not be made; and since "localhost" is not a numeric
    address, the client then reports an exception and no connection is made. *)
Theorem websocket_main_never_connects (nw : network) (e : exn)
    (Haddress : from_string nw #"localhost" = Throw e) (r : outcome (list bytes * bool * Z))
    (Hmain : websocket_main nw = Some r) (Hacceptor : ∀ p, (∃ u, open_acceptor nw p = Ok u) ∨ ∃ e, open_acceptor nw p = Throw e) :
  ((∃ e', open_acceptor nw 8080 = Throw e') ∨ (false ∈ accepts nw ∧ Forall (fun n => n = 0) (operations nw))) ∧
  ∃ lines, r = Ok (lines ++ [ #"Exception: " ++ what e ++ [newline]], false, 0%Z).
Proof.
  unfold websocket_main, test_websocket_server, WebSocketServer_ctor in Hmain.
  change (stoi #"8080") with (Ok 8080%Z) in Hmain. cbn [mbind outcome_bind] in Hmain.
  assert (test_websocket_client nw = Ok ([ #"Exception: " ++ what e ++ [newline]], false, 0%Z)) as Hc.
  { unfold test_websocket_client, start_connect. by rewrite Haddress. }
  destruct (Hacceptor 8080%Z) as [[u Ea]|[e' Ea]]; rewrite Ea in Hmain; simpl in Hmain.
  - destruct (server_idle (accepts nw) (operations nw)) eqn:Hi; [|done]. injection Hmain as <-.
    apply andb_true_iff in Hi as [Hacc Hops]. split.
    + right. split.
      * clear -Hacc. induction (accepts nw) as [|[] l IH]; simpl in *; [done| |set_solver].
        destruct (start_accept l). set_solver.
      * rewrite forallb_forall in Hops. apply Forall_forall. intros n Hin.
        apply (bool_decide_eq_true_1 (n = 0)), Hops. by apply list_elem_of_In.
    + exists []. simpl. by rewrite Hc.
  - injection Hmain as <-. split; [left; eauto|]. exists [ #"Exception: " ++ what e' ++ [newline]]. simpl. by rewrite Hc.
Qed.

(** An accept that fails at once. *)
Lemma websocket_main_never_connects_witness :
  let nw := {| open_acceptor := fun _ => Ok tt; accepts := [true; false]; operations := [0];
               from_string := fun _ => Throw (system_error #"Invalid argument"); connects := true |} in
  websocket_main nw = Some (Ok ([ #"Exception: Invalid argument" ++ [newline]], false, 0%Z)) ∧
  false ∈ accepts nw.
Proof.
  split; [by vm_compute|].
  match goal with |- _ ∈ accepts ?n =>
    destruct (websocket_main_never_connects n (system_error #"Invalid argument") eq_refl
      (Ok ([ #"Exception: Invalid argument" ++ [newline]], false, 0%Z))) as [[[e He]|[H _]] _] end;
    [by vm_compute|by eauto|done|exact H].
Defined.

(** C30: the echo server of beastWebsocketServer.cpp never echoes: in every sequence of
    completions without undefined behaviour nothing is received, and every
    accepted connection leaves a read whose session is destroyed already, so
    that its completion, whatever it brings, is undefined behaviour. *)
Theorem beast_sessions_dangle (cs : list completion) (l : loop)
    (Hrun : run_loop fresh_loop cs = Ok l) :
  received l = [] ∧ accepting l = true ∧
  (∀ k ec data, k < length (queue l) → dispatch l (Completed k ec data) = Undef dangling) ∧
  (∃ l', dispatch l (Accepted false) = Ok l' ∧ queue l' ≠ []).
Proof.
  pose proof (run_loop_inv cs fresh_loop l ltac:(by split) Hrun) as Hl.
  destruct (Hl) as [Hn Hr Ha]. split; [done|]. split; [done|]. split.
  - intros k ec data Hk. simpl. destruct (lookup_lt_is_Some_2 _ _ Hk) as [[i|i d] ->].
    all: unfold handle_read, handle_write, alive_session; simpl; by rewrite Hn, lookup_empty.
  - destruct (handle_accept_inv l false Hl) as (l' & E & _ & Eq). exists l'. split; [done|].
    rewrite Eq. by destruct (queue l).
Qed.

Lemma beast_sessions_dangle_witness :
  ∃ l, run_loop fresh_loop [Accepted true; Accepted false] = Ok l ∧
    dispatch l (Completed 0 true []) = Undef dangling.
Proof.
  eexists. split; [by vm_compute|].
  apply (beast_sessions_dangle [Accepted true; Accepted false]); [by vm_compute|simpl; lia].
Defined.
