(* ===== verification/WebSocketPair.v ===== *)
(** * The WebSocket pair (cjunk/practice/websocket-somethingsMIssing.cpp)

    A server and a client in one program, which construct everything and never run
    the event loop, and the handler chains that would run if it did.  The file is
    unfinished; it is read so that the members exist where they are used
    ([start_accept], the second [handle_connection]), that sockets are
    constructed over the [io_service] of their class, that the message in
    [async_read] is a buffer of 50 bytes, and that the handler of a read gets
    what was read.  The sockets of the server are behind shared pointers, whose
    counts are part of the state. *)

From Stdlib Require Import ZArith Lia Ascii.
From stdpp Require Import base list gmap strings relations.
From S2P Require Import Prelude.

(** ** Shared sockets *)

Record sockets := mkSockets { counts : gmap nat nat; next_socket : nat }.

Definition make_shared (h : sockets) : nat * sockets :=
  (next_socket h, mkSockets (<[next_socket h := 1]> (counts h)) (S (next_socket h))).
Definition copy_ptr (i : nat) (h : sockets) : sockets :=
  mkSockets (alter S i (counts h)) (next_socket h).
(** The last pointer destroys the socket. *)
Definition drop_ptr (i : nat) (h : sockets) : sockets :=
  match counts h !! i with
  | Some (S (S n)) => mkSockets (<[i := S n]> (counts h)) (next_socket h)
  | _ => mkSockets (delete i (counts h)) (next_socket h)
  end.
Definition socket_alive (i : nat) (h : sockets) : bool := bool_decide (is_Some (counts h !! i)).

(** ** The server *)

(** The operation under way; a read may have found its 50 bytes when it was started. *)
Inductive server_op := OAccept | ORead (socket : nat) (found : option bytes) | OWrite (socket : nat).

Record web_server := mkServer {
  s_pending : option server_op; m_queue : list nat; shared : sockets;
  s_received : list bytes; answers : nat; s_log : list bytes }.

Definition server_empty : web_server := mkServer None [] (mkSockets ∅ 0) [] 0 [].

Definition s_say (what : bytes) (s : web_server) : web_server :=
  mkServer (s_pending s) (m_queue s) (shared s) (s_received s) (answers s) (s_log s ++ [what]).
Definition s_wait (op : option server_op) (s : web_server) : web_server :=
  mkServer op (m_queue s) (shared s) (s_received s) (answers s) (s_log s).
Definition s_share (h : sockets) (s : web_server) : web_server :=
  mkServer (s_pending s) (m_queue s) h (s_received s) (answers s) (s_log s).
Definition s_queue (q : list nat) (s : web_server) : web_server :=
  mkServer (s_pending s) q (shared s) (s_received s) (answers s) (s_log s).

Definition start_accept (s : web_server) : web_server := s_wait (Some OAccept) s.

(** [handle_connection(socket)], with the bytes that are there already. *)
Definition handle_connection_socket (socket : nat) (found : option bytes) (s : web_server) : web_server :=
  s_wait (Some (ORead socket found)) (s_say #"new connection" s).

(** [handle_connection()]: the local pointer lives until the function returns. *)
Definition handle_connection (found : option bytes) (s : web_server) : web_server :=
  match m_queue s with
  | [] => s
  | socket :: q =>
      let s := s_share (copy_ptr socket (shared s)) s in
      let s := s_queue q (s_share (drop_ptr socket (shared s)) s) in
      let s := handle_connection_socket socket found s in
      s_share (drop_ptr socket (shared s)) s
  end.

(** The handlers; [ec] says that the operation failed. *)
Definition accept_handler (ec : bool) (found : option bytes) (s : web_server) : web_server :=
  if negb ec then
    let '(new_socket, h) := make_shared (shared s) in
    let s := s_queue (m_queue s ++ [new_socket]) (s_share (copy_ptr new_socket h) s) in
    let s := handle_connection found s in
    s_share (drop_ptr new_socket (shared s)) s
  else s.

Definition read_handler (ec : bool) (data : bytes) (socket : nat) (s : web_server) : outcome web_server :=
  if negb ec then
    let s := s_say #"received data" s in
    let s := mkServer (s_pending s) (m_queue s) (shared s) (s_received s ++ [data]) (answers s) (s_log s) in
    let s := s_say #"data received" s in
    if socket_alive socket (shared s) then
      Ok (mkServer (Some (OWrite socket)) (m_queue s) (shared s) (s_received s) (S (answers s)) (s_log s))
    else Undef dangling
  else Ok s.

Definition write_handler (ec : bool) (s : web_server) : web_server :=
  if negb ec then start_accept (s_say #"sent data" s) else s.

(** What completes.  A read of a socket that was destroyed is aborted, unless its bytes
    had been found; [None]: the operation cannot complete in this way. *)
Inductive server_event := Accepted (ec : bool) (found : option bytes) | ReadDone (ec : bool) (data : bytes) | Written (ec : bool).

Definition server_step (e : server_event) (s : web_server) : option (outcome web_server) :=
  match s_pending s, e with
  | Some OAccept, Accepted ec found => Some (Ok (accept_handler ec found (s_wait None s)))
  | Some (ORead socket found), ReadDone ec data =>
      let possible := ec || match found with
                            | Some d => bool_decide (d = data)
                            | None => socket_alive socket (shared s)
                            end in
      if possible then Some (read_handler ec data socket (s_wait None s)) else None
  | Some (OWrite _), Written ec => Some (Ok (write_handler ec (s_wait None s)))
  | _, _ => None
  end.

Fixpoint server_run (es : list server_event) (s : web_server) : option (outcome web_server) :=
  match es with
  | [] => Some (Ok s)
  | e :: es =>
      match server_step e s with
      | Some (Ok s) => server_run es s
      | r => r
      end
  end.

(** ** The client *)

Inductive client_op := CRead | CWrite.
Record web_client := mkClient { c_pending : option client_op; c_received : list bytes; c_log : list bytes }.

Definition client_empty : web_client := mkClient None [] [].
Definition client_handle_connection (c : web_client) : web_client :=
  mkClient (Some CRead) (c_received c) (c_log c).
Definition client_read_handler (ec : bool) (data : bytes) (c : web_client) : web_client :=
  if negb ec then mkClient (Some CWrite) (c_received c ++ [data]) (c_log c) else c.
(** The class has no [start_accept] to call here. *)
Definition client_write_handler (ec : bool) (c : web_client) : web_client :=
  if negb ec then mkClient (c_pending c) (c_received c) (c_log c ++ [ #"sent data"]) else c.
Definition client_wait (op : option client_op) (c : web_client) : web_client :=
  mkClient op (c_received c) (c_log c).

(** ** Both, joined by a stream in each direction *)

Record pair := mkPair { srv : web_server; cli : web_client; to_server : bytes; to_client : bytes }.

(** The buffer of a read or write. *)
Definition buffer_size : nat := 50.
Definition take_buffer (stream : bytes) : option bytes :=
  if decide (buffer_size ≤ length stream) then Some (take buffer_size stream) else None.
Definition rest (found : option bytes) (stream : bytes) : bytes :=
  match found with Some _ => drop buffer_size stream | None => stream end.
Definition crlf : bytes := [chr 13; chr 10].
(** Both sides write the same text, cut off after 50 bytes. *)
Definition switching_text : bytes :=
  #"HTTP/1.1 101 Switching Protocols" ++ crlf ++ #"Upgrade: websocket" ++ crlf ++
  #"Connection: Upgrade" ++ crlf ++ #"Sec-WebSocket-Accept: s3pPLMBiTxaQ9kYGzzhZRbK+xOo=" ++ crlf ++ crlf.
Definition written : bytes := take buffer_size switching_text.

Inductive pair_step : pair → outcome pair → Prop :=
| PAccept ec s c ts tc r :
    server_step (Accepted ec (take_buffer ts)) s = Some r →
    pair_step (mkPair s c ts tc) (s ← r; Ok (mkPair s c (if ec then ts else rest (take_buffer ts) ts) tc))
| PServerFound ec data socket s c ts tc r :
    s_pending s = Some (ORead socket (Some data)) → server_step (ReadDone ec data) s = Some r →
    pair_step (mkPair s c ts tc) (s ← r; Ok (mkPair s c ts tc))
| PServerRead data socket s c ts tc r :
    s_pending s = Some (ORead socket None) → take_buffer ts = Some data →
    server_step (ReadDone false data) s = Some r →
    pair_step (mkPair s c ts tc) (s ← r; Ok (mkPair s c (rest (Some data) ts) tc))
| PServerReadFails socket s c ts tc r :
    s_pending s = Some (ORead socket None) → server_step (ReadDone true []) s = Some r →
    pair_step (mkPair s c ts tc) (s ← r; Ok (mkPair s c ts tc))
| PServerWrite ec s c ts tc r :
    server_step (Written ec) s = Some r →
    pair_step (mkPair s c ts tc) (s ← r; Ok (mkPair s c ts (if ec then tc else tc ++ written)))
| PClientRead data s c ts tc :
    c_pending c = Some CRead → take_buffer tc = Some data →
    pair_step (mkPair s c ts tc)
      (Ok (mkPair s (client_read_handler false data (client_wait None c)) ts (rest (Some data) tc)))
| PClientReadFails s c ts tc :
    c_pending c = Some CRead →
    pair_step (mkPair s c ts tc) (Ok (mkPair s (client_read_handler true [] (client_wait None c)) ts tc))
| PClientWrite ec s c ts tc :
    c_pending c = Some CWrite →
    pair_step (mkPair s c ts tc)
      (Ok (mkPair s (client_write_handler ec (client_wait None c)) (if ec then ts else ts ++ written) tc)).

(** A step without undefined behaviour. *)
Definition pair_next (p q : pair) : Prop := pair_step p (Ok q).

(** ** The program *)

(** Calls that throw when the system refuses them. *)
Fixpoint system_calls (names : list bytes) (answers : list bool) : outcome unit :=
  match names, answers with
  | [], _ => Ok tt
  | _ :: names, true :: answers => system_calls names answers
  | name :: _, _ => Throw (system_error name)
  end.

Definition WebSocketServer_ctor (answers : list bool) : outcome web_server :=
  _ ← system_calls [ #"resolve"; #"open"; #"set_option"; #"bind"; #"listen"] answers;
  Ok (start_accept server_empty).
Definition WebSocketClient_ctor (answers : list bool) : outcome web_client :=
  _ ← system_calls [ #"resolve"; #"open"; #"set_option"; #"connect"] answers;
  Ok (client_handle_connection client_empty).

(** Members, which are destroyed in the reverse order of their declaration; a socket or
    an acceptor unregisters itself with its [io_service]. *)
Inductive member := m_acceptor | m_socket | m_handler | m_sockets | m_io_service.
Definition server_members : list member := [m_acceptor; m_socket; m_handler; m_sockets; m_io_service].
Definition client_members : list member := [m_socket; m_handler; m_io_service].

Fixpoint destroy_members (service_alive : bool) (ms : list member) : outcome unit :=
  match ms with
  | [] => Ok tt
  | (m_acceptor | m_socket) :: ms =>
      if service_alive then destroy_members service_alive ms else Undef dangling
  | m_io_service :: ms => destroy_members false ms
  | (m_handler | m_sockets) :: ms => destroy_members service_alive ms
  end.
Definition destroy_object (declared : list member) : outcome unit := destroy_members true (reverse declared).

(** [main]: the lines it writes, and how it ends; nobody calls [run], so no handler does
    anything in the ten seconds. *)
Definition pair_main (for_server for_client : list bool) : list bytes * outcome Z :=
  match (s ← WebSocketServer_ctor for_server; c ← WebSocketClient_ctor for_client; Ok (mkPair s c [] [])) with
  | Ok p =>
      (s_log (srv p) ++ c_log (cli p) ++ [ #"server started"; #"client started"],
       _ ← destroy_object client_members; _ ← destroy_object server_members; Ok 0%Z)
  | Throw e => ([], Throw e)
  | Undef u => ([], Undef u)
  | Exit c => ([], Exit c)
  end.

(** The event loop at the end of the constructors. *)
Definition pair_init : pair :=
  mkPair (start_accept server_empty) (client_handle_connection client_empty) [] [].

(** ** What the server reaches *)

(** It has accepted at most one connection, whose socket is gone, and done nothing with it. *)
Definition server_inv (s : web_server) : Prop :=
  m_queue s = [] ∧ counts (shared s) = ∅ ∧ s_received s = [] ∧ answers s = 0 ∧ next_socket (shared s) ≤ 1 ∧
  match s_pending s with
  | None => True
  | Some OAccept => next_socket (shared s) = 0
  | Some (ORead socket _) => socket = 0 ∧ next_socket (shared s) = 1
  | Some (OWrite _) => False
  end.

Lemma server_inv_start : server_inv (start_accept server_empty).
Proof. repeat split; simpl; lia. Qed.

(** After an accept the pointers are dropped and the read refers to a destroyed socket. *)
Lemma accept_handler_spec found s :
  m_queue s = [] → counts (shared s) = ∅ → next_socket (shared s) = 0 →
  accept_handler false found s
  = mkServer (Some (ORead 0 found)) [] (mkSockets ∅ 1) (s_received s) (answers s) (s_log s ++ [ #"new connection"]).
Proof. destruct s as [op q [m n] rc a lg]. simpl. intros -> -> ->. reflexivity. Qed.

Lemma server_step_inv e s r :
  server_inv s → server_step e s = Some r →
  (r = Undef dangling ∧ ∃ data, s_pending s = Some (ORead 0 (Some data)) ∧ e = ReadDone false data) ∨
  (∃ s', r = Ok s' ∧ server_inv s').
Proof.
  destruct s as [op q [m n] rc a lg]. unfold server_inv, server_step. simpl. intros (-> & -> & -> & -> & Hn & Hop).
  destruct op as [[|socket found|]|], e as [ec f|ec data|ec]; simplify_eq/=; try done.
  - intros [= <-]. right. destruct ec; [by eexists|]. rewrite accept_handler_spec by done. by eexists.
  - destruct Hop as [-> ->]. destruct ec; simpl; [intros [= <-]; right; by eexists|].
    destruct found as [d|]; [|done]. case_bool_decide; [subst|done]. intros [= <-]. left. eauto.
Qed.

Lemma server_run_inv es s r :
  server_inv s → server_run es s = Some r → r = Undef dangling ∨ ∃ s', r = Ok s' ∧ server_inv s'.
Proof.
  revert s. induction es as [|e es IH]; intros s Hs; simpl; [intros [= <-]; eauto|].
  destruct (server_step e s) as [o|] eqn:E; [|done].
  destruct (server_step_inv e s o Hs E) as [[-> _]|(s' & -> & Hs')]; [intros [= <-]; auto|by apply IH].
Qed.

(** The server never answers and never accepts a second time.  Its handler drops the
    last pointer to the socket when it has started to read from it: the read is
    aborted, unless the request had arrived with the connection, and then the
    handler writes to the destroyed socket. *)
Theorem server_never_answers (es : list server_event) (r : outcome web_server)
    (Hrun : server_run es (start_accept server_empty) = Some r) :
  (r = Undef dangling ∨ ∃ s, r = Ok s ∧ answers s = 0 ∧ s_received s = [] ∧ next_socket (shared s) ≤ 1) ∧
  (∀ data, server_run [Accepted false (Some data); ReadDone false data] (start_accept server_empty)
     = Some (Undef dangling)) ∧
  (∀ data, server_run [Accepted false None; ReadDone false data] (start_accept server_empty) = None).
Proof.
  split; [|split].
  - destruct (server_run_inv es _ r server_inv_start Hrun) as [->|(s & -> & _ & _ & Hr & Ha & Hn & _)]; [by left|].
    right. eauto 10.
  - intros data. simpl. rewrite accept_handler_spec by done. unfold server_step. simpl. by rewrite bool_decide_true.
  - done.
Qed.

Lemma server_never_answers_witness :
  let r := server_run [Accepted false None; ReadDone true []] (start_accept server_empty) in
  match r with Some o => o = Undef dangling ∨ ∃ s, o = Ok s ∧ answers s = 0 ∧ s_received s = [] ∧ next_socket (shared s) ≤ 1
  | None => False end.
Proof.
  apply (server_never_answers [Accepted false None; ReadDone true []]). vm_compute. reflexivity.
Defined.

(** ** What the pair reaches *)

Definition quiet (s : web_server) : Prop :=
  server_inv s ∧ ∀ socket data, s_pending s ≠ Some (ORead socket (Some data)).
(** How many operations can still complete. *)
Definition server_weight (s : web_server) : nat :=
  match s_pending s with Some OAccept => 2 | Some _ => 1 | None => 0 end.
Definition client_weight (c : web_client) : nat :=
  match c_pending c with Some _ => 1 | None => 0 end.
Definition pair_weight (p : pair) : nat := server_weight (srv p) + client_weight (cli p).

Definition pair_inv (p : pair) : Prop :=
  quiet (srv p) ∧ to_server p = [] ∧ to_client p = [] ∧ c_received (cli p) = [] ∧
  c_pending (cli p) ≠ Some CWrite.

Lemma quiet_step e s r :
  quiet s → server_step e s = Some r →
  e = Accepted true None ∨ e = Accepted false None ∨ (∃ data, e = ReadDone true data) →
  ∃ s', r = Ok s' ∧ quiet s' ∧ server_weight s' < server_weight s.
Proof.
  intros [Hs Hf] E He. destruct (server_step_inv e s r Hs E) as [[-> (data & Hp & _)]|(s' & -> & Hs')];
    [by destruct (Hf _ _ Hp)|].
  exists s'. split; [done|]. unfold quiet, server_weight.
  refine ((fun H => conj (conj Hs' (proj1 H)) (proj2 H)) _).
  destruct Hs as (Hq & Hm & _ & _ & _ & Hop). unfold server_step in E.
  destruct (s_pending s) as [[|socket found|]|] eqn:Ep; try done.
  - destruct He as [->|[->|(data & ->)]]; [| |done]; injection E as <-; [simpl; split; [done|lia]|].
    rewrite accept_handler_spec by done. simpl. split; [congruence|lia].
  - destruct He as [->|[->|(data & ->)]]; [done..|]. injection E as <-. simpl. split; [done|lia].
Qed.

Lemma pair_step_inv p r : pair_inv p → pair_step p r → ∃ q, r = Ok q ∧ pair_inv q ∧ pair_weight q < pair_weight p.
Proof.
  unfold pair_inv, pair_weight. intros (Hs & Hts & Htc & Hrc & Hc) H.
  inversion H; simplify_eq/=; try done.
  - destruct (quiet_step _ _ _ Hs H0) as (s' & -> & Hs' & Hw); [destruct ec; auto|].
    eexists. split; [done|]. simpl. split_and!; try done; [by destruct ec|lia].
  - by destruct (proj2 Hs _ _ H0).
  - destruct (quiet_step _ _ _ Hs H1) as (s' & -> & Hs' & Hw); [eauto|].
    eexists. split; [done|]. simpl. split_and!; try done. lia.
  - destruct Hs as [(_ & _ & _ & _ & _ & Hop) _]. unfold server_step in *.
    destruct (s_pending s) as [[| |]|]; simplify_eq/=; done.
  - eexists. split; [done|]. simpl. split_and!; try done. unfold client_weight. rewrite H0. simpl. lia.
Qed.

Lemma pair_run_inv n p q :
  nsteps pair_next n p q → pair_inv p → pair_inv q ∧ n + pair_weight q ≤ pair_weight p.
Proof.
  induction 1 as [|n p p' q Hp _ IH]; intros Hinv; [by split|].
  destruct (pair_step_inv _ _ Hinv Hp) as (p1 & [= <-] & Hinv' & Hw).
  destruct (IH Hinv') as [Hq Hn]. split; [done|lia].
Qed.

(** If the event loop ran, nothing would be said either: both sides begin with a read.
    The pair does at most three steps, the accept and the failures of the two
    reads, without undefined behaviour, and no byte is sent in either direction. *)
Theorem pair_never_talks (n : nat) (p : pair) (Hrun : nsteps pair_next n pair_init p) :
  n ≤ 3 ∧ s_received (srv p) = [] ∧ c_received (cli p) = [] ∧ to_server p = [] ∧ to_client p = [] ∧
  ∀ r, pair_step p r → is_ok r = true.
Proof.
  destruct (pair_run_inv _ _ _ Hrun) as [Hinv Hn]; [by split_and!; [split; [apply server_inv_start|]|..]|].
  change (pair_weight pair_init) with 3 in Hn.
  destruct Hinv as ((Hs & Hf) & Hts & Htc & Hrc & Hc). pose proof Hs as (_ & _ & Hr & _).
  split_and!; try done; [lia|]. intros r Hr'.
  destruct (pair_step_inv p r) as (q & -> & _); [by split_and!|done|done].
Qed.

(** The accept, and then both reads give up. *)
Lemma pair_never_talks_witness :
  ∃ p, nsteps pair_next 3 pair_init p ∧ s_received (srv p) = [] ∧ c_received (cli p) = [].
Proof.
  set (s1 := accept_handler false None (s_wait None (start_accept server_empty))).
  set (c1 := client_wait None (client_handle_connection client_empty)).
  assert (nsteps pair_next 3 pair_init (mkPair (s_wait None s1) c1 [] [])) as Hrun.
  { apply nsteps_l with (mkPair s1 (client_handle_connection client_empty) [] []).
    - exact (PAccept false (start_accept server_empty) _ [] [] _ eq_refl).
    - apply nsteps_l with (mkPair (s_wait None s1) (client_handle_connection client_empty) [] []).
      + exact (PServerReadFails 0 s1 _ [] [] _ eq_refl eq_refl).
      + apply nsteps_once. exact (PClientReadFails _ (client_handle_connection client_empty) [] [] eq_refl). }
  eexists. split; [exact Hrun|]. by destruct (pair_never_talks _ _ Hrun) as (_ & H1 & H2 & _).
Defined.

(** The program writes its two lines and no other, or the error of the first call that
    the system refuses; and its end is undefined behaviour, because the [io_service]
    is declared last and destroyed first. *)
Theorem pair_main_result (for_server for_client : list bool) :
  (pair_main for_server for_client = ([ #"server started"; #"client started"], Undef dangling) ∧
     take 5 for_server = replicate 5 true ∧ take 4 for_client = replicate 4 true) ∨
  (∃ call, pair_main for_server for_client = ([], Throw (system_error call)) ∧
     call ∈ [ #"resolve"; #"open"; #"set_option"; #"bind"; #"listen"; #"connect"]).
Proof.
  unfold pair_main, WebSocketServer_ctor, WebSocketClient_ctor.
  destruct for_server as [|[] [|[] [|[] [|[] [|[] ss]]]]]; simpl;
    try (right; eexists; split; [reflexivity|set_solver]).
  destruct for_client as [|[] [|[] [|[] [|[] cs]]]]; simpl;
    try (right; eexists; split; [reflexivity|set_solver]).
  left. done.
Qed.
