(* ===== verification/Udp.v ===== *)
(** * The UDP examples: cjunk/practice/UDPServer2.cc and UDPSocketServer.cc

    The first file has a socket that exits on failure and a thread that receives
    datagrams until its flag is cleared; its test is a state machine in which the
    program, the network and failing calls make the steps.  [send] writes to the port
    the socket itself is bound to (a [port] that the class does not declare is read as
    the argument of the constructor), so the thread can receive the datagram, unless it
    is lost; anybody else may send one too.  [m_running] is a plain [bool] that both
    threads access.  The second has a socket whose constructor returns early on
    failure; descriptors are those of [SendFile]. *)

From Stdlib Require Import ZArith Lia Ascii.
From stdpp Require Import base list gmap sets strings relations.
From S2P Require Import Prelude Double SendFile Explore.

(** ** UDPServer2.cc: [SocketThread] *)

(** [SocketThread::run]; the thread that [std::thread] has not started yet is [Unborn]. *)
Inductive run_pc := Unborn | RCheck | RRecv | RCallback | REnded.
(** [test_socket_thread]: the two calls of the constructor of [Socket s], the
    constructor of [SocketThread], [s.send], and the destructors of [st] and [s]. *)
Inductive test_pc := TSocket | TBind | TStart | TSend | TStop | TJoin | TClose | TEnded.
(** Whether the process runs, called [exit(1)], or was terminated by an exception that
    nothing catches. *)
Inductive status := Running | Exited | Terminated.
#[global] Instance run_pc_eq_dec : EqDecision run_pc.
Proof. solve_decision. Defined.
#[global] Instance test_pc_eq_dec : EqDecision test_pc.
Proof. solve_decision. Defined.
#[global] Instance status_eq_dec : EqDecision status.
Proof. solve_decision. Defined.

(** [datagrams] counts what the kernel holds for the socket.  [run_read] and
    [test_wrote]: the thread has read [m_running], and the test has written it, since
    the thread was created; nothing orders the two. *)
Record udp_test := mkTest {
  run : run_pc; test : test_pc; m_running : bool; datagrams : nat; callbacks : nat;
  sock_open : bool; run_read : bool; test_wrote : bool; process : status }.
#[global] Instance udp_test_eq_dec : EqDecision udp_test.
Proof. solve_decision. Defined.

Definition data_race (s : udp_test) : bool := run_read s && test_wrote s.

Definition udp_start : udp_test := mkTest Unborn TSocket false 0 0 false false false Running.

Definition with_run (p : run_pc) (d c : nat) (s : udp_test) : udp_test :=
  mkTest p (test s) (m_running s) d c (sock_open s) (run_read s) (test_wrote s) (process s).
Definition with_test (p : test_pc) (s : udp_test) : udp_test :=
  mkTest (run s) p (m_running s) (datagrams s) (callbacks s) (sock_open s) (run_read s) (test_wrote s) (process s).
Definition with_sock (o : bool) (s : udp_test) : udp_test :=
  mkTest (run s) (test s) (m_running s) (datagrams s) (callbacks s) o (run_read s) (test_wrote s) (process s).
Definition ends_as (p : status) (s : udp_test) : udp_test :=
  mkTest (run s) (test s) (m_running s) (datagrams s) (callbacks s) (sock_open s) (run_read s) (test_wrote s) p.

(** The calls of [Socket::Socket]: each may fail, which ends the process. *)
Definition open_socket (s : udp_test) : list udp_test := [with_sock true (with_test TBind s); ends_as Exited s].
Definition bind_socket (s : udp_test) : list udp_test := [with_test TStart s; ends_as Exited s].

(** [SocketThread::SocketThread]; without a thread an exception leaves the test. *)
Definition SocketThread_ctor (s : udp_test) : list udp_test :=
  [mkTest RCheck TSend true (datagrams s) (callbacks s) (sock_open s) false false (process s); ends_as Terminated s].

(** [Socket::send] to the port of the socket itself: the datagram arrives or is lost. *)
Definition Udp_send (s : udp_test) : list udp_test := [with_run (run s) (S (datagrams s)) (callbacks s) s; s].
Definition Udp_close (s : udp_test) : udp_test := with_sock false s.

(** [test_socket], which starts no thread. *)
Definition Udp_Socket_ctor (socket_ok bind_ok : bool) : outcome udp_test :=
  if negb socket_ok then Exit 1
  else if negb bind_ok then Exit 1
  else Ok (with_sock true (with_test TStart udp_start)).
Definition Udp_test_socket (socket_ok bind_ok : bool) : outcome (list udp_test) :=
  s ← Udp_Socket_ctor socket_ok bind_ok; Ok (Udp_close <$> Udp_send s).

(** One step of [run]; [recvfrom] waits for a datagram. *)
Definition run_step (s : udp_test) : list udp_test :=
  match run s with
  | Unborn | REnded => []
  | RCheck =>
      [mkTest (if m_running s then RRecv else REnded) (test s) (m_running s) (datagrams s) (callbacks s)
         (sock_open s) true (test_wrote s) (process s)]
  | RRecv => match datagrams s with S d => [with_run RCallback d (callbacks s) s] | O => [] end
  | RCallback => [with_run RCheck (datagrams s) (S (callbacks s)) s]
  end.

(** One step of the test; [join] waits for the end of [run]. *)
Definition test_step (s : udp_test) : list udp_test :=
  match test s with
  | TSocket => open_socket s
  | TBind => bind_socket s
  | TStart => SocketThread_ctor s
  | TSend => with_test TStop <$> Udp_send s
  | TStop => [mkTest (run s) TJoin false (datagrams s) (callbacks s) (sock_open s) (run_read s) true (process s)]
  | TJoin => match run s with REnded => [with_test TClose s] | _ => [] end
  | TClose => [Udp_close (with_test TEnded s)]
  | TEnded => []
  end.

(** What comes from outside: a datagram of somebody else, and a failure of [recvfrom]. *)
Definition foreign_datagram (s : udp_test) : list udp_test :=
  if sock_open s then [with_run (run s) (S (datagrams s)) (callbacks s) s] else [].
Definition recv_error (s : udp_test) : list udp_test :=
  match run s with RRecv => [ends_as Exited s] | _ => [] end.

(** The steps of the program, and all steps. *)
Definition udp_own (s : udp_test) : list udp_test :=
  match process s with Running => run_step s ++ test_step s | _ => [] end.
Definition udp_outside (s : udp_test) : list udp_test :=
  match process s with Running => foreign_datagram s ++ recv_error s | _ => [] end.
Definition udp_next (s : udp_test) : list udp_test := udp_own s ++ udp_outside s.

Definition udp_ended (s : udp_test) : bool := bool_decide (test s = TEnded).
(** The destructor waits in [join] for a thread that waits for a datagram. *)
Definition udp_stuck (s : udp_test) : bool :=
  bool_decide (test s = TJoin) && bool_decide (run s = RRecv) && bool_decide (datagrams s = 0).

(** What holds in every state. *)
Definition udp_inv (s : udp_test) : Prop :=
  match test s with
  | TSocket => run s = Unborn ∧ test_wrote s = false ∧ process s ≠ Terminated
  | TBind => run s = Unborn ∧ test_wrote s = false ∧ process s ≠ Terminated
  | TStart => run s = Unborn ∧ test_wrote s = false
  | TSend | TStop => run s ≠ Unborn ∧ test_wrote s = false ∧ process s ≠ Terminated
  | TJoin => run s ≠ Unborn ∧ test_wrote s = true ∧ process s ≠ Terminated
  | TClose => run s = REnded ∧ test_wrote s = true ∧ process s = Running
  | TEnded => run s = REnded ∧ test_wrote s = true ∧ process s = Running ∧ sock_open s = false
  end ∧ (run s ≠ Unborn → run s = RCheck ∨ run_read s = true).

Lemma udp_inv_step s s' : udp_inv s → steps_to udp_next s s' → udp_inv s'.
Proof.
  destruct s as [r t m d c o rr tw p]. unfold steps_to, udp_next, udp_own, udp_outside, udp_inv. simpl.
  intros [Ht Hr] H. destruct p; simpl in H; [|by apply not_elem_of_nil in H..].
  unfold run_step, test_step, foreign_datagram, recv_error, open_socket, bind_socket,
    SocketThread_ctor, Udp_send in H. simpl in H.
  destruct t; simpl in Ht; destruct_and? Ht; subst; try destruct r; simpl in *; try done; try destruct o; try destruct d; simpl in *;
    rewrite ?elem_of_cons, ?elem_of_nil in H; destruct_or? H; subst; simpl; try destruct m; simpl; naive_solver.
Qed.

Lemma udp_reachable s : rtc (steps_to udp_next) udp_start s → udp_inv s.
Proof.
  apply (rtc_preserve (steps_to udp_next) udp_inv); [intros ??; apply udp_inv_step|].
  split; [done|]. by intros [].
Qed.

(** ** UDPSocketServer.cc *)

Inductive DataType :=
| kDataType_Padding | kDataType_PING | kDataType_ACK | kDataType_ResetStream
| kDataType_StopSending | kDataType_Crypto | kDataType_NewToken | kDataType_Stream | kDataType_Max.
Definition data_type_value (t : DataType) : Z :=
  match t with
  | kDataType_Padding => 0 | kDataType_PING => 1 | kDataType_ACK => 2 | kDataType_ResetStream => 3
  | kDataType_StopSending => 4 | kDataType_Crypto => 6 | kDataType_NewToken => 7
  | kDataType_Stream => 8 | kDataType_Max => 2147483647
  end.

(** The object: [_sock] is not set when the constructor returns early. *)
Record UdpSocket := mkUdp { _sock : option nat }.

(** What the system answers, in the order of the calls. *)
Record udp_answers := mkAnswers {
  socket_ok : bool; bind_ok : bool; getfl_ok : bool; setfl_ok : bool; send_ok : bool; recv_ok : bool }.

(** The descriptors that are open, the lines on the error stream and the outcome: the
    port is converted only once the socket is open, and the conversion throws. *)
Definition UDPSocket_ctor (sys : udp_answers) (port : bytes) (open_fds : gset nat)
    : gset nat * list bytes * outcome UdpSocket :=
  if negb (socket_ok sys) then (open_fds, [ #"socket() failed"], Ok (mkUdp None))
  else
    let sock := lowest_free open_fds in
    let open_fds := {[sock]} ∪ open_fds in
    match stoi port with
    | Ok _ =>
        if negb (bind_ok sys) then (open_fds, [ #"bind() failed"], Ok (mkUdp None))
        else if negb (getfl_ok sys) then (open_fds, [ #"fcntl() failed"], Ok (mkUdp None))
        else if negb (setfl_ok sys) then (open_fds, [ #"fcntl() failed"], Ok (mkUdp None))
        else (open_fds, [], Ok (mkUdp (Some sock)))
    | Throw e => (open_fds, [], Throw e)
    | Undef u => (open_fds, [], Undef u)
    | Exit c => (open_fds, [], Exit c)
    end.

(** [send], [receive] and [close] pass [_sock] to the kernel. *)
Definition UDPSocket_use (s : UdpSocket) : outcome nat :=
  match _sock s with Some fd => Ok fd | None => Undef uninit_read end.
Definition UDPSocket_send (sys : udp_answers) (s : UdpSocket) : outcome (list bytes) :=
  _ ← UDPSocket_use s; Ok (if send_ok sys then [] else [ #"send() failed"]).
Definition UDPSocket_receive (sys : udp_answers) (s : UdpSocket) : outcome (list bytes) :=
  _ ← UDPSocket_use s; Ok (if recv_ok sys then [] else [ #"recv() failed"]).
Definition UDPSocket_close (open_fds : gset nat) (s : UdpSocket) : outcome (gset nat) :=
  fd ← UDPSocket_use s; Ok (open_fds ∖ {[fd]}).

(** [test_socket]: there is no destructor; the sockets of the process afterwards and
    what it printed. *)
Definition test_socket (sys : udp_answers) (open_fds : gset nat) : outcome (gset nat * list bytes) :=
  let '(open_fds, lines, s) := UDPSocket_ctor sys #"1234" open_fds in
  s ← s;
  sent ← UDPSocket_send sys s; received ← UDPSocket_receive sys s;
  fds ← UDPSocket_close open_fds s; Ok (fds, lines ++ sent ++ received).
Definition udp_server_main (sys : udp_answers) (open_fds : gset nat) : outcome (gset nat * list bytes * Z) :=
  '(fds, lines) ← test_socket sys open_fds; Ok (fds, lines, 0%Z).

(** The socket is set up by four calls. *)
Definition set_up (sys : udp_answers) : bool :=
  socket_ok sys && bind_ok sys && getfl_ok sys && setfl_ok sys.

(** The test gives its descriptor back if the socket is set up, whether or not it sends
    and receives; otherwise it uses the member that was never set, and a descriptor that
    was opened is lost. *)
Lemma test_socket_spec sys open_fds :
  udp_server_main sys open_fds =
    (if set_up sys
     then Ok (open_fds, (if send_ok sys then [] else [ #"send() failed"]) ++
                        (if recv_ok sys then [] else [ #"recv() failed"]), 0%Z)
     else Undef uninit_read) ∧
  (socket_ok sys = true → set_up sys = false → ∀ port,
   size (UDPSocket_ctor sys port open_fds).1.1 = S (size open_fds)).
Proof.
  pose proof (lowest_free_free open_fds) as Hf.
  assert (size ({[lowest_free open_fds]} ∪ open_fds) = S (size open_fds)) as Es.
  { rewrite size_union by set_solver. by rewrite size_singleton. }
  assert (({[lowest_free open_fds]} ∪ open_fds) ∖ {[lowest_free open_fds]} = open_fds) as Ed.
  { apply leibniz_equiv. set_solver. }
  destruct sys as [[] [] [] [] sd rc]; unfold set_up; simpl; (split; [|intros ?? port]); try done.
  all: try (unfold UDPSocket_ctor; simpl; by destruct (stoi port)).
  unfold udp_server_main, test_socket, UDPSocket_ctor. change (stoi #"1234") with (Ok 1234%Z). simpl.
  unfold UDPSocket_close, UDPSocket_send, UDPSocket_receive. simpl. by rewrite Ed.
Qed.

(** ** Theorems *)

(** A program that cannot go on by itself. *)
Lemma udp_waits s : udp_inv s → udp_own s = [] →
  process s ≠ Running ∨ udp_stuck s = true ∨ udp_ended s = true.
Proof.
  intros [Ht _] H. destruct s as [r t m d c o rr tw p]. unfold udp_own, udp_stuck, udp_ended in *. simpl in *.
  destruct p; [|by left..]. right. apply app_nil in H as [Hrun Htest].
  destruct t; simpl in *; try discriminate; try (by right). left.
  destruct r; simpl in *; try discriminate; try (by destruct Ht). by destruct d.
Qed.

(** The choices that lead to an exit, and to the hanging; each is a step of [udp_next]. *)
Definition exit_choices (pc : test_pc) : list nat :=
  match pc with TSocket => [1] | TBind => [0; 1] | _ => [0; 0; 0; 0; 1; 0; 1] end.
Definition hang_choices (n : nat) : list nat :=
  match n with O => [0; 0; 0; 0; 1; 0] | _ => [0; 0; 0; 0; 0; 0; 0; 0; 0] end.

Definition exits_at (pc : test_pc) (s : udp_test) : bool :=
  bool_decide (process s = Exited) && bool_decide (test s = pc).
Definition hangs_after (n : nat) (s : udp_test) : bool :=
  bool_decide (udp_own s = []) && udp_stuck s && bool_decide (callbacks s = n) &&
  existsb (reaches udp_next udp_ended 6) (foreign_datagram s).

Lemma udp_exits pc :
  match follow udp_next (exit_choices pc) udp_start with Some s => exits_at pc s | None => false end = true →
  ∃ s, rtc (steps_to udp_next) udp_start s ∧ process s = Exited ∧ test s = pc.
Proof.
  intros (s & Hr & [H1 H2]%andb_true_iff)%(follow_to udp_next). exists s.
  by apply bool_decide_eq_true in H1, H2.
Qed.

Lemma udp_hangs n :
  match follow udp_next (hang_choices n) udp_start with Some s => hangs_after n s | None => false end = true →
  ∃ s, rtc (steps_to udp_next) udp_start s ∧ udp_own s = [] ∧ udp_stuck s = true ∧ callbacks s = n ∧
     ∃ s', s' ∈ foreign_datagram s ∧ ∃ s'', rtc (steps_to udp_next) s' s'' ∧ udp_ended s'' = true.
Proof.
  intros (s & Hr & H)%(follow_to udp_next). unfold hangs_after in H. rewrite !andb_true_iff, !bool_decide_eq_true in H.
  destruct H as [[[Ho Hs] Hc] He]. exists s. split_and!; try done.
  apply existsb_exists in He as (s' & Hin%list_elem_of_In & Hre). exists s'. split; [done|by apply reaches_rtc in Hre].
Qed.

(** C40: what [test_socket_thread] of UDPServer2.cc can come to.  When it cannot go on by
    itself, it exited, because a socket could not be opened or bound or [recvfrom]
    failed; or it was terminated, because the thread could not be created; or it
    returned, with the thread joined and the socket closed; or it hangs, the
    destructor of [SocketThread] waiting for a thread that waits for a datagram.  In
    the last two cases the two threads have raced on [m_running].  All of this happens,
    the hanging both when the datagram was delivered and when it was lost; only a
    datagram of somebody else, or a failure, ends the hanging. *)
Theorem udp_thread_can_hang :
  (∀ s, rtc (steps_to udp_next) udp_start s → udp_own s = [] →
     process s = Exited ∨
     (process s = Terminated ∧ test s = TStart) ∨
     (udp_ended s = true ∧ sock_open s = false ∧ run s = REnded ∧ data_race s = true) ∨
     (udp_stuck s = true ∧ data_race s = true)) ∧
  (∀ pc, pc ∈ [TSocket; TBind; TJoin] →
     ∃ s, rtc (steps_to udp_next) udp_start s ∧ process s = Exited ∧ test s = pc) ∧
  (∃ s, rtc (steps_to udp_next) udp_start s ∧ process s = Terminated) ∧
  (∃ s, rtc (steps_to udp_next) udp_start s ∧ udp_ended s = true) ∧
  (∀ n, n ≤ 1 → ∃ s, rtc (steps_to udp_next) udp_start s ∧ udp_own s = [] ∧ udp_stuck s = true ∧ callbacks s = n ∧
     ∃ s', s' ∈ foreign_datagram s ∧ ∃ s'', rtc (steps_to udp_next) s' s'' ∧ udp_ended s'' = true).
Proof.
  split.
  { intros s Hr Hn. pose proof (udp_reachable s Hr) as Hinv. pose proof (udp_waits s Hinv Hn) as Hw.
    destruct Hinv as [Ht Hread]. destruct s as [r t m d c o rr tw p]. unfold udp_stuck, udp_ended, data_race in *. simpl in *.
    destruct p; [|by left|].
    - destruct Hw as [?|[Hst|He]]; [done| |].
      + do 3 right. destruct t; try discriminate. destruct r; try discriminate. destruct Ht as (_ & -> & _).
        split; [done|]. destruct Hread as [?| ->]; done.
      + do 2 right. left. destruct t; try discriminate. destruct Ht as (-> & -> & _ & ->). split_and!; try done.
        destruct Hread as [?| ->]; done.
    - right; left. destruct t; naive_solver. }
  split; [|split; [|split]].
  - intros pc Hpc. apply udp_exits. rewrite !elem_of_cons, elem_of_nil in Hpc. destruct_or! Hpc; subst; vm_compute; reflexivity.
  - destruct (follow_to udp_next [0; 0; 1] udp_start (fun s => bool_decide (process s = Terminated)))
      as (s & Hr & H); [vm_compute; reflexivity|]. exists s. split; [done|by apply bool_decide_eq_true in H].
  - apply (reaches_rtc udp_next udp_ended 12). vm_compute. reflexivity.
  - intros n Hn. apply udp_hangs. destruct n as [|[|n]]; [vm_compute; reflexivity..|lia].
Qed.
