(* ===== verification/ImageNetwork.v ===== *)
(** * The digit classifier of cjunk/practice/ImageNeuralNetwork.cpp

    OpenCV and the file system are parameters: how a picture is read, resized and
    thresholded, and what its network learns and answers.  A cell of a [cv::Mat]
    that nothing has written is [None]: the constructor of [cv::Mat] with a size
    does not initialise its elements. *)

From Stdlib Require Import ZArith Lia Ascii.
From stdpp Require Import base list strings.
From S2P Require Import Prelude Double.

(** A picture: its pixels in row order. *)
Record mat := mkMat { rows : nat; cols : nat; pixels : list Z }.
Definition total (m : mat) : nat := rows m * cols m.

(** [image.at<uchar>(0, 0)]. *)
Definition first_pixel (m : mat) : outcome Z :=
  match pixels m with p :: _ => Ok p | [] => Undef oob_access end.

(** [ss >> word]: the characters up to the next space, after the leading ones. *)
Fixpoint span_word (l : bytes) : bytes * bytes :=
  match l with
  | [] => ([], [])
  | c :: l' => if isspace c then ([], l) else let '(w, r) := span_word l' in (c :: w, r)
  end.
Definition read_word (l : bytes) : bytes * bytes := span_word (drop_spaces l).

Section ImageNetwork.
Context (file_lines : bytes → option (list bytes)) (imread : bytes → option mat)
  (resize28 : mat → mat) (threshold : mat → mat).
(** [ANN_MLP]: its state, [train] and the first element of what [predict] returns. *)
Context {net : Type} (fresh_net : list nat → net)
  (ann_train : net → list (list (option Z)) → list Z → net) (ann_predict : net → list (option Z) → Z).

(** ** [Image] and [DataSet] *)

Definition Image_ctor (filename : bytes) : outcome mat :=
  match imread filename with
  | None => Exit 1
  | Some image => Ok (threshold (resize28 image))
  end.

Record DataSet := mkData { labels : list Z; images : list mat }.

Fixpoint load_lines (lines : list bytes) (d : DataSet) : outcome DataSet :=
  match lines with
  | [] => Ok d
  | line :: lines' =>
      let '(label, ss) := read_word line in
      n ← stoi label;
      let '(filename, _) := read_word ss in
      image ← Image_ctor filename;
      load_lines lines' (mkData (labels d ++ [n]) (images d ++ [image]))
  end.

Definition DataSet_ctor (filename : bytes) : outcome DataSet :=
  match file_lines filename with
  | None => Exit 1
  | Some lines => load_lines lines (mkData [] [])
  end.

(** ** [NeuralNetwork] *)

(** A row of [n] elements of which the first is set. *)
Definition input_row (n : nat) (p : Z) : outcome (list (option Z)) :=
  match n with O => Undef oob_access | S n' => Ok (Some p :: replicate n' None) end.

Fixpoint input_rows (n : nat) (l : list mat) : outcome (list (list (option Z))) :=
  match l with
  | [] => Ok []
  | m :: l' => p ← first_pixel m; r ← input_row n p; rs ← input_rows n l'; Ok (r :: rs)
  end.

Definition train (network : net) (data : DataSet) : outcome net :=
  match images data with
  | [] => Undef oob_access
  | m0 :: _ =>
      inputs ← input_rows (total m0) (images data);
      Ok (ann_train network inputs (labels data))
  end.

Definition predict (network : net) (image : mat) : outcome Z :=
  p ← first_pixel image; inputs ← input_row (total image) p; Ok (ann_predict network inputs).

(** ** [main] *)

Fixpoint count_correct (network : net) (l : list (mat * Z)) (correct : Z) : outcome Z :=
  match l with
  | [] => Ok correct
  | (image, expected) :: l' =>
      label ← predict network image;
      correct ← (if (label =? expected)%Z then int32 (correct + 1) else Ok correct);
      count_correct network l' correct
  end.

(** The two numbers that the accuracy is the quotient of. *)
Definition image_main (argc : nat) (train_file test_file : bytes) : outcome (Z * nat) :=
  if decide (argc = 3) then
    training_data ← DataSet_ctor train_file;
    test_data ← DataSet_ctor test_file;
    network ← train (fresh_net [28 * 28; 100; 10]) training_data;
    correct ← count_correct network (zip (images test_data) (labels test_data)) 0;
    Ok (correct, length (images test_data))
  else Exit 1.

(** ** Loading *)

(** Pictures that come out of the constructor of [Image]. *)
Hypothesis resize_size : ∀ m, rows (threshold (resize28 m)) = 28 ∧ cols (threshold (resize28 m)) = 28 ∧
  length (pixels (threshold (resize28 m))) = 784.
Hypothesis threshold_binary : ∀ m p, p ∈ pixels (threshold m) → p = 0%Z ∨ p = 255%Z.

Definition binary_image (m : mat) : Prop :=
  total m = 784 ∧ ∃ p, first_pixel m = Ok p ∧ (p = 0%Z ∨ p = 255%Z).

Lemma Image_ctor_binary filename m : Image_ctor filename = Ok m → binary_image m.
Proof using resize_size threshold_binary.
  unfold Image_ctor. destruct (imread filename) as [i|]; [|done]. intros [= <-].
  destruct (resize_size i) as (Hr & Hc & Hl). split; [unfold total; by rewrite Hr, Hc|].
  unfold first_pixel. destruct (pixels (threshold (resize28 i))) as [|p l] eqn:E; [done|].
  exists p. split; [done|]. apply (threshold_binary (resize28 i)). rewrite E. by left.
Qed.

Lemma load_lines_ok lines d d' :
  load_lines lines d = Ok d' → length (labels d) = length (images d) → Forall binary_image (images d) →
  length (labels d') = length (images d') ∧ Forall binary_image (images d') ∧
  length (images d') = length (images d) + length lines.
Proof using resize_size threshold_binary.
  revert d. induction lines as [|line lines IH]; intros d; simpl.
  { intros [= <-] Hl Hb. split; [done|]. split; [done|lia]. }
  destruct (read_word line) as [label ss]. intros (n & En & H)%bind_ok.
  destruct (read_word ss) as [filename ?]. apply bind_ok in H as (m & Em & H). intros Hl Hb.
  destruct (IH _ H) as (H1 & H2 & H3); simpl in *.
  - rewrite !length_app, Hl. done.
  - apply Forall_app. split; [done|]. constructor; [by eapply Image_ctor_binary|constructor].
  - rewrite length_app in H3. simpl in H3. split; [done|]. split; [done|lia].
Qed.

(** A data set has as many labels and pictures as its file has lines. *)
Lemma DataSet_ctor_ok filename lines d :
  file_lines filename = Some lines → DataSet_ctor filename = Ok d →
  length (labels d) = length lines ∧ length (images d) = length lines ∧ Forall binary_image (images d).
Proof using resize_size threshold_binary.
  intros Hf. unfold DataSet_ctor. rewrite Hf. intros H.
  destruct (load_lines_ok _ _ _ H) as (H1 & H2 & H3); [done|constructor|]. simpl in H3. split; [lia|done].
Qed.

(** ** Training and prediction see one pixel *)

Lemma predict_binary network m :
  binary_image m → ∃ p, first_pixel m = Ok p ∧ (p = 0%Z ∨ p = 255%Z) ∧
    predict network m = Ok (ann_predict network (Some p :: replicate 783 None)).
Proof using Type.
  intros [Ht (p & Hp & Hb)]. exists p. split; [done|]. split; [done|].
  unfold predict. rewrite Hp, Ht. done.
Qed.

(** The matrix for the training depends on the first pixels only. *)
Lemma input_rows_pixels n l l' :
  first_pixel <$> l = first_pixel <$> l' → input_rows n l = input_rows n l'.
Proof using Type.
  revert l'. induction l as [|m l IH]; intros [|m' l'] E; try done. rewrite !fmap_cons in E.
  injection E as E1 E2. simpl. by rewrite E1, (IH l' E2).
Qed.

Lemma train_pixels network d d' :
  labels d = labels d' → first_pixel <$> images d = first_pixel <$> images d' →
  Forall binary_image (images d) → Forall binary_image (images d') →
  train network d = train network d'.
Proof using Type.
  intros El Ep H H'. unfold train. destruct (images d) as [|m l], (images d') as [|m' l']; try done.
  apply Forall_cons in H as [[Ht _] _], H' as [[Ht' _] _].
  by rewrite (input_rows_pixels _ _ _ Ep), Ht, Ht', El.
Qed.
End ImageNetwork.

(** ** Theorems *)

(** Whatever the library learns and answers, provided that resizing gives 28 by 28
    pixels and thresholding leaves two values: every data set that loads has one
    label and one picture per line; the trained network depends only on the
    labels and on the top left pixel of each picture; and a network, however it
    was trained, gives at most two different labels to all pictures.  Training on
    an empty file is undefined. *)
Theorem image_network_one_pixel
    (file_lines : bytes → option (list bytes)) (imread : bytes → option mat) (resize28 threshold : mat → mat)
    (net : Type) (ann_train : net → list (list (option Z)) → list Z → net)
    (ann_predict : net → list (option Z) → Z)
    (resize_size : ∀ m, rows (threshold (resize28 m)) = 28 ∧ cols (threshold (resize28 m)) = 28 ∧
       length (pixels (threshold (resize28 m))) = 784)
    (threshold_binary : ∀ m p, p ∈ pixels (threshold m) → p = 0%Z ∨ p = 255%Z) (network : net) :
  (∀ file lines d, file_lines file = Some lines → DataSet_ctor file_lines imread resize28 threshold file = Ok d →
     length (labels d) = length lines ∧ length (images d) = length lines) ∧
  (∀ f f' d d', DataSet_ctor file_lines imread resize28 threshold f = Ok d →
     DataSet_ctor file_lines imread resize28 threshold f' = Ok d' →
     labels d = labels d' → first_pixel <$> images d = first_pixel <$> images d' →
     train ann_train network d = train ann_train network d') ∧
  (∃ a b, ∀ file m, Image_ctor imread resize28 threshold file = Ok m →
     predict ann_predict network m = Ok a ∨ predict ann_predict network m = Ok b) ∧
  train ann_train network (mkData [] []) = Undef oob_access.
Proof.
  assert (∀ f d, DataSet_ctor file_lines imread resize28 threshold f = Ok d → Forall binary_image (images d)) as Hd.
  { intros f d H. destruct (file_lines f) as [lines|] eqn:E.
    - by destruct (DataSet_ctor_ok file_lines imread resize28 threshold resize_size threshold_binary f lines d E H)
        as (_ & _ & ?).
    - unfold DataSet_ctor in H. by rewrite E in H. }
  split; [|split; [|split]].
  - intros f lines d E H.
    by destruct (DataSet_ctor_ok file_lines imread resize28 threshold resize_size threshold_binary f lines d E H)
      as (? & ? & _).
  - intros f f' d d' H H' El Ep. apply train_pixels; eauto.
  - exists (ann_predict network (Some 0%Z :: replicate 783 None)), (ann_predict network (Some 255%Z :: replicate 783 None)).
    intros f m Hm. apply Image_ctor_binary in Hm; [|done|done].
    destruct (predict_binary ann_predict network m Hm) as (p & _ & [->| ->] & E); auto.
  - done.
Qed.

(** A library that reads every picture as a white one, and answers with the first pixel. *)
Lemma image_network_one_pixel_witness :
  let white := mkMat 28 28 (replicate 784 255%Z) in
  ∃ a b, ∀ file m, Image_ctor (fun _ => Some white) (fun m => m) (fun _ => white) file = Ok m →
    predict (fun (_ : unit) r => default 0%Z (mjoin (head r))) tt m = Ok a ∨
    predict (fun (_ : unit) r => default 0%Z (mjoin (head r))) tt m = Ok b.
Proof.
  intros white.
  destruct (image_network_one_pixel (fun _ => Some []) (fun _ => Some white) (fun m => m) (fun _ => white) unit
    (fun n _ _ => n) (fun _ r => default 0%Z (mjoin (head r)))) with (network := tt) as (_ & _ & H & _).
  - intros m. split; [done|]. split; [done|]. apply length_replicate.
  - intros m p. unfold white. cbn [pixels]. intros [-> _]%elem_of_replicate. by right.
  - exact H.
Defined.
