(* ===== verification/PyRuntime.v ===== *)
(** * The Python runtime as cjunk/cython/simple.cpp sees it

    The generated module is written against the C API of CPython, which is not
    part of the repository.  A call of the API is an event: [lib] answers it, and
    may depend on everything that was called before.  What the documentation says
    of the API is built into the three forms of a call below: one that returns
    NULL or a negative number has set an exception, one that returns a new
    reference hands it over to the caller.

    [refs] is the ledger of the references this module owns.  [Py_DECREF] of an
    object of which it owns no reference is undefined behaviour: the object may be
    gone, or about to go while its owner still uses it. *)

From Stdlib Require Import ZArith Lia String.
From stdpp Require Import base list gmultiset strings.
From S2P Require Import Prelude.
Local Open Scope Z_scope.

(** An object is its address. *)
Definition obj := nat.

(** The arguments of a call that are not pointers to C data of the library. *)
Inductive arg := AObj (o : obj) | AInt (z : Z) | AStr (s : string).

Record call := Call { callee : string; args : list arg }.

(** What the library answers: an object or NULL, or a number. *)
Record answer := Answer { a_obj : option obj; a_int : Z }.

(** An exception: one the library raised, or one this module raised, with its
    type and message. *)
Inductive pyexc :=
| FromLibrary (c : call)
| PyExc (type what : string)
| Raised (type value : obj).

(** ** The state *)

Abbreviation entry := (Z * obj)%type.

(** The slots of an array of entries; [None] has not been written. *)
Definition slots : Type := list (option entry).

Record code_cache := Cache { count : Z; max_count : Z; entries : option slots }.

Definition empty_cache : code_cache := Cache 0 0 None.

Record pystate := PyState {
  err : option pyexc;
  refs : gmultiset obj;
  trace : list call;
  cache : code_cache }.

Definition set_err (e : option pyexc) (s : pystate) : pystate := PyState e (refs s) (trace s) (cache s).
Definition set_refs (r : gmultiset obj) (s : pystate) : pystate := PyState (err s) r (trace s) (cache s).
Definition log (c : call) (s : pystate) : pystate := PyState (err s) (refs s) (c :: trace s) (cache s).
Definition set_cache (c : code_cache) (s : pystate) : pystate := PyState (err s) (refs s) (trace s) c.

(** ** Computations *)

Definition M (A : Type) : Type := pystate → fuelled (A * pystate).

#[export] Instance M_ret : MRet M := fun A a s => mret (a, s).
#[export] Instance M_bind : MBind M := fun A B f m s => '(a, s') ← m s; f a s'.

Definition out_of_fuel {A} : M A := fun _ => OutOfFuel.
Definition lift {A} (r : outcome A) : M A := fun s => a ← Done r; mret (a, s).
Definition get {A} (f : pystate → A) : M A := fun s => mret (f s, s).
Definition modify (f : pystate → pystate) : M () := fun s => mret ((), f s).

Definition Py_INCREF (o : obj) : M () := modify (fun s => set_refs ({[+ o +]} ⊎ refs s) s).
Definition Py_DECREF (o : obj) : M () := fun s =>
  if decide (o ∈ refs s) then mret ((), set_refs (refs s ∖ {[+ o +]}) s) else Done (Undef dangling).
Definition Py_XDECREF (o : option obj) : M () := match o with Some o => Py_DECREF o | None => mret () end.
(** The reference goes to a tuple, a list or a frame. *)
Definition Py_GIVE (o : obj) (c : call) : M () := Py_DECREF o;; modify (log c).
Definition NewRef (o : obj) : M obj := Py_INCREF o;; mret o.

Definition PyErr_Occurred : M bool := get (fun s => bool_decide (is_Some (err s))).
Definition PyErr_Set (e : pyexc) : M () := modify (set_err (Some e)).
Definition PyErr_Clear : M () := modify (set_err None).

(** What a Python function object consists of. *)
Record function := Function {
  co : obj; fglobals : obj; argdefs : option (list obj);
  co_kwonlyargcount : Z; co_argcount : Z;
  (* [co_flags == (CO_OPTIMIZED | CO_NEWLOCALS | CO_NOFREE)] *)
  plain_flags : bool }.

(** What the macros of the API read from the structures behind objects. *)
Record objects := Objects {
  type_of : obj → obj;
  as_method : obj → option (option obj * obj);      (* [im_self], [im_func] *)
  as_function : obj → option function;
  is_cfunction : obj → bool; meth_o : obj → bool; meth_fastcall : obj → bool;
  has_getattro : obj → bool; has_call : obj → bool; has_sq_item : obj → bool; has_sq_length : obj → bool;
  as_tuple : obj → option (list obj); as_list : obj → option (list obj);
  is_unicode : obj → bool;
  exception_instance : obj → bool; exception_class : obj → bool; is_traceback : obj → bool }.

Section Library.
Context (lib : list call → call → answer) (K : objects).

(** A call that returns a new reference, or NULL with an exception set. *)
Definition call_new (c : call) : M (option obj) := fun s =>
  match a_obj (lib (trace s) c) with
  | Some o => mret (Some o, log c (set_refs ({[+ o +]} ⊎ refs s) s))
  | None => mret (None, log c (set_err (Some (FromLibrary c)) s))
  end.

(** A call that returns a borrowed reference, or NULL without an exception. *)
Definition call_borrowed (c : call) : M (option obj) := fun s =>
  mret (a_obj (lib (trace s) c), log c s).

(** A search of a dictionary with a known hash: a borrowed reference, or NULL; the
    comparison of keys may raise, so that NULL comes with an exception or without. *)
Definition lookup_raises (tr : list call) (c : call) : bool :=
  match a_obj (lib tr c) with Some _ => false | None => negb (a_int (lib tr c) =? 0) end.
Definition after_lookup (c : call) (s : pystate) : pystate :=
  log c (if lookup_raises (trace s) c then set_err (Some (FromLibrary c)) s else s).
Definition call_lookup (c : call) : M (option obj) := fun s =>
  mret (a_obj (lib (trace s) c), after_lookup c s).

(** A call that returns a number, negative with an exception set. *)
Definition call_int (c : call) : M Z := fun s =>
  let r := a_int (lib (trace s) c) in
  mret (r, log c (if r <? 0 then set_err (Some (FromLibrary c)) s else s)).

(** A call that says whether it failed, with an exception set if it did. *)
Definition call_status (c : call) : M bool := fun s =>
  let failed := negb (a_int (lib (trace s) c) =? 0) in
  mret (failed, log c (if failed then set_err (Some (FromLibrary c)) s else s)).

(** A question that has no effect. *)
Definition call_test (c : call) : M bool := fun s => mret (negb (a_int (lib (trace s) c) =? 0), log c s).

(** A call through a slot of a type: the code behind it may return NULL and have
    forgotten to set an exception. *)
Definition call_slot (c : call) : M (option obj) := fun s =>
  match a_obj (lib (trace s) c) with
  | Some o => mret (Some o, log c (set_refs ({[+ o +]} ⊎ refs s) s))
  | None => mret (None, log c (if a_int (lib (trace s) c) =? 0 then s else set_err (Some (FromLibrary c)) s))
  end.

(** A call whose result is not used. *)
Definition call_void (c : call) : M () := fun s => mret ((), log c s).

(** [__Pyx_PyObject_GetAttrStr]. *)
Definition GetAttrStr (o name : obj) : M (option obj) :=
  if has_getattro K o then call_new (Call "tp_getattro" [AObj o; AObj name])
  else call_new (Call "PyObject_GetAttr" [AObj o; AObj name]).
End Library.

(** ** Reasoning

    [wp m Q s]: from [s], [m] ends without undefined behaviour and without running
    out of fuel, with a value and in a state that satisfy [Q]. *)

Definition wp {A} (m : M A) (Q : A → pystate → Prop) (s : pystate) : Prop :=
  ∃ a s', m s = Done (Ok (a, s')) ∧ Q a s'.

Lemma wp_ret {A} (a : A) Q s : Q a s → wp (mret a) Q s.
Proof. intros H. by exists a, s. Qed.

Lemma wp_bind {A B} (m : M A) (f : A → M B) Q s :
  wp m (fun a => wp (f a) Q) s → wp (m ≫= f) Q s.
Proof.
  intros (a & s1 & E & b & s2 & E2 & HQ). exists b, s2. split; [|done].
  unfold mbind, M_bind. by rewrite E.
Qed.

Lemma wp_mono {A} (m : M A) (Q Q' : A → pystate → Prop) s :
  wp m Q' s → (∀ a s', Q' a s' → Q a s') → wp m Q s.
Proof. intros (a & s' & E & H') HQ. exists a, s'. auto. Qed.

Lemma wp_lift {A} (r : outcome A) a Q s : r = Ok a → Q a s → wp (lift r) Q s.
Proof. intros -> H. by exists a, s. Qed.

Lemma wp_get {A} (f : pystate → A) Q s : Q (f s) s → wp (get f) Q s.
Proof. intros H. by exists (f s), s. Qed.

Lemma wp_modify f (Q : () → pystate → Prop) s : Q () (f s) → wp (modify f) Q s.
Proof. intros H. by exists (), (f s). Qed.

Lemma wp_decref o (Q : () → pystate → Prop) s :
  o ∈ refs s → Q () (set_refs (refs s ∖ {[+ o +]}) s) → wp (Py_DECREF o) Q s.
Proof. intros Ho H. eexists _, _. unfold Py_DECREF. rewrite decide_True by done. done. Qed.
