(* ===== verification/CodeCache.v ===== *)
(** * The code object cache of cjunk/cython/simple.cpp

    The generated module keeps the code objects of its tracebacks in a sorted
    array that is searched by bisection and grows by 64 entries.  Reading a slot
    that was not written, or one out of range, is undefined behaviour; the
    references the cache owns are in the ledger of [PyRuntime].  The cache refines
    a finite map.

    The search is written by well-founded recursion on the width of the interval,
    so that it is total by construction. *)

From Stdlib Require Import ZArith Lia Sorting.Sorted.
From Equations Require Import Equations.
From stdpp Require Import base list gmap gmultiset sets strings sorting.
From S2P Require Import Prelude Loops PyRuntime.
Local Open Scope Z_scope.

(** [entries[i]] and [entries[i].code_line]. *)
Definition get_entry (s : slots) (i : Z) : outcome entry :=
  e ← vec_get s i; match e with Some x => Ok x | None => Undef uninit_read end.
Definition line_at (s : slots) (i : Z) : outcome Z := '(l, _) ← get_entry s i; Ok l.

(** ** [__pyx_bisect_code_objects] *)

(** How the loop ends: with [return mid], or because [start < end] is false. *)
Inductive bisect_end := Returned (mid : Z) | Left (mid : Z).

Definition middle (start end_ : Z) : Z := start + (end_ - start) ÷ 2.

Lemma middle_between start end_ : start < end_ → start ≤ middle start end_ < end_.
Proof.
  intros H. unfold middle. rewrite Z.quot_div_nonneg by lia.
  pose proof (Z.div_pos (end_ - start) 2). pose proof (Z.div_lt (end_ - start) 2). lia.
Qed.

Section Bisect.
Context (s : slots) (code_line : Z).

Equations? bisect_loop (start mid end_ : Z) : outcome bisect_end by wf (Z.to_nat (end_ - start)) lt :=
bisect_loop start mid end_ with Z_lt_dec start end_ => {
  | right _ => Ok (Left mid)
  | left Hlt with line_at s (middle start end_) => {
    | Ok l with Z_lt_dec code_line l, Z_lt_dec l code_line => {
      | left _, _ => bisect_loop start (middle start end_) (middle start end_)
      | right _, left _ => bisect_loop (middle start end_ + 1) (middle start end_) end_
      | right _, right _ => Ok (Returned (middle start end_)) }
    | Throw e => Throw e
    | Undef u => Undef u
    | Exit c => Exit c } }.
Proof. all: pose proof (middle_between start end_ Hlt); lia. Defined.

Definition bisect_code_objects (count : Z) : outcome Z :=
  let end_ := count - 1 in
  beyond ← (if 0 <=? end_ then l ← line_at s end_; Ok (l <? code_line) else Ok false);
  if beyond : bool then Ok count
  else
    r ← bisect_loop 0 0 end_;
    match r with
    | Returned mid => Ok mid
    | Left mid => l ← line_at s mid; Ok (if code_line <=? l then mid else mid + 1)
    end.
End Bisect.

(** ** [__pyx_find_code_object] and [__pyx_insert_code_object] *)

Definition find_code_object (code_line : Z) : M (option obj) :=
  c ← get cache;
  match entries c with
  | None => mret None
  | Some s =>
      if code_line =? 0 then mret None
      else
        pos ← lift (bisect_code_objects s code_line (count c));
        if count c <=? pos then mret None
        else
          '(l, code_object) ← lift (get_entry s pos);
          if negb (l =? code_line) then mret None
          else Py_INCREF code_object;; mret (Some code_object)
  end.

(** [for (i = count; i > pos; i--) entries[i] = entries[i-1];], [n] iterations. *)
Fixpoint shift_up (n : nat) (i : Z) (s : slots) : outcome slots :=
  match n with
  | O => Ok s
  | S n => e ← get_entry s (i - 1); s ← vec_set s i (Some e); shift_up n (i - 1) s
  end.

(** [PyMem_Realloc] keeps what was there; the new part is not initialised. *)
Definition grow (s : slots) (new_max : Z) : slots := s ++ replicate (Z.to_nat new_max - length s) None.

(** [memory] says whether the allocator has memory left. *)
Definition insert_code_object (memory : bool) (code_line : Z) (code_object : obj) : M () :=
  c ← get cache;
  if code_line =? 0 then mret ()
  else match entries c with
  | None =>
      if memory then
        s ← lift (vec_set (replicate 64 None) 0 (Some (code_line, code_object)));
        modify (set_cache (Cache 1 64 (Some s)));;
        Py_INCREF code_object
      else mret ()
  | Some s =>
      pos ← lift (bisect_code_objects s code_line (count c));
      hit ← (if pos <? count c then l ← lift (line_at s pos); mret (l =? code_line) else mret false);
      if hit : bool then
        '(l, tmp) ← lift (get_entry s pos);
        s ← lift (vec_set s pos (Some (l, code_object)));
        modify (set_cache (Cache (count c) (max_count c) (Some s)));;
        Py_DECREF tmp
      else
        grown ← (if count c =? max_count c then
                   new_max ← lift (int32 (max_count c + 64));
                   mret (if memory then Some (new_max, grow s new_max) else None)
                 else mret (Some (max_count c, s)));
        match grown with
        | None => mret ()
        | Some (new_max, s) =>
            s ← lift (shift_up (Z.to_nat (count c - pos)) (count c) s);
            s ← lift (vec_set s pos (Some (code_line, code_object)));
            count' ← lift (int32 (count c + 1));
            modify (set_cache (Cache count' new_max (Some s)));;
            Py_INCREF code_object
        end
  end.

(** ** The search is the lower bound *)

(** The reference: how many lines are smaller. *)
Definition lower_bound (ls : list Z) (x : Z) : Z := Z.of_nat (length (filter (fun l => l < x) ls)).

(** [p] separates the smaller lines from the others. *)
Definition splits (ls : list Z) (x p : Z) : Prop :=
  0 ≤ p ≤ Z.of_nat (length ls) ∧
  (∀ i l, ls !! i = Some l → Z.of_nat i < p → l < x) ∧
  (∀ i l, ls !! i = Some l → p ≤ Z.of_nat i → x ≤ l).

Lemma filter_all_false {A} (P : A → Prop) `{!∀ x, Decision (P x)} (l : list A) :
  Forall (fun x => ¬ P x) l → filter P l = [].
Proof.
  induction l as [|x l IH]; intros Hl; [done|]. apply Forall_cons in Hl as [Hx Hl].
  rewrite filter_cons_False by done. auto.
Qed.

Lemma filter_all_true {A} (P : A → Prop) `{!∀ x, Decision (P x)} (l : list A) :
  Forall P l → filter P l = l.
Proof.
  induction l as [|x l IH]; intros Hl; [done|]. apply Forall_cons in Hl as [Hx Hl].
  rewrite filter_cons_True by done. f_equal. auto.
Qed.

Lemma splits_lower_bound ls x p : splits ls x p → p = lower_bound ls x.
Proof.
  intros (Hp & Hlo & Hhi). unfold lower_bound.
  rewrite <- (take_drop (Z.to_nat p) ls), filter_app, filter_all_true, filter_all_false.
  - rewrite app_nil_r, length_take. lia.
  - apply Forall_lookup. intros i l Hl. rewrite lookup_drop in Hl. apply Hhi in Hl; lia.
  - apply Forall_lookup. intros i l Hl. rewrite lookup_take_Some in Hl. destruct Hl as [Hl ?].
    apply Hlo in Hl; lia.
Qed.

Lemma sorted_lookup ls i j a b :
  StronglySorted Z.lt ls → ls !! i = Some a → ls !! j = Some b → (i < j)%nat → a < b.
Proof.
  intros Hs. revert i j. induction Hs as [|l ls Hs IH Hall]; intros [|i] [|j] Hi Hj Hij; try lia; try done; simpl in *.
  - injection Hi as <-. rewrite Forall_lookup in Hall. by eapply Hall.
  - eapply IH; eauto. lia.
Qed.

Section BisectSpec.
Context (es : list entry) (rest : slots) (x : Z).
Hypothesis sorted : StronglySorted Z.lt es.*1.

Lemma get_entry_ok i e : es !! i = Some e → get_entry ((Some <$> es) ++ rest) (Z.of_nat i) = Ok e.
Proof.
  intros Hi. unfold get_entry, vec_get. rewrite (proj2 (Z.leb_le 0 (Z.of_nat i)) ltac:(lia)), Nat2Z.id.
  rewrite lookup_app_l by (rewrite length_fmap; by eapply lookup_lt_Some).
  by rewrite list_lookup_fmap, Hi.
Qed.

Lemma line_at_ok i l : es.*1 !! i = Some l → line_at ((Some <$> es) ++ rest) (Z.of_nat i) = Ok l.
Proof.
  rewrite list_lookup_fmap_Some. intros ([l' o] & -> & Hi). unfold line_at. by rewrite (get_entry_ok i (l', o)).
Qed.

Lemma line_at_range k :
  0 ≤ k < Z.of_nat (length es) →
  ∃ l, line_at ((Some <$> es) ++ rest) k = Ok l ∧ es.*1 !! Z.to_nat k = Some l.
Proof.
  intros Hk. destruct (lookup_lt_is_Some_2 es.*1 (Z.to_nat k)) as [l Hl]; [rewrite length_fmap; lia|].
  exists l. split; [|done]. rewrite <- (Z2Nat.id k) by lia. by apply line_at_ok.
Qed.

(** Where the line [l] at [k] is on one side of [x], so are those before or after it. *)
Lemma below_before k l i l' :
  es.*1 !! k = Some l → l < x → es.*1 !! i = Some l' → (i ≤ k)%nat → l' < x.
Proof.
  intros Hk Hl Hi Hle. destruct (decide (i = k)) as [->|]; [congruence|].
  assert (l' < l) by (eapply sorted_lookup; eauto; lia). lia.
Qed.

Lemma above_after k l i l' :
  es.*1 !! k = Some l → x ≤ l → es.*1 !! i = Some l' → (k ≤ i)%nat → x ≤ l'.
Proof.
  intros Hk Hl Hi Hle. destruct (decide (i = k)) as [->|]; [congruence|].
  assert (l < l') by (eapply sorted_lookup; eauto; lia). lia.
Qed.

(** What holds whenever the loop tests its condition. *)
Record bisecting (start mid end_ : Z) : Prop := {
  b_range : (0 ≤ start ≤ end_ ∧ end_ < Z.of_nat (length es)) ∧ 0 ≤ mid < Z.of_nat (length es);
  b_below : ∀ i l, es.*1 !! i = Some l → Z.of_nat i < start → l < x;
  b_above : ∀ i l, es.*1 !! i = Some l → end_ ≤ Z.of_nat i → x ≤ l;
  b_mid : start = end_ → mid = start ∨ mid + 1 = start }.

Definition bisected (r : bisect_end) : Prop :=
  match r with
  | Returned p => splits es.*1 x p
  | Left mid => ∃ p, splits es.*1 x p ∧ 0 ≤ mid < Z.of_nat (length es) ∧ (mid = p ∨ mid + 1 = p)
  end.

Lemma bisect_loop_ok start mid end_ :
  bisecting start mid end_ →
  ∃ r, bisect_loop ((Some <$> es) ++ rest) x start mid end_ = Ok r ∧ bisected r.
Proof.
  funelim (bisect_loop ((Some <$> es) ++ rest) x start mid end_); intros [Hr Hb Ha Hm];
    clear Heqcall; try specialize (H es rest x sorted eq_refl eq_refl).
  all: try (destruct (line_at_range (middle start end_)) as (l' & E & El);
            [pose proof (middle_between start end_ Hlt); lia|];
            match goal with Hx : line_at _ _ = _ |- _ => rewrite E in Hx; try done; injection Hx as <- end;
            pose proof (middle_between start end_ Hlt)).
  - exists (Left mid). split; [done|]. exists start. split; [|lia].
    split; [rewrite length_fmap; lia|]. split; [done|]. intros i l Hi Hle. apply (Ha i l Hi). lia.
  - apply H. split; [lia|done| |lia]. intros i l Hi Hle. eapply (above_after _ _ _ _ El); [lia|exact Hi|lia].
  - apply H. split; [lia| |done|lia]. intros i l Hi Hle. eapply (below_before _ _ _ _ El); [lia|exact Hi|lia].
  - eexists. split; [done|]. split; [rewrite length_fmap; lia|]. split; intros i l Hi Hle.
    + assert (l < l'); [|lia]. eapply (sorted_lookup _ _ _ _ _ sorted Hi El). lia.
    + eapply (above_after _ _ _ _ El); [lia|exact Hi|lia].
Qed.

(** The search returns the lower bound, and reads no slot it may not read. *)
Lemma bisect_ok :
  es ≠ [] →
  ∃ p, bisect_code_objects ((Some <$> es) ++ rest) x (Z.of_nat (length es)) = Ok p ∧ splits es.*1 x p.
Proof.
  intros Hne. assert (0 < Z.of_nat (length es)) as Hlen by (destruct es; [done|cbn [length]; lia]).
  unfold bisect_code_objects. rewrite (proj2 (Z.leb_le 0 (Z.of_nat (length es) - 1)) ltac:(lia)).
  destruct (line_at_range (Z.of_nat (length es) - 1)) as (l & -> & El); [lia|]. cbn [mbind outcome_bind].
  destruct (Z.ltb_spec l x) as [Hlt|Hge].
  { eexists. split; [done|]. split; [rewrite length_fmap; lia|]. split; intros i l' Hi Hi'.
    - eapply (below_before _ _ _ _ El); [lia|exact Hi|].
      apply lookup_lt_Some in Hi. rewrite length_fmap in Hi. lia.
    - apply lookup_lt_Some in Hi. rewrite length_fmap in Hi. lia. }
  destruct (bisect_loop_ok 0 0 (Z.of_nat (length es) - 1)) as (r & -> & Hr).
  { split; [lia|lia| |lia]. intros i l' Hi Hi'. eapply (above_after _ _ _ _ El); [lia|exact Hi|lia]. }
  cbn [mbind outcome_bind]. destruct r as [p|mid]; [by exists p|].
  destruct Hr as (p & Hp & Hmid & Hor). destruct (line_at_range mid Hmid) as (lm & -> & Em).
  eexists. split; [done|]. destruct Hp as (Hr & Hlo & Hhi).
  assert ((if x <=? lm then mid else mid + 1) = p) as ->; [|done].
  destruct Hor as [->|Hor].
  - rewrite (proj2 (Z.leb_le x lm)); [done|]. eapply Hhi; [exact Em|lia].
  - rewrite (proj2 (Z.leb_gt x lm)); [done|]. eapply Hlo; [exact Em|lia].
Qed.
End BisectSpec.

(** ** The abstraction: a finite map from lines to code objects *)

Definition to_map (es : list entry) : gmap Z obj := list_to_map es.

(** The references the cache owns: one for each entry. *)
Definition owned (es : list entry) : gmultiset obj := list_to_set_disj es.*2.

(** [c] holds the entries [es]. *)
Record rep (c : code_cache) (es : list entry) : Prop := {
  rep_sorted : StronglySorted Z.lt es.*1;
  rep_nonzero : 0 ∉ es.*1;
  rep_count : count c = Z.of_nat (length es);
  rep_room : max_count c ≤ count c + 63;
  rep_slots : match entries c with
    | None => es = [] ∧ max_count c = 0
    | Some s => es ≠ [] ∧ ∃ rest, s = (Some <$> es) ++ rest ∧ max_count c = Z.of_nat (length s)
    end }.

Lemma rep_empty : rep empty_cache [].
Proof. split; simpl; [constructor|set_solver|lia|lia|done]. Qed.

Definition insert_at (p : nat) (e : entry) (es : list entry) : list entry := take p es ++ e :: drop p es.

Lemma insert_at_perm p e es : insert_at p e es ≡ₚ e :: es.
Proof. unfold insert_at. rewrite <- Permutation_middle. by rewrite take_drop. Qed.

Lemma sorted_NoDup ls : StronglySorted Z.lt ls → NoDup ls.
Proof.
  intros Hs. apply NoDup_alt. intros i j l Hi Hj.
  destruct (decide (i < j)%nat); [|destruct (decide (j < i)%nat); [|lia]].
  - pose proof (sorted_lookup ls i j l l Hs Hi Hj). lia.
  - pose proof (sorted_lookup ls j i l l Hs Hj Hi). lia.
Qed.

Section Entries.
Context (es : list entry) (x p : Z).
Hypothesis sorted : StronglySorted Z.lt es.*1.
Hypothesis split_at : splits es.*1 x p.

Lemma to_map_hit o : es !! Z.to_nat p = Some (x, o) → to_map es !! x = Some o.
Proof.
  intros H. apply elem_of_list_to_map_1; [by apply sorted_NoDup|]. by eapply list_elem_of_lookup_2.
Qed.

(** The line is nowhere if it is not where the search points. *)
Lemma to_map_miss : (∀ o, es !! Z.to_nat p ≠ Some (x, o)) → x ∉ es.*1.
Proof.
  intros H [i Hi]%list_elem_of_lookup_1. destruct split_at as (Hr & Hlo & Hhi).
  destruct (Z.lt_ge_cases (Z.of_nat i) p) as [Hlt|Hge].
  { pose proof (Hlo i x Hi Hlt). lia. }
  destruct (decide (i = Z.to_nat p)) as [->|Hne].
  { apply list_lookup_fmap_Some in Hi as ([l o] & E & Hi). simpl in E. subst l. by apply (H o). }
  destruct (lookup_lt_is_Some_2 es.*1 (Z.to_nat p)) as [l Hl]; [apply lookup_lt_Some in Hi; lia|].
  pose proof (Hhi _ _ Hl). assert (l < x) by (eapply (sorted_lookup _ _ _ _ _ sorted Hl Hi); lia). lia.
Qed.

Lemma insert_at_sorted o : x ∉ es.*1 → StronglySorted Z.lt (insert_at (Z.to_nat p) (x, o) es).*1.
Proof.
  intros Hx. destruct split_at as (Hr & Hlo & Hhi). rewrite length_fmap in Hr.
  pose proof sorted as Hs. rewrite <- (take_drop (Z.to_nat p) es), fmap_app, StronglySorted_app in Hs.
  destruct Hs as (Hlh & Hl & Hh). unfold insert_at. rewrite fmap_app, fmap_cons. cbn [fst].
  assert (∀ y, y ∈ (drop (Z.to_nat p) es).*1 → x < y) as Hd.
  { intros y [i Hi]%list_elem_of_lookup_1. rewrite fmap_drop, lookup_drop in Hi.
    assert (x ≤ y) by (eapply Hhi; [exact Hi|lia]). assert (y ≠ x); [|lia].
    intros ->. apply Hx. by eapply list_elem_of_lookup_2. }
  assert (∀ y, y ∈ (take (Z.to_nat p) es).*1 → y < x) as Ht.
  { intros y [i Hi]%list_elem_of_lookup_1. rewrite fmap_take, lookup_take_Some in Hi.
    eapply Hlo; [apply Hi|lia]. }
  apply StronglySorted_app. split; [|split; [done|]].
  - intros a b Ha [->|Hb]%elem_of_cons; auto.
  - constructor; [done|]. by apply Forall_forall.
Qed.

Lemma insert_at_map o : x ∉ es.*1 → to_map (insert_at (Z.to_nat p) (x, o) es) = <[x := o]> (to_map es).
Proof.
  intros Hx. unfold to_map. erewrite list_to_map_proper; [|by apply sorted_NoDup, insert_at_sorted|apply insert_at_perm].
  apply list_to_map_cons.
Qed.
End Entries.

Lemma to_map_None es x : x ∉ es.*1 → to_map es !! x = None.
Proof. apply not_elem_of_list_to_map_1. Qed.

Lemma owned_insert_at p x o es : owned (insert_at p (x, o) es) = {[+ o +]} ⊎ owned es.
Proof. unfold owned. by rewrite insert_at_perm. Qed.

(** ** [__pyx_find_code_object] *)

Lemma find_spec l es s (Q : option obj → pystate → Prop) :
  rep (cache s) es →
  Q (to_map es !! l)
    (match to_map es !! l with Some o => set_refs ({[+ o +]} ⊎ refs s) s | None => s end) →
  wp (find_code_object l) Q s.
Proof.
  intros [Hsort H0 Hcount Hroom Hslots] HQ. unfold find_code_object.
  apply wp_bind, wp_get. destruct (entries (cache s)) as [sl|].
  2: { destruct Hslots as [-> _]. by apply wp_ret. }
  destruct Hslots as (Hne & rest & -> & Hmax).
  destruct (Z.eqb_spec l 0) as [->|Hl].
  { rewrite to_map_None in HQ by done. by apply wp_ret. }
  destruct (bisect_ok es rest l Hsort Hne) as (p & Ep & Hp). rewrite Hcount.
  apply wp_bind, (wp_lift _ _ _ _ Ep). pose proof Hp as (Hr & _). rewrite length_fmap in Hr.
  destruct (Z.leb_spec (Z.of_nat (length es)) p) as [Hle|Hlt].
  { rewrite to_map_None in HQ; [by apply wp_ret|]. apply (to_map_miss es l p Hsort Hp).
    intros o. by rewrite lookup_ge_None_2 by lia. }
  destruct (lookup_lt_is_Some_2 es (Z.to_nat p)) as [[l' o] He]; [lia|].
  pose proof (get_entry_ok es rest _ _ He) as Ee. rewrite Z2Nat.id in Ee by lia.
  apply wp_bind, (wp_lift _ _ _ _ Ee). destruct (Z.eqb_spec l' l) as [->|Hne']; cbn [negb].
  - rewrite (to_map_hit es l p Hsort o He) in HQ. by apply wp_bind, wp_modify, wp_ret.
  - rewrite to_map_None in HQ; [by apply wp_ret|]. apply (to_map_miss es l p Hsort Hp). congruence.
Qed.

(** ** [__pyx_insert_code_object] *)

Lemma shift_up_ok (A : slots) ts z R :
  ∃ y, shift_up (length ts) (Z.of_nat (length A + length ts)) (A ++ (Some <$> ts) ++ z :: R)
       = Ok (A ++ y :: (Some <$> ts) ++ R).
Proof.
  revert z R. induction ts as [|t ts IH] using rev_ind; intros z R; [by exists z|].
  rewrite length_app, Nat.add_1_r, fmap_app, <- app_assoc. cbn [shift_up].
  set (i := Z.of_nat _).
  assert (get_entry (A ++ (Some <$> ts) ++ (Some <$> [t]) ++ z :: R) (i - 1) = Ok t) as ->.
  { unfold get_entry, vec_get. rewrite (proj2 (Z.leb_le 0 (i - 1)) ltac:(lia)).
    rewrite app_assoc, lookup_app_r; rewrite length_app, length_fmap; [|lia].
    by replace (Z.to_nat (i - 1) - _)%nat with 0%nat by lia. }
  cbn [mbind outcome_bind]. rewrite vec_set_ok by (repeat (rewrite length_app; simpl); rewrite length_fmap; lia).
  cbn [mbind outcome_bind]. destruct (IH (Some t) (Some t :: R)) as (y & E). exists y.
  rewrite <- app_assoc. simpl. rewrite <- E. f_equal; [lia|].
  rewrite !insert_app_r_alt by (rewrite ?length_fmap; lia). do 2 f_equal.
  rewrite length_fmap. by replace (Z.to_nat i - _ - _)%nat with 1%nat by lia.
Qed.

(** Shifting and writing the hole inserts the entry. *)
Lemma shift_and_write es z R p e :
  0 ≤ p ≤ Z.of_nat (length es) →
  (s ← shift_up (Z.to_nat (Z.of_nat (length es) - p)) (Z.of_nat (length es)) ((Some <$> es) ++ z :: R);
   vec_set s p (Some e)) = Ok ((Some <$> insert_at (Z.to_nat p) e es) ++ R).
Proof.
  intros Hp. set (n := Z.to_nat p).
  assert (length (take n es) = n) as Ht by (rewrite length_take; lia).
  destruct (shift_up_ok (Some <$> take n es) (drop n es) z R) as (y & E).
  rewrite app_assoc, <- fmap_app, take_drop, length_fmap, length_drop, Ht in E.
  replace (Z.to_nat (Z.of_nat (length es) - p)) with (length es - n)%nat by lia.
  replace (Z.of_nat (n + (length es - n))) with (Z.of_nat (length es)) in E by lia.
  rewrite E. cbn [mbind outcome_bind].
  rewrite vec_set_ok by (rewrite length_app, length_fmap, Ht; simpl; lia).
  rewrite insert_app_r_alt; rewrite length_fmap, Ht; [|lia]. rewrite Nat.sub_diag. simpl.
  unfold insert_at. by rewrite fmap_app, fmap_cons, <- app_assoc.
Qed.

(** When the cache must allocate. *)
Definition full (c : code_cache) : bool :=
  match entries c with None => true | Some _ => count c =? max_count c end.

(** The cache after an insertion of a new line: changed and owning the object, or,
    for line 0 and without memory, unchanged. *)
Definition inserted (memory : bool) (l : Z) (o : obj) (es : list entry) (s s' : pystate) : Prop :=
  if (l =? 0) || (full (cache s) && negb memory) then s' = s
  else ∃ p, rep (cache s') (insert_at p (l, o) es) ∧ to_map (insert_at p (l, o) es) = <[l := o]> (to_map es) ∧
            err s' = err s ∧ trace s' = trace s ∧ refs s' = {[+ o +]} ⊎ refs s.

Lemma elem_of_insert_at y p l o es : y ∈ (insert_at p (l, o) es).*1 ↔ y = l ∨ y ∈ es.*1.
Proof. rewrite insert_at_perm, fmap_cons, elem_of_cons. done. Qed.

Lemma rep_insert_at es l o p m n R :
  StronglySorted Z.lt es.*1 → 0 ∉ es.*1 → l ≠ 0 → splits es.*1 l p → l ∉ es.*1 →
  n = Z.of_nat (length es) + 1 → m ≤ n + 63 → m = n + Z.of_nat (length R) →
  rep (Cache n m (Some ((Some <$> insert_at (Z.to_nat p) (l, o) es) ++ R))) (insert_at (Z.to_nat p) (l, o) es).
Proof.
  intros Hs H0 Hl Hp Hni -> Hm Hlen.
  assert (length (insert_at (Z.to_nat p) (l, o) es) = S (length es)) as E by by rewrite insert_at_perm.
  split; simpl.
  - by apply insert_at_sorted.
  - rewrite elem_of_insert_at. by intros [?|?].
  - lia.
  - done.
  - split; [by destruct (insert_at _ _ _)|]. exists R. split; [done|]. rewrite length_app, length_fmap. lia.
Qed.

(** The end of the insertion: shift, write, count, own. *)
Lemma place_spec es l o p z R m s :
  StronglySorted Z.lt es.*1 → 0 ∉ es.*1 → l ≠ 0 → splits es.*1 l p → l ∉ es.*1 →
  m = Z.of_nat (length es) + Z.of_nat (length (z :: R)) → m ≤ Z.of_nat (length es) + 64 → m ≤ int_max →
  wp (s ← lift (shift_up (Z.to_nat (Z.of_nat (length es) - p)) (Z.of_nat (length es)) ((Some <$> es) ++ z :: R));
      s ← lift (vec_set s p (Some (l, o)));
      count' ← lift (int32 (Z.of_nat (length es) + 1));
      modify (set_cache (Cache count' m (Some s)));; Py_INCREF o)
     (fun _ s' => ∃ p, rep (cache s') (insert_at p (l, o) es) ∧
        to_map (insert_at p (l, o) es) = <[l := o]> (to_map es) ∧
        err s' = err s ∧ trace s' = trace s ∧ refs s' = {[+ o +]} ⊎ refs s) s.
Proof.
  intros Hs H0 Hl Hp Hni Hm Hroom Hmax. pose proof Hp as (Hr & _). rewrite length_fmap in Hr.
  cbn [length] in Hm.
  destruct (proj1 (bind_ok _ _ _) (shift_and_write es z R p (l, o) Hr)) as (sl & E1 & E2).
  apply wp_bind, (wp_lift _ _ _ _ E1), wp_bind, (wp_lift _ _ _ _ E2), wp_bind.
  eapply wp_lift; [apply int32_ok; unfold int_min in *; lia|]. apply wp_bind, wp_modify, wp_modify.
  exists (Z.to_nat p). split; [|by rewrite (insert_at_map es l p)]. apply rep_insert_at; try done; lia.
Qed.

(** The test for the line, where the search points. *)
Lemma hit_spec es rest l p (Q : bool → pystate → Prop) s :
  0 ≤ p ≤ Z.of_nat (length es) →
  Q (match es !! Z.to_nat p with Some (l', _) => l' =? l | None => false end) s →
  wp (if p <? Z.of_nat (length es) then l' ← lift (line_at ((Some <$> es) ++ rest) p); mret (l' =? l)
      else mret false) Q s.
Proof.
  intros Hp HQ. destruct (Z.ltb_spec p (Z.of_nat (length es))).
  - destruct (lookup_lt_is_Some_2 es (Z.to_nat p)) as [[l' o] He]; [lia|].
    assert (line_at ((Some <$> es) ++ rest) p = Ok l') as E.
    { unfold line_at. rewrite <- (Z2Nat.id p) by lia. by rewrite (get_entry_ok _ _ _ _ He). }
    rewrite He in HQ. by apply wp_bind, (wp_lift _ _ _ _ E), wp_ret.
  - apply wp_ret. by rewrite lookup_ge_None_2 in HQ by lia.
Qed.

(** Inserting a line that is not in the cache. *)
Lemma insert_new_spec memory l o es s :
  rep (cache s) es → to_map es !! l = None → max_count (cache s) ≤ int_max - 64 →
  wp (insert_code_object memory l o) (fun _ => inserted memory l o es s) s.
Proof.
  intros [Hsort H0 Hcount Hroom Hslots] Hl%not_elem_of_list_to_map_2 Hmax.
  unfold insert_code_object, inserted, full. apply wp_bind, wp_get.
  destruct (Z.eqb_spec l 0) as [->|Hl0]; cbn [orb]; [by apply wp_ret|].
  destruct (entries (cache s)) as [sl|]; cbn [orb andb].
  2: { destruct Hslots as [-> _]. destruct memory; [|by apply wp_ret].
       apply wp_bind. eapply wp_lift; [done|]. apply wp_bind, wp_modify, wp_modify. exists 0%nat.
       split; [|done]. by apply (rep_insert_at [] l o 0 64 1 (replicate 63 None)). }
  destruct Hslots as (Hne & rest & -> & Hlen). rewrite length_app, length_fmap in Hlen.
  destruct (bisect_ok es rest l Hsort Hne) as (p & Ep & Hp). rewrite Hcount in *.
  apply wp_bind, (wp_lift _ _ _ _ Ep). pose proof Hp as (Hr & _). rewrite length_fmap in Hr.
  apply wp_bind, hit_spec; [done|].
  assert (match es !! Z.to_nat p with Some (l', _) => l' =? l | None => false end = false) as ->.
  { destruct (es !! Z.to_nat p) as [[l' o']|] eqn:He; [|done]. apply Z.eqb_neq. intros ->.
    apply Hl, list_elem_of_fmap. exists (l, o'). split; [done|]. by eapply list_elem_of_lookup_2. }
  apply wp_bind. destruct (Z.eqb_spec (Z.of_nat (length es)) (max_count (cache s))) as [Hfull|Hnf]; cbn [andb].
  - assert (rest = []) as -> by (apply length_zero_iff_nil; lia).
    apply wp_bind. eapply wp_lift; [apply int32_ok; unfold int_min in *; lia|]. apply wp_ret.
    destruct memory; cbn [negb]; [|by apply wp_ret].
    unfold grow. rewrite app_nil_r, length_fmap, <- Hfull.
    replace (Z.to_nat (Z.of_nat (length es) + 64) - length es)%nat with 64%nat by lia.
    apply (place_spec es l o p None (replicate 63 None) (Z.of_nat (length es) + 64) s Hsort H0 Hl0 Hp Hl);
      rewrite ?length_cons, ?length_replicate; lia.
  - apply wp_ret. destruct rest as [|z R]; [simpl in Hlen; lia|].
    apply (place_spec es l o p z R (max_count (cache s)) s Hsort H0 Hl0 Hp Hl); lia.
Qed.

Lemma to_map_at es l p tmp :
  StronglySorted Z.lt es.*1 → splits es.*1 l p → to_map es !! l = Some tmp → es !! Z.to_nat p = Some (l, tmp).
Proof.
  intros Hs Hp Hl. destruct (es !! Z.to_nat p) as [[l' o']|] eqn:He; [destruct (decide (l' = l)) as [->|]|].
  - pose proof (to_map_hit es l p Hs o' He). congruence.
  - rewrite to_map_None in Hl; [done|]. apply (to_map_miss es l p Hs Hp). congruence.
  - rewrite to_map_None in Hl; [done|]. apply (to_map_miss es l p Hs Hp). congruence.
Qed.

(** Replacing the object of a line keeps the lines. *)
Lemma replace_lines (es : list entry) (i : nat) l (o tmp : obj) : es !! i = Some (l, tmp) → (<[i := (l, o)]> es).*1 = es.*1.
Proof. intros Hi. rewrite list_fmap_insert. apply list_insert_id. by rewrite list_lookup_fmap, Hi. Qed.

Lemma replace_map (es : list entry) (i : nat) l (o tmp : obj) :
  NoDup es.*1 → es !! i = Some (l, tmp) → to_map (<[i := (l, o)]> es) = <[l := o]> (to_map es).
Proof.
  intros Hnd Hi. pose proof (lookup_lt_Some _ _ _ Hi).
  assert (es ≡ₚ (l, tmp) :: (take i es ++ drop (S i) es)) as E1.
  { rewrite <- (take_drop_middle es i (l, tmp)) at 1 by done. by rewrite Permutation_middle. }
  assert (<[i := (l, o)]> es ≡ₚ (l, o) :: (take i es ++ drop (S i) es)) as E2.
  { rewrite insert_take_drop by done. by rewrite Permutation_middle. }
  unfold to_map. rewrite (list_to_map_proper _ _ Hnd E1).
  assert (NoDup (<[i := (l, o)]> es).*1) as Hnd' by by rewrite (replace_lines _ _ _ _ _ Hi).
  rewrite (list_to_map_proper _ _ Hnd' E2), !list_to_map_cons. by rewrite insert_insert_eq.
Qed.

(** Inserting a line that is in the cache.  The old object is released, and no
    reference to the new one is taken. *)
Lemma insert_old_spec memory l o tmp es s :
  rep (cache s) es → to_map es !! l = Some tmp → tmp ∈ refs s →
  wp (insert_code_object memory l o)
     (fun _ s' => ∃ es', rep (cache s') es' ∧ to_map es' = <[l := o]> (to_map es) ∧
                         err s' = err s ∧ trace s' = trace s ∧ refs s' = refs s ∖ {[+ tmp +]}) s.
Proof.
  intros [Hsort H0 Hcount Hroom Hslots] Hl Htmp. unfold insert_code_object. apply wp_bind, wp_get.
  destruct (Z.eqb_spec l 0) as [->|Hl0]; [by rewrite to_map_None in Hl|].
  destruct (entries (cache s)) as [sl|] eqn:Esl; [|by destruct Hslots as [-> _]].
  destruct Hslots as (Hne & rest & -> & Hlen).
  destruct (bisect_ok es rest l Hsort Hne) as (p & Ep & Hp). rewrite Hcount.
  apply wp_bind, (wp_lift _ _ _ _ Ep). pose proof Hp as (Hr & Hlo & Hhi). rewrite length_fmap in Hr.
  pose proof (to_map_at es l p tmp Hsort Hp Hl) as He. pose proof (lookup_lt_Some _ _ _ He).
  apply wp_bind, hit_spec; [done|]. rewrite He, Z.eqb_refl.
  pose proof (get_entry_ok es rest _ _ He) as Ee. rewrite Z2Nat.id in Ee by lia.
  apply wp_bind, (wp_lift _ _ _ _ Ee), wp_bind.
  eapply wp_lift; [apply vec_set_ok; rewrite length_app, length_fmap; lia|].
  apply wp_bind, wp_modify, wp_decref; [done|]. exists (<[Z.to_nat p := (l, o)]> es).
  split; [|by rewrite (replace_map _ _ _ _ _ (sorted_NoDup _ Hsort) He)].
  split; simpl; try rewrite (replace_lines es _ l o tmp He); rewrite ?length_insert; try done; [lia|].
  split; [by destruct es, (Z.to_nat p)|]. exists rest.
  rewrite insert_app_l by (rewrite length_fmap; lia). by rewrite list_fmap_insert.
Qed.

(** ** The theorem *)

(** An insertion that changes nothing: line 0, or a new line without memory. *)
Definition refused (memory : bool) (l : Z) (c : code_cache) (m : gmap Z obj) : bool :=
  (l =? 0) || (bool_decide (m !! l = None) && full c && negb memory).

(** C29: the cache is a finite map from lines to code objects.  A lookup returns
    what the map has at the line, and an insertion is an update of the map, for a
    new and for a present line, with and without a free slot; only line 0, and a
    new line for which there is no memory, leave it as it is.  The bisection, the
    shift of the entries and the growth of the array stay within the slots that
    exist and have been written. *)
Theorem code_cache_refines_map memory l o es s :
  rep (cache s) es → max_count (cache s) ≤ int_max - 64 → owned es ⊆ refs s →
  wp (find_code_object l) (fun a s' => a = to_map es !! l ∧ cache s' = cache s) s ∧
  wp (insert_code_object memory l o)
     (fun _ s' => ∃ es', rep (cache s') es' ∧
        to_map es' = if refused memory l (cache s) (to_map es) then to_map es else <[l := o]> (to_map es)) s.
Proof.
  intros Hrep Hmax Hown. split.
  { eapply find_spec; [done|]. split; [done|]. by destruct (to_map es !! l). }
  unfold refused. destruct (to_map es !! l) as [tmp|] eqn:Hl.
  - rewrite bool_decide_eq_false_2 by done. cbn [andb]. rewrite orb_false_r.
    eapply wp_mono; [apply (insert_old_spec memory l o tmp es); [done|done|]|].
    { eapply gmultiset_elem_of_subseteq; [|exact Hown]. unfold owned. apply elem_of_list_to_set_disj.
      apply list_elem_of_fmap. exists (l, tmp). split; [done|]. by apply elem_of_list_to_map_2. }
    intros _ s' (es' & Hrep' & Hm & _). exists es'. split; [done|].
    destruct (Z.eqb_spec l 0) as [->|]; [|done]. destruct Hrep as [? H0 ???]. by rewrite to_map_None in Hl.
  - rewrite bool_decide_eq_true_2 by done. cbn [andb].
    eapply wp_mono; [by apply insert_new_spec|]. intros ? s'. unfold inserted.
    destruct ((l =? 0) || _); [intros ->; by exists es|]. intros (p & Hp & Hm & _). eauto.
Qed.

Definition one_entry : pystate :=
  PyState None {[+ 7%nat +]} [] (Cache 1 64 (Some (Some (3, 7%nat) :: replicate 63 None))).

Lemma rep_one_entry : rep (cache one_entry) [(3, 7%nat)].
Proof.
  split; simpl; [repeat constructor|set_solver|done|lia|].
  split; [done|]. exists (replicate 63 None). done.
Qed.

Lemma code_cache_refines_map_witness :
  wp (find_code_object 2) (fun a s' => a = None ∧ cache s' = cache one_entry) one_entry ∧
  wp (insert_code_object true 2 8%nat)
     (fun _ s' => ∃ es', rep (cache s') es' ∧ to_map es' = <[2 := 8%nat]> (to_map [(3, 7%nat)])) one_entry.
Proof.
  apply (code_cache_refines_map true 2 8%nat [(3, 7%nat)] one_entry).
  - apply rep_one_entry.
  - simpl. unfold int_max. lia.
  - unfold owned. simpl. multiset_solver.
Defined.

(** A second insertion of a line releases the old object but takes no reference to
    the new one: when its creator releases its own, the cache holds an object it
    does not own, and the next insertion releases a foreign reference. *)
Theorem replaced_object_is_not_owned :
  (insert_code_object true 3 8%nat;; Py_DECREF 8%nat;; get (fun s => (refs s, cache s)))
    (set_refs {[+ 7%nat; 8%nat +]} one_entry)
  = Done (Ok ((∅, Cache 1 64 (Some (Some (3, 8%nat) :: replicate 63 None))),
              PyState None ∅ [] (Cache 1 64 (Some (Some (3, 8%nat) :: replicate 63 None))))) ∧
  insert_code_object true 3 9%nat
    (PyState None ∅ [] (Cache 1 64 (Some (Some (3, 8%nat) :: replicate 63 None))))
  = Done (Undef dangling).
Proof. split; vm_compute; reflexivity. Qed.
