(* ===== verification/Traceback.v ===== *)
(** * Tracebacks and the accounting of references (cjunk/cython/simple.cpp)

    [__Pyx_AddTraceback] finds or creates the code object of a line, through the
    cache of [CodeCache], and makes a frame of it.  [local] is the assertion all
    functions of the module are verified against: what the module owns is what
    its cache holds, what the caller handed in, and the objects of a list that the
    function at hand must still release, hand over or return. *)

From Stdlib Require Import ZArith Lia String.
From stdpp Require Import base list gmap gmultiset strings.
From S2P Require Import Prelude PyRuntime CodeCache.
Local Open Scope Z_scope.

(** The objects the module holds in global variables. *)
Record globals := Globals {
  Py_None : obj; Py_True : obj; Py_False : obj;
  pyx_m : obj; pyx_d : obj; pyx_b : obj; empty_tuple : obj; empty_bytes : obj;
  int_0 : obj; int_100 : obj; int_222419149 : obj; ptype_a_class : obj;
  cython_runtime : option obj;
  (* the string constants [__pyx_n_s_...] *)
  interned : string → obj }.

(** [__Pyx_ErrFetchInState] and [__Pyx_ErrRestoreInState]: the type, the value and
    the traceback of the current exception always move together. *)
Definition ErrFetch : M (option pyexc) := e ← get err; modify (set_err None);; mret e.
Definition ErrRestore (e : option pyexc) : M () := modify (set_err e).

Section Traceback.
Context (lib : list call → call → answer) (K : objects) (G : globals).

(** Whether the C line is shown: the attribute [cline_in_traceback] of the
    runtime module, which is set to [False] when it is missing. *)
Definition use_cline_of (runtime : obj) : M (option obj) :=
  dict ← call_borrowed lib (Call "_PyObject_GetDictPtr" [AObj runtime]);
  match dict with
  | Some d => call_lookup lib (Call "PyDict_GetItemStr" [AObj d; AObj (interned G "cline_in_traceback")])
  | None =>
      use_cline_obj ← GetAttrStr lib K runtime (interned G "cline_in_traceback");
      match use_cline_obj with
      | Some u =>
          not_ ← call_int lib (Call "PyObject_Not" [AObj u]);
          Py_DECREF u;;
          mret (Some (if not_ =? 0 then Py_True G else Py_False G))
      | None => PyErr_Clear;; mret None
      end
  end.

Definition CLineForTraceback (c_line : Z) : M Z :=
  match cython_runtime G with
  | None => mret c_line
  | Some runtime =>
      e ← ErrFetch;
      use_cline ← use_cline_of runtime;
      c ← match use_cline with
          | None =>
              call_int lib (Call "PyObject_SetAttr"
                [AObj runtime; AObj (interned G "cline_in_traceback"); AObj (Py_False G)]);;
              mret 0
          | Some u =>
              if decide (u = Py_False G) then mret 0
              else if decide (u = Py_True G) then mret c_line
              else not_ ← call_int lib (Call "PyObject_Not" [AObj u]); mret (if not_ =? 0 then c_line else 0)
          end;
      ErrRestore e;;
      mret c
  end.

(** [PyUnicode_FromFormat] when there is a C line, [PyUnicode_FromString] else. *)
Definition CreateCodeObjectForTraceback (funcname : string) (c_line py_line : Z) (filename : string) : M (option obj) :=
  py_srcfile ← call_new lib (Call "PyUnicode_FromString" [AStr filename]);
  match py_srcfile with
  | None => mret None
  | Some py_srcfile =>
      py_funcname ← (if c_line =? 0 then call_new lib (Call "PyUnicode_FromString" [AStr funcname])
                     else call_new lib (Call "PyUnicode_FromFormat" [AStr funcname; AStr "simple.cpp"; AInt c_line]));
      match py_funcname with
      | None => Py_DECREF py_srcfile;; mret None
      | Some py_funcname =>
          py_code ← call_new lib (Call "PyCode_New"
            [AObj (empty_bytes G); AObj (empty_tuple G); AObj py_srcfile; AObj py_funcname; AInt py_line]);
          Py_DECREF py_srcfile;;
          Py_DECREF py_funcname;;
          mret py_code
      end
  end.

(** Whether [PyMem_Malloc] and [PyMem_Realloc] have memory. *)
Definition memory_left : M bool := n ← call_int lib (Call "PyMem_Realloc" []); mret (negb (n =? 0)).

(** The code object of a line, from the cache or new: an owned reference. *)
Definition code_object_for (key : Z) (funcname : string) (c_line py_line : Z) (filename : string) : M (option obj) :=
  py_code ← find_code_object key;
  match py_code with
  | Some o => mret (Some o)
  | None =>
      py_code ← CreateCodeObjectForTraceback funcname c_line py_line filename;
      match py_code with
      | None => mret None
      | Some o => mem ← memory_left; insert_code_object mem key o;; mret (Some o)
      end
  end.

Definition AddTraceback (funcname : string) (c_line py_line : Z) (filename : string) : M () :=
  c_line ← (if c_line =? 0 then mret 0 else CLineForTraceback c_line);
  key ← (if c_line =? 0 then mret py_line else lift (int32 (- c_line)));
  py_code ← code_object_for key funcname c_line py_line filename;
  match py_code with
  | None => mret ()
  | Some o =>
      py_frame ← call_new lib (Call "PyFrame_New" [AObj o; AObj (pyx_d G); AInt 0]);
      match py_frame with
      | None => Py_DECREF o
      | Some f =>
          call_void (Call "PyFrame_SetLineNumber" [AObj f; AInt py_line]);;
          call_int lib (Call "PyTraceBack_Here" [AObj f]);;
          Py_DECREF o;;
          Py_DECREF f
      end
  end.
End Traceback.

(** ** The assertion *)

(** The error indicator is set. *)
Definition exc (s : pystate) : Prop := is_Some (err s).

(** The cache holds [es] and has room for [n] more lines; the module owns the
    references of the cache, the caller's [r] and one for each element of [L]; if
    [b], an exception is set. *)
Record local (r : gmultiset obj) (n : Z) (es : list entry) (L : list obj) (b : bool) (s : pystate) : Prop := {
  l_rep : rep (cache s) es;
  l_room : Z.of_nat (length es) + n ≤ int_max - 127;
  l_refs : refs s = owned es ⊎ (list_to_set_disj L ⊎ r);
  l_exc : b = true → exc s }.

(** The same, whatever the cache holds. *)
Definition holds (r : gmultiset obj) (n : Z) (L : list obj) (b : bool) (s : pystate) : Prop :=
  ∃ es, local r n es L b s.

(** What a function that returned [a] leaves: the reference it returns, and an
    exception if it returns NULL. *)
Definition held (a : option obj) (L : list obj) : list obj := match a with Some o => o :: L | None => L end.
Definition failed (a : option obj) (b : bool) : bool := match a with Some _ => b | None => true end.

Section Rules.
Context (lib : list call → call → answer) (r : gmultiset obj).
Implicit Types (n : Z) (es : list entry) (L : list obj) (b : bool) (s : pystate).

Lemma local_weaken n n' es L b b' s :
  n' ≤ n → (b' = true → b = true) → local r n es L b s → local r n' es L b' s.
Proof. intros Hn Hb []. split; auto; lia. Qed.

Lemma local_perm n es L L' b s : L' ≡ₚ L → local r n es L b s → local r n es L' b s.
Proof. intros HL []. split; auto. by rewrite HL. Qed.

(** [local] only looks at the cache, the ledger and the exception. *)
Lemma local_same n es L b b' s s' :
  cache s' = cache s → refs s' = refs s → (b' = true → exc s') → local r n es L b s → local r n es L b' s'.
Proof. intros Hc Hr Hb []. split; rewrite ?Hc, ?Hr; auto. Qed.

Lemma ledger_add (A B C : gmultiset obj) (o : obj) : {[+ o +]} ⊎ (A ⊎ (B ⊎ C)) = A ⊎ (({[+ o +]} ⊎ B) ⊎ C).
Proof. multiset_solver. Qed.
Lemma ledger_drop (A B B' C : gmultiset obj) (o : obj) :
  (A ⊎ ((B ⊎ ({[+ o +]} ⊎ B')) ⊎ C)) ∖ {[+ o +]} = A ⊎ ((B ⊎ B') ⊎ C).
Proof. multiset_solver. Qed.
Lemma ledger_has (A B B' C : gmultiset obj) (o : obj) : o ∈ A ⊎ ((B ⊎ ({[+ o +]} ⊎ B')) ⊎ C).
Proof. multiset_solver. Qed.

Lemma wp_incref_local n es L b o (Q : () → pystate → Prop) s :
  local r n es L b s → (∀ s', local r n es (o :: L) b s' → Q () s') → wp (Py_INCREF o) Q s.
Proof.
  intros [Hrep Hn Hr Hb] HQ. apply wp_modify, HQ. split; [done|done| |done].
  change (refs _) with ({[+ o +]} ⊎ refs s). rewrite Hr. apply ledger_add.
Qed.

Lemma wp_decref_local n es L1 L2 b o (Q : () → pystate → Prop) s :
  local r n es (L1 ++ o :: L2) b s → (∀ s', local r n es (L1 ++ L2) b s' → Q () s') → wp (Py_DECREF o) Q s.
Proof.
  intros [Hrep Hn Hr Hb] HQ. rewrite list_to_set_disj_app, list_to_set_disj_cons in Hr.
  apply wp_decref; [rewrite Hr; apply ledger_has|]. apply HQ. split; [done|done| |done].
  change (refs _) with (refs s ∖ {[+ o +]}). rewrite Hr, list_to_set_disj_app. apply ledger_drop.
Qed.

Lemma wp_call_new_local n es L b c (Q : option obj → pystate → Prop) s :
  local r n es L b s →
  (∀ o s', local r n es (o :: L) b s' → Q (Some o) s') → (∀ s', local r n es L true s' → Q None s') →
  wp (call_new lib c) Q s.
Proof.
  intros Hs HS HN. unfold call_new, wp. destruct (a_obj (lib (trace s) c)) as [o|].
  - eexists _, _. split; [done|]. apply HS. destruct Hs as [Hrep Hn Hr Hb].
    split; [done|done| |done].
    change (refs _) with ({[+ o +]} ⊎ refs s). rewrite Hr. apply ledger_add.
  - eexists _, _. split; [done|]. apply HN. eapply local_same; [..|exact Hs]; try done. intros _. by eexists.
Qed.

Lemma wp_call_borrowed_local n es L b c (Q : option obj → pystate → Prop) s :
  local r n es L b s → (∀ a s', local r n es L b s' → Q a s') → wp (call_borrowed lib c) Q s.
Proof.
  intros Hs HQ. eexists _, _. split; [done|]. apply HQ. by destruct Hs.
Qed.

Lemma wp_call_lookup_local n es L b c (Q : option obj → pystate → Prop) s :
  local r n es L b s → (∀ a s', local r n es L b s' → Q a s') → wp (call_lookup lib c) Q s.
Proof.
  intros Hs HQ. eexists _, _. split; [done|]. apply HQ. unfold after_lookup.
  eapply local_same; [..|exact Hs]; try (by destruct (lookup_raises _ _ _)).
  intros Hb. destruct (lookup_raises _ _ _); [by eexists|by apply (l_exc _ _ _ _ _ _ Hs)].
Qed.

Lemma wp_call_int_local n es L b c (Q : Z → pystate → Prop) s :
  local r n es L b s → (∀ a s', local r n es L (b || (a <? 0)) s' → Q a s') → wp (call_int lib c) Q s.
Proof.
  intros Hs HQ. eexists _, _. split; [done|]. apply HQ.
  eapply local_same; [..|exact Hs]; try (by destruct (_ <? _)).
  intros Hb. destruct (_ <? 0); [by eexists|]. rewrite orb_false_r in Hb. by apply (l_exc _ _ _ _ _ _ Hs).
Qed.

Lemma wp_call_status_local n es L b c (Q : bool → pystate → Prop) s :
  local r n es L b s → (∀ a s', local r n es L (b || a) s' → Q a s') → wp (call_status lib c) Q s.
Proof.
  intros Hs HQ. eexists _, _. split; [done|]. apply HQ.
  eapply local_same; [..|exact Hs]; try (by destruct (_ =? 0)).
  intros Hb. destruct (_ =? 0); [|by eexists]. rewrite orb_false_r in Hb. by apply (l_exc _ _ _ _ _ _ Hs).
Qed.

Lemma wp_call_test_local n es L b c (Q : bool → pystate → Prop) s :
  local r n es L b s → (∀ a s', local r n es L b s' → Q a s') → wp (call_test lib c) Q s.
Proof. intros Hs HQ. eexists _, _. split; [done|]. apply HQ. by destruct Hs. Qed.

Lemma wp_call_slot_local n es L b c (Q : option obj → pystate → Prop) s :
  local r n es L b s →
  (∀ a s', local r n es (held a L) b s' → Q a s') → wp (call_slot lib c) Q s.
Proof.
  intros Hs HQ. unfold call_slot, wp. destruct (a_obj (lib (trace s) c)) as [o|].
  - eexists _, _. split; [done|]. apply HQ. destruct Hs as [Hrep Hn Hr Hb]. split; [done|done| |done].
    change (refs _) with ({[+ o +]} ⊎ refs s). rewrite Hr. apply ledger_add.
  - eexists _, _. split; [done|]. apply HQ. eapply local_same; [..|exact Hs]; try (by destruct (_ =? 0)).
    intros Hb. destruct (_ =? 0); [by apply (l_exc _ _ _ _ _ _ Hs)|by eexists].
Qed.

Lemma wp_occurred_local n es L b (Q : bool → pystate → Prop) s :
  local r n es L b s → (∀ a s', local r n es L a s' → (b = true → a = true) → Q a s') → wp PyErr_Occurred Q s.
Proof.
  intros Hs HQ. apply wp_get, HQ.
  - destruct Hs as [? ? ? Hb]. split; try done. by intros ?%bool_decide_eq_true.
  - intros Hb. by apply bool_decide_eq_true, (l_exc _ _ _ _ _ _ Hs).
Qed.

Lemma wp_give_local n es L1 L2 b o c (Q : () → pystate → Prop) s :
  local r n es (L1 ++ o :: L2) b s → (∀ s', local r n es (L1 ++ L2) b s' → Q () s') → wp (Py_GIVE o c) Q s.
Proof.
  intros H HQ. apply wp_bind, (wp_decref_local n es L1 L2 b o _ s H). intros s' H'.
  apply wp_modify, HQ. by destruct H'.
Qed.

Lemma wp_call_void_local n es L b c (Q : () → pystate → Prop) s :
  local r n es L b s → (∀ s', local r n es L b s' → Q () s') → wp (call_void c) Q s.
Proof. intros Hs HQ. eexists _, _. split; [done|]. apply HQ. by destruct Hs. Qed.

Lemma wp_set_err_local n es L b e (Q : () → pystate → Prop) s :
  local r n es L b s → (∀ s', local r n es L (bool_decide (is_Some e)) s' → Q () s') → wp (modify (set_err e)) Q s.
Proof.
  intros Hs HQ. apply wp_modify, HQ. eapply local_same; [..|exact Hs]; try done.
  intros ?%bool_decide_eq_true. done.
Qed.
End Rules.

(** ** Symbolic execution

    [py] runs the next statements of the function; it stops at a call that has a
    specification of its own, or at the end. *)

(** The parts of [L] before and after its first [o]. *)
Ltac around o L :=
  match L with
  | o :: ?L' => constr:((@nil obj, L'))
  | ?x :: ?L' => let p := around o L' in match p with (?A, ?B) => constr:((x :: A, B)) end
  end.

Ltac py1 :=
  match goal with
  | |- wp (mbind _ _) _ _ => apply wp_bind
  | |- wp (mret _) _ _ => apply wp_ret
  | |- wp (match ?x with _ => _ end) _ _ => destruct x eqn:?; cbn [held failed] in *
  | |- wp (Py_XDECREF (Some _)) _ _ => cbn [Py_XDECREF]
  | |- wp (Py_XDECREF None) _ _ => apply wp_ret
  | H : local _ _ _ _ _ ?s |- wp (Py_INCREF _) _ ?s =>
      let s' := fresh "s" in apply (wp_incref_local _ _ _ _ _ _ _ _ H); clear H; intros s' H
  | H : local ?r ?n ?es ?L ?b ?s |- wp (Py_DECREF ?o) _ ?s =>
      let p := around o L in
      match p with (?A, ?B) =>
        let s' := fresh "s" in
        apply (wp_decref_local r n es A B b o _ s H); clear H; intros s' H; cbn [app] in H
      end
  | H : local _ _ _ _ _ ?s |- wp (call_new _ _) _ ?s =>
      let s' := fresh "s" in let o := fresh "o" in
      apply (wp_call_new_local _ _ _ _ _ _ _ _ _ H); clear H; [intros o s' H|intros s' H]
  | H : local _ _ _ _ _ ?s |- wp (call_borrowed _ _) _ ?s =>
      let s' := fresh "s" in let a := fresh "a" in
      apply (wp_call_borrowed_local _ _ _ _ _ _ _ _ _ H); clear H; intros a s' H
  | H : local _ _ _ _ _ ?s |- wp (call_lookup _ _) _ ?s =>
      let s' := fresh "s" in let a := fresh "a" in
      apply (wp_call_lookup_local _ _ _ _ _ _ _ _ _ H); clear H; intros a s' H
  | H : local _ _ _ _ _ ?s |- wp (call_int _ _) _ ?s =>
      let s' := fresh "s" in let a := fresh "a" in
      apply (wp_call_int_local _ _ _ _ _ _ _ _ _ H); clear H; intros a s' H
  | H : local ?r ?n ?es ?L ?b ?s |- wp (Py_GIVE ?o ?c) _ ?s =>
      let p := around o L in
      match p with (?A, ?B) =>
        let s' := fresh "s" in
        apply (wp_give_local r n es A B b o c _ s H); clear H; intros s' H; cbn [app] in H
      end
  | H : local _ _ _ _ _ ?s |- wp (call_status _ _) _ ?s =>
      let s' := fresh "s" in let a := fresh "a" in
      apply (wp_call_status_local _ _ _ _ _ _ _ _ _ H); clear H; intros a s' H
  | H : local _ _ _ _ _ ?s |- wp (call_test _ _) _ ?s =>
      let s' := fresh "s" in let a := fresh "a" in
      apply (wp_call_test_local _ _ _ _ _ _ _ _ _ H); clear H; intros a s' H
  | H : local _ _ _ _ _ ?s |- wp (call_slot _ _) _ ?s =>
      let s' := fresh "s" in let a := fresh "a" in
      apply (wp_call_slot_local _ _ _ _ _ _ _ _ _ H); clear H; intros a s' H
  | H : local _ _ _ _ _ ?s |- wp PyErr_Occurred _ ?s =>
      let s' := fresh "s" in let a := fresh "a" in
      apply (wp_occurred_local _ _ _ _ _ _ _ H); clear H; intros a s' H ?
  | H : local _ _ _ _ _ ?s |- wp (PyErr_Set _) _ ?s => unfold PyErr_Set
  | H : local _ _ _ _ _ ?s |- wp PyErr_Clear _ ?s => unfold PyErr_Clear
  | H : local _ _ _ _ _ ?s |- wp (call_void _) _ ?s =>
      let s' := fresh "s" in apply (wp_call_void_local _ _ _ _ _ _ _ _ H); clear H; intros s' H
  | H : local _ _ _ _ _ ?s |- wp (modify (set_err _)) _ ?s =>
      let s' := fresh "s" in apply (wp_set_err_local _ _ _ _ _ _ _ _ H); clear H; intros s' H
  end.

(** The end of a path: the assertion that holds implies the one that is wanted. *)
Ltac py_done :=
  cbn [held failed] in *;
  match goal with
  | H : local ?r ?n ?es ?L ?b ?s |- local ?r ?n' ?es ?L ?b' ?s =>
      apply (local_weaken r n n' es L b b' s); [try lia|first [by intros|by intros ->|by intros; rewrite orb_true_r|idtac]|exact H]
  | H : local ?r ?n ?es ?L ?b ?s |- holds ?r ?n' ?L ?b' ?s =>
      exists es; apply (local_weaken r n n' es L b b' s); [try lia|first [by intros|by intros ->|by intros; rewrite orb_true_r|idtac]|exact H]
  end.

Ltac py := repeat (py1; cbn beta iota).

Section Specs.
Context (lib : list call → call → answer) (K : objects) (G : globals) (r : gmultiset obj).

Lemma use_cline_spec runtime n es L b s :
  local r n es L b s → wp (use_cline_of lib K G runtime) (fun _ => local r n es L false) s.
Proof. intros H. unfold use_cline_of, PyErr_Clear, GetAttrStr. py; py_done. Qed.

Lemma CLine_spec c n es L b s :
  local r n es L b s →
  wp (CLineForTraceback lib K G c) (fun c' s' => local r n es L b s' ∧ (c' = c ∨ c' = 0)) s.
Proof.
  intros H. unfold CLineForTraceback. destruct (cython_runtime G) as [rt|]; [|apply wp_ret; auto].
  assert (b = true → bool_decide (is_Some (err s)) = true) as Hb.
  { intros ->. apply bool_decide_eq_true. by apply (l_exc _ _ _ _ _ _ H). }
  unfold ErrFetch, ErrRestore. py. apply wp_get. py.
  eapply wp_mono; [by eapply use_cline_spec|]. clear H. cbn beta. intros u s' H.
  py; (split; [by py_done|repeat case_match; auto]).
Qed.

Lemma CreateCode_spec f c l file n es L b s :
  local r n es L b s →
  wp (CreateCodeObjectForTraceback lib G f c l file)
     (fun a => local r n es (held a L) (failed a b)) s.
Proof. intros H. unfold CreateCodeObjectForTraceback. py; py_done. Qed.

Lemma find_local key n es L b s (Q : option obj → pystate → Prop) :
  local r n es L b s →
  (∀ s', local r n es (held (to_map es !! key) L) b s' → Q (to_map es !! key) s') →
  wp (find_code_object key) Q s.
Proof.
  intros [Hrep Hn Hr Hb] HQ. eapply find_spec; [done|]. apply HQ.
  destruct (to_map es !! key) as [o|]; split; try done.
  change (refs _) with ({[+ o +]} ⊎ refs s). rewrite Hr. apply ledger_add.
Qed.

(** The cache takes a reference of its own; the one of the caller stays. *)
Lemma insert_local mem key o n es L b s :
  local r (n + 1) es L b s → 0 ≤ n → to_map es !! key = None →
  wp (insert_code_object mem key o) (fun _ => holds r n L b) s.
Proof.
  intros H Hn0 Hk. pose proof H as [Hrep Hn Hr Hb].
  eapply wp_mono; [eapply insert_new_spec; [done..|]|].
  { destruct Hrep as [_ _ Hc Hm _]. unfold int_max in *. lia. }
  intros ? s'. unfold inserted. destruct (_ || _); [intros ->; by py_done|].
  intros (p & Hrep' & _ & He & _ & Hr'). eexists. split; [done|..].
  - rewrite insert_at_perm. cbn [length]. lia.
  - rewrite Hr', Hr, owned_insert_at. by rewrite (assoc_L (⊎)).
  - unfold exc. by rewrite He.
Qed.

Lemma code_object_spec key f c l file n es L b s :
  local r (n + 1) es L b s → 0 ≤ n →
  wp (code_object_for lib G key f c l file) (fun a => holds r n (held a L) (failed a b)) s.
Proof.
  intros H Hn. unfold code_object_for. apply wp_bind, (find_local _ _ _ _ _ _ _ H). clear H. intros s1 H.
  destruct (to_map es !! key) as [o|] eqn:Hk; cbn [held] in H; [py; py_done|].
  apply wp_bind. eapply wp_mono; [by eapply CreateCode_spec|]. clear H. intros [o|] s2 H; cbn beta in H; [|py; py_done].
  unfold memory_left. py. cbn [held failed] in H.
  apply (local_weaken _ _ (n + 1) _ _ _ b) in H; [|lia|by intros ->].
  eapply wp_mono; [by eapply insert_local|]. intros ? s4 [es' H']. py. py_done.
Qed.

(** A traceback owes nothing: the references of the caller and the objects it
    still holds are what they were, and a pending exception stays pending. *)
Lemma AddTraceback_spec f c l file n es L b s :
  local r (n + 1) es L b s → 0 ≤ n → int_min < c ≤ int_max →
  wp (AddTraceback lib K G f c l file) (fun _ => holds r n L b) s.
Proof.
  intros H Hn Hc. unfold AddTraceback. apply wp_bind.
  apply (wp_mono _ _ (fun c' s' => local r (n + 1) es L b s' ∧ (c' = c ∨ c' = 0))).
  { destruct (Z.eqb_spec c 0) as [->|]; [apply wp_ret; auto|by apply CLine_spec]. }
  clear H. intros c' s1 [H Hc']. apply wp_bind.
  apply (wp_mono _ _ (fun _ s' => local r (n + 1) es L b s')).
  { destruct (c' =? 0); [by apply wp_ret|]. eapply wp_lift; [apply int32_ok|done].
    unfold int_min, int_max in *. lia. }
  clear H. intros key s2 H. apply wp_bind. eapply wp_mono; [by eapply code_object_spec|].
  clear H. intros [o|] s3 [es' H]; cbn [held failed] in H; py; py_done.
Qed.
End Specs.
