(* ===== verification/PyCalls.v ===== *)
(** * Attribute access, calls, imports and raising (cjunk/cython/simple.cpp)

    The helpers Cython adds to a module, for CPython 3.7 or later, with type slots
    and fast calls.  Each of them keeps the books: it returns a new reference, or
    NULL with an exception set, and owns nothing else when it returns. *)

From Stdlib Require Import ZArith Lia String.
From stdpp Require Import base list gmap gmultiset strings.
From S2P Require Import Prelude PyRuntime CodeCache Traceback.
Local Open Scope Z_scope.

Section Helpers.
Context (lib : list call → call → answer) (K : objects) (G : globals).

(** ** Attributes *)

Definition GetAttr (o n : obj) : M (option obj) :=
  if is_unicode K n then GetAttrStr lib K o n else call_new lib (Call "PyObject_GetAttr" [AObj o; AObj n]).

Definition ExceptionMatches (type : string) : M bool := call_test lib (Call "PyErr_ExceptionMatches" [AStr type]).

Definition GetAttr3Default (d : obj) : M (option obj) :=
  matches ← ExceptionMatches "AttributeError";
  if matches : bool then PyErr_Clear;; Py_INCREF d;; mret (Some d) else mret None.

Definition GetAttr3 (o n d : obj) : M (option obj) :=
  r ← GetAttr o n;
  match r with Some r => mret (Some r) | None => GetAttr3Default d end.

(** [-1] with an exception, [0] or [1]. *)
Definition HasAttr (o n : obj) : M Z :=
  if negb (is_unicode K n) then PyErr_Set (PyExc "TypeError" "hasattr(): attribute name must be string");; mret (-1)
  else
    r ← GetAttr o n;
    match r with
    | None => PyErr_Clear;; mret 0
    | Some r => Py_DECREF r;; mret 1
    end.

Definition GetBuiltinName (name : obj) : M (option obj) :=
  result ← GetAttrStr lib K (pyx_b G) name;
  match result with
  | Some o => mret (Some o)
  | None => PyErr_Set (PyExc "NameError" "name is not defined");; mret None
  end.

(** [__Pyx__GetModuleGlobalName]: the dictionary of the module, then the builtins. *)
Definition GetModuleGlobalName (name : obj) : M (option obj) :=
  result ← call_lookup lib (Call "_PyDict_GetItem_KnownHash" [AObj (pyx_d G); AObj name]);
  match result with
  | Some o => o ← NewRef o; mret (Some o)
  | None =>
      occurred ← PyErr_Occurred;
      if occurred : bool then mret None else GetBuiltinName name
  end.

(** ** Calls *)

(** The call through the slot and what follows it in
    [__Pyx_PyObject_Call] and [__Pyx_PyObject_CallMethO]. *)
Definition checked_slot (c : call) : M (option obj) :=
  failed ← call_status lib (Call "Py_EnterRecursiveCall" []);
  if failed : bool then mret None
  else
    result ← call_slot lib c;
    call_void (Call "Py_LeaveRecursiveCall" []);;
    match result with
    | Some o => mret (Some o)
    | None =>
        occurred ← PyErr_Occurred;
        (if occurred : bool then mret ()
         else PyErr_Set (PyExc "SystemError" "NULL result without error in PyObject_Call"));;
        mret None
    end.

Definition PyObject_Call (func arg : obj) : M (option obj) :=
  if has_call K func then checked_slot (Call "tp_call" [AObj func; AObj arg])
  else call_new lib (Call "PyObject_Call" [AObj func; AObj arg]).

Definition CallMethO (func arg : obj) : M (option obj) := checked_slot (Call "ml_meth" [AObj func; AObj arg]).

(** [INCREF] and [PyTuple_SET_ITEM], item by item. *)
Fixpoint set_items (f : string) (t : obj) (i : Z) (items : list obj) : M () :=
  match items with
  | [] => mret ()
  | o :: items => Py_INCREF o;; Py_GIVE o (Call f [AObj t; AInt i; AObj o]);; set_items f t (i + 1) items
  end.

Definition FastCallNoKw (co : obj) (args : list obj) (globals : obj) : M (option obj) :=
  f ← call_new lib (Call "PyFrame_New" [AObj co; AObj globals]);
  match f with
  | None => mret None
  | Some f =>
      set_items "fastlocals" f 0 args;;
      result ← call_new lib (Call "PyEval_EvalFrameEx" [AObj f; AInt 0]);
      Py_DECREF f;;
      mret result
  end.

(** The arguments [FastCallNoKw] is called with, when the shortcut applies. *)
Definition shortcut (fn : function) (args : list obj) (nk : Z) : option (list obj) :=
  if (co_kwonlyargcount fn =? 0) && (nk =? 0) && plain_flags fn then
    match argdefs fn with
    | None => if co_argcount fn =? Z.of_nat (length args) then Some args else None
    | Some d =>
        if (Z.of_nat (length args) =? 0) && (co_argcount fn =? Z.of_nat (length d)) then Some d else None
    end
  else None.

(** [__Pyx_PyFunction_FastCallDict]; [kwargs] lists the keywords of the
    dictionary and their values. *)
Definition FastCallDict (func : obj) (fn : function) (args : list obj) (kwargs : option (list obj)) : M (option obj) :=
  failed ← call_status lib (Call "Py_EnterRecursiveCall" []);
  if failed : bool then mret None
  else
    let nk := match kwargs with Some k => Z.of_nat (length k) ÷ 2 | None => 0 end in
    result ← match shortcut fn args nk with
             | Some args => FastCallNoKw (co fn) args (fglobals fn)
             | None =>
                 kwtuple ← match kwargs with
                           | None => mret (Some None)
                           | Some k =>
                               t ← call_new lib (Call "PyTuple_New" [AInt (2 * nk)]);
                               match t with
                               | None => mret None
                               | Some t => set_items "PyTuple_SET_ITEM" t 0 k;; mret (Some (Some t))
                               end
                           end;
                 match kwtuple with
                 | None => mret None
                 | Some kwtuple =>
                     result ← call_new lib (Call "PyEval_EvalCodeEx" (AObj (co fn) :: (AObj <$> args)));
                     Py_XDECREF kwtuple;;
                     mret result
                 end
             end;
    call_void (Call "Py_LeaveRecursiveCall" []);;
    mret result.

(** [__Pyx_PyCFunction_FastCall]: one call through the method pointer. *)
Definition CFunction_FastCall (func : obj) (args : list obj) : M (option obj) :=
  call_new lib (Call "ml_meth_fastcall" (AObj func :: (AObj <$> args))).

Definition CallOneArg_tuple (func arg : obj) : M (option obj) :=
  args ← call_new lib (Call "PyTuple_New" [AInt 1]);
  match args with
  | None => mret None
  | Some args =>
      set_items "PyTuple_SET_ITEM" args 0 [arg];;
      result ← PyObject_Call func args;
      Py_DECREF args;;
      mret result
  end.

Definition CallOneArg (func arg : obj) : M (option obj) :=
  match as_function K func with
  | Some fn => FastCallDict func fn [arg] None
  | None =>
      if is_cfunction K func && meth_o K func then CallMethO func arg
      else if is_cfunction K func && meth_fastcall K func then CFunction_FastCall func [arg]
      else CallOneArg_tuple func arg
  end.

Definition Call2Args (function_ arg1 arg2 : obj) : M (option obj) :=
  match as_function K function_ with
  | Some fn => FastCallDict function_ fn [arg1; arg2] None
  | None =>
      if is_cfunction K function_ && meth_fastcall K function_ then CFunction_FastCall function_ [arg1; arg2]
      else
        args ← call_new lib (Call "PyTuple_New" [AInt 2]);
        match args with
        | None => mret None
        | Some args =>
            set_items "PyTuple_SET_ITEM" args 0 [arg1; arg2];;
            Py_INCREF function_;;
            result ← PyObject_Call function_ args;
            Py_DECREF args;;
            Py_DECREF function_;;
            mret result
        end
  end.

(** A bound method is taken apart before it is called: the function, and the
    object it is bound to.  [t] is owned before, both are owned after. *)
Definition unpack_method (t : obj) : M (obj * option obj) :=
  match as_method K t with
  | Some (Some self, function_) =>
      Py_INCREF self;; Py_INCREF function_;; Py_DECREF t;; mret (function_, Some self)
  | _ => mret (t, None)
  end.

(** [(self) ? __Pyx_PyObject_Call2Args(f, self, arg) : __Pyx_PyObject_CallOneArg(f, arg)]. *)
Definition call_with (f : obj) (self : option obj) (arg : obj) : M (option obj) :=
  match self with Some self => Call2Args f self arg | None => CallOneArg f arg end.

(** ** Imports *)

(** The module name has no dot, so level [-1] is level 0. *)
Definition Import (name : obj) (from_list : option obj) (level : Z) : M (option obj) :=
  empty_list ← match from_list with
               | Some _ => mret (Some None)
               | None =>
                   l ← call_new lib (Call "PyList_New" [AInt 0]);
                   mret (match l with Some l => Some (Some l) | None => None end)
               end;
  match empty_list with
  | None => mret None
  | Some empty_list =>
      let list_ := match from_list with Some l => Some l | None => empty_list end in
      global_dict ← call_borrowed lib (Call "PyModule_GetDict" [AObj (pyx_m G)]);
      module ← match global_dict with
               | None => PyErr_Set (PyExc "SystemError" "bad argument to internal function");; mret None
               | Some global_dict =>
                   empty_dict ← call_new lib (Call "PyDict_New" []);
                   match empty_dict with
                   | None => mret None
                   | Some empty_dict =>
                       let level := if level =? -1 then 0 else level in
                       module ← call_new lib (Call "PyImport_ImportModuleLevelObject"
                         ([AObj name; AObj global_dict; AObj empty_dict] ++ (AObj <$> option_list list_) ++ [AInt level]));
                       Py_DECREF empty_dict;;
                       mret module
                   end
               end;
      Py_XDECREF empty_list;;
      mret module
  end.

Definition ImportFrom (module name : obj) : M (option obj) :=
  value ← GetAttrStr lib K module name;
  match value with
  | Some v => mret (Some v)
  | None =>
      matches ← ExceptionMatches "AttributeError";
      (if matches : bool then PyErr_Set (PyExc "ImportError" "cannot import name") else mret ());;
      mret None
  end.

(** ** Raising *)

(** The instance of an exception class that is raised: [value] itself, or the
    class called with it.  [inl] is the type and the value with whether the value
    is owned; [inr] is [goto bad], with what is owned. *)
Definition instance_of (type : obj) (value : option obj) : M ((obj * obj * bool) + option obj) :=
  instance_class ← match value with
    | Some v =>
        if exception_instance K v then
          let c := type_of K v in
          if decide (c = type) then mret (inl (Some c))
          else
            is_subclass ← call_int lib (Call "PyObject_IsSubclass" [AObj c; AObj type]);
            mret (if is_subclass =? 0 then inl None else if is_subclass <? 0 then inr () else inl (Some c))
        else mret (inl None)
    | None => mret (inl None)
    end;
  match instance_class, value with
  | inr _, _ => mret (inr None)
  | inl (Some c), Some v => mret (inl (c, v, false))
  | inl _, _ =>
      args ← match value with
             | None => call_new lib (Call "PyTuple_New" [AInt 0])
             | Some v =>
                 match as_tuple K v with
                 | Some _ => Py_INCREF v;; mret (Some v)
                 | None => call_new lib (Call "PyTuple_Pack" [AInt 1; AObj v])
                 end
             end;
      match args with
      | None => mret (inr None)
      | Some args =>
          owned_instance ← call_new lib (Call "PyObject_Call" [AObj type; AObj args]);
          Py_DECREF args;;
          match owned_instance with
          | None => mret (inr None)
          | Some v =>
              if exception_instance K v then mret (inl (type, v, true))
              else
                PyErr_Set (PyExc "TypeError" "calling %R should have returned an instance of BaseException, not %R");;
                mret (inr (Some v))
          end
      end
  end.

(** The cause that is attached: [inl] is the reference handed over, or none. *)
Definition fixed_cause_of (cause : obj) : M (option obj + ()) :=
  if decide (cause = Py_None G) then mret (inl None)
  else if exception_class K cause then
    c ← call_new lib (Call "PyObject_CallObject" [AObj cause]);
    mret (match c with Some c => inl (Some c) | None => inr () end)
  else if exception_instance K cause then Py_INCREF cause;; mret (inl (Some cause))
  else PyErr_Set (PyExc "TypeError" "exception causes must derive from BaseException");; mret (inr ()).

(** [PyException_SetCause] takes the reference of the cause. *)
Definition set_cause (value : obj) (fixed : option obj) : M () :=
  match fixed with
  | Some c => Py_GIVE c (Call "PyException_SetCause" [AObj value; AObj c])
  | None => call_void (Call "PyException_SetCause" [AObj value])
  end.

(** [__Pyx_Raise].  The traceback that is set is kept in the exception. *)
Definition Raise (type : obj) (value tb cause : option obj) : M () :=
  let tb := if decide (tb = Some (Py_None G)) then None else tb in
  if match tb with Some t => negb (is_traceback K t) | None => false end then
    PyErr_Set (PyExc "TypeError" "raise: arg 3 must be a traceback or None")
  else
    let value := if decide (value = Some (Py_None G)) then None else value in
    r ← (if exception_instance K type then
           match value with
           | Some _ =>
               PyErr_Set (PyExc "TypeError" "instance exception may not have a separate value");; mret (inr None)
           | None => mret (inl (type_of K type, type, false))
           end
         else if exception_class K type then instance_of type value
         else
           PyErr_Set (PyExc "TypeError" "raise: exception class must be a subclass of BaseException");;
           mret (inr None));
    match r with
    | inr owned_instance => Py_XDECREF owned_instance
    | inl (type, value, is_owned) =>
        ok ← match cause with
             | None => mret true
             | Some cause =>
                 fixed ← fixed_cause_of cause;
                 match fixed with
                 | inr _ => mret false
                 | inl fixed => set_cause value fixed;; mret true
                 end
             end;
        (if ok : bool then PyErr_Set (Raised type value) else mret ());;
        (if is_owned : bool then Py_DECREF value else mret ())
    end.
End Helpers.

(** ** The books *)

(** A new reference, or NULL with an exception; nothing else is owned after. *)
Definition new_ref (m : M (option obj)) : Prop :=
  ∀ r n es L b s, local r n es L b s → wp m (fun a => local r n es (held a L) (failed a false)) s.

Create HintDb pyref discriminated.

Lemma wp_new_ref m r n es L b s (Q : option obj → pystate → Prop) :
  new_ref m → local r n es L b s →
  (∀ o s', local r n es (o :: L) false s' → Q (Some o) s') → (∀ s', local r n es L true s' → Q None s') →
  wp m Q s.
Proof. intros Hm H HS HN. eapply wp_mono; [by eapply Hm|]. intros [o|] s' H'; eauto. Qed.

(** [py] with the functions of this file as steps. *)
Ltac pyr1 :=
  first
    [ py1
    | match goal with
      | H : local ?r ?n ?es ?L ?b ?s |- wp ?m _ ?s =>
          let s' := fresh "s" in let o := fresh "o" in
          apply (wp_new_ref m r n es L b s); [solve [auto with pyref]|exact H|clear H; intros o s' H|clear H; intros s' H]
      end ].
Ltac pyr := repeat (pyr1; cbn beta iota).

Section Specs.
Context (lib : list call → call → answer) (K : objects) (G : globals).

Lemma set_items_spec f t i items r n es L b s (Q : () → pystate → Prop) :
  local r n es L b s → (∀ s', local r n es L b s' → Q () s') → wp (set_items f t i items) Q s.
Proof.
  revert i s. induction items as [|o items IH]; intros i s H HQ; cbn [set_items]; [py; auto|].
  py. by eapply IH.
Qed.

Lemma GetAttrStr_ref o name : new_ref (GetAttrStr lib K o name).
Proof. intros r n es L b s H. unfold GetAttrStr. py; py_done. Qed.
Hint Resolve GetAttrStr_ref : pyref.

Lemma call_new_ref c : new_ref (call_new lib c).
Proof. intros r n es L b s H. py; py_done. Qed.

Lemma GetAttr_ref o name : new_ref (GetAttr lib K o name).
Proof. intros r n es L b s H. unfold GetAttr. pyr; py_done. Qed.
Hint Resolve GetAttr_ref : pyref.

Lemma GetAttr3_ref o name d : new_ref (GetAttr3 lib K o name d).
Proof. intros r n es L b s H. unfold GetAttr3, GetAttr3Default, ExceptionMatches. pyr; py_done. Qed.

Lemma GetBuiltinName_ref name : new_ref (GetBuiltinName lib K G name).
Proof. intros r n es L b s H. unfold GetBuiltinName. pyr; py_done. Qed.
Hint Resolve GetBuiltinName_ref : pyref.

Lemma GetModuleGlobalName_ref name : new_ref (GetModuleGlobalName lib K G name).
Proof. intros r n es L b s H. unfold GetModuleGlobalName, NewRef. pyr; py_done. Qed.

Lemma checked_slot_ref c : new_ref (checked_slot lib c).
Proof. intros r n es L b s H. unfold checked_slot. pyr; py_done. Qed.
Hint Resolve checked_slot_ref : pyref.

Lemma PyObject_Call_ref f arg : new_ref (PyObject_Call lib K f arg).
Proof. intros r n es L b s H. unfold PyObject_Call. pyr; py_done. Qed.
Hint Resolve PyObject_Call_ref : pyref.

Lemma FastCallNoKw_ref c args g : new_ref (FastCallNoKw lib c args g).
Proof.
  intros r n es L b s H. unfold FastCallNoKw. pyr; [|py_done].
  eapply set_items_spec; [done|]. clear H. intros s1 H. pyr; py_done.
Qed.
Hint Resolve FastCallNoKw_ref : pyref.

Lemma FastCallDict_ref f fn args kw : new_ref (FastCallDict lib f fn args kw).
Proof.
  intros r n es L b s H. unfold FastCallDict. py1; py1. py1. 1: by (py; py_done).
  destruct (shortcut _ _ _) as [args'|]; [by pyr; py_done|].
  destruct kw as [k|]; [|by pyr; py_done]. pyr; [|py_done].
  eapply set_items_spec; [done|]. clear H. intros s2 H. pyr; py_done.
Qed.
Hint Resolve FastCallDict_ref : pyref.

Lemma CallOneArg_ref f arg : new_ref (CallOneArg lib K f arg).
Proof.
  intros r n es L b s H. unfold CallOneArg, CallMethO, CFunction_FastCall, CallOneArg_tuple. cbn [set_items].
  pyr; py_done.
Qed.
Hint Resolve CallOneArg_ref : pyref.

Lemma Call2Args_ref f arg1 arg2 : new_ref (Call2Args lib K f arg1 arg2).
Proof.
  intros r n es L b s H. unfold Call2Args, CFunction_FastCall. cbn [set_items]. pyr; py_done.
Qed.
Hint Resolve Call2Args_ref : pyref.

Lemma call_with_ref f self arg : new_ref (call_with lib K f self arg).
Proof. intros r n es L b s H. unfold call_with. pyr; py_done. Qed.

Lemma Import_ref name from level : new_ref (Import lib G name from level).
Proof. intros r n es L b s H. unfold Import. destruct from; pyr; py_done. Qed.

Lemma ImportFrom_ref m name : new_ref (ImportFrom lib K m name).
Proof. intros r n es L b s H. unfold ImportFrom, ExceptionMatches. pyr; py_done. Qed.

(** A question: nothing is owned after, and [-1] comes with an exception. *)
Lemma HasAttr_spec o name r n es L b s :
  local r n es L b s →
  wp (HasAttr lib K o name) (fun a => local r n es L (a <? 0)) s.
Proof. intros H. unfold HasAttr. pyr; cbn; py_done. Qed.

(** What [instance_of] leaves owned. *)
Definition instance_refs (x : (obj * obj * bool) + option obj) : list obj :=
  match x with inl (_, v, true) => [v] | inl _ => [] | inr o => held o [] end.
Definition instance_failed (x : (obj * obj * bool) + option obj) : bool :=
  match x with inl _ => false | inr _ => true end.

Lemma instance_of_spec type value r n es L b s :
  local r n es L b s →
  wp (instance_of lib K type value) (fun x => local r n es (instance_refs x ++ L) (instance_failed x)) s.
Proof.
  intros H. unfold instance_of. destruct value as [v|]; pyr; cbn [instance_refs instance_failed held app];
    py_done. repeat case_match; simplify_eq. by rewrite orb_true_r.
Qed.

Lemma Raise_spec type value tb cause r n es L b s :
  local r n es L b s → wp (Raise lib K G type value tb cause) (fun _ => local r n es L true) s.
Proof.
  intros H. unfold Raise. destruct (match (if decide _ then None else tb) with Some _ => _ | None => _ end); [py; py_done|].
  generalize (if decide (value = Some (Py_None G)) then None else value). clear value. intros value.
  apply wp_bind. eapply wp_mono with (Q' := fun x => local r n es (instance_refs x ++ L) (instance_failed x)).
  { destruct (exception_instance K type); [py; py_done|].
    destruct (exception_class K type); [by eapply instance_of_spec|py; py_done]. }
  clear H. intros [[[t v] [|]]|[o|]] s1 H; cbn [instance_refs instance_failed held app] in H;
    unfold fixed_cause_of, set_cause; destruct cause as [cause|]; py; py_done.
Qed.
End Specs.
