(* ===== verification/PyIndex.v ===== *)
(** * Indexing lists and tuples with a C integer (cjunk/cython/simple.cpp)

    The fast paths of [o[i]] test the bounds with one unsigned comparison, and
    count negative indices from the end. *)

From Stdlib Require Import ZArith Lia String.
From stdpp Require Import base list gmap gmultiset strings.
From S2P Require Import Prelude Loops PyRuntime CodeCache Traceback PyCalls.
Local Open Scope Z_scope.

(** [(size_t) i < (size_t) limit]. *)
Definition is_valid_index (i limit : Z) : bool := u64 i <? u64 limit.

Section Index.
Context (lib : list call → call → answer) (K : objects).

Definition PyInt_FromSsize_t (i : Z) : M (option obj) := call_new lib (Call "PyInt_FromSsize_t" [AInt i]).

Definition GetItemInt_Generic (o : obj) (j : option obj) : M (option obj) :=
  match j with
  | None => mret None
  | Some j =>
      r ← call_new lib (Call "PyObject_GetItem" [AObj o; AObj j]);
      Py_DECREF j;;
      mret r
  end.

Definition generic (o : obj) (i : Z) : M (option obj) := j ← PyInt_FromSsize_t i; GetItemInt_Generic o j.

(** The body of [__Pyx_GetItemInt_List_Fast] and [__Pyx_GetItemInt_Tuple_Fast]. *)
Definition get_item_fast (items : list obj) (o : obj) (i : Z) (wraparound boundscheck : bool) : M (option obj) :=
  let size := Z.of_nat (length items) in
  let wrapped_i := if wraparound && (i <? 0) then i + size else i in
  if negb boundscheck || is_valid_index wrapped_i size then
    r ← lift (vec_get items wrapped_i); Py_INCREF r;; mret (Some r)
  else generic o i.

Definition GetItemInt_List_Fast (o : obj) (i : Z) (wraparound boundscheck : bool) : M (option obj) :=
  match as_list K o with
  | Some items => get_item_fast items o i wraparound boundscheck
  | None => lift (Undef bad_precondition)
  end.

Definition GetItemInt_Tuple_Fast (o : obj) (i : Z) (wraparound boundscheck : bool) : M (option obj) :=
  match as_tuple K o with
  | Some items => get_item_fast items o i wraparound boundscheck
  | None => lift (Undef bad_precondition)
  end.

(** The sequence protocol of an object that is neither a list nor a tuple. *)
Definition get_sq_item (o : obj) (i : Z) (wraparound : bool) : M (option obj) :=
  i ← (if wraparound && (i <? 0) && has_sq_length K o then
         l ← call_int lib (Call "sq_length" [AObj o]);
         if 0 <=? l then mret (Some (i + l))
         else
           matches ← ExceptionMatches lib "OverflowError";
           if matches : bool then PyErr_Clear;; mret (Some i) else mret None
       else mret (Some i));
  match i with
  | None => mret None
  | Some i => call_new lib (Call "sq_item" [AObj o; AInt i])
  end.

Definition GetItemInt_Fast (o : obj) (i : Z) (is_list wraparound boundscheck : bool) : M (option obj) :=
  match as_list K o, as_tuple K o with
  | Some items, _ => get_item_fast items o i wraparound boundscheck
  | None, items =>
      if is_list : bool then lift (Undef bad_precondition)
      else match items with
      | Some items => get_item_fast items o i wraparound boundscheck
      | None => if has_sq_item K o then get_sq_item o i wraparound else generic o i
      end
  end.
End Index.

(** ** One comparison tests both bounds *)

Lemma is_valid_index_spec i limit :
  llong_min ≤ i ≤ llong_max → 0 ≤ limit ≤ llong_max → is_valid_index i limit = true ↔ 0 ≤ i < limit.
Proof.
  unfold llong_min, llong_max, is_valid_index, u64. intros Hi Hl. rewrite Z.ltb_lt.
  rewrite (Z.mod_small limit) by lia.
  destruct (Z.le_gt_cases 0 i).
  - rewrite Z.mod_small by lia. lia.
  - rewrite <- (Z.mod_add i 1), Z.mod_small by lia. lia.
Qed.

(** ** Indexing is Python's indexing *)

(** The reference: negative indices count from the end. *)
Definition py_index {A} (l : list A) (i : Z) : option A :=
  if 0 <=? i then l !! Z.to_nat i
  else if 0 <=? i + Z.of_nat (length l) then l !! Z.to_nat (i + Z.of_nat (length l)) else None.

Lemma lookup_Z {A} (l : list A) i : 0 ≤ i → l !! Z.to_nat i = None ↔ Z.of_nat (length l) ≤ i.
Proof. intros Hi. rewrite lookup_ge_None. lia. Qed.

Lemma vec_get_Some {A} (l : list A) i x : 0 ≤ i → l !! Z.to_nat i = Some x → vec_get l i = Ok x.
Proof. intros Hi Hx. unfold vec_get. by rewrite (proj2 (Z.leb_le 0 i) Hi), Hx. Qed.

Section Spec.
Context (lib : list call → call → answer) (K : objects).

(** With bounds checking and negative indices allowed: the item of [py_index],
    with a new reference, and where there is none what [PyObject_GetItem] does. *)
Lemma get_item_fast_spec items o i s :
  llong_min ≤ i ≤ llong_max → Z.of_nat (length items) ≤ llong_max →
  get_item_fast lib items o i true true s
  = match py_index items i with
    | Some r => (Py_INCREF r;; mret (Some r)) s
    | None => generic lib o i s
    end.
Proof.
  intros Hi Hl. unfold get_item_fast, py_index. cbn [negb orb andb].
  destruct (Z.ltb_spec i 0) as [Hneg|Hpos].
  - rewrite (proj2 (Z.leb_gt 0 i)) by done.
    destruct (is_valid_index _ _) eqn:Hv.
    + rewrite is_valid_index_spec in Hv by (unfold llong_min, llong_max in *; lia).
      rewrite (proj2 (Z.leb_le 0 _)) by lia.
      destruct (items !! _) as [r|] eqn:Hr; [|rewrite lookup_Z in Hr; lia].
      by rewrite (vec_get_Some _ _ _ (proj1 Hv) Hr).
    + destruct (Z.leb_spec 0 (i + Z.of_nat (length items))); [|done].
      rewrite <- not_true_iff_false, is_valid_index_spec in Hv by (unfold llong_min, llong_max in *; lia). lia.
  - rewrite (proj2 (Z.leb_le 0 i)) by done. destruct (is_valid_index _ _) eqn:Hv.
    + rewrite is_valid_index_spec in Hv by (unfold llong_min, llong_max in *; lia).
      destruct (items !! _) as [r|] eqn:Hr; [|rewrite lookup_Z in Hr; lia].
      by rewrite (vec_get_Some _ _ _ Hpos Hr).
    + rewrite <- not_true_iff_false, is_valid_index_spec in Hv by (unfold llong_min, llong_max in *; lia).
      rewrite (proj2 (lookup_Z items i Hpos)) by lia. done.
Qed.

Lemma generic_ref o i : new_ref (generic lib o i).
Proof. intros r n es L b s H. unfold generic, PyInt_FromSsize_t, GetItemInt_Generic. py; py_done. Qed.

Lemma get_item_fast_ref items o i w :
  llong_min ≤ i ≤ llong_max → Z.of_nat (length items) ≤ llong_max → new_ref (get_item_fast lib items o i w true).
Proof.
  intros Hi Hl r n es L b s H. unfold get_item_fast. cbn [negb orb]. destruct (is_valid_index _ _) eqn:Hv.
  - rewrite is_valid_index_spec in Hv.
    2: { destruct w, (Z.ltb_spec i 0); cbn [andb]; unfold llong_min, llong_max in *; lia. }
    2: { unfold llong_min, llong_max in *; lia. }
    destruct (vec_get_ok items _ Hv) as (x & E & _). apply wp_bind, (wp_lift _ _ _ _ E). py. py_done.
  - by eapply generic_ref.
Qed.

(** The three ways [o[i]] is compiled: through the list or tuple, through the
    sequence protocol, through a Python integer.  Each keeps the books. *)
Lemma GetItemInt_Fast_ref o i is_list w :
  llong_min ≤ i ≤ llong_max →
  (∀ items, as_list K o = Some items ∨ as_tuple K o = Some items → Z.of_nat (length items) ≤ llong_max) →
  (is_list = true → as_list K o ≠ None) →
  new_ref (GetItemInt_Fast lib K o i is_list w true).
Proof.
  intros Hi Hl Hil. unfold GetItemInt_Fast. destruct (as_list K o) as [l|] eqn:El; [apply get_item_fast_ref; auto|].
  destruct is_list; [by destruct (Hil eq_refl)|].
  destruct (as_tuple K o) as [t|] eqn:Et; [apply get_item_fast_ref; auto|].
  destruct (has_sq_item K o); [|apply generic_ref].
  intros r n es L b s H. unfold get_sq_item, ExceptionMatches. py; py_done.
  intros _. rewrite orb_true_iff, Z.ltb_lt. right. match goal with E : (0 <=? _) = false |- _ => apply Z.leb_gt in E; lia end.
Qed.
End Spec.
