(* ===== verification/PyModule.v ===== *)
(** * The functions of the module (cjunk/cython/simple.cpp)

    The C code of [unique_function], [second_function], [a_class.memberA] and of
    the pickling support, one definition per C function.  Temporaries are the
    variables of the C code; an error exit releases the ones that are set, adds a
    traceback with the line of the C file and of the source, and returns NULL.

    Python code that a call runs may come back into the module; such nested calls
    are not modelled. *)

From Stdlib Require Import ZArith Lia String.
From stdpp Require Import base list gmap gmultiset strings.
From S2P Require Import Prelude PyRuntime CodeCache Traceback PyCalls PyIndex.
Local Open Scope Z_scope.

Fixpoint xdecref_all (os : list (option obj)) : M () :=
  match os with [] => mret () | o :: os => Py_XDECREF o;; xdecref_all os end.

Section Functions.
Context (lib : list call → call → answer) (K : objects) (G : globals).

(** [__pyx_L1_error] and [__pyx_L0]: temporaries, traceback, variables. *)
Definition error_exit (temps vars : list (option obj)) (f : string) (clineno lineno : Z) (filename : string) : M (option obj) :=
  xdecref_all temps;;
  AddTraceback lib K G f clineno lineno filename;;
  xdecref_all vars;;
  mret None.

(** A [long] is signed, and as wide as itself. *)
Definition PyInt_From_long (value : Z) : M (option obj) :=
  let neg_one := -1 in
  if 0 <? neg_one then call_new lib (Call "PyLong_FromUnsignedLong" [AInt value])
  else call_new lib (Call "PyInt_FromLong" [AInt value]).

(** ** simple.pyx *)

Definition unique_function : M (option obj) := Py_INCREF (int_100 G);; mret (Some (int_100 G)).

(** The loop of [second_function]; it returns [a], [i] and the lines of an error. *)
Fixpoint second_loop (fuel : nat) (t_1 : Z) (a : obj) (i : option obj) : M (obj * option obj * option (Z * Z)) :=
  if t_1 <? 100 then
    match fuel with
    | O => out_of_fuel
    | S fuel =>
        t_2 ← PyInt_From_long t_1;
        match t_2 with
        | None => mret (a, i, Some (1335, 6))
        | Some i' =>
            Py_XDECREF i;;
            t_2 ← call_new lib (Call "PyNumber_InPlaceAdd" [AObj a; AObj i']);
            match t_2 with
            | None => mret (a, Some i', Some (1347, 7))
            | Some a' => Py_DECREF a;; second_loop fuel (t_1 + 1) a' (Some i')
            end
        end
    end
  else mret (a, i, None).

Definition second_function : M (option obj) :=
  Py_INCREF (int_0 G);;
  '(a, i, e) ← second_loop 100 0 (int_0 G) None;
  match e with
  | Some (clineno, lineno) => error_exit [] [Some a; i] "simple.second_function" clineno lineno "simple.pyx"
  | None => Py_INCREF (Py_None G);; Py_XDECREF (Some a);; Py_XDECREF i;; mret (Some (Py_None G))
  end.

Definition memberA (self : obj) : M (option obj) :=
  t_1 ← GetAttrStr lib K self (interned G "__name__");
  match t_1 with
  | None => error_exit [] [] "simple.a_class.memberA" 1397 11 "simple.pyx"
  | Some t_1 => mret (Some t_1)
  end.

(** ** [__reduce_cython__] *)

Definition reduce_error (t_1 t_4 t_5 state dict : option obj) (clineno lineno : Z) : M (option obj) :=
  error_exit [t_1; t_4; t_5] [state; dict] "simple.a_class.__reduce_cython__" clineno lineno "stringsource".

(** [return __pyx_unpickle_a_class, (type(self), 0xd41d8cd, None), state]. *)
Definition reduce_setstate (self state dict : obj) : M (option obj) :=
  t_4 ← GetModuleGlobalName lib K G (interned G "__pyx_unpickle_a_class");
  match t_4 with
  | None => reduce_error None None None (Some state) (Some dict) 1554 13
  | Some t_4 =>
      t_1 ← call_new lib (Call "PyTuple_New" [AInt 3]);
      match t_1 with
      | None => reduce_error None (Some t_4) None (Some state) (Some dict) 1556 13
      | Some t_1 =>
          set_items "PyTuple_SET_ITEM" t_1 0 [type_of K self; int_222419149 G; Py_None G];;
          t_5 ← call_new lib (Call "PyTuple_New" [AInt 3]);
          match t_5 with
          | None => reduce_error (Some t_1) (Some t_4) None (Some state) (Some dict) 1567 13
          | Some t_5 =>
              Py_GIVE t_4 (Call "PyTuple_SET_ITEM" [AObj t_5; AInt 0; AObj t_4]);;
              Py_GIVE t_1 (Call "PyTuple_SET_ITEM" [AObj t_5; AInt 1; AObj t_1]);;
              Py_INCREF state;;
              Py_GIVE state (Call "PyTuple_SET_ITEM" [AObj t_5; AInt 2; AObj state]);;
              Py_XDECREF (Some state);;
              Py_XDECREF (Some dict);;
              mret (Some t_5)
          end
      end
  end.

(** [return __pyx_unpickle_a_class, (type(self), 0xd41d8cd, state)]. *)
Definition reduce_plain (self state dict : obj) : M (option obj) :=
  t_5 ← GetModuleGlobalName lib K G (interned G "__pyx_unpickle_a_class");
  match t_5 with
  | None => reduce_error None None None (Some state) (Some dict) 1600 15
  | Some t_5 =>
      t_1 ← call_new lib (Call "PyTuple_New" [AInt 3]);
      match t_1 with
      | None => reduce_error None None (Some t_5) (Some state) (Some dict) 1602 15
      | Some t_1 =>
          set_items "PyTuple_SET_ITEM" t_1 0 [type_of K self; int_222419149 G; state];;
          t_4 ← call_new lib (Call "PyTuple_New" [AInt 2]);
          match t_4 with
          | None => reduce_error (Some t_1) None (Some t_5) (Some state) (Some dict) 1613 15
          | Some t_4 =>
              Py_GIVE t_5 (Call "PyTuple_SET_ITEM" [AObj t_4; AInt 0; AObj t_5]);;
              Py_GIVE t_1 (Call "PyTuple_SET_ITEM" [AObj t_4; AInt 1; AObj t_1]);;
              Py_XDECREF (Some state);;
              Py_XDECREF (Some dict);;
              mret (Some t_4)
          end
      end
  end.

Definition reduce_cython (self : obj) : M (option obj) :=
  Py_INCREF (empty_tuple G);;
  let state := empty_tuple G in
  t_1 ← GetAttr3 lib K self (interned G "__dict__") (Py_None G);
  match t_1 with
  | None => reduce_error None None None (Some state) None 1471 6
  | Some dict =>
      if decide (dict = Py_None G) then reduce_plain self state dict
      else
        t_1 ← call_new lib (Call "PyTuple_New" [AInt 1]);
        match t_1 with
        | None => reduce_error None None None (Some state) (Some dict) 1494 8
        | Some t_1 =>
            set_items "PyTuple_SET_ITEM" t_1 0 [dict];;
            t_4 ← call_new lib (Call "PyNumber_InPlaceAdd" [AObj state; AObj t_1]);
            match t_4 with
            | None => reduce_error (Some t_1) None None (Some state) (Some dict) 1499 8
            | Some t_4 => Py_DECREF t_1;; Py_DECREF state;; reduce_setstate self t_4 dict
            end
        end
  end.

(** ** [__pyx_unpickle_a_class__set_state] and [__setstate_cython__] *)

Definition set_state_error (t_5 t_6 t_7 t_8 : option obj) (clineno lineno : Z) : M (option obj) :=
  error_exit [t_5; t_6; t_7; t_8] [] "simple.__pyx_unpickle_a_class__set_state" clineno lineno "stringsource".

(** [result.__dict__.update(state[0])]. *)
Definition update_dict (result state : obj) : M (option obj) :=
  t_6 ← GetAttrStr lib K result (interned G "__dict__");
  match t_6 with
  | None => set_state_error None None None None 2011 13
  | Some t_6 =>
      t_7 ← GetAttrStr lib K t_6 (interned G "update");
      match t_7 with
      | None => set_state_error None (Some t_6) None None 2013 13
      | Some t_7 =>
          Py_DECREF t_6;;
          if decide (state = Py_None G) then
            PyErr_Set (PyExc "TypeError" "'NoneType' object is not subscriptable");;
            set_state_error None None (Some t_7) None 2018 13
          else
            t_6 ← GetItemInt_Tuple_Fast lib K state 0 false true;
            match t_6 with
            | None => set_state_error None None (Some t_7) None 2020 13
            | Some t_6 =>
                '(t_7, t_8) ← unpack_method K t_7;
                t_5 ← call_with lib K t_7 t_8 t_6;
                Py_XDECREF t_8;;
                Py_DECREF t_6;;
                match t_5 with
                | None => set_state_error None None (Some t_7) None 2035 13
                | Some t_5 =>
                    Py_DECREF t_7;; Py_DECREF t_5;; Py_INCREF (Py_None G);; mret (Some (Py_None G))
                end
            end
      end
  end.

Definition set_state (result state : obj) : M (option obj) :=
  if decide (state = Py_None G) then
    PyErr_Set (PyExc "TypeError" "object of type 'NoneType' has no len()");;
    set_state_error None None None None 1991 12
  else
    size ← match as_tuple K state with
           | Some items => mret (Z.of_nat (length items))
           | None => lift (Undef bad_precondition)
           end;
    t_3 ← (if 0 <? size then HasAttr lib K result (interned G "__dict__") else mret 0);
    if t_3 <? 0 then set_state_error None None None None 2000 12
    else if t_3 =? 0 then Py_INCREF (Py_None G);; mret (Some (Py_None G))
    else update_dict result state.

(** The type test of a [tuple] argument: exactly a tuple, or [None]. *)
Definition expected_tuple (o : obj) : M bool :=
  match as_tuple K o with
  | Some _ => mret true
  | None =>
      if decide (o = Py_None G) then mret true
      else PyErr_Set (PyExc "TypeError" "Expected %.16s, got %.200s");; mret false
  end.

Definition setstate_cython (self state : obj) : M (option obj) :=
  let error t_1 clineno := error_exit [t_1] [] "simple.a_class.__setstate_cython__" clineno 17 "stringsource" in
  ok ← expected_tuple state;
  if negb ok then error None 1678
  else
    t_1 ← set_state self state;
    match t_1 with
    | None => error None 1679
    | Some t_1 => Py_DECREF t_1;; Py_INCREF (Py_None G);; mret (Some (Py_None G))
    end.

(** ** [__pyx_unpickle_a_class] *)

Definition unpickle_error (t_2 t_3 t_4 t_5 pickle_error result : option obj) (clineno lineno : Z) : M (option obj) :=
  error_exit [t_2; t_3; t_4; t_5] [pickle_error; result] "simple.__pyx_unpickle_a_class" clineno lineno "stringsource".

(** [raise __pyx_PickleError("Incompatible checksums (%s vs 0xd41d8cd = ())" % __pyx_checksum)];
    [pickle_error] is owned. *)
Definition raise_incompatible (pickle_error : obj) (checksum : Z) : M (option obj) :=
  t_2 ← PyInt_From_long checksum;
  match t_2 with
  | None => unpickle_error None None None None (Some pickle_error) None 1834 6
  | Some t_2 =>
      t_4 ← call_new lib (Call "PyString_Format"
              [AObj (interned G "Incompatible checksums (%s vs 0xd41d8cd = ())"); AObj t_2]);
      match t_4 with
      | None => unpickle_error (Some t_2) None None None (Some pickle_error) None 1836 6
      | Some t_4 =>
          Py_DECREF t_2;;
          Py_INCREF pickle_error;;
          '(t_2, t_5) ← unpack_method K pickle_error;
          t_3 ← call_with lib K t_2 t_5 t_4;
          Py_XDECREF t_5;;
          Py_DECREF t_4;;
          match t_3 with
          | None => unpickle_error (Some t_2) None None None (Some pickle_error) None 1853 6
          | Some t_3 =>
              Py_DECREF t_2;;
              Raise lib K G t_3 None None None;;
              Py_DECREF t_3;;
              unpickle_error None None None None (Some pickle_error) None 1858 6
          end
      end
  end.

(** [from pickle import PickleError as __pyx_PickleError], then [raise]. *)
Definition incompatible_checksum (checksum : Z) : M (option obj) :=
  t_2 ← call_new lib (Call "PyList_New" [AInt 1]);
  match t_2 with
  | None => unpickle_error None None None None None None 1812 5
  | Some t_2 =>
      set_items "PyList_SET_ITEM" t_2 0 [interned G "PickleError"];;
      t_3 ← Import lib G (interned G "pickle") (Some t_2) 0;
      match t_3 with
      | None => unpickle_error (Some t_2) None None None None None 1817 5
      | Some t_3 =>
          Py_DECREF t_2;;
          t_2 ← ImportFrom lib K t_3 (interned G "PickleError");
          match t_2 with
          | None => unpickle_error None (Some t_3) None None None None 1820 5
          | Some pickle_error =>
              Py_INCREF pickle_error;;
              Py_DECREF pickle_error;;
              Py_DECREF t_3;;
              raise_incompatible pickle_error checksum
          end
      end
  end.

(** What follows [__pyx_result = a_class.__new__(__pyx_type)]. *)
Definition restore_state (result state : obj) : M (option obj) :=
  if decide (state = Py_None G) then Py_INCREF result;; Py_XDECREF (Some result);; mret (Some result)
  else
    ok ← expected_tuple state;
    if negb ok then unpickle_error None None None None None (Some result) 1914 9
    else
      t_3 ← set_state result state;
      match t_3 with
      | None => unpickle_error None None None None None (Some result) 1915 9
      | Some t_3 => Py_DECREF t_3;; Py_INCREF result;; Py_XDECREF (Some result);; mret (Some result)
      end.

Definition unpickle_a_class (type : obj) (checksum : Z) (state : obj) : M (option obj) :=
  if negb (checksum =? 0xd41d8cd) then incompatible_checksum checksum
  else
    t_2 ← GetAttrStr lib K (ptype_a_class G) (interned G "__new__");
    match t_2 with
    | None => unpickle_error None None None None None None 1876 7
    | Some t_2 =>
        '(t_2, t_4) ← unpack_method K t_2;
        t_3 ← call_with lib K t_2 t_4 type;
        Py_XDECREF t_4;;
        match t_3 with
        | None => unpickle_error (Some t_2) None None None None None 1890 7
        | Some result => Py_DECREF t_2;; restore_state result state
        end
    end.
End Functions.

(** ** Every path keeps the books *)

(** A function of the module that may add up to [k] tracebacks: it returns a new
    reference, or NULL with an exception, and owns nothing else. *)
Definition balanced (k : Z) (m : M (option obj)) : Prop :=
  ∀ r n es L b s, local r n es L b s → k ≤ n → wp m (fun a => holds r (n - k) (held a L) (failed a false)) s.

Lemma wp_balanced k m r n es L b s (Q : option obj → pystate → Prop) :
  balanced k m → local r n es L b s → k ≤ n →
  (∀ o es' s', local r (n - k) es' (o :: L) false s' → Q (Some o) s') →
  (∀ es' s', local r (n - k) es' L true s' → Q None s') → wp m Q s.
Proof. intros Hm H Hk HS HN. eapply wp_mono; [by eapply Hm|]. intros [o|] s' [es' H']; eauto. Qed.

Lemma wp_traceback lib K G f c l file r n es L b s (Q : () → pystate → Prop) :
  local r n es L b s → 1 ≤ n → int_min < c ≤ int_max →
  (∀ es' s', local r (n - 1) es' L b s' → Q () s') → wp (AddTraceback lib K G f c l file) Q s.
Proof.
  intros H Hn Hc HQ. eapply wp_mono.
  - apply (AddTraceback_spec lib K G r f c l file (n - 1) es L b s); [by replace (n - 1 + 1) with n by lia|lia|done].
  - intros [] s' [es' H']. eauto.
Qed.

Create HintDb pybal discriminated.

Lemma wp_set_items_local f t i items r n es L b s (Q : () → pystate → Prop) :
  local r n es L b s → (∀ s', local r n es L b s' → Q () s') → wp (set_items f t i items) Q s.
Proof. apply set_items_spec. Qed.

(** [pyr] with tracebacks, and with the functions of this file as steps. *)
Ltac pym1 :=
  first
    [ pyr1
    | match goal with
      | H : local ?r ?n ?es ?L ?b ?s |- wp (AddTraceback _ _ _ _ _ _ _) _ ?s =>
          let s' := fresh "s" in let es' := fresh "es" in
          eapply (wp_traceback _ _ _ _ _ _ _ r n es L b s);
            [exact H|lia|first [lia|unfold int_min, int_max; lia]|clear H; intros es' s' H]
      | H : local ?r ?n ?es ?L ?b ?s |- wp (set_items _ _ _ _) _ ?s =>
          let s' := fresh "s" in
          apply (wp_set_items_local _ _ _ _ r n es L b s); [exact H|clear H; intros s' H]
      | H : local ?r ?n ?es ?L ?b ?s |- wp ?m _ ?s =>
          let s' := fresh "s" in let o := fresh "o" in let es' := fresh "es" in
          eapply (wp_balanced _ m r n es L b s);
            [solve [eauto with pybal]|exact H|lia|clear H; intros o es' s' H|clear H; intros es' s' H]
      end ].
Ltac pym := repeat (pym1; cbn beta iota; cbn [xdecref_all]).

Section Balanced.
Context (lib : list call → call → answer) (K : objects) (G : globals).
Hint Resolve GetAttrStr_ref GetAttr3_ref GetModuleGlobalName_ref call_with_ref Import_ref ImportFrom_ref : pyref.

Lemma PyInt_From_long_ref v : new_ref (PyInt_From_long lib v).
Proof. intros r n es L b s H. unfold PyInt_From_long. py; py_done. Qed.
Hint Resolve PyInt_From_long_ref : pyref.

Lemma unique_function_balanced : balanced 0 (unique_function G).
Proof. intros r n es L b s H Hk. unfold unique_function. pym. py_done. Qed.

Lemma memberA_balanced self : balanced 1 (memberA lib K G self).
Proof. intros r n es L b s H Hk. unfold memberA, error_exit. pym; py_done. Qed.

Lemma reduce_setstate_spec self state dict r n es L b s :
  local r n es (state :: dict :: L) b s → 1 ≤ n →
  wp (reduce_setstate lib K G self state dict) (fun a => holds r (n - 1) (held a L) (failed a false)) s.
Proof. intros H Hk. unfold reduce_setstate, reduce_error, error_exit. pym; py_done. Qed.

Lemma reduce_plain_spec self state dict r n es L b s :
  local r n es (state :: dict :: L) b s → 1 ≤ n →
  wp (reduce_plain lib K G self state dict) (fun a => holds r (n - 1) (held a L) (failed a false)) s.
Proof. intros H Hk. unfold reduce_plain, reduce_error, error_exit. pym; py_done. Qed.

Lemma reduce_cython_balanced self : balanced 1 (reduce_cython lib K G self).
Proof.
  intros r n es L b s H Hk. unfold reduce_cython, reduce_error, error_exit. pym; try py_done.
  - eapply reduce_plain_spec; [|done]. eapply local_perm; [|exact H]. apply perm_swap.
  - eapply reduce_setstate_spec; [exact H|done].
Qed.

Lemma expected_tuple_spec o r n es L b s (Q : bool → pystate → Prop) :
  local r n es L b s →
  (∀ s', as_tuple K o ≠ None ∨ o = Py_None G → local r n es L b s' → Q true s') →
  (∀ s', local r n es L true s' → Q false s') → wp (expected_tuple K G o) Q s.
Proof.
  intros H HT HF. unfold expected_tuple. destruct (as_tuple K o) eqn:E; [py; apply HT; auto|].
  destruct (decide (o = Py_None G)); py; auto.
Qed.

(** A tuple is never longer than [Py_ssize_t] can say. *)
Hypothesis tuple_size : ∀ o items, as_tuple K o = Some items → Z.of_nat (length items) ≤ llong_max.

Lemma Tuple_Fast_ref o items : as_tuple K o = Some items → new_ref (GetItemInt_Tuple_Fast lib K o 0 false true).
Proof.
  intros E. unfold GetItemInt_Tuple_Fast. rewrite E. apply get_item_fast_ref; [by vm_compute|eauto].
Qed.

Lemma update_dict_spec result state items :
  as_tuple K state = Some items → balanced 1 (update_dict lib K G result state).
Proof.
  intros E r n es L b s H Hk. pose proof (Tuple_Fast_ref _ _ E) as Hf.
  unfold update_dict, set_state_error, error_exit, unpack_method. pym; py_done.
Qed.

(** The caller has tested that the state is a tuple or [None]. *)
Lemma set_state_balanced result state :
  as_tuple K state ≠ None ∨ state = Py_None G → balanced 1 (set_state lib K G result state).
Proof.
  intros Hst r n es L b s H Hk. unfold set_state, set_state_error, error_exit.
  destruct (decide (state = Py_None G)); [pym; py_done|].
  destruct (as_tuple K state) as [items|] eqn:E; [|by destruct Hst].
  apply wp_bind, wp_ret, wp_bind. eapply wp_mono with (Q' := fun a => local r n es L (a <? 0)).
  { destruct (0 <? Z.of_nat (length items)); [by eapply HasAttr_spec|py; py_done]. }
  clear H. intros a s' H. pose proof (update_dict_spec result state items E) as Hu.
  destruct (a <? 0) eqn:Ha; [pym; py_done|]. destruct (a =? 0); pym; py_done.
Qed.

Lemma setstate_cython_balanced self state : balanced 2 (setstate_cython lib K G self state).
Proof.
  intros r n es L b s H Hk. unfold setstate_cython, error_exit. apply wp_bind.
  apply (expected_tuple_spec _ _ _ _ _ _ _ _ H); clear H; [intros s' Hst H|intros s' H]; cbn [negb].
  - pose proof (set_state_balanced self state Hst) as Hs. pym; py_done.
  - pym; py_done.
Qed.

Lemma raise_incompatible_spec pe checksum r n es L b s :
  local r n es (pe :: L) b s → 1 ≤ n →
  wp (raise_incompatible lib K G pe checksum) (fun a => holds r (n - 1) (held a L) (failed a false)) s.
Proof.
  intros H Hk. unfold raise_incompatible, unpickle_error, error_exit, unpack_method. pym; try py_done.
  all: eapply wp_mono; [by eapply Raise_spec|]; clear H; intros ? s' H; cbn beta in H; pym; py_done.
Qed.

Lemma incompatible_checksum_balanced checksum : balanced 1 (incompatible_checksum lib K G checksum).
Proof.
  intros r n es L b s H Hk. unfold incompatible_checksum, unpickle_error, error_exit. pym; try py_done.
  by eapply raise_incompatible_spec.
Qed.
Hint Resolve incompatible_checksum_balanced : pybal.

Lemma restore_state_spec result state r n es L b s :
  local r n es (result :: L) b s → 2 ≤ n →
  wp (restore_state lib K G result state) (fun a => holds r (n - 2) (held a L) (failed a false)) s.
Proof.
  intros H Hk. unfold restore_state, unpickle_error, error_exit.
  destruct (decide (state = Py_None G)); [pym; py_done|]. apply wp_bind.
  apply (expected_tuple_spec _ _ _ _ _ _ _ _ H); clear H; [intros s' Hst H|intros s' H]; cbn [negb].
  - pose proof (set_state_balanced result state Hst) as Hs. pym; py_done.
  - pym; py_done.
Qed.

Lemma unpickle_balanced type checksum state : balanced 2 (unpickle_a_class lib K G type checksum state).
Proof.
  intros r n es L b s H Hk. unfold unpickle_a_class, unpickle_error, error_exit, unpack_method. pym; try py_done.
  all: by eapply restore_state_spec.
Qed.

(** One unit of fuel for each iteration that is left is enough. *)
Definition loop_result (r : gmultiset obj) (n : Z) (es : list entry) (L : list obj)
    (x : obj * option obj * option (Z * Z)) (s : pystate) : Prop :=
  let '(a, i, e) := x in
  local r n es (a :: held i L) (bool_decide (e ≠ None)) s ∧
  match e with None => True | Some (c, l) => int_min < c ≤ int_max end.

Lemma second_loop_spec fuel t a i r n es L b s :
  100 - t ≤ Z.of_nat fuel → local r n es (a :: held i L) b s →
  wp (second_loop lib fuel t a i) (loop_result r n es L) s.
Proof.
  revert t a i b s. induction fuel as [|fuel IH]; intros t a i b s Hf H; cbn [second_loop].
  { rewrite (proj2 (Z.ltb_ge t 100)) by lia. apply wp_ret. split; [by py_done|done]. }
  destruct (t <? 100); [|apply wp_ret; split; [by py_done|done]].
  pyr1. pyr1; [|apply wp_ret; split; [by py_done|by vm_compute]].
  apply wp_bind. eapply wp_mono with (Q' := fun _ => local r n es (o :: a :: L) false).
  { destruct i as [i|]; cbn [held] in H; py; exact H. }
  clear H. intros ? s1 H. cbn beta in H. py.
  - eapply IH; [lia|exact H].
  - split; [|by vm_compute]. eapply local_perm; [apply perm_swap|]. py_done.
Qed.

Lemma second_function_balanced : balanced 1 (second_function lib K G).
Proof.
  intros r n es L b s H Hk. unfold second_function, error_exit. py1; py1. apply wp_bind.
  eapply wp_mono; [eapply (second_loop_spec 100 0 (int_0 G) None); [lia|exact H]|].
  clear H. intros [[a i] e] s1 [H He]. destruct e as [[c l]|].
  - destruct i as [i|]; cbn [held] in H; pym; py_done.
  - destruct i as [i|]; cbn [held] in H; pym; py_done.
Qed.

(** C32: whatever the library answers, every function of the module returns, and
    keeps the books: on each of its error paths as on success it releases no
    reference it does not own, and what it owns in the end is what the caller
    handed in, what the cache of code objects holds, and the reference it returns;
    if it returns NULL, an exception is set.  ([k] bounds the tracebacks it adds,
    each of which may add a line to the cache.) *)
Theorem module_functions_balanced self type state checksum :
  balanced 0 (unique_function G) ∧
  balanced 1 (second_function lib K G) ∧
  balanced 1 (memberA lib K G self) ∧
  balanced 1 (reduce_cython lib K G self) ∧
  balanced 2 (setstate_cython lib K G self state) ∧
  balanced 2 (unpickle_a_class lib K G type checksum state).
Proof.
  split_and!;
    [apply unique_function_balanced|apply second_function_balanced|apply memberA_balanced|
     apply reduce_cython_balanced|apply setstate_cython_balanced|apply unpickle_balanced].
Qed.
End Balanced.

(** A library that answers every call with a new object, and that raises when the
    sum is to be made. *)
Definition failing_sum : list call → call → answer := fun tr c =>
  if String.eqb (callee c) "PyNumber_InPlaceAdd" then Answer None (-1)
  else Answer (Some (100 + length tr)%nat) (if String.eqb (callee c) "PyMem_Realloc" then 1 else 0).

Definition some_objects : objects :=
  Objects (fun _ => 1%nat) (fun _ => None) (fun _ => None) (fun _ => false) (fun _ => false) (fun _ => false)
    (fun _ => true) (fun _ => true) (fun _ => false) (fun _ => false)
    (fun o => if Nat.eqb o 50 then Some [51%nat] else None) (fun _ => None)
    (fun _ => true) (fun _ => false) (fun _ => false) (fun _ => false).

Definition some_globals : globals :=
  Globals 2%nat 3%nat 4%nat 5%nat 6%nat 7%nat 8%nat 9%nat 10%nat 11%nat 12%nat 13%nat None (fun _ => 14%nat).

Lemma module_functions_balanced_witness :
  balanced 1 (second_function failing_sum some_objects some_globals) ∧
  balanced 2 (unpickle_a_class failing_sum some_objects some_globals 60%nat 0xd41d8cd 50%nat).
Proof.
  assert (∀ o items, as_tuple some_objects o = Some items → Z.of_nat (length items) ≤ llong_max) as Ht.
  { intros o items. cbn. destruct (Nat.eqb o 50); [|done]. intros [= <-]. by vm_compute. }
  destruct (module_functions_balanced failing_sum some_objects some_globals Ht 61%nat 60%nat 50%nat 0xd41d8cd)
    as (_ & H2 & _ & _ & _ & H6).
  by split.
Defined.

(** With that library [second_function] fails in its first addition; all it leaves
    is the code object of the line in the cache. *)
Example second_function_fails :
  match second_function failing_sum some_objects some_globals (PyState None ∅ [] empty_cache) with
  | Done (Ok (r, s)) => Some (r, err s, elements (refs s), count (cache s))
  | _ => None
  end
  = Some (None, Some (FromLibrary (Call "PyNumber_InPlaceAdd" [AObj 10%nat; AObj 100%nat])), [104%nat], 1).
Proof. vm_compute. reflexivity. Qed.
