(* ===== verification/PyArgs.v ===== *)
(** * Arguments of a Python call (cjunk/cython/simple.cpp)

    How [__pyx_unpickle_a_class(type, checksum, state)] binds positional and
    keyword arguments.  A dictionary of keywords is the list of its items, in the
    order [PyDict_Next] visits them; the objects bound to parameters are borrowed,
    so there is nothing to account for.  [text] is the contents of a [str] object,
    [None] for an object of another type; [compare] and [dict_get] are
    [PyUnicode_Compare] and [PyDict_GetItemStr]. *)

From Stdlib Require Import ZArith Lia String.
From stdpp Require Import base list gmap strings.
From S2P Require Import Prelude PyRuntime.
Local Open Scope Z_scope.

(** The exceptions, with what their messages are made of. *)
Inductive arg_error :=
| ArgtupleInvalid (more_or_less : string) (num_expected : Z) (plural : string) (num_found : Z)
| DoubleKeywords (key : obj)
| KeywordsMustBeStrings
| UnexpectedKeyword (key : obj)
| CompareFailed.

(** [__Pyx_RaiseArgtupleInvalid]. *)
Definition RaiseArgtupleInvalid (exact : bool) (num_min num_max num_found : Z) : arg_error :=
  let '(num_expected, more_or_less) :=
    if num_found <? num_min then (num_min, "at least"%string) else (num_max, "at most"%string) in
  let more_or_less := if exact then "exactly"%string else more_or_less in
  ArgtupleInvalid more_or_less num_expected (if num_expected =? 1 then "" else "s") num_found.

Section Args.
Context (text : obj → option string) (compare : obj → obj → option Z).
Context (dict_get : list (obj * obj) → obj → option obj).

(** The messages; [%U] is the text of the key. *)
Definition decimal (n : Z) : string := String.string_of_list_ascii (to_string_int n).
Definition arg_message (func : string) (e : arg_error) : string :=
  match e with
  | ArgtupleInvalid more_or_less num_expected plural num_found =>
      func ++ "() takes " ++ more_or_less ++ " " ++ decimal num_expected ++ " positional argument" ++ plural ++
      " (" ++ decimal num_found ++ " given)"
  | DoubleKeywords key => func ++ "() got multiple values for keyword argument '" ++ default EmptyString (text key) ++ "'"
  | KeywordsMustBeStrings => func ++ "() keywords must be strings"
  | UnexpectedKeyword key => func ++ "() got an unexpected keyword argument '" ++ default EmptyString (text key) ++ "'"
  | CompareFailed => EmptyString
  end%string.

(** ** [__Pyx_ParseOptionalKeywords] *)

(** [while ( *name && **name != key) name++;], as the distance travelled. *)
Fixpoint find_identical (names : list obj) (key : obj) : option nat :=
  match names with
  | [] => None
  | n :: names => if decide (n = key) then Some 0%nat else S <$> find_identical names key
  end.

Definition size_of (o : obj) : Z := match text o with Some t => Z.of_nat (String.length t) | None => 0 end.

(** [int cmp = ...]; [None] is a comparison that raised. *)
Definition cmp (n key : obj) : option Z :=
  if decide (n = key) then Some 0
  else if negb (size_of n =? size_of key) then Some 1
  else compare n key.

(** The loops over names with [cmp]; [inl] is [goto bad]. *)
Fixpoint find_equal (names : list obj) (key : obj) : arg_error + option nat :=
  match names with
  | [] => inr None
  | n :: names =>
      match cmp n key with
      | None => inl CompareFailed
      | Some c =>
          if c =? 0 then inr (Some 0%nat)
          else match find_equal names key with inl e => inl e | inr r => inr (S <$> r) end
      end
  end.

(** One turn of the loop over the dictionary.  [values] are the parameters bound
    so far, [kwds2] collects the other keywords if the function takes any. *)
Definition parse_one (argnames : list obj) (num_pos : nat) (st : list (option obj) * option (list (obj * obj)))
    (item : obj * obj) : arg_error + (list (option obj) * option (list (obj * obj))) :=
  let '(values, kwds2) := st in
  let '(key, value) := item in
  let first_kw_arg := drop num_pos argnames in
  match find_identical first_kw_arg key with
  | Some j => inr (<[(num_pos + j)%nat := Some value]> values, kwds2)
  | None =>
      if decide (text key = None) then inl KeywordsMustBeStrings
      else match find_equal first_kw_arg key with
      | inl e => inl e
      | inr (Some j) => inr (<[(num_pos + j)%nat := Some value]> values, kwds2)
      | inr None =>
          match find_equal (take num_pos argnames) key with
          | inl e => inl e
          | inr (Some _) => inl (DoubleKeywords key)
          | inr None =>
              match kwds2 with
              | Some d => inr (values, Some (d ++ [(key, value)]))
              | None => inl (UnexpectedKeyword key)
              end
          end
      end
  end.

Fixpoint ParseOptionalKeywords (kwds : list (obj * obj)) (argnames : list obj) (num_pos : nat)
    (st : list (option obj) * option (list (obj * obj))) : arg_error + (list (option obj) * option (list (obj * obj))) :=
  match kwds with
  | [] => inr st
  | item :: kwds =>
      match parse_one argnames num_pos st item with
      | inl e => inl e
      | inr st => ParseOptionalKeywords kwds argnames num_pos st
      end
  end.

(** ** The wrapper of [__pyx_unpickle_a_class] *)

Definition argtuple_error (args : list obj) : arg_error := RaiseArgtupleInvalid true 3 3 (Z.of_nat (length args)).

(** The [switch] that looks the missing parameters up in the dictionary, from
    parameter [i] on: what is bound, and [kw_args] less the number found. *)
Fixpoint lookup_missing (kwds : list (obj * obj)) (args : list obj) (i : Z) (names : list obj) (kw_args : Z)
    : (Z * arg_error) + (list (option obj) * Z) :=
  match names with
  | [] => inr ([], kw_args)
  | n :: names =>
      match dict_get kwds n with
      | None => inl (if i =? 0 then (1769, argtuple_error args)
                       else (if i =? 1 then 1744 else 1750, RaiseArgtupleInvalid true 3 3 i))
      | Some v =>
          match lookup_missing kwds args (i + 1) names (kw_args - 1) with
          | inl e => inl e
          | inr (vs, k) => inr (Some v :: vs, k)
          end
      end
  end.

(** [args] and [kwds] bound to the three parameters; an error comes with its line. *)
Definition bind_arguments (pyargnames args : list obj) (kwds : option (list (obj * obj))) : (Z * arg_error) + list (option obj) :=
  match kwds with
  | Some kwds =>
      if Nat.ltb 3 (length args) then inl (1769, argtuple_error args)
      else match lookup_missing kwds args (Z.of_nat (length args)) (drop (length args) pyargnames) (Z.of_nat (length kwds)) with
      | inl e => inl e
      | inr (found, kw_args) =>
          let values := (Some <$> args) ++ found in
          if 0 <? kw_args then
            match ParseOptionalKeywords kwds pyargnames (length args) (values, None) with
            | inl e => inl (1754, e)
            | inr (values, _) => inr values
            end
          else inr values
      end
  | None => if Nat.eqb (length args) 3 then inr (Some <$> args) else inl (1769, argtuple_error args)
  end.
End Args.

(** ** Binding is Python's binding *)

(** The value of the keyword with the text [t]. *)
Fixpoint find_text (text : obj → option string) (kwds : list (obj * obj)) (t : option string) : option obj :=
  match kwds with
  | [] => None
  | (k, v) :: kwds => if decide (text k = t) then Some v else find_text text kwds t
  end.

(** The reference: positional arguments go to the first parameters, every other
    parameter takes the keyword of its name, and no keyword is left over. *)
Definition python_bind (text : obj → option string) (names args : list obj) (kwds : list (obj * obj)) : option (list obj) :=
  let missing := drop (length args) names in
  if decide (length args ≤ length names)%nat then
    if decide (Forall (fun k => text k ∈ text <$> missing) kwds.*1) then
      vs ← mapM (fun n => find_text text kwds (text n)) missing; Some (args ++ vs)
    else None
  else None.

Section Correct.
Context (text : obj → option string) (compare : obj → obj → option Z).
Context (dict_get : list (obj * obj) → obj → option obj).

(** What the API says of [PyUnicode_Compare] and [PyDict_GetItemStr]. *)
Hypothesis compare_spec : ∀ a b ta tb,
  text a = Some ta → text b = Some tb → ∃ c, compare a b = Some c ∧ (c = 0 ↔ ta = tb).
Hypothesis dict_get_spec : ∀ kwds n, dict_get kwds n = find_text text kwds (text n).

(** Where the name with the text [t] is. *)
Fixpoint position (names : list obj) (t : option string) : option nat :=
  match names with
  | [] => None
  | n :: names => if decide (text n = t) then Some 0%nat else S <$> position names t
  end.

Lemma position_None names t : position names t = None ↔ t ∉ text <$> names.
Proof.
  induction names as [|n names IH]; simpl; [split; [set_solver|done]|].
  destruct (decide (text n = t)) as [->|Hne]; [set_solver|].
  rewrite fmap_None, IH. set_solver.
Qed.

Lemma cmp_spec n key tn tk : text n = Some tn → text key = Some tk → ∃ c, cmp text compare n key = Some c ∧ (c = 0 ↔ tn = tk).
Proof.
  intros Hn Hk. unfold cmp, size_of. destruct (decide (n = key)) as [->|Hne]; [exists 0; naive_solver|].
  rewrite Hn, Hk. destruct (Z.eqb_spec (Z.of_nat (String.length tn)) (Z.of_nat (String.length tk))) as [|Hsz]; cbn [negb].
  - by apply compare_spec.
  - exists 1. split; [done|]. split; [done|]. by intros ->.
Qed.

Lemma find_equal_spec names key tk :
  Forall (fun n => text n ≠ None) names → text key = Some tk →
  find_equal text compare names key = inr (position names (Some tk)).
Proof.
  intros Hn Hk. induction Hn as [|n names Hn _ IH]; [done|]. simpl.
  destruct (text n) as [tn|] eqn:En; [|done]. destruct (cmp_spec n key tn tk En Hk) as (c & -> & Hc).
  destruct (Z.eqb_spec c 0) as [E|E].
  - rewrite decide_True by (f_equal; by apply Hc). done.
  - rewrite decide_False by (intros [= ->]; by apply E, Hc). by rewrite IH.
Qed.

(** The test by identity finds what the test by text would have found. *)
Lemma find_identical_spec names key j :
  NoDup (text <$> names) → find_identical names key = Some j → position names (text key) = Some j.
Proof.
  revert j. induction names as [|n names IH]; intros j Hnd E; simpl in *; [done|].
  apply NoDup_cons in Hnd as [Hni Hnd].
  destruct (decide (n = key)) as [->|Hne]; [by rewrite decide_True|].
  destruct (find_identical names key) as [j'|] eqn:E'; [|done]. injection E as <-.
  rewrite decide_False; [by rewrite (IH j' Hnd eq_refl)|]. intros Ht.
  assert (position names (text key) = None) as Hp by (apply position_None; by rewrite <- Ht).
  by rewrite (IH j' Hnd eq_refl) in Hp.
Qed.

Section Names.
Context (argnames : list obj) (num_pos : nat).
Hypothesis names_are_strings : Forall (fun n => text n ≠ None) argnames.
Hypothesis names_distinct : NoDup (text <$> argnames).

(** A keyword: a parameter after the positional ones takes it, or it is an error. *)
Lemma parse_one_spec values kwds2 key value :
  text key ≠ None →
  parse_one text compare argnames num_pos (values, kwds2) (key, value)
  = match position (drop num_pos argnames) (text key) with
    | Some j => inr (<[(num_pos + j)%nat := Some value]> values, kwds2)
    | None =>
        match position (take num_pos argnames) (text key), kwds2 with
        | Some _, _ => inl (DoubleKeywords key)
        | None, Some d => inr (values, Some (d ++ [(key, value)]))
        | None, None => inl (UnexpectedKeyword key)
        end
    end.
Proof.
  intros Hk. destruct (text key) as [tk|] eqn:Ek; [|done]. simpl. rewrite <- Ek.
  destruct (find_identical (drop num_pos argnames) key) as [j|] eqn:Ei.
  - apply find_identical_spec in Ei; [by rewrite Ei|]. rewrite fmap_drop.
    eapply sublist_NoDup; [exact names_distinct|apply sublist_drop].
  - rewrite decide_False by congruence. rewrite Ek.
    rewrite (find_equal_spec (drop num_pos argnames) key tk) by (by apply Forall_drop || done).
    destruct (position (drop num_pos argnames) (Some tk)); [done|].
    rewrite (find_equal_spec (take num_pos argnames) key tk) by (by apply Forall_take || done).
    by destruct (position (take num_pos argnames) (Some tk)), kwds2.
Qed.

(** A keyword that is not a string is found nowhere. *)
Lemma parse_one_not_string values kwds2 key value :
  text key = None → parse_one text compare argnames num_pos (values, kwds2) (key, value) = inl KeywordsMustBeStrings.
Proof using names_are_strings.
  intros Hk. simpl. assert (∀ names, Forall (fun n => text n ≠ None) names → find_identical names key = None) as Hf.
  { induction 1 as [|n names Hn _ IH]; [done|]. simpl. rewrite decide_False by (intros ->; done). by rewrite IH. }
  rewrite Hf by (by apply Forall_drop). by rewrite decide_True.
Qed.

Lemma position_Some names t j : position names t = Some j → ∃ n, names !! j = Some n ∧ text n = t.
Proof.
  revert j. induction names as [|n names IH]; intros j E; simpl in E; [done|].
  destruct (decide (text n = t)); [injection E as <-; eauto|].
  destruct (position names t) as [j'|]; [|done]. injection E as <-. eauto.
Qed.

Lemma find_text_None kwds t : t ∉ text <$> kwds.*1 → find_text text kwds t = None.
Proof.
  induction kwds as [|[k v] kwds IH]; intros H; [done|]. simpl in *.
  rewrite decide_False by set_solver. apply IH. set_solver.
Qed.

(** The first keyword that no parameter takes. *)
Fixpoint leftover (kwds : list (obj * obj)) : option obj :=
  match kwds with
  | [] => None
  | (k, _) :: kwds => match position (drop num_pos argnames) (text k) with None => Some k | Some _ => leftover kwds end
  end.

(** A parameter after the positional ones, with the keywords [kwds]. *)
Definition bound (kwds : list (obj * obj)) (i : nat) (v : option obj) : option obj :=
  if decide (i < num_pos)%nat then v
  else match (n ← argnames !! i; find_text text kwds (text n)) with Some x => Some x | None => v end.

Lemma bound_cons k v kwds values j :
  position (drop num_pos argnames) (text k) = Some j → text k ∉ text <$> kwds.*1 →
  length values = length argnames →
  imap (bound kwds) (<[(num_pos + j)%nat := Some v]> values) = imap (bound ((k, v) :: kwds)) values.
Proof.
  intros (n & Hn & Ht)%position_Some Hk Hlen. rewrite lookup_drop in Hn.
  apply list_eq. intros i. rewrite !list_lookup_imap. unfold bound.
  destruct (decide (i = (num_pos + j)%nat)) as [->|Hne].
  - pose proof (lookup_lt_Some _ _ _ Hn). rewrite list_lookup_insert_eq by lia.
    destruct (lookup_lt_is_Some_2 values (num_pos + j)) as [x ->]; [lia|]. simpl. rewrite !decide_False by lia.
    rewrite Hn. simpl. rewrite Ht, find_text_None by done. by rewrite decide_True.
  - rewrite list_lookup_insert_ne by done. destruct (values !! i) as [x|]; [|done]. simpl. f_equal.
    destruct (decide (i < num_pos)%nat); [done|]. destruct (argnames !! i) as [n'|] eqn:Hn'; [|done]. simpl.
    rewrite decide_False; [done|]. intros E. apply Hne.
    eapply (NoDup_lookup (text <$> argnames)); [done| |]; rewrite list_lookup_fmap; [by rewrite Hn'|].
    rewrite Hn. simpl. congruence.
Qed.

(** What is wrong with such a keyword. *)
Definition keyword_error (k : obj) : arg_error :=
  match text k with
  | None => KeywordsMustBeStrings
  | Some _ => if decide (text k ∈ text <$> take num_pos argnames) then DoubleKeywords k else UnexpectedKeyword k
  end.

(** Parsing the keywords of a function that takes no others. *)
Lemma parse_keywords_correct kwds values :
  NoDup (omap text kwds.*1) → length values = length argnames →
  ParseOptionalKeywords text compare kwds argnames num_pos (values, None)
  = match leftover kwds with
    | Some k => inl (keyword_error k)
    | None => inr (imap (bound kwds) values, None)
    end.
Proof.
  revert values. induction kwds as [|[k v] kwds IH]; intros values Hnd Hlen.
  { simpl. do 2 f_equal. apply list_eq. intros i. rewrite list_lookup_imap. unfold bound.
    destruct (values !! i); simpl; [|done]. destruct (decide _); [done|]. by destruct (argnames !! i). }
  cbn [ParseOptionalKeywords leftover]. rewrite fmap_cons in Hnd. cbn [fst] in *. simpl in Hnd.
  unfold keyword_error. destruct (text k) as [tk|] eqn:Ek.
  2:{ rewrite parse_one_not_string by done. destruct (position _ None) as [j|] eqn:Ep; [|by rewrite Ek].
      apply position_Some in Ep as (n & Hn & Ht). rewrite Forall_forall in names_are_strings.
      rewrite lookup_drop in Hn. apply list_elem_of_lookup_2, names_are_strings in Hn. by rewrite Ht in Hn. }
  apply NoDup_cons in Hnd as [Hk Hnd]. rewrite parse_one_spec by congruence. rewrite Ek.
  destruct (position (drop num_pos argnames) (Some tk)) as [j|] eqn:Ep.
  - rewrite IH by (done || by rewrite length_insert).
    rewrite (bound_cons k v); [done|congruence| |done].
    rewrite Ek. intros (k' & E & Hin)%list_elem_of_fmap. apply Hk, list_elem_of_omap. eauto.
  - rewrite Ek. destruct (position (take num_pos argnames) (Some tk)) as [j|] eqn:Et.
    + rewrite decide_True; [done|]. apply dec_stable. intros Hn%position_None. congruence.
    + rewrite decide_False; [done|]. by apply position_None.
Qed.

Lemma leftover_None kwds : leftover kwds = None ↔ Forall (fun k => text k ∈ text <$> drop num_pos argnames) kwds.*1.
Proof.
  induction kwds as [|[k v] kwds IH]; [done|]. cbn [leftover]. rewrite fmap_cons, Forall_cons, <- IH. cbn [fst].
  destruct (position _ _) as [j|] eqn:E.
  - split; [|tauto]. intros H. split; [|done]. apply dec_stable. intros Hn%position_None. congruence.
  - apply position_None in E. split; [done|tauto].
Qed.
End Names.

Lemma lookup_missing_spec kwds args i names k :
  match mapM (fun n => find_text text kwds (text n)) names with
  | Some vs => lookup_missing dict_get kwds args i names k = inr (Some <$> vs, k - Z.of_nat (length names))
  | None => ∃ e, lookup_missing dict_get kwds args i names k = inl e
  end.
Proof.
  revert i k. induction names as [|n names IH]; intros i k; cbn [mapM lookup_missing length].
  { simpl. by rewrite Z.sub_0_r. }
  rewrite dict_get_spec. simpl. destruct (find_text text kwds (text n)) as [v|]; simpl; [|eauto].
  specialize (IH (i + 1) (k - 1)). destruct (mapM _ names) as [vs|]; simpl in *.
  - rewrite IH. rewrite Nat2Z.inj_succ. by replace (k - 1 - Z.of_nat (length names)) with (k - Z.succ (Z.of_nat (length names))) by lia.
  - destruct IH as (e & ->). eauto.
Qed.

Lemma find_text_elem kwds t v : find_text text kwds t = Some v → t ∈ text <$> kwds.*1.
Proof.
  induction kwds as [|[k w] kwds IH]; [done|]. simpl. destruct (decide (text k = t)) as [->|]; set_solver.
Qed.

Lemma strings_distinct ks :
  Forall (fun k => text k ≠ None) ks → NoDup (omap text ks) → NoDup (text <$> ks).
Proof using Type.
  induction 1 as [|k ks Hk _ IH]; simpl; intros Hnd; [constructor|].
  destruct (text k) as [t|] eqn:Ek; [|done]. apply NoDup_cons in Hnd as [Hni Hnd].
  apply NoDup_cons. split; [|auto]. intros (k' & E & Hin)%list_elem_of_fmap. apply Hni, list_elem_of_omap. eauto.
Qed.

(** Binding keyword arguments to names, with as many keywords as names left. *)
Lemma all_taken names kwds vs :
  Forall (fun n => text n ≠ None) names → NoDup (text <$> names) → NoDup (omap text kwds.*1) →
  mapM (fun n => find_text text kwds (text n)) names = Some vs →
  Forall (fun k => text k ∈ text <$> names) kwds.*1 ↔ (length kwds ≤ length names)%nat.
Proof.
  intros Hs Hn Hk Hm. apply mapM_Some_1 in Hm.
  assert (Forall (fun n => text n ∈ text <$> kwds.*1) names) as Hsub.
  { eapply Forall2_Forall_l; [exact Hm|]. apply Forall_true. intros v n. apply find_text_elem. }
  rewrite Forall_forall in Hsub. split.
  - intros Hall. rewrite Forall_forall in Hall.
    assert (text <$> kwds.*1 ⊆+ text <$> names) as Hsm.
    { apply NoDup_submseteq; [apply strings_distinct; [|done]|].
      { apply Forall_forall. intros k (n & -> & Hin)%Hall%list_elem_of_fmap. rewrite Forall_forall in Hs. by apply Hs. } intros t (k & -> & Hin)%list_elem_of_fmap. by apply Hall. }
    apply submseteq_length in Hsm. by rewrite !length_fmap in Hsm.
  - intros Hlen. assert (text <$> names ≡ₚ text <$> kwds.*1) as Hp.
    { apply submseteq_length_Permutation; [|by rewrite !length_fmap].
      apply NoDup_submseteq; [done|]. intros t (n & -> & Hin)%list_elem_of_fmap. by apply Hsub. }
    apply Forall_forall. intros k Hin. rewrite Hp. apply list_elem_of_fmap. eauto.
Qed.

(** The success case, for three parameters. *)
Lemma bind_arguments_spec names args kwds vs :
  length names = 3%nat → Forall (fun n => text n ≠ None) names → NoDup (text <$> names) →
  NoDup (omap text (default [] kwds).*1) →
  bind_arguments text compare dict_get names args kwds = inr vs ↔
  ∃ l, python_bind text names args (default [] kwds) = Some l ∧ vs = Some <$> l.
Proof.
  intros H3 Hns Hnd Hkd. unfold bind_arguments, python_bind. rewrite H3. destruct kwds as [kwds|]; simpl in *.
  - destruct (Nat.ltb_spec 3 (length args)) as [Hlt|Hle].
    { rewrite decide_False by lia. split; [done|]. by intros (? & ? & ?). }
    rewrite decide_True by lia. set (missing := drop (length args) names).
    assert (NoDup (text <$> missing)) as Hmd.
    { unfold missing. rewrite fmap_drop. eapply sublist_NoDup; [exact Hnd|apply sublist_drop]. }
    pose proof (lookup_missing_spec kwds args (Z.of_nat (length args)) missing (Z.of_nat (length kwds))) as Hm.
    destruct (mapM _ missing) as [ws|] eqn:Em; simpl.
    2: { destruct Hm as (e & ->). split; [done|]. intros (l & Hl & _). by destruct (decide _). }
    rewrite Hm. pose proof (all_taken missing kwds ws (Forall_drop _ _ _ Hns) Hmd Hkd Em) as Hall.
    destruct (Z.ltb_spec 0 (Z.of_nat (length kwds) - Z.of_nat (length missing))) as [Hgt|Hge].
    + rewrite decide_False by (rewrite Hall; lia).
      rewrite parse_keywords_correct; try done.
      2: { rewrite length_app, !length_fmap, <- (length_mapM _ _ _ Em). unfold missing. rewrite length_drop. lia. }
      destruct (leftover names (length args) kwds) as [k|] eqn:El.
      * split; [done|]. by intros (? & ? & ?).
      * apply leftover_None, (proj1 Hall) in El. lia.
    + rewrite decide_True by (apply Hall; lia). rewrite <- fmap_app.
      split; [intros [= <-]; eauto|]. intros (l & [= <-] & ->). done.
  - destruct (Nat.eqb_spec (length args) 3) as [E|E].
    + rewrite decide_True by lia.
      rewrite drop_ge by lia. simpl. rewrite app_nil_r. naive_solver.
    + destruct (decide _); [|naive_solver].
      destruct (drop (length args) names) as [|n rest] eqn:Ed; [|naive_solver].
      apply (f_equal length) in Ed. rewrite length_drop in Ed. simpl in Ed. lia.
Qed.

(** The lines of the errors are lines of the file. *)
Lemma lookup_missing_error kwds args i names k l e :
  lookup_missing dict_get kwds args i names k = inl (l, e) →
  1744 ≤ l ≤ 1769 ∧ ∃ n, e = RaiseArgtupleInvalid true 3 3 n.
Proof using Type.
  revert i k l e. induction names as [|n names IH]; intros i k l e; simpl; [done|].
  destruct (dict_get kwds n).
  - destruct (lookup_missing dict_get kwds args (i + 1) names (k - 1)) as [[l' e']|[vs k']] eqn:E; [|done].
    intros [= -> ->]. by eapply IH.
  - intros [= E]. unfold argtuple_error in *. repeat case_match; simplify_eq; (split; [lia|by eexists]).
Qed.

Lemma bind_error_line names args kwds l e :
  bind_arguments text compare dict_get names args kwds = inl (l, e) → 1744 ≤ l ≤ 1769.
Proof using Type.
  unfold bind_arguments. intros E. repeat case_match; simplify_eq; try lia.
  by eapply lookup_missing_error.
Qed.

(** Every parameter has a value, and no positional argument is too much. *)
Definition complete (names args : list obj) (kwds : list (obj * obj)) : Prop :=
  (length args ≤ length names)%nat ∧
  Forall (fun n => is_Some (find_text text kwds (text n))) (drop (length args) names).

Lemma complete_mapM names args kwds :
  complete names args kwds → ∃ vs, mapM (fun n => find_text text kwds (text n)) (drop (length args) names) = Some vs.
Proof using Type. intros [_ H]. apply mapM_is_Some. exact H. Qed.

(** What is wrong with a call that is not bound: a value is missing or too much, or
    the first keyword that no parameter takes. *)
Lemma bind_error_kind names args kwds l e :
  length names = 3%nat → Forall (fun n => text n ≠ None) names → NoDup (text <$> names) →
  NoDup (omap text (default [] kwds).*1) →
  bind_arguments text compare dict_get names args kwds = inl (l, e) →
  (complete names args (default [] kwds) →
     ∃ k, leftover names (length args) (default [] kwds) = Some k ∧ e = keyword_error names (length args) k) ∧
  (¬ complete names args (default [] kwds) → ∃ n, e = RaiseArgtupleInvalid true 3 3 n).
Proof.
  intros H3 Hns Hnd Hkd. unfold bind_arguments. destruct kwds as [kwds|]; cbn [default id] in *.
  2:{ destruct (Nat.eqb_spec (length args) 3) as [|Hne]; [done|]. intros [= <- <-]. unfold argtuple_error.
      split; [|by eexists]. intros [Hle Hall]. destruct (drop (length args) names) as [|n rest] eqn:Ed.
      - apply (f_equal length) in Ed. rewrite length_drop in Ed. simpl in Ed. lia.
      - apply Forall_cons in Hall as [[? ?] _]. done. }
  destruct (Nat.ltb_spec 3 (length args)) as [Hlt|Hle].
  { intros [= <- <-]. unfold argtuple_error. split; [|by eexists]. intros [? _]. lia. }
  pose proof (lookup_missing_spec kwds args (Z.of_nat (length args)) (drop (length args) names) (Z.of_nat (length kwds))) as Hm.
  destruct (mapM _ _) as [ws|] eqn:Em.
  - rewrite Hm. assert (complete names args kwds) as Hc.
    { split; [lia|]. apply mapM_is_Some. by rewrite Em. }
    destruct (_ <? _); [|done]. rewrite parse_keywords_correct; try done.
    2: { rewrite length_app, !length_fmap, <- (length_mapM _ _ _ Em), length_drop. lia. }
    destruct (leftover names (length args) kwds) as [k|] eqn:El; [|done]. intros [= <- <-].
    split; [intros _; by exists k|]. intros Hn; by destruct (Hn Hc).
  - destruct Hm as ([l' e'] & Hm). pose proof (lookup_missing_error _ _ _ _ _ _ _ Hm) as [_ He].
    rewrite Hm. intros [= -> ->]. split; [|done].
    intros [vs Hvs]%complete_mapM. congruence.
Qed.

(** C35: the wrapper binds the arguments of a call as Python does, whatever the
    keywords are.  It succeeds exactly when there are at most three positional
    arguments and the keywords are the names of the other parameters, each once;
    every parameter then has its value.  Otherwise it fails with a line of the wrapper:
    if a parameter has no value or there are too many positional arguments, the error
    is about their number; if not, it is about the first keyword that no parameter
    takes, which is not a string, or passed twice, or unexpected. *)
Theorem bind_arguments_correct names args kwds :
  length names = 3%nat → Forall (fun n => text n ≠ None) names → NoDup (text <$> names) →
  NoDup (omap text (default [] kwds).*1) →
  match python_bind text names args (default [] kwds) with
  | Some l => bind_arguments text compare dict_get names args kwds = inr (Some <$> l)
  | None => ∃ line e, bind_arguments text compare dict_get names args kwds = inl (line, e) ∧ 1744 ≤ line ≤ 1769 ∧
      (complete names args (default [] kwds) →
         ∃ k, leftover names (length args) (default [] kwds) = Some k ∧ e = keyword_error names (length args) k) ∧
      (¬ complete names args (default [] kwds) → ∃ n, e = RaiseArgtupleInvalid true 3 3 n)
  end.
Proof.
  intros H3 Hns Hnd Hkd. pose proof (fun vs => bind_arguments_spec names args kwds vs H3 Hns Hnd Hkd) as Hspec.
  destruct (python_bind _ _ _ _) as [l|]; [apply Hspec; eauto|].
  destruct (bind_arguments _ _ _ _ _ _) as [[line e]|vs] eqn:E.
  - exists line, e. split; [done|]. split; [by eapply bind_error_line|by eapply bind_error_kind].
  - by destruct (proj1 (Hspec vs) eq_refl) as (l & [=] & _).
Qed.
End Correct.

(** Names and keywords are the objects 10, 11 and 12. *)
Definition some_text (o : obj) : option string :=
  match o with 10%nat => Some "type" | 11%nat => Some "checksum" | 12%nat => Some "state" | _ => None end%string.
Definition some_compare (a b : obj) : option Z := if decide (some_text a = some_text b) then Some 0 else Some 1.
Definition some_get (kwds : list (obj * obj)) (n : obj) : option obj := find_text some_text kwds (some_text n).

Lemma some_compare_spec a b ta tb :
  some_text a = Some ta → some_text b = Some tb → ∃ c, some_compare a b = Some c ∧ (c = 0 ↔ ta = tb).
Proof.
  intros Ha Hb. unfold some_compare. rewrite Ha, Hb. destruct (decide (Some ta = Some tb)); eexists; split; try done; naive_solver.
Qed.
Lemma some_get_spec kwds n : some_get kwds n = find_text some_text kwds (some_text n).
Proof. done. Qed.

(** The call [f(1, state=3, checksum=2)], and a call with a keyword that is not a string. *)
Lemma bind_arguments_correct_witness :
  bind_arguments some_text some_compare some_get [10; 11; 12]%nat [1%nat] (Some [(12, 3); (11, 2)]%nat)
  = inr [Some 1; Some 2; Some 3]%nat ∧
  ∃ line, bind_arguments some_text some_compare some_get [10; 11; 12]%nat [1%nat] (Some [(12, 3); (20, 2); (11, 4)]%nat)
            = inl (line, KeywordsMustBeStrings).
Proof.
  assert (Forall (fun n => some_text n ≠ None) [10; 11; 12]%nat) as Hn by (repeat constructor; done).
  assert (NoDup (some_text <$> [10; 11; 12]%nat)) as Hd by (apply (bool_decide_unpack _); vm_compute; exact I).
  split.
  - apply (bind_arguments_correct some_text some_compare some_get some_compare_spec some_get_spec
      [10; 11; 12]%nat [1%nat] (Some [(12, 3); (11, 2)]%nat)); [done..|];
      apply (bool_decide_unpack _); vm_compute; exact I.
  - destruct (bind_arguments_correct some_text some_compare some_get some_compare_spec some_get_spec
      [10; 11; 12]%nat [1%nat] (Some [(12, 3); (20, 2); (11, 4)]%nat)) as (line & e & E & _ & H & _); [done..| |].
    { apply (bool_decide_unpack _); vm_compute; exact I. }
    destruct H as (k & [= <-] & ->); [|by exists line].
    split; [simpl; lia|]. repeat constructor; by eexists.
Defined.

Example two_arguments_message :
  arg_message some_text "f" (RaiseArgtupleInvalid true 3 3 2) = "f() takes exactly 3 positional arguments (2 given)"%string.
Proof. vm_compute. reflexivity. Qed.
