(* ===== verification/PyDictCache.v ===== *)
(** * Cached lookups of global names (cjunk/cython/simple.cpp)

    With CYTHON_USE_DICT_VERSIONS every use of a global name keeps, in two static
    variables, the value it found last and the version tag the dictionary had then;
    as long as the tag is the same the dictionary is not searched.  The reference
    is [PyCalls.GetModuleGlobalName], which always searches.

    A dictionary belongs to the library.  The tag of a dictionary and the answer to
    a lookup depend on all calls that were made; what PEP 509 says of the tag is
    the interface [DictVersions]. *)

From Stdlib Require Import ZArith Lia String.
From stdpp Require Import base list gmap gmultiset strings.
From S2P Require Import Prelude PyRuntime CodeCache Traceback PyCalls PyModule.
Local Open Scope Z_scope.

(** ** The interface of the library *)

(** [PyDictObject::ma_version_tag] after the calls of a trace. *)
Class VersionTags := ma_version_tag : obj → list call → Z.

(** A lookup leaves the tag alone, a tag is never 0, and a dictionary that shows the
    same tag twice has not been changed in between: if neither of two lookups among
    [reads] raises, the later one gets the answer of the earlier one.  The newest call
    of a trace comes first. *)
Class DictVersions (lib : list call → call → answer) {tags : VersionTags} (d : obj) (reads : call → Prop) : Prop := {
  tag_positive tr : 0 < ma_version_tag d tr;
  tag_read tr c : reads c → ma_version_tag d (c :: tr) = ma_version_tag d tr;
  tag_same tr more c :
    reads c → ma_version_tag d (more ++ tr) = ma_version_tag d tr →
    lookup_raises lib tr c = false → lookup_raises lib (more ++ tr) c = false → a_obj (lib (more ++ tr) c) = a_obj (lib tr c) }.

(** ** The static variables of a use *)

Record dict_cache := DictCache { dict_version : Z; dict_cached_value : option obj }.
Definition static_cache : dict_cache := DictCache 0 None.

Section Lookups.
Context (lib : list call → call → answer) (K : objects) (G : globals) {tags : VersionTags}.

Definition GET_DICT_VERSION (d : obj) : M Z := get (fun s => ma_version_tag d (trace s)).

(** [__PYX_UPDATE_DICT_CACHE]. *)
Definition UPDATE_DICT_CACHE (d : obj) (value : option obj) : M dict_cache :=
  v ← GET_DICT_VERSION d; mret (DictCache v value).

Definition global_lookup (name : obj) : call := Call "_PyDict_GetItem_KnownHash" [AObj (pyx_d G); AObj name].

(** [__Pyx__GetModuleGlobalName] with the two pointers. *)
Definition GetModuleGlobalName_update (name : obj) : M (option obj * dict_cache) :=
  result ← call_lookup lib (global_lookup name);
  c ← UPDATE_DICT_CACHE (pyx_d G) result;
  match result with
  | Some o => o ← NewRef o; mret (Some o, c)
  | None =>
      occurred ← PyErr_Occurred;
      if occurred : bool then mret (None, c)
      else r ← GetBuiltinName lib K G name; mret (r, c)
  end.

(** The macro [__Pyx_GetModuleGlobalName], for a use with the static variables [c]. *)
Definition GetModuleGlobalName_cached (name : obj) (c : dict_cache) : M (option obj * dict_cache) :=
  v ← GET_DICT_VERSION (pyx_d G);
  if dict_version c =? v then
    match dict_cached_value c with
    | Some o => o ← NewRef o; mret (Some o, c)
    | None => r ← GetBuiltinName lib K G name; mret (r, c)
    end
  else GetModuleGlobalName_update name.

(** [__Pyx_GetModuleGlobalNameUncached]: the variables are local. *)
Definition GetModuleGlobalNameUncached (name : obj) : M (option obj) :=
  '(r, _) ← GetModuleGlobalName_update name; mret r.

(** [__PYX_PY_DICT_LOOKUP_IF_MODIFIED], which [CLineForTraceback] uses: the value is
    borrowed. *)
Definition DICT_LOOKUP_IF_MODIFIED (d : obj) (lookup : call) (c : dict_cache) : M (option obj * dict_cache) :=
  v ← GET_DICT_VERSION d;
  if v =? dict_version c then mret (dict_cached_value c, c)
  else
    r ← call_lookup lib lookup;
    c ← UPDATE_DICT_CACHE d r;
    mret (r, c).

(** *** The versions of an object's two dictionaries *)

Context (tp_dict : obj → option obj) (tp_dictoffset : obj → Z)
        (dict_at_offset : obj → Z → option obj) (GetDictPtr : obj → option (option obj)).

Definition version_of (d : option obj) (tr : list call) : Z :=
  match d with Some d => ma_version_tag d tr | None => 0 end.

Definition get_tp_dict_version (o : obj) (tr : list call) : Z := version_of (tp_dict (type_of K o)) tr.

(** [*dictptr], or NULL when there is no such pointer. *)
Definition get_object_dict_version (o : obj) (tr : list call) : Z :=
  let offset := tp_dictoffset (type_of K o) in
  if offset =? 0 then 0
  else version_of (if 0 <? offset then dict_at_offset o offset else default None (GetDictPtr o)) tr.

Definition object_dict_version_matches (o : obj) (tp_dict_version obj_dict_version : Z) (tr : list call) : bool :=
  match tp_dict (type_of K o) with
  | None => false
  | Some d =>
      if negb (tp_dict_version =? ma_version_tag d tr) then false
      else obj_dict_version =? get_object_dict_version o tr
  end.
End Lookups.

(** ** Correctness *)

Section Correct.
Context (lib : list call → call → answer) (K : objects) (G : globals) {tags : VersionTags}.

(** What follows a search of the dictionary. *)
Definition found (name : obj) (value : option obj) : M (option obj) :=
  match value with
  | Some o => o ← NewRef o; mret (Some o)
  | None => GetBuiltinName lib K G name
  end.

(** The variables of a use were never written, or hold the answer to [lookup] at an
    earlier point of the trace with the tag of that point. *)
Definition valid (d : obj) (lookup : call) (tr : list call) (c : dict_cache) : Prop :=
  c = static_cache ∨
  ∃ before more, tr = more ++ before ∧ dict_version c = ma_version_tag d before ∧
                 dict_cached_value c = a_obj (lib before lookup).

(** The lookup raises neither now nor at any earlier point. *)
Definition never_raises (lookup : call) (tr : list call) : Prop :=
  ∀ before more, tr = more ++ before → lookup_raises lib before lookup = false.

Lemma never_raises_now lookup tr : never_raises lookup tr → lookup_raises lib tr lookup = false.
Proof. intros H. by apply (H tr []). Qed.

Lemma valid_later d lookup tr more c : valid d lookup tr c → valid d lookup (more ++ tr) c.
Proof.
  intros [->|(before & m & -> & Hv & Hc)]; [by left|right].
  exists before, (more ++ m). by rewrite <- app_assoc.
Qed.

Lemma trace_after_lookup c s : trace (after_lookup lib c s) = c :: trace s.
Proof. unfold after_lookup. by destruct (lookup_raises _ _ _). Qed.

Section OneDict.
Context (d : obj) (reads : call → Prop) {versions : DictVersions lib d reads}.

(** A hit is the answer a search would get. *)
Lemma valid_hit lookup tr c :
  reads lookup → never_raises lookup tr → valid d lookup tr c → dict_version c = ma_version_tag d tr →
  dict_cached_value c = a_obj (lib tr lookup).
Proof.
  intros Hr Hn [->|(before & more & -> & Hv & ->)] Htag.
  - simpl in Htag. pose proof (tag_positive tr). lia.
  - symmetry. apply tag_same; [done|congruence|by apply (Hn before more)|by apply never_raises_now].
Qed.

Lemma valid_updated lookup tr :
  reads lookup →
  valid d lookup (lookup :: tr) (DictCache (ma_version_tag d (lookup :: tr)) (a_obj (lib tr lookup))).
Proof. intros Hr. right. exists tr, [lookup]. split_and!; [done| |done]. by apply tag_read. Qed.
End OneDict.

(** The builtin lookup only adds calls to the trace. *)
Lemma found_trace name value s r s' :
  found name value s = Done (Ok (r, s')) → ∃ more, trace s' = more ++ trace s.
Proof.
  unfold found. destruct value as [o|]; [intros E; inversion E; subst; by exists []|].
  unfold GetBuiltinName, GetAttrStr, call_new, mbind, M_bind. destruct (has_getattro K (pyx_b G)); simpl;
    case_match; simpl; unfold mret, M_ret, fuelled_ret, outcome_ret; simpl; intros E; inversion E; subst; by eexists [_].
Qed.

Abbreviation look := (global_lookup G).

(** The functions as searches followed by [found], when no exception is pending; a
    search that raises is the end of both. *)
Lemma GetModuleGlobalName_found name s :
  err s = None →
  GetModuleGlobalName lib K G name s =
  if lookup_raises lib (trace s) (look name) then mret (None, after_lookup lib (look name) s)
  else found name (a_obj (lib (trace s) (look name))) (log (look name) s).
Proof.
  intros He. unfold GetModuleGlobalName, call_lookup, after_lookup, lookup_raises, mbind, M_bind. simpl. fold (look name).
  destruct (a_obj _) as [o|]; [done|]. unfold PyErr_Occurred, get. destruct (_ =? 0); simpl; [by rewrite He|done].
Qed.

Lemma GetModuleGlobalName_update_found name s :
  err s = None →
  let value := a_obj (lib (trace s) (look name)) in
  let c := DictCache (ma_version_tag (pyx_d G) (look name :: trace s)) value in
  GetModuleGlobalName_update lib K G name s =
  if lookup_raises lib (trace s) (look name) then mret ((None, c), after_lookup lib (look name) s)
  else (r ← found name value; mret (r, c)) (log (look name) s).
Proof.
  intros He. unfold GetModuleGlobalName_update, call_lookup, after_lookup, lookup_raises, mbind, M_bind. simpl.
  destruct (a_obj (lib (trace s) (look name))) as [o|]; [done|]. unfold PyErr_Occurred, get.
  destruct (_ =? 0); simpl; [by rewrite He|done].
Qed.

(** The macro: a hit, or the function. *)
Lemma GetModuleGlobalName_cached_cases name c s :
  GetModuleGlobalName_cached lib K G name c s =
  if dict_version c =? ma_version_tag (pyx_d G) (trace s)
  then (r ← found name (dict_cached_value c); mret (r, c)) s else GetModuleGlobalName_update lib K G name s.
Proof.
  unfold GetModuleGlobalName_cached, GET_DICT_VERSION, get, mbind, M_bind. simpl.
  destruct (_ =? _); [|done]. by destruct (dict_cached_value c).
Qed.

Context {versions : DictVersions lib (pyx_d G) (fun c => ∃ name, c = look name)}.

(** A use with valid variables answers as a search of the dictionary does now. *)
Lemma cached_lookup name c s :
  err s = None → valid (pyx_d G) (look name) (trace s) c → never_raises (look name) (trace s) →
  ∃ s1 c', (s1 = s ∨ s1 = log (look name) s) ∧
    GetModuleGlobalName_cached lib K G name c s
    = (r ← found name (a_obj (lib (trace s) (look name))); mret (r, c')) s1.
Proof.
  intros He Hc Hn. rewrite GetModuleGlobalName_cached_cases.
  destruct (Z.eqb_spec (dict_version c) (ma_version_tag (pyx_d G) (trace s))) as [E|E].
  - pose proof (valid_hit (pyx_d G) (fun c => ∃ n, c = look n) _ _ _ ltac:(by eexists) Hn Hc E) as Hv.
    exists s, c. split; [by left|]. by rewrite <- Hv.
  - rewrite GetModuleGlobalName_update_found, never_raises_now by done. eexists _, _. split; [by right|done].
Qed.

(** Every use leaves valid variables. *)
Lemma cached_valid name c s r c' s' :
  err s = None → valid (pyx_d G) (look name) (trace s) c →
  GetModuleGlobalName_cached lib K G name c s = mret ((r, c'), s') →
  valid (pyx_d G) (look name) (trace s') c' ∧ ∃ more, trace s' = more ++ trace s.
Proof.
  assert (∀ s0 v c0, (r ← found name v; mret (r, c0)) s0 = mret ((r, c'), s') → c' = c0 ∧ ∃ more, trace s' = more ++ trace s0) as Hf.
  { intros s0 v c0. unfold mbind, M_bind. destruct (found name v s0) as [[[r1 s2]| | |]|] eqn:Ef; try discriminate.
    apply found_trace in Ef as [more Em]. simpl. intros [= -> <- <-]. eauto. }
  intros He Hc. rewrite GetModuleGlobalName_cached_cases. destruct (_ =? _).
  - intros [-> [more Em]]%Hf. split; [rewrite Em; by apply valid_later|by exists more].
  - rewrite GetModuleGlobalName_update_found by done.
    pose proof (valid_updated (pyx_d G) (fun c => ∃ n, c = look n) (look name) (trace s) ltac:(by eexists)) as Hu.
    destruct (lookup_raises _ _ _).
    + intros [= _ <- <-]. rewrite trace_after_lookup. split; [done|by exists [look name]].
    + intros [-> [more Em]]%Hf. rewrite Em. simpl. split; [by apply valid_later|].
      exists (more ++ [look name]). by rewrite <- app_assoc.
Qed.

Lemma DICT_LOOKUP_IF_MODIFIED_valid d lookup c s {versions' : DictVersions lib d (eq lookup)} :
  valid d lookup (trace s) c →
  ∃ v s1 c', (s1 = s ∨ s1 = after_lookup lib lookup s) ∧
    DICT_LOOKUP_IF_MODIFIED lib d lookup c s = mret ((v, c'), s1) ∧
    valid d lookup (trace s1) c' ∧
    (never_raises lookup (trace s) → v = a_obj (lib (trace s) lookup)).
Proof.
  intros Hc. unfold DICT_LOOKUP_IF_MODIFIED, GET_DICT_VERSION, get, mbind, M_bind. simpl.
  destruct (Z.eqb_spec (ma_version_tag d (trace s)) (dict_version c)) as [E|E].
  - exists (dict_cached_value c), s, c. split; [by left|]. split_and!; [done..|].
    intros Hn. by rewrite <- (valid_hit d (eq lookup) lookup (trace s) c).
  - pose proof (valid_updated d (eq lookup) lookup (trace s) eq_refl) as Hu.
    rewrite <- (trace_after_lookup lookup s) in Hu at 2.
    eexists _, _, _. split; [by right|]. split; [reflexivity|]. split; [|done].
    by rewrite trace_after_lookup.
Qed.

(** The module while it runs: the uses of global names, numbered, with the name and
    the variables of each, and the variables of [CLineForTraceback]; between the uses
    anything may be called. *)
Context (name_of : nat → obj) (d_runtime : obj) (runtime_lookup : call).
Context {runtime_versions : DictVersions lib d_runtime (eq runtime_lookup)}.

Inductive module_run : pystate → (nat → dict_cache) → dict_cache → Prop :=
| run_start s : module_run s (fun _ => static_cache) static_cache
| run_other s cs rt s' more :
    module_run s cs rt → trace s' = more ++ trace s → module_run s' cs rt
| run_use s cs rt i r c s' :
    module_run s cs rt → err s = None →
    GetModuleGlobalName_cached lib K G (name_of i) (cs i) s = mret ((r, c), s') →
    module_run s' (fun j => if decide (i = j) then c else cs j) rt
| run_runtime s cs rt r c s' :
    module_run s cs rt →
    DICT_LOOKUP_IF_MODIFIED lib d_runtime runtime_lookup rt s = mret ((r, c), s') →
    module_run s' cs c.

Lemma module_run_valid s cs rt :
  module_run s cs rt →
  (∀ i, valid (pyx_d G) (look (name_of i)) (trace s) (cs i)) ∧ valid d_runtime runtime_lookup (trace s) rt.
Proof.
  induction 1 as [s|s cs rt s' more _ [IH1 IH2] ->|s cs rt i r c s' _ [IH1 IH2] He Hu|s cs rt r c s' _ [IH1 IH2] Hu].
  - split; [intros i|]; by left.
  - split; [intros i|]; by apply valid_later.
  - destruct (cached_valid _ _ _ _ _ _ He (IH1 i) Hu) as [Hc [more Em]].
    split; [|rewrite Em; by apply valid_later]. intros j. case_decide as Hj; [by subst j|].
    rewrite Em. by apply valid_later.
  - destruct (DICT_LOOKUP_IF_MODIFIED_valid d_runtime runtime_lookup rt s IH2) as (v & s1 & c' & Hs1 & E & Hc' & _).
    rewrite E in Hu. injection Hu as _ -> ->. split; [|done]. intros i.
    destruct Hs1 as [->| ->]; [done|]. rewrite trace_after_lookup. by apply (valid_later _ _ _ [_]).
Qed.
End Correct.

(** C37: however the uses of global names, the lookups of [CLineForTraceback] and calls
    that change the dictionaries follow each other, the cached lookups of a name that
    never raised cannot be told from searches: a use answers what the search of the
    dictionary answers at that moment, with a new reference, or else what the builtins
    answer, exactly as the function that always searches; only the call that searches
    may be missing.  A search that raises is passed on as it is without the cache, but
    the variables then say that the dictionary has no such name: until the dictionary
    changes, the use answers from the builtins without searching again. *)
Theorem cached_lookups_transparent
    (lib : list call → call → answer) (K : objects) (G : globals) {tags : VersionTags}
    {versions : DictVersions lib (pyx_d G) (fun c => ∃ name, c = global_lookup G name)}
    (name_of : nat → obj) (d_runtime : obj) (runtime_lookup : call)
    {runtime_versions : DictVersions lib d_runtime (eq runtime_lookup)}
    (s : pystate) (cs : nat → dict_cache) (rt : dict_cache)
    (Hrun : module_run lib K G name_of d_runtime runtime_lookup s cs rt) (Herr : err s = None) :
  (∀ i, let look := global_lookup G (name_of i) in
     let value := a_obj (lib (trace s) look) in
     never_raises lib look (trace s) →
     GetModuleGlobalName lib K G (name_of i) s = found lib K G (name_of i) value (log look s) ∧
     ∃ s1 c, (s1 = s ∨ s1 = log look s) ∧
       GetModuleGlobalName_cached lib K G (name_of i) (cs i) s
       = (r ← found lib K G (name_of i) value; mret (r, c)) s1) ∧
  (∃ v s1 c, (s1 = s ∨ s1 = after_lookup lib runtime_lookup s) ∧
     DICT_LOOKUP_IF_MODIFIED lib d_runtime runtime_lookup rt s = mret ((v, c), s1) ∧
     (never_raises lib runtime_lookup (trace s) → v = a_obj (lib (trace s) runtime_lookup))) ∧
  (∀ name, let look := global_lookup G name in
     let s1 := after_lookup lib look s in
     lookup_raises lib (trace s) look = true →
     GetModuleGlobalName lib K G name s = mret (None, s1) ∧
     ∃ c, GetModuleGlobalName_update lib K G name s = mret ((None, c), s1) ∧
       ∀ s2, ma_version_tag (pyx_d G) (trace s2) = ma_version_tag (pyx_d G) (trace s1) →
         GetModuleGlobalName_cached lib K G name c s2 = (r ← GetBuiltinName lib K G name; mret (r, c)) s2).
Proof.
  apply module_run_valid in Hrun as [Hcs Hrt]; [|done..]. split; [|split].
  - intros i look value Hn. rewrite GetModuleGlobalName_found, never_raises_now by done.
    split; [done|]. by apply cached_lookup.
  - destruct (DICT_LOOKUP_IF_MODIFIED_valid lib d_runtime runtime_lookup rt s Hrt) as (v & s1 & c & ? & ? & _ & ?).
    by exists v, s1, c.
  - intros name look s1 Hr. unfold s1, look in *. rewrite GetModuleGlobalName_found, GetModuleGlobalName_update_found, Hr by done.
    split; [done|]. eexists. split; [done|]. intros s2. rewrite trace_after_lookup. intros E.
    rewrite GetModuleGlobalName_cached_cases. simpl. rewrite E, Z.eqb_refl.
    unfold lookup_raises in Hr. by destruct (a_obj _).
Qed.

(** A library that counts the calls that change a dictionary: the count is the tag and
    what every lookup finds. *)
Definition changes (tr : list call) : nat := length (filter (fun c => callee c = "PyDict_SetItem"%string) tr).
Definition counting_lib (tr : list call) (c : call) : answer := Answer (Some (changes tr)) 0.
Definition counting_tags : VersionTags := fun _ tr => 1 + Z.of_nat (changes tr).

Lemma counting_versions d (reads : call → Prop) :
  (∀ c, reads c → callee c ≠ "PyDict_SetItem"%string) → DictVersions counting_lib (tags := counting_tags) d reads.
Proof.
  intros Hr. split; unfold ma_version_tag, counting_tags.
  - lia.
  - intros tr c Hc%Hr. unfold changes. by rewrite filter_cons_False.
  - intros tr more c _ E _ _. simpl. f_equal. lia.
Qed.

Section Witness.
Local Existing Instance counting_tags.
(** A use of the name, a change of the dictionary, and what the use then finds. *)
Lemma cached_lookups_transparent_witness :
  let look := global_lookup some_globals 5%nat in
  let set_item := Call "PyDict_SetItem" [] in
  let s0 := PyState None ∅ [] empty_cache in
  ∃ s1 c1, GetModuleGlobalName_cached counting_lib some_objects some_globals 5%nat static_cache s0 = mret ((Some 0%nat, c1), s1) ∧
  ∃ s2 c2, GetModuleGlobalName_cached counting_lib some_objects some_globals 5%nat c1 (log set_item s1) = mret ((Some 1%nat, c2), s2).
Proof.
  intros look set_item s0.
  assert (∀ d x, callee x ≠ "PyDict_SetItem"%string → DictVersions counting_lib d (eq x)) as Hv1.
  { intros d x Hx. apply counting_versions. by intros c <-. }
  assert (DictVersions counting_lib (pyx_d some_globals) (fun c => ∃ name, c = global_lookup some_globals name)) as Hv.
  { apply counting_versions. by intros c [name ->]. }
  pose proof (Hv1 0%nat (Call "PyDict_GetItemStr" []) ltac:(done)) as Hr.
  eexists _, _. split; [reflexivity|].
  match goal with |- ∃ _ _, GetModuleGlobalName_cached _ _ _ _ ?c ?s = _ => set (c1 := c); set (s1 := s) end.
  assert (module_run counting_lib some_objects some_globals (fun _ => 5%nat) 0%nat (Call "PyDict_GetItemStr" []) s1
            (fun j => if decide (0%nat = j) then c1 else static_cache) static_cache) as Hrun.
  { eapply run_other with (more := [set_item]).
    - eapply (run_use _ _ _ _ _ _ s0 (fun _ => static_cache) static_cache 0%nat); [apply run_start|done|reflexivity].
    - done. }
  destruct (cached_lookups_transparent counting_lib some_objects some_globals (fun _ => 5%nat) 0%nat (Call "PyDict_GetItemStr" []) s1
              (fun j => if decide (0%nat = j) then c1 else static_cache) static_cache Hrun eq_refl) as [H _].
  destruct (H 0%nat) as (_ & s2 & c2 & _ & E); [by intros ?|]. simpl decide in E. eexists _, c2. exact E.
Defined.
End Witness.

(** A search that raises, because a key compares with an exception, and the next use: it
    does not search, although a search would find the name now. *)
Definition raising_once (tr : list call) (c : call) : answer :=
  if String.eqb (callee c) "_PyDict_GetItem_KnownHash" then
    if decide (tr = []) then Answer None 1 else Answer (Some 77%nat) 0
  else Answer (Some 88%nat) 0.
Definition constant_tags : VersionTags := fun _ _ => 1.

Example raising_lookup_is_cached :
  let s0 := PyState None ∅ [] empty_cache in
  let first := GetModuleGlobalName_cached raising_once some_objects some_globals (tags := constant_tags) 5%nat static_cache s0 in
  match first with
  | Done (Ok ((r, c), s1)) =>
      r = None ∧ is_Some (err s1) ∧
      let s2 := set_err None s1 in
      (∃ s3, GetModuleGlobalName_cached raising_once some_objects some_globals (tags := constant_tags) 5%nat c s2
             = Done (Ok ((Some 88%nat, c), s3))) ∧
      (∃ s3, GetModuleGlobalName raising_once some_objects some_globals 5%nat s2 = Done (Ok (Some 77%nat, s3)))
  | _ => False
  end.
Proof. split; [done|]. split; [by eexists|]. split; eexists; reflexivity. Qed.
