(* ===== verification/PyVariants.v ===== *)
(** * Helpers for other configurations (cjunk/cython/simple.cpp)

    The generated file carries each helper for every interpreter it may be compiled
    for.  [PyCalls] has those of CPython 3.7 or later; here are the ones of Python 2,
    of interpreters other than CPython and of versions before 3.7, and the helpers
    for truth values and for the characters of strings.  They keep the same books. *)

From Stdlib Require Import ZArith Lia Ascii String.
From stdpp Require Import base list gmap gmultiset strings.
From S2P Require Import Prelude PyRuntime CodeCache Traceback PyCalls.
Local Open Scope Z_scope.

Section Variants.
Context (lib : list call → call → answer) (K : objects) (G : globals).

(** ** Truth values *)

Definition IsTrue (x : obj) : M Z :=
  let is_true := bool_decide (x = Py_True G) in
  if is_true || bool_decide (x = Py_False G) || bool_decide (x = Py_None G)
  then mret (if is_true then 1 else 0)
  else call_int lib (Call "PyObject_IsTrue" [AObj x]).

Definition IsTrueAndDecref (x : option obj) : M Z :=
  match x with
  | None => mret (-1)
  | Some x => retval ← IsTrue x; Py_DECREF x;; mret retval
  end.

(** ** The characters of strings

    What [bytes_of] and [utf8_of] give are the buffers of the objects; the length is
    that of the list. *)

Context (as_bytearray : obj → option bytes) (bytes_of utf8_of : obj → bytes) (is_ascii : obj → bool).

Definition AsStringAndSize (o : obj) : M (option bytes) :=
  match as_bytearray o with
  | Some data => mret (Some data)
  | None =>
      r ← call_int lib (Call "PyBytes_AsStringAndSize" [AObj o]);
      mret (if r <? 0 then None else Some (bytes_of o))
  end.
Definition AsString (o : obj) : M (option bytes) := AsStringAndSize o.

(** [strlen], and the length of a zero-terminated array of any type. *)
Fixpoint Py_UNICODE_strlen (u : list Z) : outcome Z :=
  match u with
  | [] => Undef oob_access
  | c :: u => if c =? 0 then Ok 0 else n ← Py_UNICODE_strlen u; Ok (1 + n)
  end.

Definition PyUnicode_FromString (c_str : string) : M (option obj) :=
  call_new lib (Call "PyUnicode_Decode" [AStr c_str; AInt (Z.of_nat (String.length c_str))]).

(** [PyUnicode_AsASCIIString] is called for the exception it sets. *)
Definition not_ascii (o : obj) : M (option bytes) :=
  call_new lib (Call "PyUnicode_AsASCIIString" [AObj o]);; mret None.

(** [__Pyx_PyUnicode_AsStringAndSize] without PEP 393: the default encoded string is
    borrowed; with c_string_encoding=ascii every character is looked at. *)
Fixpoint all_below_128 (l : bytes) : bool :=
  match l with [] => true | c :: l => if 128 <=? code c then false else all_below_128 l end.
Definition Unicode_AsStringAndSize_old (ascii : bool) (o : obj) : M (option bytes) :=
  failed ← call_status lib (Call "_PyUnicode_AsDefaultEncodedString" [AObj o]);
  if failed : bool then mret None
  else if ascii && negb (all_below_128 (bytes_of o)) then not_ascii o
  else mret (Some (bytes_of o)).

(** With PEP 393 the object knows whether it is ASCII. *)
Definition Unicode_AsStringAndSize_new (ascii : bool) (o : obj) : M (option bytes) :=
  ready ← call_int lib (Call "PyUnicode_READY" [AObj o]);
  if ready =? -1 then mret None
  else if ascii then if is_ascii o then mret (Some (utf8_of o)) else not_ascii o
  else
    failed ← call_status lib (Call "PyUnicode_AsUTF8AndSize" [AObj o]);
    mret (if failed : bool then None else Some (utf8_of o)).

(** ** The default encoding of Python 2 *)

(** [sys.getdefaultencoding()]: a new reference, whose characters are then asked for. *)
Definition default_encoding : M (option obj) :=
  sys ← call_new lib (Call "PyImport_ImportModule" [AStr "sys"]);
  match sys with
  | None => mret None
  | Some sys =>
      enc ← call_new lib (Call "PyObject_CallMethod" [AObj sys; AStr "getdefaultencoding"]);
      Py_DECREF sys;;
      mret enc
  end.

Definition ascii_chars : bytes := map (fun n => ascii_of_nat n) (seq 0 128).

(** [!PyBytes_Check(b) || memcmp(ascii_chars, b, 128) != 0]; the comparison reads 128
    characters, of which a terminating zero may be one. *)
Definition not_superset (is_bytes : obj → bool) (b : obj) : outcome bool :=
  if is_bytes b then
    if decide (128 ≤ length (bytes_of b) + 1)%nat
    then Ok (bool_decide (take 128 (bytes_of b ++ [nul]) ≠ ascii_chars)) else Undef oob_access
  else Ok true.

(** The result and [__Pyx_sys_getdefaultencoding_not_ascii], if it was assigned. *)
Definition init_not_ascii (is_bytes : obj → bool) : M (Z * option bool) :=
  enc ← default_encoding;
  match enc with
  | None => mret (-1, None)
  | Some enc =>
      failed ← call_status lib (Call "PyBytes_AsString" [AObj enc]);
      if failed : bool then Py_DECREF enc;; mret (-1, None)
      else if decide (bytes_of enc = #"ascii") then Py_DECREF enc;; mret (0, Some false)
      else
        u ← call_new lib (Call "PyUnicode_DecodeASCII" [AInt 128]);
        match u with
        | None => Py_DECREF enc;; mret (-1, Some true)
        | Some u =>
            b ← call_new lib (Call "PyUnicode_AsEncodedString" [AObj u]);
            bad ← match b with None => mret true | Some b => lift (not_superset is_bytes b) end;
            if bad : bool then
              PyErr_Set (PyExc "ValueError" "default encoding is not a superset of ascii");;
              Py_DECREF enc;; Py_DECREF u;; Py_XDECREF b;; mret (-1, Some true)
            else Py_DECREF u;; Py_XDECREF b;; Py_DECREF enc;; mret (0, Some true)
        end
  end.

(** For the default encoding its name is kept; [memory] is the answer of [malloc]. *)
Definition init_encoding_name (memory : bool) : M (Z * option bytes) :=
  enc ← default_encoding;
  match enc with
  | None => mret (-1, None)
  | Some enc =>
      failed ← call_status lib (Call "PyBytes_AsString" [AObj enc]);
      if failed || negb memory then Py_DECREF enc;; mret (-1, None)
      else Py_DECREF enc;; mret (0, Some (bytes_of enc))
  end.

(** [__Pyx_RefNannyImportAPI]: whether the pointer was found. *)
Definition RefNannyImportAPI (modname : string) : M bool :=
  m ← call_new lib (Call "PyImport_ImportModule" [AStr modname]);
  match m with
  | None => mret false
  | Some m =>
      p ← call_new lib (Call "PyObject_GetAttrString" [AObj m; AStr "RefNannyAPI"]);
      match p with
      | None => Py_DECREF m;; mret false
      | Some p =>
          failed ← call_status lib (Call "PyLong_AsVoidPtr" [AObj p]);
          Py_DECREF p;; Py_DECREF m;;
          mret (negb failed)
      end
  end.

(** ** Calls and attributes *)

(** [__Pyx_PyObject_CallOneArg] where [__Pyx_PyObject_Call] is [PyObject_Call]. *)
Definition CallOneArg_pack (func arg : obj) : M (option obj) :=
  args ← call_new lib (Call "PyTuple_Pack" [AInt 1; AObj arg]);
  match args with
  | None => mret None
  | Some args =>
      result ← call_new lib (Call "PyObject_Call" [AObj func; AObj args]);
      Py_DECREF args;;
      mret result
  end.

(** [tp_dictoffset] of a type, and whether a type has [tp_descr_get]. *)
Context (tp_dictoffset : obj → Z) (has_descr_get : obj → bool).

Definition RaiseGenericGetAttributeError : M (option obj) :=
  PyErr_Set (PyExc "AttributeError" "object has no attribute");; mret None.

(** A failed [assert] aborts the process. *)
Definition GenericGetAttrNoDict (o attr_name : obj) : M (option obj) :=
  let tp := type_of K o in
  if negb (is_unicode K attr_name) then call_new lib (Call "PyObject_GenericGetAttr" [AObj o; AObj attr_name])
  else if negb (tp_dictoffset tp =? 0) then lift (Exit 134)
  else
    descr ← call_borrowed lib (Call "_PyType_Lookup" [AObj tp; AObj attr_name]);
    match descr with
    | None => RaiseGenericGetAttributeError
    | Some descr =>
        Py_INCREF descr;;
        if has_descr_get (type_of K descr) then
          res ← call_new lib (Call "tp_descr_get" [AObj descr; AObj o; AObj tp]);
          Py_DECREF descr;;
          mret res
        else mret (Some descr)
    end.

Definition GenericGetAttr (o attr_name : obj) : M (option obj) :=
  if negb (tp_dictoffset (type_of K o) =? 0) then call_new lib (Call "PyObject_GenericGetAttr" [AObj o; AObj attr_name])
  else GenericGetAttrNoDict o attr_name.

(** ** Exceptions of Python 2 *)

(** [__Pyx_inner_PyErr_GivenExceptionMatches2]: a comparison that fails is reported
    and counts as no. *)
Definition is_subclass_or_report (err t : obj) : M Z :=
  res ← call_int lib (Call "PyObject_IsSubclass" [AObj err; AObj t]);
  if res =? -1 then PyErr_Clear;; call_void (Call "PyErr_WriteUnraisable" [AObj err]);; mret 0
  else mret res.

Definition inner_GivenExceptionMatches2_py2 (err : obj) (exc_type1 : option obj) (exc_type2 : obj) : M Z :=
  e ← ErrFetch;
  res ← match exc_type1 with Some t => is_subclass_or_report err t | None => mret 0 end;
  res ← (if res =? 0 then is_subclass_or_report err exc_type2 else mret res);
  ErrRestore e;;
  mret res.

Definition Py_XINCREF (o : option obj) : M () := match o with Some o => Py_INCREF o | None => mret () end.

(** [__Pyx_ErrRestore] takes the references of its three arguments. *)
Definition restore (type : obj) (value tb : option obj) : M () :=
  let c := Call "PyErr_Restore" [AObj type] in
  Py_GIVE type c;;
  match value with Some v => Py_GIVE v c | None => mret () end;;
  match tb with Some t => Py_GIVE t c | None => mret () end;;
  PyErr_Set (Raised type (default (Py_None G) value)).

(** [PyErr_NormalizeException]: the value may be replaced by an instance, and the type
    by its class. *)
Definition NormalizeException (type : obj) (value : option obj) : M (obj * option obj) :=
  v ← call_borrowed lib (Call "PyErr_NormalizeException" [AObj type]);
  match v with
  | None => mret (type, value)
  | Some v =>
      Py_INCREF v;; Py_INCREF (type_of K v);; Py_XDECREF value;; Py_DECREF type;;
      mret (type_of K v, Some v)
  end.

Definition raise_error (what : string) (type : obj) (value tb : option obj) : M () :=
  PyErr_Set (PyExc "TypeError" what);; Py_XDECREF value;; Py_DECREF type;; Py_XDECREF tb.

(** [__Pyx_Raise]; [is_type] and [is_base_exception] are [PyType_Check] and the test
    for a subtype of [BaseException]. *)
Context (is_type is_base_exception : obj → bool).

Definition Raise_py2 (type : obj) (value tb : option obj) : M () :=
  Py_INCREF type;;
  let value := if decide (value = Some (Py_None G)) then None else value in
  Py_XINCREF value;;
  let tb := if decide (tb = Some (Py_None G)) then None else tb in
  Py_XINCREF tb;;
  if match tb with Some t => negb (is_traceback K t) | None => false end then
    raise_error "raise: arg 3 must be a traceback or None" type value tb
  else if is_type type then
    '(type, value) ← NormalizeException type value; restore type value tb
  else
    match value with
    | Some _ => raise_error "instance exception may not have a separate value" type value tb
    | None =>
        let value := Some type in
        let type := type_of K type in
        Py_INCREF type;;
        if negb (is_base_exception type) then
          raise_error "raise: exception class must be a subclass of BaseException" type value tb
        else restore type value tb
    end.
End Variants.

(** ** The books *)

Section Specs.
Context (lib : list call → call → answer) (K : objects) (G : globals).

(** What is left of a proof when the references are right: the flag for an exception. *)
Ltac flags :=
  repeat case_match; simplify_eq/=; intros;
  repeat match goal with a : bool |- _ => destruct a end; simplify_eq/=; try done; try lia.

(** A truth value is not negative, or comes with an exception; the reference of the
    second form is released. *)
Lemma IsTrue_spec x r n es L b s :
  local r n es L b s → wp (IsTrue lib G x) (fun a => local r n es L (b || (a <? 0))) s.
Proof. intros H. unfold IsTrue. py; py_done. destruct (bool_decide _); simpl; by rewrite orb_false_r. Qed.

Lemma IsTrueAndDecref_spec x r n es L b s :
  local r n es (x :: L) b s → wp (IsTrueAndDecref lib G (Some x)) (fun a => local r n es L (b || (a <? 0))) s.
Proof.
  intros H. unfold IsTrueAndDecref. apply wp_bind. eapply wp_mono; [by eapply IsTrue_spec|].
  clear H. intros a s' H. cbn beta in H. py; py_done.
Qed.

(** Characters, or NULL with an exception; nothing is owned. *)
Definition chars_or_exception (m : M (option bytes)) : Prop :=
  ∀ r n es L b s, local r n es L b s →
    wp m (fun a => local r n es L (match a with Some _ => b | None => true end)) s.

Lemma AsStringAndSize_spec as_bytearray bytes_of o :
  chars_or_exception (AsStringAndSize lib as_bytearray bytes_of o).
Proof. intros r n es L b s H. unfold AsStringAndSize. py; py_done. all: flags. Qed.

Section Ascii.
(** Encoding a string that is not ASCII as ASCII fails. *)
Context (is_ascii : obj → bool) (bytes_of utf8_of : obj → bytes).
Context (Hencode : ∀ tr o, is_ascii o = false → a_obj (lib tr (Call "PyUnicode_AsASCIIString" [AObj o])) = None).
Context (Hbytes : ∀ o, is_ascii o = all_below_128 (bytes_of o)).

Lemma not_ascii_spec o : is_ascii o = false → chars_or_exception (not_ascii lib o).
Proof.
  intros Ho r n es L b s H. unfold not_ascii, call_new, mbind, M_bind, wp. rewrite (Hencode (trace s) o Ho).
  eexists _, _. split; [done|]. eapply local_same; [..|exact H]; try done. intros _. by eexists.
Qed.

Lemma Unicode_AsStringAndSize_old_spec ascii o :
  chars_or_exception (Unicode_AsStringAndSize_old lib bytes_of ascii o).
Proof.
  intros r n es L b s H. unfold Unicode_AsStringAndSize_old. py1; py1.
  destruct a; [py; py_done|]. destruct ascii; simpl; [|py; py_done].
  destruct (all_below_128 (bytes_of o)) eqn:E; simpl; [py; py_done|].
  rewrite orb_false_r in H. apply not_ascii_spec; [|done]. by rewrite Hbytes.
Qed.

Lemma Unicode_AsStringAndSize_new_spec ascii o :
  chars_or_exception (Unicode_AsStringAndSize_new lib utf8_of is_ascii ascii o).
Proof.
  intros r n es L b s H. unfold Unicode_AsStringAndSize_new. py1; py1.
  destruct (Z.eqb_spec a (-1)) as [->|_]; [py; py_done; by rewrite orb_true_r|].
  destruct ascii; [destruct (is_ascii o) eqn:E|].
  - py; py_done.
  - eapply wp_mono; [by eapply not_ascii_spec|]. intros [?|] ? ?; py_done.
  - py; py_done; flags.
Qed.
End Ascii.

(** The two start-up functions: a failure comes with an exception, unless there was no
    memory for the name. *)
Lemma init_not_ascii_spec bytes_of is_bytes r n es L b s :
  (∀ o, is_bytes o = true → (128 ≤ length (bytes_of o) + 1)%nat) →
  local r n es L b s →
  wp (init_not_ascii lib bytes_of is_bytes) (fun a => local r n es L (if a.1 <? 0 then true else b)) s.
Proof.
  intros Hb H. assert (∀ o, ∃ v, not_superset bytes_of is_bytes o = Ok v) as Hsup.
  { intros o. unfold not_superset. destruct (is_bytes o) eqn:E; [|eauto]. rewrite decide_True by auto. eauto. }
  unfold init_not_ascii, default_encoding. py.
  all: try match goal with |- wp (lift (not_superset _ _ ?o)) _ _ =>
    destruct (Hsup o) as [v Ev]; eapply wp_lift; [exact Ev|]; py end.
  all: py_done; flags.
Qed.

Lemma init_encoding_name_spec bytes_of memory r n es L b s :
  local r n es L b s →
  wp (init_encoding_name lib bytes_of memory) (fun a => local r n es L (if (a.1 <? 0) && memory then true else b)) s.
Proof. intros H. unfold init_encoding_name, default_encoding. py; py_done; flags. Qed.

Lemma RefNannyImportAPI_spec modname r n es L b s :
  local r n es L b s → wp (RefNannyImportAPI lib modname) (fun a => local r n es L (b || negb a)) s.
Proof. intros H. unfold RefNannyImportAPI. py; py_done; flags. Qed.

(** ** Calls and attributes *)

Lemma PyUnicode_FromString_ref c_str : new_ref (PyUnicode_FromString lib c_str).
Proof. apply call_new_ref. Qed.

Lemma CallOneArg_pack_ref func arg : new_ref (CallOneArg_pack lib func arg).
Proof. intros r n es L b s H. unfold CallOneArg_pack. py; py_done. Qed.

(** The assertion of the inner function never fails from the outer one. *)
Lemma GenericGetAttr_ref tp_dictoffset has_descr_get o name :
  new_ref (GenericGetAttr lib K tp_dictoffset has_descr_get o name).
Proof.
  intros r n es L b s H. unfold GenericGetAttr, GenericGetAttrNoDict, RaiseGenericGetAttributeError.
  destruct (tp_dictoffset (type_of K o) =? 0); simpl; py; py_done.
Qed.

(** ** Exceptions of Python 2 *)

(** The test answers and leaves the current exception as it was. *)
Lemma inner_py2_spec err_ t1 t2 r n es L b s :
  local r n es L b s →
  wp (inner_GivenExceptionMatches2_py2 lib err_ t1 t2)
     (fun _ s' => local r n es L b s' ∧ err s' = err s) s.
Proof.
  intros H. assert (∀ b' s', local r n es L b' s' →
    local r n es L b (set_err (err s) s') ∧ err (set_err (err s) s') = err s) as Hback.
  { intros b' s' H'. split; [|done]. destruct H' as [? ? ? _]. split; try done. apply (l_exc _ _ _ _ _ _ H). }
  unfold inner_GivenExceptionMatches2_py2, ErrFetch, is_subclass_or_report.
  apply wp_bind, wp_bind, wp_get. destruct t1; py;
    unfold ErrRestore; apply wp_modify, wp_ret; by eapply Hback.
Qed.

(** [__Pyx_Raise] always leaves an exception, and takes no reference of its caller's. *)
Lemma Raise_py2_spec is_type is_base type value tb r n es L b s :
  local r n es L b s → wp (Raise_py2 lib K G is_type is_base type value tb) (fun _ => local r n es L true) s.
Proof.
  intros H. unfold Raise_py2, restore, raise_error, NormalizeException, Py_XINCREF. cbv zeta.
  generalize (if decide (value = Some (Py_None G)) then None else value). clear value. intros value.
  generalize (if decide (tb = Some (Py_None G)) then None else tb). clear tb. intros tb.
  destruct value as [v|], tb as [t|]; py; py_done.
Qed.
End Specs.
