(* ===== verification/PyIntConv.v ===== *)
(** * C integers from Python integers (cjunk/cython/simple.cpp)

    [__Pyx_PyInt_As_long] and [__Pyx_PyInt_As_int] are one template, written here
    for any target type, signed or unsigned, together with
    [__Pyx_PyNumber_IntOrLong] and [__Pyx_PyIndex_AsSsize_t].  A Python integer is
    a sign and size, and digits of [PyLong_SHIFT] bits, 15 or 30 by platform.  The
    configuration is CPython 3 with access to the digits; [PyLong_As] stands for
    [PyLong_AsLong] and its variants and for [_PyLong_AsByteArray]. *)

From Stdlib Require Import ZArith Lia String.
From stdpp Require Import base list gmap gmultiset strings.
From S2P Require Import Prelude Loops PyRuntime CodeCache Traceback PyCalls.
Local Open Scope Z_scope.

(** ** Integer types *)

Record ctype := CType { bits : Z; signed : bool }.

Definition fits (T : ctype) (v : Z) : Prop :=
  if signed T then - 2 ^ (bits T - 1) ≤ v < 2 ^ (bits T - 1) else 0 ≤ v < 2 ^ bits T.

#[export] Instance fits_dec T v : Decision (fits T v).
Proof. unfold fits. destruct (signed T); apply _. Defined.

(** A conversion to the type: modulo its width. *)
Definition cast (T : ctype) (v : Z) : Z :=
  if signed T then (v + 2 ^ (bits T - 1)) mod 2 ^ bits T - 2 ^ (bits T - 1) else v mod 2 ^ bits T.

(** The platform: [PyLong_SHIFT], and the widths of [long] and of [Py_ssize_t]. *)
Record platform := Platform { shift : Z; long_bits : Z; ssize_bits : Z }.

Section Platform.
Context (P : platform).
Definition long_t : ctype := CType (long_bits P) true.
Definition ulong_t : ctype := CType (long_bits P) false.
Definition int_t : ctype := CType 32 true.
Definition longlong_t : ctype := CType 64 true.
Definition ssize_t : ctype := CType (ssize_bits P) true.
Definition size_t : ctype := CType (ssize_bits P) false.
Definition ulonglong_t : ctype := CType 64 false.
(** [digit] is [uint32_t] or [unsigned short]. *)
Definition digit_bits : Z := if shift P =? 30 then 32 else 16.
Definition digit_t : ctype := CType digit_bits false.
Definition sdigit_t : ctype := CType digit_bits true.
End Platform.

(** ** Python integers *)

Record pylong := PyLong { ob_size : Z; ob_digit : list Z }.

Fixpoint digits_sum (sh : Z) (ds : list Z) : Z :=
  match ds with [] => 0 | d :: ds => d + 2 ^ sh * digits_sum sh ds end.

Definition value (sh : Z) (x : pylong) : Z := Z.sgn (ob_size x) * digits_sum sh (ob_digit x).

(** [ob_digit] has as many digits as the size says, and no leading zero. *)
Record pylong_ok (sh : Z) (x : pylong) : Prop := {
  ok_length : Z.of_nat (length (ob_digit x)) = Z.abs (ob_size x);
  ok_digits : Forall (fun d => 0 ≤ d < 2 ^ sh) (ob_digit x);
  ok_top : ∀ d, last (ob_digit x) = Some d → d ≠ 0 }.

(** [((((U)d2 << SHIFT) | (U)d1) << SHIFT) | (U)d0], in the type [U]. *)
Fixpoint join (sh : Z) (U : ctype) (ds : list Z) : Z :=
  match ds with
  | [] => 0
  | [d] => cast U d
  | d :: ds => cast U (Z.lor (Z.shiftl (join sh U ds) sh) (cast U d))
  end.

(** ** The template *)

(** What a conversion ends with: a value, one of the two [goto]s, a value that
    comes with an exception of the library, or the code that follows. *)
Inductive verdict :=
| Return (v : Z)
| RaiseOverflow
| RaiseNegOverflow
| LibraryError
| FallThrough.

Section Convert.
Context (P : platform) (T : ctype) (PyLong_As : ctype → pylong → option Z).

(** [__PYX__VERIFY_RETURN_INT(target_type, func_type, func_value, exc)]; [occurred]
    is [PyErr_Occurred()]. *)
Definition VERIFY_RETURN_INT (F : ctype) (func_value : Z) (exc occurred : bool) : verdict :=
  let value := cast F func_value in
  if (bits T <? bits F) && negb (value =? cast F (cast T value)) then
    if exc && (value =? cast F (-1)) && occurred then LibraryError
    else if negb (signed T) && (value <? 0) then RaiseNegOverflow else RaiseOverflow
  else if occurred then LibraryError else Return (cast T value).

(** The cases of [switch (Py_SIZE(x))] with [k] digits, for an unsigned target. *)
Definition unsigned_case (k : Z) (ds : list Z) : verdict :=
  if (k - 1) * shift P <? bits T then
    if k * shift P <? long_bits P then VERIFY_RETURN_INT (ulong_t P) (join (shift P) (ulong_t P) ds) false false
    else if k * shift P <=? bits T then Return (cast T (join (shift P) T ds))
    else FallThrough
  else FallThrough.

Definition unsigned_switch (x : pylong) : verdict :=
  let ds := ob_digit x in
  if ob_size x =? 0 then Return 0
  else if ob_size x =? 1 then VERIFY_RETURN_INT (digit_t P) (nth 0 ds 0) false false
  else if (2 <=? ob_size x) && (ob_size x <=? 4) then unsigned_case (ob_size x) ds
  else FallThrough.

(** The cases with [-k] and [k] digits, for a signed target. *)
Definition negative_case (k : Z) (ds : list Z) : verdict :=
  if (k - 1) * shift P <? bits T - 1 then
    if k * shift P <? long_bits P then
      VERIFY_RETURN_INT (long_t P) (- cast (long_t P) (join (shift P) (ulong_t P) ds)) false false
    else if k * shift P <? bits T - 1 then Return (cast T (-1 * join (shift P) T ds))
    else FallThrough
  else FallThrough.

Definition positive_case (k : Z) (ds : list Z) : verdict :=
  if (k - 1) * shift P <? bits T then
    if k * shift P <? long_bits P then VERIFY_RETURN_INT (ulong_t P) (join (shift P) (ulong_t P) ds) false false
    else if k * shift P <? bits T - 1 then Return (cast T (join (shift P) T ds))
    else FallThrough
  else FallThrough.

Definition signed_switch (x : pylong) : verdict :=
  let ds := ob_digit x in
  if ob_size x =? 0 then Return 0
  else if ob_size x =? -1 then VERIFY_RETURN_INT (sdigit_t P) (- cast (sdigit_t P) (nth 0 ds 0)) false false
  else if ob_size x =? 1 then VERIFY_RETURN_INT (digit_t P) (nth 0 ds 0) false false
  else if (-4 <=? ob_size x) && (ob_size x <=? -2) then negative_case (- ob_size x) ds
  else if (2 <=? ob_size x) && (ob_size x <=? 4) then positive_case (ob_size x) ds
  else FallThrough.

(** [__PYX_VERIFY_RETURN_INT_EXC(T, F, PyLong_AsF(x))]. *)
Definition via_library (F : ctype) (x : pylong) : verdict :=
  match PyLong_As F x with
  | Some v => VERIFY_RETURN_INT F v true false
  | None => VERIFY_RETURN_INT F (-1) true true
  end.

(** After the [switch]: [long], then [long long], then [_PyLong_AsByteArray]. *)
Definition by_width (L LL : ctype) (x : pylong) : verdict :=
  if bits T <=? bits L then via_library L x
  else if bits T <=? bits LL then via_library LL x
  else match PyLong_As T x with Some v => Return v | None => LibraryError end.

(** The branch for [PyLong_Check(x)]. *)
Definition convert_long (x : pylong) : verdict :=
  if negb (signed T) then
    match unsigned_switch x with
    | FallThrough => if ob_size x <? 0 then RaiseNegOverflow else by_width (ulong_t P) ulonglong_t x
    | v => v
    end
  else
    match signed_switch x with
    | FallThrough => by_width (long_t P) longlong_t x
    | v => v
    end.
End Convert.

(** ** Casts *)

Lemma pow2_double n : 0 < n → 2 ^ n = 2 * 2 ^ (n - 1).
Proof. intros Hn. rewrite <- Z.pow_succ_r by lia. f_equal. lia. Qed.

Lemma pow2_pos n : 0 ≤ n → 0 < 2 ^ n.
Proof. intros. apply Z.pow_pos_nonneg; lia. Qed.

Lemma pow2_le a b : a ≤ b → 2 ^ a ≤ 2 ^ b.
Proof. intros. apply Z.pow_le_mono_r; lia. Qed.

Lemma cast_fits T v : 0 < bits T → fits T v → cast T v = v.
Proof.
  intros Hb. unfold fits, cast. rewrite (pow2_double (bits T)) by done.
  destruct (signed T); intros H; rewrite Z.mod_small; lia.
Qed.

Lemma fits_cast T v : 0 < bits T → fits T (cast T v).
Proof.
  intros Hb. unfold fits, cast. pose proof (pow2_pos (bits T - 1)).
  rewrite (pow2_double (bits T)) by done.
  destruct (signed T); [pose proof (Z.mod_pos_bound (v + 2 ^ (bits T - 1)) (2 * 2 ^ (bits T - 1)))|
                        pose proof (Z.mod_pos_bound v (2 * 2 ^ (bits T - 1)))]; lia.
Qed.

(** A narrower type of the same kind, or a wider one. *)
Lemma fits_wider T F v : signed T = signed F → bits T ≤ bits F → fits T v → fits F v.
Proof.
  unfold fits. intros <- Hb. pose proof (pow2_le (bits T) (bits F) Hb).
  pose proof (pow2_le (bits T - 1) (bits F - 1)). destruct (signed T); lia.
Qed.

(** The check of the macro: what comes back unchanged fits. *)
Lemma cast_back T F u :
  0 < bits T < bits F → fits F u → (signed T = true → u < 2 ^ (bits F - 1)) →
  u = cast F (cast T u) → fits T u.
Proof.
  intros Hb Hu Hs E. pose proof (fits_cast T u ltac:(lia)) as Hc. set (c := cast T u) in *. clearbody c.
  destruct (decide (fits F c)) as [Hf|Hf]; [by rewrite E, cast_fits by (lia || done)|].
  exfalso. unfold fits, cast in *. pose proof (pow2_le (bits T) (bits F - 1) ltac:(lia)).
  pose proof (pow2_double (bits T) ltac:(lia)). pose proof (pow2_double (bits F) ltac:(lia)).
  pose proof (pow2_pos (bits T - 1) ltac:(lia)).
  destruct (signed T), (signed F); try lia.
  rewrite <- (Z.mod_add c 1), Z.mod_small in E by lia. specialize (Hs eq_refl). lia.
Qed.

Section Verify.
Context (P : platform) (T : ctype).
Hypothesis bits_pos : 0 < bits T.

(** The macro returns the value if it fits the target and complains otherwise. *)
Lemma verify_ok F u e :
  0 < bits F → fits F u → (signed T = true → u < 2 ^ (bits F - 1)) → (signed T = false → signed F = false) →
  VERIFY_RETURN_INT T F u e false = if decide (fits T u) then Return u else RaiseOverflow.
Proof.
  intros HF Hu Hs Hn. unfold VERIFY_RETURN_INT. rewrite (cast_fits F u HF Hu), andb_false_r.
  destruct (Z.ltb_spec (bits T) (bits F)) as [Hlt|Hge]; cbn [andb].
  - destruct (Z.eqb_spec u (cast F (cast T u))) as [E|E]; cbn [negb].
    + pose proof (cast_back T F u ltac:(lia) Hu Hs E) as Hf. by rewrite decide_True, cast_fits.
    + rewrite decide_False; [|intros Hf; apply E; by rewrite (cast_fits T) , (cast_fits F)].
      destruct (signed T) eqn:ET; [done|]. unfold fits in Hu. rewrite (Hn eq_refl) in Hu.
      by rewrite (proj2 (Z.ltb_ge u 0)) by lia.
  - assert (fits T u) as Hf; [|by rewrite decide_True, cast_fits].
    pose proof (pow2_le (bits F) (bits T) Hge). pose proof (pow2_le (bits F - 1) (bits T - 1)).
    pose proof (pow2_pos (bits T - 1)). unfold fits in *. destruct (signed T), (signed F); lia.
Qed.

(** A failed call of the library is passed on. *)
Lemma verify_error F : 0 < bits F → signed T = signed F → bits T ≤ bits F →
  VERIFY_RETURN_INT T F (-1) true true = LibraryError.
Proof.
  intros HF Hs Hle. unfold VERIFY_RETURN_INT. rewrite Z.eqb_refl. cbn [andb]. by destruct (_ && _).
Qed.
End Verify.

(** ** Digits *)

Section Digits.
Context (sh : Z).
Hypothesis sh_pos : 0 < sh.

Lemma digits_bound ds :
  Forall (fun d => 0 ≤ d < 2 ^ sh) ds → 0 ≤ digits_sum sh ds < 2 ^ (Z.of_nat (length ds) * sh).
Proof.
  induction 1 as [|d ds Hd _ IH]; [simpl; lia|]. cbn [digits_sum length].
  replace (Z.of_nat (S (length ds)) * sh) with (sh + Z.of_nat (length ds) * sh) by lia.
  rewrite Z.pow_add_r by lia. pose proof (pow2_pos sh). nia.
Qed.

Lemma digits_top ds d :
  Forall (fun d => 0 ≤ d < 2 ^ sh) ds → last ds = Some d → d ≠ 0 → 0 < digits_sum sh ds.
Proof.
  induction 1 as [|a ds Ha Hds IH]; [done|]. intros Hl Hd. cbn [digits_sum].
  pose proof (digits_bound ds Hds). pose proof (pow2_pos sh).
  destruct ds as [|b ds]; [injection Hl as ->; simpl; lia|].
  assert (0 < digits_sum sh (b :: ds)) by (apply IH; done). nia.
Qed.

Lemma lor_disjoint a d : 0 ≤ a → 0 ≤ d < 2 ^ sh → Z.lor (Z.shiftl a sh) d = d + 2 ^ sh * a.
Proof.
  intros Ha Hd. rewrite Z.shiftl_mul_pow2 by lia.
  rewrite <- (Z.lxor_lor _ _), <- Z.add_nocarry_lxor; [lia|..];
    (apply Z.bits_inj'; intros n Hn; rewrite Z.land_spec, Z.bits_0;
     destruct (Z.lt_ge_cases n sh) as [Hlt|Hge];
     [by rewrite Z.mul_pow2_bits_low|]; rewrite (Z.bits_above_log2 d n), andb_false_r; [done|lia|];
     destruct (decide (d = 0)) as [->|]; [simpl; lia|];
     apply Z.log2_lt_pow2; [lia|]; pose proof (pow2_le sh n Hge); lia).
Qed.

Lemma join_sum U ds :
  0 < bits U → Forall (fun d => 0 ≤ d < 2 ^ sh) ds → (∀ v, 0 ≤ v < 2 ^ (Z.of_nat (length ds) * sh) → fits U v) →
  join sh U ds = digits_sum sh ds.
Proof.
  intros HU Hds. induction Hds as [|d ds Hd Hds IH]; intros Hf; [done|].
  assert (cast U d = d) as Ed.
  { apply cast_fits, Hf; [done|]. pose proof (pow2_le sh (Z.of_nat (length (d :: ds)) * sh) ltac:(cbn [length]; nia)). lia. }
  destruct ds as [|d' ds]; [simpl; lia|].
  change (join sh U (d :: d' :: ds)) with (cast U (Z.lor (Z.shiftl (join sh U (d' :: ds)) sh) (cast U d))).
  rewrite IH, Ed, lor_disjoint; [|apply digits_bound; done|done|].
  - apply cast_fits, Hf; [done|]. apply (digits_bound (d :: d' :: ds)). by constructor.
  - intros v Hv. apply Hf. pose proof (pow2_le (Z.of_nat (length (d' :: ds)) * sh) (Z.of_nat (length (d :: d' :: ds)) * sh) ltac:(cbn [length]; nia)). lia.
Qed.
End Digits.

(** ** The template is correct *)

(** What the verdict must be for the value [v]. *)
Definition verdict_ok (T : ctype) (v : Z) (r : verdict) : Prop :=
  match r with
  | Return w => w = v ∧ fits T v
  | RaiseNegOverflow => signed T = false ∧ v < 0
  | RaiseOverflow | LibraryError => ¬ fits T v ∧ (signed T = true ∨ 0 ≤ v)
  | FallThrough => False
  end.

(** The platforms CPython supports. *)
Definition supported (P : platform) : Prop := 
  (shift P = 15 ∨ shift P = 30) ∧ (long_bits P = 32 ∨ long_bits P = 64) ∧ (ssize_bits P = 32 ∨ ssize_bits P = 64).

Section Correct.
Context (P : platform) (T : ctype) (PyLong_As : ctype → pylong → option Z).
Hypothesis platform_ok : supported P.
Hypothesis bits_pos : 0 < bits T.

(** What the API says: the value if it is in the range of the type, and
    [OverflowError] if not. *)
Hypothesis PyLong_As_spec : ∀ F x, pylong_ok (shift P) x →
  PyLong_As F x = if decide (fits F (value (shift P) x)) then Some (value (shift P) x) else None.

Lemma shift_pos : 0 < shift P.
Proof. destruct platform_ok as [[->| ->] _]; lia. Qed.
Lemma long_pos : 0 < long_bits P.
Proof. destruct platform_ok as [_ [[->| ->] _]]; lia. Qed.
Lemma digit_room : shift P + 1 ≤ digit_bits P ∧ 0 < digit_bits P.
Proof. unfold digit_bits. destruct platform_ok as [[->| ->] _]; simpl; lia. Qed.

Lemma verify_verdict F u e :
  0 < bits F → fits F u → (signed T = true → u < 2 ^ (bits F - 1)) → (signed T = false → signed F = false) →
  verdict_ok T u (VERIFY_RETURN_INT T F u e false).
Proof.
  intros HF Hu Hs Hn. rewrite verify_ok by done. destruct (decide (fits T u)) as [Hf|Hf]; [by split|].
  split; [done|]. destruct (signed T) eqn:E; [by left|]. right. unfold fits in Hu. rewrite (Hn eq_refl) in Hu. lia.
Qed.

Section OneNumber.
Context (x : pylong).
Hypothesis x_ok : pylong_ok (shift P) x.
Let v := value (shift P) x.
Let sum := digits_sum (shift P) (ob_digit x).

Lemma sum_bound : 0 ≤ sum < 2 ^ (Z.abs (ob_size x) * shift P).
Proof. destruct x_ok as [Hl Hd _]. rewrite <- Hl. apply digits_bound; [apply shift_pos|done]. Qed.

Lemma sum_pos : ob_size x ≠ 0 → 0 < sum.
Proof.
  intros Hs. destruct x_ok as [Hl Hd Ht]. destruct (last (ob_digit x)) as [d|] eqn:E.
  - eapply digits_top; [apply shift_pos|done|exact E|by apply Ht].
  - apply last_None in E. rewrite E in Hl. simpl in Hl. lia.
Qed.

Lemma via_library_ok F :
  0 < bits F → signed T = signed F → bits T ≤ bits F → (signed T = true ∨ 0 ≤ v) →
  verdict_ok T v (via_library T PyLong_As F x).
Proof.
  intros HF Hs Hb Hv. unfold via_library. rewrite PyLong_As_spec by done. fold v.
  destruct (decide (fits F v)) as [Hf|Hf].
  - apply verify_verdict; [done|done| |congruence]. intros E. unfold fits in Hf. rewrite <- Hs, E in Hf. lia.
  - rewrite verify_error by done. split; [|done]. intros Hf'. by apply Hf, (fits_wider T F).
Qed.

Lemma by_width_ok L LL :
  0 < bits L → 0 < bits LL → signed T = signed L → signed T = signed LL → (signed T = true ∨ 0 ≤ v) →
  verdict_ok T v (by_width T PyLong_As L LL x).
Proof.
  intros HL HLL Hs Hs' Hv. unfold by_width. destruct (Z.leb_spec (bits T) (bits L)); [by apply via_library_ok|].
  destruct (Z.leb_spec (bits T) (bits LL)); [by apply via_library_ok|].
  rewrite PyLong_As_spec by done. fold v. by destruct (decide (fits T v)).
Qed.

(** [k] digits joined in a type that has room for them. *)
Lemma join_ok U k : Z.abs (ob_size x) = k → 0 < bits U → k * shift P ≤ bits U - (if signed U then 1 else 0) →
  join (shift P) U (ob_digit x) = sum.
Proof.
  intros Hk HU Hroom. destruct x_ok as [Hl Hd _]. apply join_sum; [apply shift_pos|done|done|].
  rewrite Hl, Hk. intros w Hw. unfold fits. destruct (signed U).
  - pose proof (pow2_le (k * shift P) (bits U - 1) Hroom). lia.
  - pose proof (pow2_le (k * shift P) (bits U)). lia.
Qed.

Lemma first_digit : Z.abs (ob_size x) = 1 → nth 0 (ob_digit x) 0 = sum ∧ 0 ≤ sum < 2 ^ shift P.
Proof.
  intros Hs. pose proof sum_bound as Hb. rewrite Hs, Z.mul_1_l in Hb. split; [|done].
  destruct x_ok as [Hl _ _]. unfold sum. destruct (ob_digit x) as [|d [|? ?]]; simpl in *; lia.
Qed.

(** The positive cases, up to the test for the last branch. *)
Lemma ulong_verdict k :
  ob_size x = k → 0 < k → k * shift P < long_bits P →
  verdict_ok T v (VERIFY_RETURN_INT T (ulong_t P) (join (shift P) (ulong_t P) (ob_digit x)) false false).
Proof.
  intros Hk Hpos Hlt. pose proof long_pos. pose proof sum_bound as Hb. rewrite Hk, Z.abs_eq in Hb by lia.
  pose proof (pow2_le (k * shift P) (long_bits P - 1) ltac:(lia)). pose proof (pow2_double (long_bits P) ltac:(lia)).
  rewrite (join_ok (ulong_t P) k) by (simpl; lia).
  assert (v = sum) as -> by (unfold v, value; rewrite Hk, Z.sgn_pos by lia; fold sum; lia).
  apply verify_verdict; simpl; [done|unfold fits; simpl; lia|lia|done].
Qed.

Lemma digit_verdict : ob_size x = 1 → verdict_ok T v (VERIFY_RETURN_INT T (digit_t P) (nth 0 (ob_digit x) 0) false false).
Proof.
  intros Hs. destruct first_digit as [-> Hb]; [lia|]. destruct digit_room as [Hr Hp].
  pose proof (pow2_le (shift P) (digit_bits P - 1) ltac:(lia)). pose proof (pow2_double (digit_bits P) Hp).
  assert (v = sum) as -> by (unfold v, value; rewrite Hs; fold sum; simpl; lia).
  apply verify_verdict; simpl; [done|unfold fits; simpl; lia|lia|done].
Qed.

Lemma value_sign : (ob_size x < 0 → v < 0) ∧ (0 ≤ ob_size x → 0 ≤ v).
Proof.
  pose proof sum_bound. unfold v, value. fold sum. split; intros Hs.
  - rewrite Z.sgn_neg by lia. pose proof (sum_pos ltac:(lia)). lia.
  - destruct (decide (ob_size x = 0)) as [->|]; [simpl; lia|]. rewrite Z.sgn_pos by lia. lia.
Qed.

(** A case of the [switch] decides, or leaves it to the code after it. *)
Definition decides (r : verdict) : Prop := r = FallThrough ∨ verdict_ok T v r.

(** A value that is cast to the target and fits it. *)
Lemma return_cast w : w = v → fits T v → decides (Return (cast T w)).
Proof. intros -> Hf. right. by rewrite cast_fits. Qed.

Lemma zero_decides : ob_size x = 0 → decides (Return 0).
Proof.
  intros Hs. right. unfold v, value. rewrite Hs. simpl. split; [done|]. unfold fits.
  pose proof (pow2_pos (bits T - 1)). pose proof (pow2_pos (bits T)). destruct (signed T); lia.
Qed.

Lemma value_pos : 0 < ob_size x → v = sum.
Proof. intros Hs. unfold v, value. rewrite Z.sgn_pos by lia. fold sum. lia. Qed.
Lemma value_neg : ob_size x < 0 → v = - sum.
Proof. intros Hs. unfold v, value. rewrite Z.sgn_neg by lia. fold sum. lia. Qed.

Lemma unsigned_case_ok : signed T = false → 2 ≤ ob_size x → decides (unsigned_case P T (ob_size x) (ob_digit x)).
Proof.
  intros Hs Hk. pose proof sum_bound as Hb. rewrite Z.abs_eq in Hb by lia. unfold unsigned_case.
  destruct (_ <? bits T); [|by left].
  destruct (Z.ltb_spec (ob_size x * shift P) (long_bits P)); [right; apply (ulong_verdict (ob_size x)); lia|].
  destruct (Z.leb_spec (ob_size x * shift P) (bits T)) as [Hle|]; [|by left].
  pose proof (pow2_le _ _ Hle). apply return_cast; rewrite value_pos by lia.
  - apply (join_ok T (ob_size x)); [lia|done|rewrite Hs; lia].
  - unfold fits. rewrite Hs. lia.
Qed.

Lemma positive_case_ok : signed T = true → 2 ≤ ob_size x → decides (positive_case P T (ob_size x) (ob_digit x)).
Proof.
  intros Hs Hk. pose proof sum_bound as Hb. rewrite Z.abs_eq in Hb by lia. unfold positive_case.
  destruct (_ <? bits T); [|by left].
  destruct (Z.ltb_spec (ob_size x * shift P) (long_bits P)); [right; apply (ulong_verdict (ob_size x)); lia|].
  destruct (Z.ltb_spec (ob_size x * shift P) (bits T - 1)) as [Hle|]; [|by left].
  pose proof (pow2_le (ob_size x * shift P) (bits T - 1) ltac:(lia)). apply return_cast; rewrite value_pos by lia.
  - apply (join_ok T (ob_size x)); [lia|done|rewrite Hs; lia].
  - unfold fits. rewrite Hs. lia.
Qed.

Lemma negative_case_ok : signed T = true → ob_size x ≤ -2 → decides (negative_case P T (- ob_size x) (ob_digit x)).
Proof.
  intros Hs Hk. pose proof sum_bound as Hb. rewrite Z.abs_neq in Hb by lia. pose proof long_pos.
  set (k := - ob_size x) in *. unfold negative_case. destruct (_ <? bits T - 1); [|by left].
  destruct (Z.ltb_spec (k * shift P) (long_bits P)).
  - right. pose proof (pow2_le (k * shift P) (long_bits P - 1) ltac:(lia)).
    rewrite (join_ok (ulong_t P) k) by (simpl; lia). rewrite (cast_fits (long_t P)) by (simpl; first [lia|unfold fits; simpl; lia]).
    rewrite value_neg by lia. apply verify_verdict; simpl; [done|unfold fits; simpl; lia|lia|congruence].
  - destruct (Z.ltb_spec (k * shift P) (bits T - 1)) as [Hle|]; [|by left].
    pose proof (pow2_le (k * shift P) (bits T - 1) ltac:(lia)). apply return_cast; rewrite value_neg by lia.
    + rewrite (join_ok T k) by (lia || done || rewrite Hs; lia). lia.
    + unfold fits. rewrite Hs. lia.
Qed.

Lemma sdigit_ok : signed T = true → ob_size x = -1 →
  decides (VERIFY_RETURN_INT T (sdigit_t P) (- cast (sdigit_t P) (nth 0 (ob_digit x) 0)) false false).
Proof.
  intros Hs Hk. right. destruct first_digit as [-> Hb]; [lia|]. destruct digit_room as [Hr Hp].
  pose proof (pow2_le (shift P) (digit_bits P - 1) ltac:(lia)).
  rewrite (cast_fits (sdigit_t P)) by (simpl; first [lia|unfold fits; simpl; lia]).
  rewrite value_neg by lia. apply verify_verdict; simpl; [done|unfold fits; simpl; lia|lia|congruence].
Qed.

(** The conversion returns the number exactly when the target type can hold it,
    and otherwise ends in an [OverflowError]. *)
Lemma convert_correct : verdict_ok T v (convert_long P T PyLong_As x).
Proof.
  pose proof long_pos. destruct value_sign as [Hneg Hnn].
  unfold convert_long. destruct (signed T) eqn:Hs; cbn [negb].
  - assert (decides (signed_switch P T x)) as [->|Hd].
    { unfold signed_switch. destruct (Z.eqb_spec (ob_size x) 0); [by apply zero_decides|].
      destruct (Z.eqb_spec (ob_size x) (-1)); [by apply sdigit_ok|].
      destruct (Z.eqb_spec (ob_size x) 1); [right; by apply digit_verdict|].
      destruct (Z.leb_spec (-4) (ob_size x)), (Z.leb_spec (ob_size x) (-2)); cbn [andb];
        try (apply negative_case_ok; lia || done);
        (destruct (Z.leb_spec 2 (ob_size x)), (Z.leb_spec (ob_size x) 4); cbn [andb];
           try (by left); apply positive_case_ok; lia || done). }
    + apply by_width_ok; simpl; auto; lia.
    + by destruct (signed_switch P T x).
  - assert (decides (unsigned_switch P T x)) as [->|Hd].
    { unfold unsigned_switch. destruct (Z.eqb_spec (ob_size x) 0); [by apply zero_decides|].
      destruct (Z.eqb_spec (ob_size x) 1); [right; by apply digit_verdict|].
      destruct (Z.leb_spec 2 (ob_size x)), (Z.leb_spec (ob_size x) 4); cbn [andb];
        try (by left); apply unsigned_case_ok; lia || done. }
    + destruct (Z.ltb_spec (ob_size x) 0); [split; auto|]. apply by_width_ok; simpl; auto; lia.
    + by destruct (unsigned_switch P T x).
Qed.
End OneNumber.
End Correct.

(** ** The functions *)

(** The integers among the objects: whether the type is exactly [int], and the
    contents; and whether a type has the slot [nb_int]. *)
Record ints := Ints { as_pylong : obj → option (bool * pylong); has_nb_int : obj → bool }.

Section Functions.
Context (lib : list call → call → answer) (P : platform) (N : ints) (PyLong_As : ctype → pylong → option Z).

Definition IntOrLongWrongResultType (result : obj) (type_name : string) : M (option obj) :=
  match as_pylong N result with
  | Some _ =>
      w ← call_status lib (Call "PyErr_WarnFormat" [AStr "__int__ returned non-int"; AObj result]);
      if w : bool then Py_DECREF result;; mret None else mret (Some result)
  | None =>
      PyErr_Set (PyExc "TypeError" ("__" ++ type_name ++ "__ returned non-" ++ type_name)%string);;
      Py_DECREF result;;
      mret None
  end.

Definition IntOrLong (x : obj) : M (option obj) :=
  match as_pylong N x with
  | Some _ => x ← NewRef x; mret (Some x)
  | None =>
      res ← (if has_nb_int N x then call_slot lib (Call "nb_int" [AObj x]) else mret None);
      match res with
      | Some res =>
          match as_pylong N res with
          | Some (true, _) => mret (Some res)
          | _ => IntOrLongWrongResultType res "int"
          end
      | None =>
          occurred ← PyErr_Occurred;
          (if occurred : bool then mret () else PyErr_Set (PyExc "TypeError" "an integer is required"));;
          mret None
      end
  end.

(** The labels at the end of the template, and what [_PyLong_AsByteArray] and
    [PyLong_AsLong] have raised. *)
Definition finish (T : ctype) (name : string) (r : verdict) : M Z :=
  match r with
  | Return v => mret v
  | RaiseOverflow => PyErr_Set (PyExc "OverflowError" ("value too large to convert to " ++ name)%string);; mret (cast T (-1))
  | RaiseNegOverflow =>
      PyErr_Set (PyExc "OverflowError" ("can't convert negative value to " ++ name)%string);; mret (cast T (-1))
  | LibraryError => PyErr_Set (PyExc "OverflowError" "Python int too large to convert to C long");; mret (cast T (-1))
  | FallThrough => mret (cast T (-1))
  end.

(** [__Pyx_PyInt_As_##T]: it calls itself once, on an integer. *)
Fixpoint PyInt_As (fuel : nat) (T : ctype) (name : string) (x : obj) : M Z :=
  match as_pylong N x with
  | Some (_, l) => finish T name (convert_long P T PyLong_As l)
  | None =>
      tmp ← IntOrLong x;
      match tmp, fuel with
      | None, _ => mret (cast T (-1))
      | Some _, O => out_of_fuel
      | Some tmp, S fuel => val ← PyInt_As fuel T name tmp; Py_DECREF tmp;; mret val
      end
  end.

Definition PyInt_As_long (x : obj) : M Z := PyInt_As 1 (long_t P) "long" x.
Definition PyInt_As_int (x : obj) : M Z := PyInt_As 1 int_t "int" x.

(** The digits of an exact integer that fit [Py_ssize_t]. *)
Definition index_switch (l : pylong) : option Z :=
  let ds := ob_digit l in
  let k := Z.abs (ob_size l) in
  if k <=? 1 then
    let ival := if ob_size l =? 0 then 0 else nth 0 ds 0 in
    Some (if ob_size l =? -1 then - ival else ival)
  else if (k <=? 4) && (k * shift P <? ssize_bits P) then
    let j := cast (ssize_t P) (join (shift P) (size_t P) ds) in
    Some (if 0 <? ob_size l then j else - j)
  else None.

Definition PyLong_AsSsize_t (l : pylong) : M Z :=
  match PyLong_As (ssize_t P) l with
  | Some v => mret v
  | None => PyErr_Set (PyExc "OverflowError" "Python int too large to convert to C ssize_t");; mret (-1)
  end.

Definition PyIndex_AsSsize_t (b : obj) : M Z :=
  match as_pylong N b with
  | Some (true, l) => match index_switch l with Some v => mret v | None => PyLong_AsSsize_t l end
  | _ =>
      x ← call_new lib (Call "PyNumber_Index" [AObj b]);
      match x with
      | None => mret (-1)
      | Some x =>
          ival ← match as_pylong N x with
                 | Some (_, l) => PyLong_AsSsize_t l
                 | None => lift (Undef bad_precondition)
                 end;
          Py_DECREF x;;
          mret ival
      end
  end.
End Functions.

Section Functions_correct.
Context (lib : list call → call → answer) (P : platform) (N : ints) (PyLong_As : ctype → pylong → option Z).
Hypothesis platform_ok : supported P.
Hypothesis PyLong_As_spec : ∀ F x, pylong_ok (shift P) x →
  PyLong_As F x = if decide (fits F (value (shift P) x)) then Some (value (shift P) x) else None.
Hypothesis ints_ok : ∀ o e l, as_pylong N o = Some (e, l) → pylong_ok (shift P) l.

(** A Python integer: the number, if the type can hold it, and otherwise [-1]
    with an [OverflowError]; nothing else changes. *)
Lemma PyInt_As_integer fuel T name x e l s :
  0 < bits T → as_pylong N x = Some (e, l) →
  if decide (fits T (value (shift P) l))
  then PyInt_As lib P N PyLong_As fuel T name x s = Done (Ok (value (shift P) l, s))
  else ∃ what, PyInt_As lib P N PyLong_As fuel T name x s
               = Done (Ok (cast T (-1), set_err (Some (PyExc "OverflowError" what)) s)).
Proof.
  intros HT Hx. assert (PyInt_As lib P N PyLong_As fuel T name x s = finish T name (convert_long P T PyLong_As l) s) as E
    by by destruct fuel; cbn [PyInt_As]; rewrite Hx.
  pose proof (convert_correct P T PyLong_As platform_ok HT PyLong_As_spec l (ints_ok _ _ _ Hx)) as Hc.
  rewrite E. destruct (convert_long P T PyLong_As l) as [v| | | |]; simpl in Hc.
  - destruct Hc as [-> Hf]. by rewrite decide_True.
  - rewrite decide_False by apply Hc. by eexists.
  - rewrite decide_False; [by eexists|]. destruct Hc as [Hs Hn]. unfold fits. rewrite Hs. lia.
  - rewrite decide_False by apply Hc. by eexists.
  - done.
Qed.

(** Any object: what [__int__] makes of it is converted, and released. *)
Lemma IntOrLong_spec x r n es L s :
  local r n es L false s →
  wp (IntOrLong lib N x)
     (fun a s' => local r n es (held a L) (failed a false) s' ∧ ∀ o, a = Some o → as_pylong N o ≠ None) s.
Proof.
  intros H. unfold IntOrLong, IntOrLongWrongResultType, NewRef.
  py; (split; [try py_done|intros ? ?; simplify_eq; congruence]).
Qed.

Lemma PyInt_As_spec T name x r n es L s :
  0 < bits T → local r n es L false s →
  wp (PyInt_As lib P N PyLong_As 1 T name x)
     (fun v s' => (local r n es L true s' ∧ v = cast T (-1)) ∨
                  (local r n es L false s' ∧ ∃ o e l, as_pylong N o = Some (e, l) ∧ v = value (shift P) l ∧ fits T v)) s.
Proof.
  intros HT. assert (∀ fuel x e l L s, as_pylong N x = Some (e, l) → local r n es L false s →
    wp (PyInt_As lib P N PyLong_As fuel T name x)
       (fun v s' => (local r n es L true s' ∧ v = cast T (-1)) ∨
          (local r n es L false s' ∧ ∃ o e l, as_pylong N o = Some (e, l) ∧ v = value (shift P) l ∧ fits T v)) s) as Hint.
  { clear s L x. intros fuel x e l L s Hx H. pose proof (PyInt_As_integer fuel T name x e l s HT Hx) as E.
    destruct (decide _) as [Hf|Hf].
    - eexists _, _. split; [exact E|]. right. eauto 10.
    - destruct E as (what & E). eexists _, _. split; [exact E|]. left. split; [|done].
      eapply local_same; [..|exact H]; try done. by eexists. }
  intros H. cbn [PyInt_As]. destruct (as_pylong N x) as [[e l]|] eqn:Ex.
  { pose proof (Hint 0%nat x e l L s Ex H) as Hw. cbn [PyInt_As] in Hw. by rewrite Ex in Hw. }
  apply wp_bind. eapply wp_mono; [by apply IntOrLong_spec|]. clear H. intros [o|] s1 [H Ho].
  - destruct (as_pylong N o) as [[e l]|] eqn:Eo; [|by destruct (Ho o eq_refl)]. cbn [held failed] in H.
    pose proof (Hint 0%nat o e l (o :: L) s1 Eo H) as Hw. cbn [PyInt_As] in Hw. rewrite Eo in Hw.
    apply wp_bind. eapply wp_mono; [exact Hw|]. clear H Hw. intros v s2 [[H ->]|[H Hv]]; py; eauto.
  - apply wp_ret. left. done.
Qed.

Lemma index_switch_ok l v :
  pylong_ok (shift P) l → index_switch P l = Some v → v = value (shift P) l ∧ fits (ssize_t P) v.
Proof.
  intros Hl. pose proof (sum_bound P platform_ok l Hl) as Hb. unfold index_switch.
  set (k := Z.abs (ob_size l)) in *. assert (0 < ssize_bits P ∧ shift P < ssize_bits P) as [Hp Hp'].
  { destruct platform_ok as [[->| ->] [_ [->| ->]]]; lia. }
  assert (k * shift P < ssize_bits P → 0 ≤ digits_sum (shift P) (ob_digit l) < 2 ^ (ssize_bits P - 1)) as Hroom.
  { intros Hlt. pose proof (pow2_le (k * shift P) (ssize_bits P - 1) ltac:(lia)). lia. }
  unfold value. destruct (Z.leb_spec k 1) as [Hk|Hk].
  - specialize (Hroom ltac:(nia)). intros [= <-].
    assert (ob_size l = 0 ∨ ob_size l = 1 ∨ ob_size l = -1) as [E|[E|E]] by lia; rewrite E; simpl.
    + split; [lia|]. unfold fits. simpl. lia.
    + destruct (first_digit P platform_ok l Hl) as [-> _]; [lia|]. split; [lia|]. unfold fits. simpl. lia.
    + destruct (first_digit P platform_ok l Hl) as [-> _]; [lia|]. split; [lia|]. unfold fits. simpl. lia.
  - destruct (Z.leb_spec k 4), (Z.ltb_spec (k * shift P) (ssize_bits P)); cbn [andb]; try done.
    specialize (Hroom ltac:(lia)). intros [= <-].
    rewrite (join_ok P platform_ok l Hl (size_t P) k) by (simpl; lia).
    rewrite (cast_fits (ssize_t P)) by (simpl; first [lia|unfold fits; simpl; lia]).
    destruct (Z.ltb_spec 0 (ob_size l)); [rewrite Z.sgn_pos by lia|rewrite Z.sgn_neg by lia];
      (split; [lia|unfold fits; simpl; lia]).
Qed.

(** An exact integer as an index. *)
Lemma PyIndex_integer b l s :
  as_pylong N b = Some (true, l) →
  if decide (fits (ssize_t P) (value (shift P) l))
  then PyIndex_AsSsize_t lib P N PyLong_As b s = Done (Ok (value (shift P) l, s))
  else ∃ what, PyIndex_AsSsize_t lib P N PyLong_As b s
               = Done (Ok (-1, set_err (Some (PyExc "OverflowError" what)) s)).
Proof.
  intros Hb. pose proof (ints_ok _ _ _ Hb) as Hl. unfold PyIndex_AsSsize_t. rewrite Hb.
  destruct (index_switch P l) as [v|] eqn:E.
  - apply index_switch_ok in E as [-> Hf]; [|done]. by rewrite decide_True.
  - unfold PyLong_AsSsize_t. rewrite PyLong_As_spec by done. destruct (decide _); [done|by eexists].
Qed.

(** C34: on every platform, a Python integer is converted to [long], [int] and
    [Py_ssize_t] exactly: if the number is in the range of the type, the result is
    the number and nothing else changes, and if it is not, the result is [-1] and
    the exception is [OverflowError].  This covers all cases of the switches over
    the digits, whose shifts and casts neither overflow nor truncate, and the calls
    of the library behind them. *)
Theorem integer_conversions_correct x l s :
  as_pylong N x = Some (true, l) →
  let v := value (shift P) l in
  let outcome T (m : M Z) :=
    if decide (fits T v) then m s = Done (Ok (v, s))
    else ∃ what, m s = Done (Ok (-1, set_err (Some (PyExc "OverflowError" what)) s)) in
  outcome (long_t P) (PyInt_As_long lib P N PyLong_As x) ∧
  outcome int_t (PyInt_As_int lib P N PyLong_As x) ∧
  outcome (ssize_t P) (PyIndex_AsSsize_t lib P N PyLong_As x).
Proof.
  intros Hx. simpl. assert (∀ T, 0 < bits T → signed T = true → cast T (-1) = -1) as Hc.
  { intros T HT Hs. apply cast_fits; [done|]. unfold fits. rewrite Hs. pose proof (pow2_pos (bits T - 1)). lia. }
  split_and!.
  - rewrite <- (Hc (long_t P)); [|by apply long_pos|done].
    eapply PyInt_As_integer; [by apply long_pos|done].
  - rewrite <- (Hc int_t); [|done..]. by eapply PyInt_As_integer.
  - by apply PyIndex_integer.
Qed.
End Functions_correct.

Definition lp64 : platform := Platform 30 64 64.
Definition documented (F : ctype) (x : pylong) : option Z :=
  if decide (fits F (value 30 x)) then Some (value 30 x) else None.

(** The object 1 is [-(2 ^ 31 + 5)], which has two digits. *)
Definition two_digits : pylong := PyLong (-2) [5; 2].
Definition some_ints : ints :=
  Ints (fun o => if Nat.eqb o 1 then Some (true, two_digits) else None) (fun _ => false).
Definition no_library : list call → call → answer := fun _ _ => Answer None (-1).

Lemma integer_conversions_correct_witness :
  let s := PyState None ∅ [] empty_cache in
  PyInt_As_long no_library lp64 some_ints documented 1%nat s = Done (Ok (-2147483653, s)) ∧
  ∃ what, PyInt_As_int no_library lp64 some_ints documented 1%nat s
          = Done (Ok (-1, set_err (Some (PyExc "OverflowError" what)) s)).
Proof.
  assert (supported lp64) as Hp by (split; simpl; auto).
  assert (pylong_ok 30 two_digits) as Hok.
  { split; [done| |by intros d [= <-]]. repeat constructor; by vm_compute. }
  destruct (integer_conversions_correct no_library lp64 some_ints documented Hp) with (x := 1%nat) (l := two_digits)
    (s := PyState None ∅ [] empty_cache) as (H1 & H2 & _).
  - intros F x Hx. done.
  - intros o e l. cbn. destruct (Nat.eqb o 1); [|done]. by intros [= <- <-].
  - done.
  - exact (conj H1 H2).
Defined.
