(* ===== verification/PyMacros.v ===== *)
(** * Indexing macros and thread keys (cjunk/cython/simple.cpp)

    [__Pyx_fits_Py_ssize_t] and the macros through which generated code indexes
    with an integer of any C type, and the thread-specific storage that stands in for
    the one of CPython 3.7 in earlier versions.  The key functions of the
    interpreter are parameters over the state of its threads. *)

From Stdlib Require Import ZArith Lia String.
From stdpp Require Import base list gmap gmultiset strings.
From S2P Require Import Prelude Loops PyRuntime CodeCache Traceback PyCalls PyIndex PyIntConv.
Local Open Scope Z_scope.

(** ** Does a C integer fit [Py_ssize_t]? *)

(** [v] has type [T]; the limits are converted to it. *)
Definition fits_Py_ssize_t (P : platform) (v : Z) (T : ctype) : bool :=
  let max := cast T (2 ^ (ssize_bits P - 1) - 1) in
  let min := cast T (- 2 ^ (ssize_bits P - 1)) in
  (bits T <? ssize_bits P) ||
  ((ssize_bits P <? bits T) && ((v <? max) || (v =? max)) &&
     (negb (signed T) || ((min <? v) || (v =? min)))) ||
  ((bits T =? ssize_bits P) && (signed T || ((v <? max) || (v =? max)))).

Lemma fits_Py_ssize_t_spec P v T :
  0 < bits T → 0 < ssize_bits P → fits T v → fits_Py_ssize_t P v T = true ↔ fits (ssize_t P) v.
Proof.
  intros HT HP Hv. pose proof (pow2_double (bits T) HT) as ET. pose proof (pow2_double (ssize_bits P) HP) as EP.
  pose proof (pow2_pos (ssize_bits P - 1)) as Hpos.
  unfold fits_Py_ssize_t. rewrite !orb_true_iff, !andb_true_iff, !orb_true_iff, !Z.ltb_lt, !Z.eqb_eq, negb_true_iff.
  destruct (Z.lt_trichotomy (bits T) (ssize_bits P)) as [Hlt|[Heq|Hgt]].
  - split; [intros _|auto]. pose proof (pow2_le (bits T) (ssize_bits P - 1)).
    pose proof (pow2_le (bits T - 1) (ssize_bits P - 1)). unfold fits in *. simpl. destruct (signed T); lia.
  - assert (∀ w, 0 ≤ w < 2 ^ (ssize_bits P - 1) → cast T w = w) as Hc.
    { intros w Hw. apply cast_fits; [done|]. unfold fits. rewrite Heq. destruct (signed T); lia. }
    rewrite (Hc (2 ^ (ssize_bits P - 1) - 1)) by lia. unfold fits in *. simpl. rewrite Heq in *.
    destruct (signed T); intuition (try lia; try congruence).
  - assert (∀ w, - 2 ^ (ssize_bits P - 1) ≤ w < 2 ^ (ssize_bits P - 1) → (signed T = false → 0 ≤ w) → cast T w = w) as Hc.
    { intros w Hw Hs. apply cast_fits; [done|]. pose proof (pow2_le (ssize_bits P) (bits T - 1)).
      unfold fits. destruct (signed T); [lia|]. specialize (Hs eq_refl). lia. }
    rewrite (Hc (2 ^ (ssize_bits P - 1) - 1)) by lia. unfold fits in *. simpl.
    destruct (signed T) eqn:ES.
    + rewrite (Hc (- 2 ^ (ssize_bits P - 1))) by (lia || congruence). intuition (try lia; try congruence).
    + intuition (try lia; try congruence).
Qed.

(** ** The macros *)

Section Macros.
Context (lib : list call → call → answer) (K : objects) (P : platform).

Definition index_error (what : string) : M (option obj) :=
  PyErr_Set (PyExc "IndexError" what);; mret None.

(** [to_py_func(i)] makes a Python integer of [i]. *)
Definition GetItemInt (o : obj) (i : Z) (T : ctype) (to_py_func : Z → M (option obj))
    (is_list wraparound boundscheck : bool) : M (option obj) :=
  if fits_Py_ssize_t P i T then GetItemInt_Fast lib K o i is_list wraparound boundscheck
  else if is_list then index_error "list index out of range"
  else j ← to_py_func i; GetItemInt_Generic lib o j.

Definition GetItemInt_List (o : obj) (i : Z) (T : ctype) (wraparound boundscheck : bool) : M (option obj) :=
  if fits_Py_ssize_t P i T then GetItemInt_List_Fast lib K o i wraparound boundscheck
  else index_error "list index out of range".

Definition GetItemInt_Tuple (o : obj) (i : Z) (T : ctype) (wraparound boundscheck : bool) : M (option obj) :=
  if fits_Py_ssize_t P i T then GetItemInt_Tuple_Fast lib K o i wraparound boundscheck
  else index_error "tuple index out of range".
End Macros.

(** A sequence has no item at a position outside [Py_ssize_t]. *)
Lemma py_index_unfit P {A} (l : list A) i :
  0 < ssize_bits P → fits (ssize_t P) (Z.of_nat (length l)) → ¬ fits (ssize_t P) i → py_index l i = None.
Proof.
  unfold fits, py_index. simpl. intros HP Hl Hi. destruct (Z.leb_spec 0 i).
  - apply lookup_Z; lia.
  - destruct (Z.leb_spec 0 (i + Z.of_nat (length l))); [lia|done].
Qed.

(** C31: indexing with an integer of any C type, on a platform with 64-bit sizes.
    The macros give the item that Python's indexing gives, with a new reference, and
    never read outside the list or tuple; where there is no item, they raise what
    [PyObject_GetItem] raises or, if the position is not a [Py_ssize_t], an
    [IndexError], or index with a Python integer if the object may be no list. *)
Theorem index_macros_correct (lib : list call → call → answer) (K : objects) (P : platform) (T : ctype)
    (o : obj) (i : Z) (items : list obj) (s : pystate)
    (HP : ssize_bits P = 64) (HT : 0 < bits T) (Hi : fits T i) (Hl : Z.of_nat (length items) ≤ llong_max) :
  let result (unfit : M (option obj)) :=
    match py_index items i with
    | Some r => (Py_INCREF r;; mret (Some r)) s
    | None => (if decide (fits (ssize_t P) i) then generic lib o i else unfit) s
    end in
  (as_list K o = Some items →
     GetItemInt_List lib K P o i T true true s = result (index_error "list index out of range")) ∧
  (as_tuple K o = Some items →
     GetItemInt_Tuple lib K P o i T true true s = result (index_error "tuple index out of range")) ∧
  (∀ to_py is_list, as_list K o = Some items ∨ as_list K o = None ∧ is_list = false ∧ as_tuple K o = Some items →
     GetItemInt lib K P o i T to_py is_list true true s
     = result (if is_list : bool then index_error "list index out of range"
               else j ← to_py i; GetItemInt_Generic lib o j)).
Proof.
  intros result. assert (0 < ssize_bits P) as H0 by lia.
  pose proof (fits_Py_ssize_t_spec P i T HT H0 Hi) as Hspec.
  assert (∀ j, fits (ssize_t P) j ↔ llong_min ≤ j ≤ llong_max) as Hrange.
  { intros j. unfold fits, llong_min, llong_max. simpl. rewrite HP. lia. }
  unfold GetItemInt_List, GetItemInt_Tuple, GetItemInt, result. destruct (decide (fits (ssize_t P) i)) as [Hf|Hf].
  - rewrite (proj2 Hspec Hf). apply Hrange in Hf.
    unfold GetItemInt_List_Fast, GetItemInt_Tuple_Fast, GetItemInt_Fast.
    split; [|split]; [intros ->|intros ->|intros to_py is_list [->|(-> & -> & ->)]]; by apply get_item_fast_spec.
  - destruct (fits_Py_ssize_t P i T); [by destruct (Hf (proj1 Hspec eq_refl))|].
    assert (fits (ssize_t P) (Z.of_nat (length items))) as Hfl by (apply Hrange; unfold llong_min; lia).
    rewrite (py_index_unfit P) by done. split_and!; try done.
Qed.

(** Object 50 is a tuple of two; a 128-bit index beyond [Py_ssize_t], and the last item. *)
Definition tuple_at_50 : objects := Objects (fun _ => 0%nat) (fun _ => None) (fun _ => None) (fun _ => false)
  (fun _ => false) (fun _ => false) (fun _ => false) (fun _ => false) (fun _ => false) (fun _ => false)
  (fun o => if Nat.eqb o 50 then Some [7; 8]%nat else None) (fun _ => None)
  (fun _ => false) (fun _ => false) (fun _ => false) (fun _ => false).

Lemma index_macros_correct_witness :
  let s := PyState None ∅ [] empty_cache in
  GetItemInt_Tuple no_library tuple_at_50 lp64 50%nat (2 ^ 100) (CType 128 true) true true s
  = index_error "tuple index out of range" s ∧
  GetItemInt_Tuple no_library tuple_at_50 lp64 50%nat (-1) (CType 128 true) true true s
  = (Py_INCREF 8%nat;; mret (Some 8%nat)) s.
Proof.
  split.
  - destruct (index_macros_correct no_library tuple_at_50 lp64 (CType 128 true) 50%nat (2 ^ 100) [7; 8]%nat
      (PyState None ∅ [] empty_cache)) as (_ & H & _); [done|done|by split; vm_compute|by vm_compute|].
    exact (H eq_refl).
  - destruct (index_macros_correct no_library tuple_at_50 lp64 (CType 128 true) 50%nat (-1) [7; 8]%nat
      (PyState None ∅ [] empty_cache)) as (_ & H & _); [done|done|by split; vm_compute|by vm_compute|].
    exact (H eq_refl).
Defined.

(** ** Thread-specific storage before CPython 3.7 *)

Section Tss.
(** [PyThread_create_key], [PyThread_delete_key], [PyThread_set_key_value] and
    [PyThread_get_key_value]. *)
Context {threads : Type} (create_key : threads → Z * threads) (delete_key : Z → threads → threads)
        (set_key_value : Z → obj → threads → Z * threads) (get_key_value : Z → threads → option obj).

Definition Py_tss_NEEDS_INIT : Z := 0.

(** The key is the pointee of the argument. *)
Definition tss_create (t : threads) : Z * Z * threads := let '(key, t) := create_key t in (0, key, t).
(** [memory] is the answer of [PyObject_Malloc]. *)
Definition tss_alloc (memory : bool) : outcome Z :=
  if memory then Ok Py_tss_NEEDS_INIT else Undef null_deref.
Definition tss_is_created (key : Z) : bool := negb (key =? Py_tss_NEEDS_INIT).
Definition tss_delete (key : Z) (t : threads) : Z * threads := (Py_tss_NEEDS_INIT, delete_key key t).
Definition tss_set (key : Z) (value : obj) (t : threads) : Z * threads := set_key_value key value t.
Definition tss_get (key : Z) (t : threads) : option obj := get_key_value key t.
End Tss.

(** Creation always reports success, and whether a key counts as created is decided
    by its number: a key that could not be created (-1) does, and the key 0,
    which the system may hand out, does not.  After deletion no key does, and a
    failed allocation is written through. *)
Theorem tss_created {threads : Type} (create_key : threads → Z * threads)
    (delete_key : Z → threads → threads) (t : threads) (key : Z) (t' : threads)
    (Hkey : create_key t = (key, t')) :
  tss_create create_key t = (0, key, t') ∧
  tss_is_created key = bool_decide (key ≠ 0) ∧
  tss_is_created (tss_delete delete_key key t').1 = false ∧
  tss_alloc false = Undef null_deref.
Proof.
  unfold tss_create, tss_is_created, Py_tss_NEEDS_INIT. rewrite Hkey. repeat split.
  destruct (Z.eqb_spec key 0) as [->|Hne]; [done|]. by rewrite bool_decide_true.
Qed.

Lemma tss_created_witness :
  tss_create (fun n : Z => (-1, n)) 0 = (0, -1, 0) ∧ tss_is_created (-1) = true.
Proof.
  destruct (tss_created (fun n : Z => (-1, n)) (fun _ n => n) 0 (-1) 0 eq_refl) as (E & E' & _).
  split; [exact E|rewrite E'; reflexivity].
Defined.
