(* ===== verification/PyUnpickle.v ===== *)
(** * [__pyx_unpickle_a_class] as Python calls it (cjunk/cython/simple.cpp)

    The wrapper binds the arguments ([PyArgs]), converts the checksum
    ([PyIntConv]) and calls the function ([PyModule]). *)

From Stdlib Require Import ZArith Lia String.
From stdpp Require Import base list gmap gmultiset strings.
From S2P Require Import Prelude PyRuntime CodeCache Traceback PyCalls PyIndex PyModule PyArgs PyIntConv.
Local Open Scope Z_scope.

(** Two states that own the same and have the same pending exception. *)
Definition same_books (s s' : pystate) : Prop := refs s' = refs s ∧ err s' = err s ∧ cache s' = cache s.

Lemma decref_new o (r : gmultiset obj) : ({[+ o +]} ⊎ r) ∖ {[+ o +]} = r.
Proof. multiset_solver. Qed.

Lemma new_owned o (r : gmultiset obj) : o ∈ ({[+ o +]} ⊎ r).
Proof. multiset_solver. Qed.

Section Wrapper.
Context (lib : list call → call → answer) (K : objects) (G : globals).
Context (P : platform) (N : ints) (PyLong_As : ctype → pylong → option Z).
Context (text : obj → option string) (compare : obj → obj → option Z).
Context (dict_get : list (obj * obj) → obj → option obj).

Definition pyargnames : list obj := interned G <$> ["__pyx_type"; "__pyx_checksum"; "__pyx_state"]%string.

(** The exception of a failed binding. *)
Definition set_arg_error (e : arg_error) : M () :=
  match e with
  | CompareFailed => PyErr_Set (FromLibrary (Call "PyUnicode_Compare" []))
  | _ => PyErr_Set (PyExc "TypeError" (arg_message text "__pyx_unpickle_a_class" e))
  end.

Definition wrapper_error (clineno : Z) : M (option obj) :=
  AddTraceback lib K G "simple.__pyx_unpickle_a_class" clineno 1 "stringsource";; mret None.

Definition unpickle_wrapper (args : list obj) (kwds : option (list (obj * obj))) : M (option obj) :=
  match bind_arguments text compare dict_get pyargnames args kwds with
  | inl (clineno, e) => set_arg_error e;; wrapper_error clineno
  | inr [Some type; Some checksum; Some state] =>
      c ← PyInt_As_long lib P N PyLong_As checksum;
      occurred ← PyErr_Occurred;
      if (c =? cast (long_t P) (-1)) && occurred then wrapper_error 1764
      else unpickle_a_class lib K G type c state
  | inr _ => lift (Undef null_deref)
  end.

Hypothesis platform_ok : supported P.
Hypothesis PyLong_As_spec : ∀ F x, pylong_ok (shift P) x →
  PyLong_As F x = if decide (fits F (value (shift P) x)) then Some (value (shift P) x) else None.
Hypothesis ints_ok : ∀ o e l, as_pylong N o = Some (e, l) → pylong_ok (shift P) l.
Hypothesis tuple_size : ∀ o items, as_tuple K o = Some items → Z.of_nat (length items) ≤ llong_max.
Hypothesis compare_spec : ∀ a b ta tb,
  text a = Some ta → text b = Some tb → ∃ c, compare a b = Some c ∧ (c = 0 ↔ ta = tb).
Hypothesis dict_get_spec : ∀ kwds n, dict_get kwds n = find_text text kwds (text n).
Hypothesis names_are_strings : Forall (fun n => text n ≠ None) pyargnames.
Hypothesis names_distinct : NoDup (text <$> pyargnames).

(** A binding that succeeds binds all three parameters. *)
Lemma bind_three args kwds vs :
  NoDup (omap text (default [] kwds).*1) →
  bind_arguments text compare dict_get pyargnames args kwds = inr vs →
  ∃ type checksum state, vs = [Some type; Some checksum; Some state].
Proof.
  intros Hd E. apply (bind_arguments_spec text compare dict_get compare_spec dict_get_spec) in E as (l & E & ->); try done.
  assert (length l = 3%nat) as Hl.
  { unfold python_bind in E. destruct (decide _) as [Hle|]; [|done]. destruct (decide _); [|done].
    destruct (mapM _ _) as [ws|] eqn:Em; [|done]. injection E as <-. apply length_mapM in Em.
    rewrite length_drop in Em. rewrite length_app. unfold pyargnames in *. simpl in *. lia. }
  destruct l as [|a [|b [|c [|? ?]]]]; try done. by exists a, b, c.
Qed.

(** Whatever it is called with: a new reference, or NULL with an exception, and
    nothing else owned. *)
Lemma unpickle_wrapper_balanced args kwds r n es s :
  NoDup (omap text (default [] kwds).*1) →
  local r n es [] false s → 2 ≤ n →
  wp (unpickle_wrapper args kwds) (fun a => holds r (n - 2) (held a []) (failed a false)) s.
Proof.
  intros Hd H Hn. unfold unpickle_wrapper, wrapper_error.
  destruct (bind_arguments _ _ _ _ args kwds) as [[l e]|vs] eqn:E.
  - apply bind_error_line in E. unfold set_arg_error. destruct e; pym; py_done.
  - apply bind_three in E as (type & checksum & state & ->); [|done..].
    apply wp_bind. eapply wp_mono; [apply PyInt_As_spec; [done|done|done|by apply long_pos|exact H]|].
    pose proof (unpickle_balanced lib K G tuple_size type) as Hu.
    clear H. intros c s1 [[H ->]|[H _]].
    + py1; py1. rewrite Z.eqb_refl. destruct a; [|naive_solver]. cbn [andb]. pym; py_done.
    + py1; py1. destruct a; [|rewrite andb_false_r]; pym; py_done.
Qed.

(** What the wrapper does with its arguments, by Python's rules for binding them. *)
Lemma unpickle_wrapper_unbound args kwds s :
  NoDup (omap text (default [] kwds).*1) →
  python_bind text pyargnames args (default [] kwds) = None →
  ∃ line e, bind_arguments text compare dict_get pyargnames args kwds = inl (line, e) ∧ 1744 ≤ line ≤ 1769 ∧
    unpickle_wrapper args kwds s = (set_arg_error e;; wrapper_error line) s.
Proof.
  intros Hd Hb. unfold unpickle_wrapper.
  destruct (bind_arguments _ _ _ _ args kwds) as [[l e]|vs] eqn:E; [eauto 6 using bind_error_line|].
  apply (bind_arguments_spec text compare dict_get compare_spec dict_get_spec) in E as (l & E & _); [congruence|done..].
Qed.

(** The integer an object stands for as a checksum: itself, or what its type's
    [nb_int] returns; an [int] of a subclass is only taken with a warning. *)
Definition checksum_number (checksum : obj) (tr : list call) : option pylong :=
  match as_pylong N checksum with
  | Some (_, l) => Some l
  | None =>
      if has_nb_int N checksum then
        let c := Call "nb_int" [AObj checksum] in
        res ← a_obj (lib tr c);
        '(exact, l) ← as_pylong N res;
        if (exact : bool) || (a_int (lib (c :: tr) (Call "PyErr_WarnFormat" [AStr "__int__ returned non-int"; AObj res])) =? 0)
        then Some l else None
      else None
  end.

(** [__Pyx_PyNumber_IntOrLong] on an object that is no integer. *)
Lemma IntOrLong_number checksum s :
  as_pylong N checksum = None → err s = None →
  match checksum_number checksum (trace s) with
  | Some l => ∃ o e s', IntOrLong lib N checksum s = Done (Ok (Some o, s')) ∧ as_pylong N o = Some (e, l) ∧
      refs s' = {[+ o +]} ⊎ refs s ∧ err s' = None ∧ cache s' = cache s
  | None => ∃ s', IntOrLong lib N checksum s = Done (Ok (None, s')) ∧
      refs s' = refs s ∧ is_Some (err s') ∧ cache s' = cache s
  end.
Proof using Type.
  intros Hc Hs. unfold checksum_number, IntOrLong, IntOrLongWrongResultType. rewrite Hc.
  assert (bool_decide (is_Some (@None pyexc)) = false) as En by done.
  assert (∀ e : pyexc, bool_decide (is_Some (Some e)) = true) as Es by done.
  cbv [call_slot call_status PyErr_Occurred PyErr_Set get modify Py_DECREF mbind option_bind M_bind fuelled_bind
       mret M_ret fuelled_ret outcome_ret log set_err set_refs refs err cache trace] in *.
  destruct s as [er rs tr ca]. subst er.
  destruct (has_nb_int N checksum); [|rewrite En; eexists; by split_and!].
  destruct (a_obj (lib tr (Call "nb_int" [AObj checksum]))) as [res|].
  2:{ destruct (_ =? 0); rewrite ?En, ?Es; eexists; by split_and!. }
  destruct (as_pylong N res) as [[[] l]|] eqn:Er.
  - exists res, true. eexists. by split_and!.
  - cbn [orb]. destruct (_ =? 0); cbn [negb].
    + exists res, false. eexists. by split_and!.
    + rewrite decide_True by apply new_owned. eexists. split_and!; [done|apply decref_new|by eexists|done].
  - rewrite decide_True by apply new_owned. eexists. split_and!; [done|apply decref_new|by eexists|done].
Qed.

(** The conversion of any object to [long], by the number it stands for. *)
Lemma checksum_converted checksum s :
  err s = None →
  match checksum_number checksum (trace s) with
  | Some l =>
      let v := value (shift P) l in
      if decide (fits (long_t P) v)
      then ∃ s', PyInt_As_long lib P N PyLong_As checksum s = Done (Ok (v, s')) ∧ same_books s s'
      else ∃ s' what, PyInt_As_long lib P N PyLong_As checksum s = Done (Ok (cast (long_t P) (-1), s')) ∧
             err s' = Some (PyExc "OverflowError" what) ∧ refs s' = refs s ∧ cache s' = cache s
  | None => ∃ s', PyInt_As_long lib P N PyLong_As checksum s = Done (Ok (cast (long_t P) (-1), s')) ∧
             is_Some (err s') ∧ refs s' = refs s ∧ cache s' = cache s
  end.
Proof using platform_ok PyLong_As_spec ints_ok.
  intros Hs. pose proof (long_pos P platform_ok) as Hp. unfold PyInt_As_long.
  assert (∀ fuel o e l s, as_pylong N o = Some (e, l) → _) as Hint
    by exact (fun fuel o e l s => PyInt_As_integer lib P N PyLong_As platform_ok PyLong_As_spec ints_ok fuel (long_t P) "long" o e l s Hp).
  destruct (as_pylong N checksum) as [[e l]|] eqn:Hc.
  - unfold checksum_number. rewrite Hc. specialize (Hint 1%nat checksum e l s Hc).
    cbv zeta; set (v := value (shift P) l) in *. destruct (decide _); [by exists s|]. destruct Hint as (what & E). by eexists _, what.
  - pose proof (IntOrLong_number checksum s Hc Hs) as Hn. cbn [PyInt_As]. rewrite Hc.
    destruct (checksum_number checksum (trace s)) as [l|].
    + destruct Hn as (o & e & s1 & E & Ho & Hr & He & Hca). specialize (Hint 0%nat o e l s1 Ho).
      cbv zeta; set (v := value (shift P) l) in *. unfold mbind, M_bind. rewrite E. simpl.
      cbn [PyInt_As] in Hint. rewrite Ho in Hint |- *. destruct (decide _).
      * rewrite Hint. simpl. unfold Py_DECREF. rewrite decide_True by (rewrite Hr; apply new_owned).
        eexists. split; [done|]. unfold same_books. simpl. rewrite Hr, decref_new. by rewrite Hs.
      * destruct Hint as (what & Ei). rewrite Ei. simpl. unfold Py_DECREF. simpl.
        rewrite decide_True by (rewrite Hr; apply new_owned).
        eexists _, what. split; [done|]. simpl. by rewrite Hr, decref_new.
    + destruct Hn as (s1 & E & Hr & He & Hca). unfold mbind, M_bind. rewrite E. simpl. by exists s1.
Qed.

Lemma unpickle_wrapper_bound args kwds type checksum state s :
  NoDup (omap text (default [] kwds).*1) →
  python_bind text pyargnames args (default [] kwds) = Some [type; checksum; state] → err s = None →
  match checksum_number checksum (trace s) with
  | Some l =>
      let v := value (shift P) l in
      if decide (fits (long_t P) v)
      then ∃ s', same_books s s' ∧ unpickle_wrapper args kwds s = unpickle_a_class lib K G type v state s'
      else ∃ s' what, err s' = Some (PyExc "OverflowError" what) ∧ refs s' = refs s ∧ cache s' = cache s ∧
             unpickle_wrapper args kwds s = wrapper_error 1764 s'
  | None => ∃ s', is_Some (err s') ∧ refs s' = refs s ∧ cache s' = cache s ∧
             unpickle_wrapper args kwds s = wrapper_error 1764 s'
  end.
Proof.
  intros Hd Hb Hs. unfold unpickle_wrapper.
  rewrite (proj2 (bind_arguments_spec text compare dict_get compare_spec dict_get_spec pyargnames args kwds
    [Some type; Some checksum; Some state] eq_refl names_are_strings names_distinct Hd)) by eauto.
  pose proof (checksum_converted checksum s Hs) as Hc.
  destruct (checksum_number checksum (trace s)) as [l|].
  - cbv zeta in *. set (v := value (shift P) l) in *. destruct (decide (fits (long_t P) v)) as [Hf|Hf].
    + destruct Hc as (s1 & E & Hr & He & Hca). exists s1. split; [done|].
      unfold mbind, M_bind, PyErr_Occurred, get. rewrite E. cbn. rewrite He, Hs. cbn. by rewrite andb_false_r.
    + destruct Hc as (s1 & what & E & He & Hr & Hca). exists s1, what. split_and!; [done..|].
      unfold mbind, M_bind, PyErr_Occurred, get. rewrite E. cbn. rewrite He. cbn. by rewrite Z.eqb_refl.
  - destruct Hc as (s1 & E & [x He] & Hr & Hca). exists s1. split_and!; [by eexists|done..|].
    unfold mbind, M_bind, PyErr_Occurred, get. rewrite E. cbn. rewrite He. cbn. by rewrite Z.eqb_refl.
Qed.

(** C14: the wrapper of [__pyx_unpickle_a_class], composed of the binding of arguments,
    the conversion of the checksum and the function.  Whatever it is called with, it
    returns a new reference, or NULL with an exception, and owns nothing else.  A
    call that Python's rules do not bind, also one with keywords that are no strings,
    fails with an exception and a traceback of the wrapper.  One that they bind calls
    the function with the number the checksum stands for, as an integer or by
    [nb_int]; it fails with [OverflowError] if that is no [long], and with an exception
    if there is no such number; nothing is owned then. *)
Theorem unpickle_wrapper_correct args kwds s :
  NoDup (omap text (default [] kwds).*1) →
  (∀ r n es, local r n es [] false s → 2 ≤ n →
     wp (unpickle_wrapper args kwds) (fun a => holds r (n - 2) (held a []) (failed a false)) s) ∧
  match python_bind text pyargnames args (default [] kwds) with
  | None => ∃ line e, bind_arguments text compare dict_get pyargnames args kwds = inl (line, e) ∧ 1744 ≤ line ≤ 1769 ∧
      unpickle_wrapper args kwds s = (set_arg_error e;; wrapper_error line) s
  | Some [type; checksum; state] => err s = None →
      match checksum_number checksum (trace s) with
      | Some l =>
          let v := value (shift P) l in
          if decide (fits (long_t P) v)
          then ∃ s', same_books s s' ∧ unpickle_wrapper args kwds s = unpickle_a_class lib K G type v state s'
          else ∃ s' what, err s' = Some (PyExc "OverflowError" what) ∧ refs s' = refs s ∧ cache s' = cache s ∧
                 unpickle_wrapper args kwds s = wrapper_error 1764 s'
      | None => ∃ s', is_Some (err s') ∧ refs s' = refs s ∧ cache s' = cache s ∧
                 unpickle_wrapper args kwds s = wrapper_error 1764 s'
      end
  | Some _ => False
  end.
Proof.
  intros Hd. split; [intros r n es H Hn; by eapply unpickle_wrapper_balanced|].
  destruct (python_bind _ _ _ _) as [vs|] eqn:Eb; [|by apply unpickle_wrapper_unbound].
  destruct (bind_three args kwds (Some <$> vs) Hd) as (type & checksum & state & E).
  { apply (bind_arguments_spec text compare dict_get compare_spec dict_get_spec); try done. eauto. }
  destruct vs as [|a [|b [|c [|? ?]]]]; try done.
  intros Hs. by apply unpickle_wrapper_bound.
Qed.
End Wrapper.

(** The parameters are the objects 10, 11 and 12; the checksum is the object 1, a number
    of two digits. *)
Definition named_globals : globals :=
  Globals 2%nat 3%nat 4%nat 5%nat 6%nat 7%nat 8%nat 9%nat 15%nat 16%nat 17%nat 13%nat None
    (fun n => if String.eqb n "__pyx_type" then 10 else if String.eqb n "__pyx_checksum" then 11
              else if String.eqb n "__pyx_state" then 12 else 14)%nat.

Lemma unpickle_wrapper_correct_witness :
  let s := PyState None ∅ [] empty_cache in
  let wrapper := unpickle_wrapper failing_sum some_objects named_globals lp64 some_ints documented
                   some_text some_compare some_get in
  (∃ s', same_books s s' ∧ wrapper [61; 1]%nat (Some [(12, 50)]%nat) s
         = unpickle_a_class failing_sum some_objects named_globals 61%nat (-2147483653) 50%nat s') ∧
  (∃ s', is_Some (err s') ∧ refs s' = refs s ∧ cache s' = cache s ∧
         wrapper [61; 70]%nat (Some [(12, 50)]%nat) s = wrapper_error failing_sum some_objects named_globals 1764 s') ∧
  ∃ line e, bind_arguments some_text some_compare some_get (pyargnames named_globals) [61]%nat (Some [(20, 3)]%nat) = inl (line, e) ∧
    1744 ≤ line ≤ 1769 ∧
    wrapper [61]%nat (Some [(20, 3)]%nat) s = (set_arg_error some_text e;; wrapper_error failing_sum some_objects named_globals line) s.
Proof.
  assert (supported lp64) as Hp by (split; simpl; auto).
  assert (∀ o e l, as_pylong some_ints o = Some (e, l) → pylong_ok (shift lp64) l) as Hi.
  { intros o e l. cbn. destruct (Nat.eqb o 1); [|done]. intros [= <- <-].
    split; [done| |by intros d [= <-]]. repeat constructor; by vm_compute. }
  assert (∀ o items, as_tuple some_objects o = Some items → Z.of_nat (length items) ≤ llong_max) as Ht.
  { intros o items. cbn. destruct (Nat.eqb o 50); [|done]. intros [= <-]. by vm_compute. }
  assert (Forall (fun n => some_text n ≠ None) (pyargnames named_globals)) as Hn by (repeat constructor; done).
  assert (NoDup (some_text <$> pyargnames named_globals)) as Hd by (apply (bool_decide_unpack _); by vm_compute).
  pose proof (unpickle_wrapper_correct failing_sum some_objects named_globals lp64 some_ints documented
    some_text some_compare some_get Hp (fun F x _ => eq_refl) Hi Ht some_compare_spec some_get_spec Hn Hd) as H.
  split; [|split].
  - refine (proj2 (H [61; 1]%nat (Some [(12, 50)]%nat) (PyState None ∅ [] empty_cache) _) eq_refl).
    apply (bool_decide_unpack _); by vm_compute.
  - refine (proj2 (H [61; 70]%nat (Some [(12, 50)]%nat) (PyState None ∅ [] empty_cache) _) eq_refl).
    apply (bool_decide_unpack _); by vm_compute.
  - refine (proj2 (H [61]%nat (Some [(20, 3)]%nat) (PyState None ∅ [] empty_cache) _)). constructor.
Defined.
