(* ===== verification/PyTypes.v ===== *)
(** * Subtypes and exception matching (cjunk/cython/simple.cpp)

    The tests Cython makes without calling the interpreter: a walk along
    [tp_base], a search of the method resolution order, and the matching of an
    exception class with a class or a tuple of classes.  [GivenExceptionMatches]
    of the library is a parameter. *)

From Stdlib Require Import ZArith Lia.
From stdpp Require Import base list relations.
From S2P Require Import Prelude PyRuntime.

(** The fields of type objects, and what the macros ask of an object. *)
Record types := Types {
  tp_base : obj → option obj;
  tp_mro : obj → option (list obj);
  base_object : obj;
  is_exception_class : obj → bool;
  tuple_items : obj → option (list obj) }.

Section Types.
Context (Y : types) (library_matches : obj → obj → bool).

(** [while (a) { a = a->tp_base; if (a == b) return 1; } return b == &PyBaseObject_Type;] *)
Fixpoint InBases (fuel : nat) (a b : obj) : fuelled bool :=
  match tp_base Y a with
  | None => mret (bool_decide (b = base_object Y))
  | Some a' =>
      if decide (a' = b) then mret true
      else match fuel with O => OutOfFuel | S fuel => InBases fuel a' b end
  end.

(** The loops over tuples that compare addresses. *)
Fixpoint contains (items : list obj) (b : obj) : bool :=
  match items with [] => false | o :: items => if decide (o = b) then true else contains items b end.

Definition IsSubtype (fuel : nat) (a b : obj) : fuelled bool :=
  if decide (a = b) then mret true
  else match tp_mro Y a with
  | Some mro => mret (contains mro b)
  | None => InBases fuel a b
  end.

Definition inner_GivenExceptionMatches2 (fuel : nat) (err : obj) (exc_type1 : option obj) (exc_type2 : obj) : fuelled bool :=
  res ← match exc_type1 with Some t => IsSubtype fuel err t | None => mret false end;
  if res : bool then mret true else IsSubtype fuel err exc_type2.

Fixpoint matches_any (fuel : nat) (exc_type : obj) (items : list obj) : fuelled bool :=
  match items with
  | [] => mret false
  | t :: items =>
      res ← (if is_exception_class Y t then inner_GivenExceptionMatches2 fuel exc_type None t else mret false);
      if res : bool then mret true else matches_any fuel exc_type items
  end.

Definition GivenExceptionMatchesTuple (fuel : nat) (exc_type : obj) (items : list obj) : fuelled bool :=
  if contains items exc_type then mret true else matches_any fuel exc_type items.

Definition GivenExceptionMatches (fuel : nat) (err exc_type : obj) : fuelled bool :=
  if decide (err = exc_type) then mret true
  else if is_exception_class Y err then
    if is_exception_class Y exc_type then inner_GivenExceptionMatches2 fuel err None exc_type
    else match tuple_items Y exc_type with
    | Some items => GivenExceptionMatchesTuple fuel err items
    | None => mret (library_matches err exc_type)
    end
  else mret (library_matches err exc_type).

Definition GivenExceptionMatches2 (fuel : nat) (err exc_type1 exc_type2 : obj) : fuelled bool :=
  if decide (err = exc_type1 ∨ err = exc_type2) then mret true
  else if is_exception_class Y err then inner_GivenExceptionMatches2 fuel err (Some exc_type1) exc_type2
  else mret (library_matches err exc_type1 || library_matches err exc_type2).

(** [__Pyx_PyErr_ExceptionMatchesTuple] and [__Pyx_PyErr_ExceptionMatchesInState],
    with [exc_type] the type of the current exception. *)
Fixpoint any_given_matches (fuel : nat) (exc_type : obj) (items : list obj) : fuelled bool :=
  match items with
  | [] => mret false
  | t :: items =>
      res ← GivenExceptionMatches fuel exc_type t;
      if res : bool then mret true else any_given_matches fuel exc_type items
  end.

Definition ExceptionMatchesTuple (fuel : nat) (exc_type : obj) (items : list obj) : fuelled bool :=
  if contains items exc_type then mret true else any_given_matches fuel exc_type items.

Definition ExceptionMatchesInState (fuel : nat) (curexc_type : option obj) (err : obj) : fuelled bool :=
  match curexc_type with
  | None => mret false
  | Some exc_type =>
      if decide (exc_type = err) then mret true
      else match tuple_items Y err with
      | Some items => ExceptionMatchesTuple fuel exc_type items
      | None => GivenExceptionMatches fuel exc_type err
      end
  end.

(** ** Reference: the inheritance relation *)

Context (bases : obj → obj → Prop).
Definition inherits : obj → obj → Prop := rtc bases.

(** A class hierarchy, possibly with multiple inheritance.  A resolution order that is
    there lists the ancestors.  A class without one is [plain]: it and its
    ancestors have at most the base [tp_base], and chains of such bases have at
    most [height] steps and end at [object]. *)
Record hierarchy (plain : obj → Prop) (height : obj → nat) : Prop := {
  h_mro : ∀ a mro b, tp_mro Y a = Some mro → b ∈ mro ↔ inherits a b;
  h_plain : ∀ a, tp_mro Y a = None → plain a;
  h_bases : ∀ a b, plain a → bases a b ↔ tp_base Y a = Some b;
  h_base : ∀ a a', plain a → tp_base Y a = Some a' → plain a' ∧ (height a' < height a)%nat;
  h_root : ∀ a, plain a → tp_base Y a = None → a = base_object Y }.

Context (plain : obj → Prop) (height : obj → nat).
Hypothesis H : hierarchy plain height.

Lemma contains_spec items b : contains items b = bool_decide (b ∈ items).
Proof.
  induction items as [|o items IH]; [done|]. cbn [contains].
  destruct (decide (o = b)) as [->|Hne].
  - by rewrite bool_decide_eq_true_2 by set_solver.
  - rewrite IH. apply bool_decide_ext. set_solver.
Qed.

Lemma inherits_step a a' b : plain a → tp_base Y a = Some a' → inherits a b ↔ a = b ∨ inherits a' b.
Proof.
  intros Hp E. split.
  - intros Hab. destruct Hab as [|x y z Hxy Hyz]; [by left|]. right. apply (h_bases _ _ H) in Hxy; [|done]. by simplify_eq.
  - intros [->|Hb]; [apply rtc_refl|]. eapply rtc_l; [by apply (h_bases _ _ H)|done].
Qed.

Lemma inherits_root a b : plain a → tp_base Y a = None → inherits a b ↔ a = b.
Proof.
  intros Hp E. split; [|intros ->; apply rtc_refl].
  intros Hab. destruct Hab as [|x y z Hxy Hyz]; [done|]. apply (h_bases _ _ H) in Hxy; [congruence|done].
Qed.

(** The walk finds the proper ancestors; a chain that ends was at [object]. *)
Lemma InBases_spec fuel a b :
  plain a → a ≠ b → (height a ≤ fuel)%nat → ∃ r, InBases fuel a b = Done (Ok r) ∧ (r = true ↔ inherits a b).
Proof.
  revert a. induction fuel as [|fuel IH]; intros a Hp Hne Hf; cbn [InBases];
    (destruct (tp_base Y a) as [a'|] eqn:E;
     [|eexists; split; [done|]; rewrite (inherits_root a b Hp E), bool_decide_eq_true;
       pose proof (h_root _ _ H a Hp E); split; [intros ->; congruence|done]]);
    destruct (h_base _ _ H a a' Hp E) as [Hp' Hh].
  - lia.
  - setoid_rewrite (inherits_step a a' b Hp E). destruct (decide (a' = b)) as [->|Hne'].
    + eexists. split; [done|]. split; [|done]. intros _. right. apply rtc_refl.
    + destruct (IH a' Hp' Hne' ltac:(lia)) as (r & -> & Hr). eexists. split; [done|]. rewrite Hr. naive_solver.
Qed.

Lemma IsSubtype_spec fuel a b :
  (height a ≤ fuel)%nat → ∃ r, IsSubtype fuel a b = Done (Ok r) ∧ (r = true ↔ inherits a b).
Proof.
  intros Hf. unfold IsSubtype. destruct (decide (a = b)) as [->|Hne].
  { eexists. split; [done|]. split; [|done]. intros _. apply rtc_refl. }
  destruct (tp_mro Y a) as [mro|] eqn:E; [|apply InBases_spec; [by apply (h_plain _ _ H)|done..]].
  eexists. split; [done|]. rewrite contains_spec, bool_decide_eq_true. by apply (h_mro _ _ H).
Qed.

Lemma inner_spec fuel err t1 t2 :
  (height err ≤ fuel)%nat →
  ∃ r, inner_GivenExceptionMatches2 fuel err t1 t2 = Done (Ok r) ∧
       (r = true ↔ (∃ t, t1 = Some t ∧ inherits err t) ∨ inherits err t2).
Proof.
  intros Hf. unfold inner_GivenExceptionMatches2.
  destruct (IsSubtype_spec fuel err t2 Hf) as (r2 & E2 & H2). destruct t1 as [t1|].
  - destruct (IsSubtype_spec fuel err t1 Hf) as (r1 & E1 & H1). rewrite E1. cbn [mbind fuelled_bind].
    destruct r1; [eexists; split; [done|]; naive_solver|]. rewrite E2. eexists. split; [done|]. naive_solver.
  - cbn. rewrite E2. eexists. split; [done|]. naive_solver.
Qed.

Lemma matches_any_spec fuel err items :
  (height err ≤ fuel)%nat →
  ∃ r, matches_any fuel err items = Done (Ok r) ∧
       (r = true ↔ ∃ t, t ∈ items ∧ is_exception_class Y t = true ∧ inherits err t).
Proof.
  intros Hf. induction items as [|t items (r & E & Hr)]; simpl.
  { eexists. split; [done|]. split; [done|]. intros (t & Ht & _). by apply not_elem_of_nil in Ht. }
  setoid_rewrite elem_of_cons. destruct (is_exception_class Y t) eqn:Ec.
  - destruct (inner_spec fuel err None t Hf) as (r1 & -> & H1). cbn [mbind fuelled_bind].
    destruct r1; [|rewrite E]; (eexists; split; [done|]); naive_solver.
  - cbn. rewrite E. eexists. split; [done|]. rewrite Hr. split; [intros (t' & ? & ? & ?); eauto|].
    intros (t' & [->|?] & ? & ?); [congruence|eauto].
Qed.

(** One class, and a tuple. *)
Lemma given_class fuel err t :
  (height err ≤ fuel)%nat → is_exception_class Y err = true → is_exception_class Y t = true →
  ∃ r, GivenExceptionMatches fuel err t = Done (Ok r) ∧ (r = true ↔ inherits err t).
Proof.
  intros Hf He Ht. unfold GivenExceptionMatches. destruct (decide (err = t)) as [->|Hne].
  { eexists. split; [done|]. split; [|done]. intros _. apply rtc_refl. }
  rewrite He, Ht. destruct (inner_spec fuel err None t Hf) as (r & -> & Hr). eexists. split; [done|]. naive_solver.
Qed.

Lemma given_tuple fuel err t items :
  (height err ≤ fuel)%nat → is_exception_class Y err = true → is_exception_class Y t = false →
  tuple_items Y t = Some items →
  ∃ r, GivenExceptionMatches fuel err t = Done (Ok r) ∧
       (r = true ↔ ∃ u, u ∈ items ∧ (u = err ∨ is_exception_class Y u = true ∧ inherits err u)).
Proof.
  intros Hf He Ht Hi. unfold GivenExceptionMatches. rewrite decide_False by congruence. rewrite He, Ht, Hi.
  unfold GivenExceptionMatchesTuple. rewrite contains_spec. case_bool_decide as Hin.
  + eexists. split; [done|]. naive_solver.
  + destruct (matches_any_spec fuel err items Hf) as (r & -> & Hr). eexists. split; [done|]. rewrite Hr. naive_solver.
Qed.

Lemma any_given_spec fuel err items :
  (height err ≤ fuel)%nat → is_exception_class Y err = true → Forall (fun u => is_exception_class Y u = true) items →
  ∃ r, any_given_matches fuel err items = Done (Ok r) ∧ (r = true ↔ ∃ u, u ∈ items ∧ inherits err u).
Proof.
  intros Hf He. induction 1 as [|u items Hu _ (r & E & Hr)]; simpl.
  { eexists. split; [done|]. split; [done|]. intros (u & Hu & _). by apply not_elem_of_nil in Hu. }
  setoid_rewrite elem_of_cons. destruct (given_class fuel err u Hf He Hu) as (r1 & -> & H1). cbn [mbind fuelled_bind].
  destruct r1; [|rewrite E]; (eexists; split; [done|]); naive_solver.
Qed.

(** C39: matching an exception class terminates within the height of its hierarchy and
    decides inheritance: a class matches the classes it inherits from; one of two;
    a tuple with itself or a class it inherits from.  The current exception is
    matched in the same way with a class and with a tuple of classes, and no
    exception matches nothing. *)
Theorem exception_matches_correct fuel err exc_type :
  (height err ≤ fuel)%nat → is_exception_class Y err = true →
  (is_exception_class Y exc_type = true →
     ∃ r, GivenExceptionMatches fuel err exc_type = Done (Ok r) ∧ (r = true ↔ inherits err exc_type)) ∧
  (∀ other, ∃ r, GivenExceptionMatches2 fuel err exc_type other = Done (Ok r) ∧
     (r = true ↔ inherits err exc_type ∨ inherits err other)) ∧
  (∀ items, is_exception_class Y exc_type = false → tuple_items Y exc_type = Some items →
     (∃ r, GivenExceptionMatches fuel err exc_type = Done (Ok r) ∧
          (r = true ↔ ∃ t, t ∈ items ∧ (t = err ∨ is_exception_class Y t = true ∧ inherits err t))) ∧
     (Forall (fun u => is_exception_class Y u = true) items →
      ∃ r, ExceptionMatchesInState fuel (Some err) exc_type = Done (Ok r) ∧
           (r = true ↔ ∃ t, t ∈ items ∧ inherits err t))) ∧
  (is_exception_class Y exc_type = true → tuple_items Y exc_type = None →
     ∃ r, ExceptionMatchesInState fuel (Some err) exc_type = Done (Ok r) ∧ (r = true ↔ inherits err exc_type)) ∧
  ExceptionMatchesInState fuel None exc_type = Done (Ok false).
Proof.
  intros Hf He. split_and!; [by apply given_class| | | |done].
  - intros other. unfold GivenExceptionMatches2. destruct (decide _) as [Heq|Hne].
    { eexists. split; [done|]. split; [|done]. intros _. destruct Heq as [->| ->]; [left|right]; apply rtc_refl. }
    rewrite He. destruct (inner_spec fuel err (Some exc_type) other Hf) as (r & -> & Hr). eexists. split; [done|]. naive_solver.
  - intros items Ht Hi. split; [by apply given_tuple|]. intros Hall. unfold ExceptionMatchesInState, ExceptionMatchesTuple.
    rewrite decide_False by congruence. rewrite Hi, contains_spec. case_bool_decide as Hin.
    + eexists. split; [done|]. split; [|done]. intros _. exists err. split; [done|apply rtc_refl].
    + by apply any_given_spec.
  - intros Ht Hi. unfold ExceptionMatchesInState. destruct (decide (err = exc_type)) as [->|Hne].
    { eexists. split; [done|]. split; [|done]. intros _. apply rtc_refl. }
    rewrite Hi. by apply given_class.
Qed.
End Types.

(** [object] is 0, [Exception] 1, [OSError] 2 and [KeyError] 3 without resolution orders,
    and 4 inherits from 2 and 3; 9 is the tuple of 3 and 1.  Other objects have no bases. *)
Definition some_base (o : obj) : option obj :=
  match o with 1 => Some 0 | 2 => Some 1 | 3 => Some 1 | 4 => Some 2 | _ => None end%nat.
Definition some_bases (a b : obj) : Prop := some_base a = Some b ∨ a = 4%nat ∧ b = 3%nat.
Definition some_types : types :=
  Types some_base (fun o => if Nat.eqb o 4 then Some [4; 2; 3; 1; 0]%nat else if Nat.leb o 3 then None else Some [o]) 0%nat
    (fun o => Nat.leb 1 o && Nat.leb o 4) (fun o => if Nat.eqb o 9 then Some [3; 1]%nat else None).

Lemma some_hierarchy : hierarchy some_types some_bases (fun o => o ≤ 3)%nat (fun o => o).
Proof.
  assert (∀ a b, rtc some_bases a b → a = b ∨ (a = 1 ∧ b = 0 ∨ (a = 2 ∨ a = 3) ∧ b ≤ 1 ∨ a = 4 ∧ b ≤ 3)%nat) as Hup.
  { induction 1 as [|x y z Hxy _ IH]; [by left|]. right.
    destruct Hxy as [E|[-> ->]]; [|lia]. destruct x as [|[|[|[|[|x]]]]]; simpl in E; simplify_eq; lia. }
  assert (∀ a b, some_base a = Some b → some_bases a b) as Hb by (intros; by left).
  split.
  - intros a mro b. simpl. unfold inherits. destruct (Nat.eqb_spec a 4) as [->|].
    + intros [= <-]. rewrite !elem_of_cons, elem_of_nil. split; [|intros [<-|?]%Hup; [by left|lia]].
      assert (some_bases 2 1 ∧ some_bases 3 1 ∧ some_bases 1 0 ∧ some_bases 4 2 ∧ some_bases 4 3)%nat as (? & ? & ? & ? & ?)
        by (split_and!; [left..|by right]; reflexivity).
      intros [->|[->|[->|[->|[->|[]]]]]]; eauto 10 using rtc_l, rtc_refl.
    + destruct (Nat.leb_spec a 3); [done|]. intros [= <-]. rewrite list_elem_of_singleton. split; [intros ->; apply rtc_refl|].
      intros [<-|?]%Hup; [done|lia].
  - intros a. simpl. destruct (Nat.eqb_spec a 4); [done|]. destruct (Nat.leb_spec a 3); [lia|done].
  - intros a b Hp. simpl. unfold some_bases. split; [intros [?|[-> ->]]; [done|lia]|by left].
  - intros a a' Hp. simpl. destruct a as [|[|[|[|[|a]]]]]; simpl; intros [= <-]; lia.
  - intros a Hp. simpl. destruct a as [|[|[|[|a]]]]; simpl; try done. lia.
Qed.

(** 4 is caught by the tuple of 3 and 1, and 2 is not caught by 3. *)
Lemma exception_matches_correct_witness :
  (∃ r, GivenExceptionMatches some_types (fun _ _ => false) 4 4%nat 9%nat = Done (Ok r) ∧
     (r = true ↔ ∃ t, t ∈ [3; 1]%nat ∧ (t = 4%nat ∨ is_exception_class some_types t = true ∧ inherits some_bases 4%nat t))) ∧
  (∃ r, GivenExceptionMatches some_types (fun _ _ => false) 4 2%nat 3%nat = Done (Ok r) ∧
     (r = true ↔ inherits some_bases 2%nat 3%nat)) ∧
  (∃ r, ExceptionMatchesInState some_types (fun _ _ => false) 4 (Some 4%nat) 3%nat = Done (Ok r) ∧
     (r = true ↔ inherits some_bases 4%nat 3%nat)).
Proof.
  split; [|split].
  - apply (exception_matches_correct some_types (fun _ _ => false) some_bases _ _ some_hierarchy 4 4%nat 9%nat);
      [lia|reflexivity..].
  - apply (exception_matches_correct some_types (fun _ _ => false) some_bases _ _ some_hierarchy 4 2%nat 3%nat);
      [lia|reflexivity..].
  - apply (exception_matches_correct some_types (fun _ _ => false) some_bases _ _ some_hierarchy 4 4%nat 3%nat);
      [lia|reflexivity..].
Defined.
