(* ===== verification/PyInit.v ===== *)
(** * Loading the module (cjunk/cython/simple.cpp)

    The module is loaded in two phases: the interpreter calls
    [__pyx_pymod_create] and then [__pyx_pymod_exec_simple], which fills the
    static variables, readies the type and runs the statements of simple.pyx.
    The configuration is CPython 3.7 or later.

    A computation of the initialisation has the static variables as a state of its
    own and may end at the label [__pyx_L1_error].  A static variable is a null
    pointer until it is assigned; an assignment does not release what the variable
    held before, so the references that are lost this way are in the books on their
    own, apart from the ones the variables hold. *)

From Stdlib Require Import ZArith Lia String Ascii.
From stdpp Require Import base list gmap gmultiset strings.
From S2P Require Import Prelude PyRuntime CodeCache Traceback PyCalls PyIndex PyModule.
Local Open Scope Z_scope.

(** ** Static variables *)

Record statics := Statics {
  vars : gmap string obj;            (* the ones that are not null *)
  module_ : option obj;              (* [__pyx_m] *)
  vtabptr : bool;                    (* [__pyx_vtabptr_6simple_a_class] is set *)
  ptype : option obj;                (* [__pyx_ptype_6simple_a_class] *)
  main_interpreter_id : Z }.

Definition loaded : statics := Statics ∅ None false None (-1).

Definition var (st : statics) (x : string) : option obj := vars st !! x.

Definition set_var (x : string) (o : option obj) (st : statics) : statics :=
  Statics (partial_alter (fun _ => o) x (vars st)) (module_ st) (vtabptr st) (ptype st) (main_interpreter_id st).
Definition set_module (o : option obj) (st : statics) : statics :=
  Statics (vars st) o (vtabptr st) (ptype st) (main_interpreter_id st).
Definition set_vtabptr (st : statics) : statics :=
  Statics (vars st) (module_ st) true (ptype st) (main_interpreter_id st).
Definition set_ptype (o : obj) (st : statics) : statics :=
  Statics (vars st) (module_ st) (vtabptr st) (Some o) (main_interpreter_id st).
Definition set_interpreter (id : Z) (st : statics) : statics :=
  Statics (vars st) (module_ st) (vtabptr st) (ptype st) id.

(** [__pyx_string_tab]: the variable, its text, and whether it is interned. *)
Definition string_tab : list (string * string * bool) := [
  ("__pyx_kp_s_Incompatible_checksums_s_vs_0xd4", "Incompatible checksums (%s vs 0xd41d8cd = ())", false);
  ("__pyx_n_s_PickleError", "PickleError", true);
  ("__pyx_n_s_a_class", "a_class", true);
  ("__pyx_n_s_cline_in_traceback", "cline_in_traceback", true);
  ("__pyx_n_s_dict", "__dict__", true);
  ("__pyx_n_s_getstate", "__getstate__", true);
  ("__pyx_n_s_import", "__import__", true);
  ("__pyx_n_s_main", "__main__", true);
  ("__pyx_n_s_name", "__name__", true);
  ("__pyx_n_s_new", "__new__", true);
  ("__pyx_n_s_pickle", "pickle", true);
  ("__pyx_n_s_print", "print", true);
  ("__pyx_n_s_pyx_PickleError", "__pyx_PickleError", true);
  ("__pyx_n_s_pyx_checksum", "__pyx_checksum", true);
  ("__pyx_n_s_pyx_result", "__pyx_result", true);
  ("__pyx_n_s_pyx_state", "__pyx_state", true);
  ("__pyx_n_s_pyx_type", "__pyx_type", true);
  ("__pyx_n_s_pyx_unpickle_a_class", "__pyx_unpickle_a_class", true);
  ("__pyx_n_s_pyx_vtable", "__pyx_vtable__", true);
  ("__pyx_n_s_range", "range", true);
  ("__pyx_n_s_reduce", "__reduce__", true);
  ("__pyx_n_s_reduce_cython", "__reduce_cython__", true);
  ("__pyx_n_s_reduce_ex", "__reduce_ex__", true);
  ("__pyx_n_s_setstate", "__setstate__", true);
  ("__pyx_n_s_setstate_cython", "__setstate_cython__", true);
  ("__pyx_n_s_simple", "simple", true);
  ("__pyx_kp_s_stringsource", "stringsource", false);
  ("__pyx_n_s_test", "__test__", true);
  ("__pyx_n_s_update", "update", true)]%string.

(** The variable of a string constant. *)
Definition string_var (text : string) : string :=
  match find (fun e => String.eqb text e.1.2) string_tab with Some (x, _, _) => x | None => EmptyString end.

(** ** Computations with an error label *)

(** Where an error happened, and the temporaries that are set there. *)
Record failure := Failure { clineno : Z; lineno : Z; filename : string; temps : list obj }.

Definition I (A : Type) : Type := statics → M (statics * (failure + A)).

#[export] Instance I_ret : MRet I := fun A a st => mret (st, inr a).
#[export] Instance I_bind : MBind I := fun A B f m st =>
  '(st, x) ← m st;
  match x with inl e => mret (st, inl e) | inr a => f a st end.

Definition run {A} (m : statics → M A) : I A := fun st => a ← m st; mret (st, inr a).
Definition update (f : statics → statics) : I () := fun st => mret (f st, inr ()).
Definition goto_error {A} (e : failure) : I A := fun st => mret (st, inl e).

(** [__PYX_ERR(f_index, lineno, __pyx_L1_error)] in line [c] of the C file. *)
Definition PYX_ERR (c : Z) (f_index lineno : Z) : failure :=
  Failure c lineno (if f_index =? 0 then "simple.pyx" else "stringsource") [].

Section Init.
Context (lib : list call → call → answer) (K : objects).
(* the three singletons and the static type object *)
Context (None_ True_ False_ type_a_class : obj) (tp_dict : obj → obj).

(** The variables as the functions of the module see them; a variable that is not
    set is the null pointer, address 0. *)
Definition globals_of (st : statics) : globals :=
  let v x := default O (var st x) in
  Globals None_ True_ False_ (default O (module_ st)) (v "__pyx_d") (v "__pyx_b")
    (v "__pyx_empty_tuple") (v "__pyx_empty_bytes") (v "__pyx_int_0") (v "__pyx_int_100")
    (v "__pyx_int_222419149") (default O (ptype st)) (var st "__pyx_cython_runtime")
    (fun text => v (string_var text)).

Definition name_of (text : string) (st : statics) : obj := interned (globals_of st) text.

(** [x = m; if (!x) __PYX_ERR(e)]. *)
Definition new_var (x : string) (m : statics → M (option obj)) (e : failure) : I () :=
  o ← run m;
  update (set_var x o);;
  match o with Some _ => mret () | None => goto_error e end.

(** [if (m < 0) __PYX_ERR(e)]. *)
Definition check (m : statics → M Z) (e : failure) : I () :=
  n ← run m; if n <? 0 then goto_error e else mret ().

(** A borrowed reference, or NULL with an exception. *)
Definition call_borrowed_or_raise (c : call) : M (option obj) := fun s =>
  match a_obj (lib (trace s) c) with
  | Some o => mret (Some o, log c s)
  | None => mret (None, log c (set_err (Some (FromLibrary c)) s))
  end.

(** [x = m; if (!x) __PYX_ERR(e); Py_INCREF(x);] for a borrowed reference. *)
Definition borrowed_var (x : string) (m : statics → M (option obj)) (e : failure) : I () :=
  o ← run m;
  match o with
  | Some o => run (fun _ => Py_INCREF o);; update (set_var x (Some o))
  | None => update (set_var x None);; goto_error e
  end.

(** [PyObject_Hash]: [-1] is the error. *)
Definition PyObject_Hash (o : obj) : M Z := fun s =>
  let c := Call "PyObject_Hash" [AObj o] in
  let r := a_int (lib (trace s) c) in
  mret (r, log c (if r =? -1 then set_err (Some (FromLibrary c)) s else s)).

(** ** Constants *)

(** Every entry of the table is a [str]. *)
Definition string_object (s : string) (intern : bool) : M (option obj) :=
  if intern then call_new lib (Call "PyUnicode_InternFromString" [AStr s])
  else call_new lib (Call "PyUnicode_FromStringAndSize" [AStr s; AInt (Z.of_nat (String.length s))]).

(** [__Pyx_InitStrings]: 0 or -1. *)
Fixpoint InitStrings (t : list (string * string * bool)) : I Z :=
  match t with
  | [] => mret 0
  | (p, s, intern) :: t =>
      o ← run (fun _ => string_object s intern);
      update (set_var p o);;
      match o with
      | None => mret (-1)
      | Some o =>
          h ← run (fun _ => PyObject_Hash o);
          if h =? -1 then mret (-1) else InitStrings t
      end
  end.

Definition init_string_tab : I () :=
  r ← InitStrings string_tab; if r <? 0 then goto_error (PYX_ERR 2277 0 1) else mret ().

Definition InitGlobals : I () :=
  init_string_tab;;
  new_var "__pyx_int_0" (fun _ => call_new lib (Call "PyInt_FromLong" [AInt 0])) (PYX_ERR 2278 0 1);;
  new_var "__pyx_int_100" (fun _ => call_new lib (Call "PyInt_FromLong" [AInt 100])) (PYX_ERR 2279 0 1);;
  new_var "__pyx_int_222419149" (fun _ => call_new lib (Call "PyInt_FromLong" [AInt 222419149])) (PYX_ERR 2280 0 1).

(** The caller sets the position again when [__Pyx_InitGlobals] fails. *)
Definition relocate {A} (e : failure) (m : I A) : I A := fun st =>
  '(st, x) ← m st;
  mret (st, match x with inl e' => inl (Failure (clineno e) (lineno e) (filename e) (temps e')) | inr a => inr a end).

Definition InitCachedBuiltins : I () :=
  new_var "__pyx_builtin_print" (fun st => GetBuiltinName lib K (globals_of st) (name_of "print" st)) (PYX_ERR 2249 0 12);;
  new_var "__pyx_builtin_range" (fun st => GetBuiltinName lib K (globals_of st) (name_of "range" st)) (PYX_ERR 2250 0 6).

Definition InitCachedConstants : I () :=
  new_var "__pyx_tuple_" (fun st => call_new lib (Call "PyTuple_Pack"
    (AInt 5 :: (AObj <$> ((fun t => name_of t st) <$>
      ["__pyx_type"; "__pyx_checksum"; "__pyx_state"; "__pyx_PickleError"; "__pyx_result"]%string))))) (PYX_ERR 2265 1 1);;
  new_var "__pyx_codeobj__2" (fun st =>
    let G := globals_of st in
    call_new lib (Call "PyCode_New"
      [AInt 3; AInt 0; AInt 5; AInt 0; AObj (empty_bytes G); AObj (empty_tuple G); AObj (empty_tuple G);
       AObj (default O (var st "__pyx_tuple_")); AObj (empty_tuple G); AObj (empty_tuple G);
       AObj (name_of "stringsource" st); AObj (name_of "__pyx_unpickle_a_class" st); AInt 1; AObj (empty_bytes G)]))
    (PYX_ERR 2268 1 1).

(** ** The type *)

(** [dict] is the dictionary of the type. *)
Definition SetVtable (dict vtable_name : obj) : M Z :=
  ob ← call_new lib (Call "PyCapsule_New" []);
  match ob with
  | None => mret (-1)
  | Some ob =>
      r ← call_int lib (Call "PyDict_SetItem" [AObj dict; AObj vtable_name; AObj ob]);
      Py_DECREF ob;;
      mret (if r <? 0 then -1 else 0)
  end.

Section Reduce.
Context (G : globals).

Definition setup_reduce_is_named (meth name : obj) : M Z :=
  name_attr ← GetAttrStr lib K meth (interned G "__name__");
  ret ← match name_attr with
        | Some a => call_int lib (Call "PyObject_RichCompareBool" [AObj a; AObj name])
        | None => mret (-1)
        end;
  ret ← (if ret <? 0 then PyErr_Clear;; mret 0 else mret ret);
  Py_XDECREF name_attr;;
  mret ret.

(** The labels [GOOD] and [BAD]. *)
Definition setup_good (ret : Z) (owned : list (option obj)) : M Z := xdecref_all owned;; mret ret.
Definition setup_bad (owned : list (option obj)) : M Z :=
  occurred ← PyErr_Occurred;
  (if occurred : bool then mret ()
   else PyErr_Set (PyExc "RuntimeError" "Unable to initialize pickling for simple.a_class"));;
  setup_good (-1) owned.

(** [__setstate_cython__] becomes [__setstate__]. *)
Definition setup_setstate (ret : Z) (type_obj reduce reduce_ex reduce_cython : obj) : M Z :=
  setstate ← GetAttrStr lib K type_obj (interned G "__setstate__");
  let owned c := [Some reduce; Some reduce_ex; Some reduce_cython; setstate; c] in
  (match setstate with None => PyErr_Clear | Some _ => mret () end);;
  rename ← match setstate with
           | None => mret 1
           | Some setstate => setup_reduce_is_named setstate (interned G "__setstate_cython__")
           end;
  if rename =? 0 then call_void (Call "PyType_Modified" [AObj type_obj]);; setup_good ret (owned None)
  else
    setstate_cython ← GetAttrStr lib K type_obj (interned G "__setstate_cython__");
    match setstate_cython with
    | None => setup_bad (owned None)
    | Some sc =>
        ret ← call_int lib (Call "PyDict_SetItem" [AObj (tp_dict type_obj); AObj (interned G "__setstate__"); AObj sc]);
        if ret <? 0 then setup_bad (owned (Some sc))
        else
          ret ← call_int lib (Call "PyDict_DelItem" [AObj (tp_dict type_obj); AObj (interned G "__setstate_cython__")]);
          if ret <? 0 then setup_bad (owned (Some sc))
          else call_void (Call "PyType_Modified" [AObj type_obj]);; setup_good ret (owned (Some sc))
    end.

(** [__reduce_cython__] becomes [__reduce__]. *)
Definition setup_reduce_method (type_obj reduce reduce_ex : obj) : M Z :=
  reduce_cython ← GetAttrStr lib K type_obj (interned G "__reduce_cython__");
  match reduce_cython with
  | None => setup_bad [Some reduce; Some reduce_ex]
  | Some rc =>
      ret ← call_int lib (Call "PyDict_SetItem" [AObj (tp_dict type_obj); AObj (interned G "__reduce__"); AObj rc]);
      if ret <? 0 then setup_bad [Some reduce; Some reduce_ex; Some rc]
      else
        ret ← call_int lib (Call "PyDict_DelItem" [AObj (tp_dict type_obj); AObj (interned G "__reduce_cython__")]);
        if ret <? 0 then setup_bad [Some reduce; Some reduce_ex; Some rc]
        else setup_setstate ret type_obj reduce reduce_ex rc
  end.

(** [_PyType_Lookup] is borrowed and sets no exception. *)
Definition setup_reduce (type_obj : obj) : M Z :=
  getstate ← call_borrowed lib (Call "_PyType_Lookup" [AObj type_obj; AObj (interned G "__getstate__")]);
  match getstate with
  | Some _ => setup_good 0 []
  | None =>
      object_reduce_ex ← call_borrowed lib (Call "_PyType_Lookup" [AStr "object"; AObj (interned G "__reduce_ex__")]);
      match object_reduce_ex with
      | None => setup_bad []
      | Some object_reduce_ex =>
          reduce_ex ← GetAttrStr lib K type_obj (interned G "__reduce_ex__");
          match reduce_ex with
          | None => setup_bad []
          | Some reduce_ex =>
              if decide (reduce_ex = object_reduce_ex) then
                object_reduce ← call_borrowed lib (Call "_PyType_Lookup" [AStr "object"; AObj (interned G "__reduce__")]);
                match object_reduce with
                | None => setup_bad [Some reduce_ex]
                | Some object_reduce =>
                    reduce ← GetAttrStr lib K type_obj (interned G "__reduce__");
                    match reduce with
                    | None => setup_bad [Some reduce_ex]
                    | Some reduce =>
                        named ← (if decide (reduce = object_reduce) then mret 1
                                 else setup_reduce_is_named reduce (interned G "__reduce_cython__"));
                        if named =? 0 then setup_good 0 [Some reduce; Some reduce_ex]
                        else setup_reduce_method type_obj reduce reduce_ex
                    end
                end
              else setup_good 0 [Some reduce_ex]
          end
      end
  end.
End Reduce.

(** [__Pyx_modinit_type_init_code].  From Python 3.7 on the attribute slot is
    assigned the function it already holds. *)
Definition modinit_type_init_code : I () :=
  update set_vtabptr;;
  check (fun _ => call_int lib (Call "PyType_Ready" [AObj type_a_class])) (PYX_ERR 2324 0 9);;
  check (fun st => SetVtable (tp_dict type_a_class) (name_of "__pyx_vtable__" st)) (PYX_ERR 2331 0 9);;
  check (fun st => call_int lib (Call "PyObject_SetAttr"
    [AObj (default O (module_ st)); AObj (name_of "a_class" st); AObj type_a_class])) (PYX_ERR 2332 0 9);;
  check (fun st => setup_reduce (globals_of st) type_a_class) (PYX_ERR 2333 0 9);;
  update (set_ptype type_a_class).

(** [__pyx_tp_new_6simple_a_class]: the object gets the method table, which is set
    once the type is ready. *)
Definition tp_new (st : statics) (abstract : bool) (t : obj) : M (option obj) :=
  o ← (if abstract then call_new lib (Call "object.tp_new" [AObj t; AObj (empty_tuple (globals_of st))])
       else call_new lib (Call "tp_alloc" [AObj t; AInt 0]));
  match o with
  | None => mret None
  | Some o => call_void (Call "__pyx_vtab =" [AObj o; AInt (Z.b2z (vtabptr st))]);; mret (Some o)
  end.

(** [__pyx_tp_dealloc_6simple_a_class]: a finalizer runs once, and may save the
    object. *)
Definition tp_dealloc (has_finalize is_gc finalized : bool) (o : obj) : M () :=
  saved ← (if has_finalize && (negb is_gc || negb finalized)
           then call_test lib (Call "PyObject_CallFinalizerFromDealloc" [AObj o]) else mret false);
  if saved : bool then mret () else call_void (Call "tp_free" [AObj o]).

(** ** The first phase *)

(** The answer is a new value of the static variable, and 0 or -1. *)
Definition check_single_interpreter (st : statics) : M (statics * Z) :=
  current_id ← call_int lib (Call "PyInterpreterState_GetID" []);
  if main_interpreter_id st =? -1 then
    mret (set_interpreter current_id st, if current_id =? -1 then -1 else 0)
  else if negb (main_interpreter_id st =? current_id) then
    PyErr_Set (PyExc "ImportError" "Interpreter change detected - this module can only be loaded into one interpreter per process.");;
    mret (st, -1)
  else mret (st, 0).

Definition copy_spec_to_module (spec moddict : obj) (from_name to_name : string) (allow_none : bool) : M Z :=
  value ← call_new lib (Call "PyObject_GetAttrString" [AObj spec; AStr from_name]);
  match value with
  | Some value =>
      result ← (if allow_none || negb (bool_decide (value = None_)) then
                  call_int lib (Call "PyDict_SetItemString" [AObj moddict; AStr to_name; AObj value])
                else mret 0);
      Py_DECREF value;;
      mret result
  | None =>
      matches ← ExceptionMatches lib "AttributeError";
      if matches : bool then PyErr_Clear;; mret 0 else mret (-1)
  end.

(** The attributes of the spec that become attributes of the module. *)
Definition copied : list (string * string * bool) :=
  [("loader", "__loader__", true); ("origin", "__file__", true); ("parent", "__package__", true);
   ("submodule_search_locations", "__path__", false)]%string.

Fixpoint copy_spec_attributes (spec moddict : obj) (l : list (string * string * bool)) : M bool :=
  match l with
  | [] => mret true
  | (from_name, to_name, allow_none) :: l =>
      r ← copy_spec_to_module spec moddict from_name to_name allow_none;
      if r <? 0 then mret false else copy_spec_attributes spec moddict l
  end.

Definition create_module (spec : obj) : M (option obj) :=
  modname ← call_new lib (Call "PyObject_GetAttrString" [AObj spec; AStr "name"]);
  match modname with
  | None => mret None
  | Some modname =>
      module ← call_new lib (Call "PyModule_NewObject" [AObj modname]);
      Py_DECREF modname;;
      match module with
      | None => mret None
      | Some module =>
          moddict ← call_borrowed_or_raise (Call "PyModule_GetDict" [AObj module]);
          ok ← match moddict with
               | None => mret false
               | Some moddict => copy_spec_attributes spec moddict copied
               end;
          if ok : bool then mret (Some module) else Py_XDECREF (Some module);; mret None
      end
  end.

Definition pymod_create (spec : obj) (st : statics) : M (statics * option obj) :=
  '(st, r) ← check_single_interpreter st;
  if negb (r =? 0) then mret (st, None)
  else match module_ st with
  | Some m => m ← NewRef m; mret (st, Some m)
  | None => m ← create_module spec; mret (st, m)
  end.

(** ** The second phase *)

(** [__Pyx_check_binary_version]: both versions are cut off after three characters,
    of which the first and the third are compared.  [version] is [Py_GetVersion()]. *)
Context (major minor : Z) (version : bytes).

Definition ctversion : bytes := take 3 (to_string_int major ++ #"." ++ to_string_int minor).
Definition rtversion : bytes := take 3 version.
Definition char_at (s : bytes) (i : nat) : ascii := default nul (s !! i).

Definition check_binary_version : M Z :=
  if decide (char_at ctversion 0 ≠ char_at rtversion 0 ∨ char_at ctversion 2 ≠ char_at rtversion 2) then
    call_int lib (Call "PyErr_WarnEx" [])
  else mret 0.

(** [__pyx_module_is_main_simple] *)
Context (is_main : bool).

Definition empty_objects : I () :=
  check (fun _ => check_binary_version) (PYX_ERR 2480 0 1);;
  new_var "__pyx_empty_tuple" (fun _ => call_new lib (Call "PyTuple_New" [AInt 0])) (PYX_ERR 2484 0 1);;
  new_var "__pyx_empty_bytes" (fun _ => call_new lib (Call "PyBytes_FromStringAndSize" [])) (PYX_ERR 2485 0 1);;
  new_var "__pyx_empty_unicode" (fun _ => call_new lib (Call "PyUnicode_FromStringAndSize" [AStr ""; AInt 0])) (PYX_ERR 2486 0 1).

(** [__pyx_m = __pyx_pyinit_module; Py_INCREF(__pyx_m);] *)
Definition own_module (module : obj) : I () :=
  update (set_module (Some module));; run (fun _ => Py_INCREF module).

Definition dictionaries : I () :=
  borrowed_var "__pyx_d" (fun st => call_borrowed_or_raise (Call "PyModule_GetDict" [AObj (default O (module_ st))])) (PYX_ERR 2524 0 1);;
  borrowed_var "__pyx_b" (fun _ => call_borrowed_or_raise (Call "PyImport_AddModule" [AStr "builtins"])) (PYX_ERR 2526 0 1).

Definition runtime_module : I () :=
  borrowed_var "__pyx_cython_runtime" (fun _ => call_borrowed_or_raise (Call "PyImport_AddModule" [AStr "cython_runtime"])) (PYX_ERR 2528 0 1).

Definition set_builtins : I () :=
  check (fun st => call_int lib (Call "PyObject_SetAttrString"
    [AObj (default O (module_ st)); AStr "__builtins__"; AObj (default O (var st "__pyx_b"))])) (PYX_ERR 2530 0 1).

Definition register_module : I () :=
  (if is_main then
     check (fun st => call_int lib (Call "PyObject_SetAttr"
       [AObj (default O (module_ st)); AObj (name_of "__name__" st); AObj (name_of "__main__" st)])) (PYX_ERR 2537 0 1)
   else mret ());;
  modules ← run (fun _ => call_borrowed lib (Call "PyImport_GetModuleDict" []));
  match modules with
  | None => goto_error (PYX_ERR 2541 0 1)
  | Some modules =>
      present ← run (fun _ => call_borrowed lib (Call "PyDict_GetItemString" [AObj modules; AStr "simple"]));
      match present with
      | Some _ => mret ()
      | None => check (fun st => call_int lib (Call "PyDict_SetItemString"
                  [AObj modules; AStr "simple"; AObj (default O (module_ st))])) (PYX_ERR 2543 0 1)
      end
  end.

(** [print(second_function())] *)
Definition exec_print : I () :=
  t_1 ← run (fun st => second_function lib K (globals_of st));
  match t_1 with
  | None => goto_error (PYX_ERR 2569 0 12)
  | Some t_1 =>
      t_2 ← run (fun st => CallOneArg lib K (default O (var st "__pyx_builtin_print")) t_1);
      match t_2 with
      | None => goto_error (Failure 2571 12 "simple.pyx" [t_1])
      | Some t_2 => run (fun _ => Py_DECREF t_1);; run (fun _ => Py_DECREF t_2)
      end
  end.

(** [t_2 = m; if (!t_2) ...; if (PyDict_SetItem(__pyx_d, name, t_2) < 0) ...; Py_DECREF(t_2);]
    in lines [c] and [c + 2]. *)
Definition publish (name : string) (m : statics → M (option obj)) (c f_index : Z) : I () :=
  t_2 ← run m;
  match t_2 with
  | None => goto_error (PYX_ERR c f_index 1)
  | Some t_2 =>
      r ← run (fun st => call_int lib (Call "PyDict_SetItem"
        [AObj (default O (var st "__pyx_d")); AObj (name_of name st); AObj t_2]));
      if r <? 0 then goto_error (Failure (c + 2) 1 (filename (PYX_ERR c f_index 1)) [t_2])
      else run (fun _ => Py_DECREF t_2)
  end.

(** The stages of the initialisation that this module has no code for. *)
Definition modinit_global_init_code : I () := mret ().
Definition modinit_variable_export_code : I () := mret ().
Definition modinit_function_export_code : I () := mret ().
Definition modinit_type_import_code : I () := mret ().
Definition modinit_variable_import_code : I () := mret ().
Definition modinit_function_import_code : I () := mret ().

(** The statements of [__pyx_pymod_exec_simple] after the constants. *)
Definition exec_statements : I () :=
  register_module;;
  InitCachedBuiltins;;
  InitCachedConstants;;
  modinit_global_init_code;;
  modinit_variable_export_code;;
  modinit_function_export_code;;
  modinit_type_init_code;;
  modinit_type_import_code;;
  modinit_variable_import_code;;
  modinit_function_import_code;;
  exec_print;;
  publish "__pyx_unpickle_a_class" (fun st => call_new lib (Call "PyCFunction_NewEx" [AObj (name_of "simple" st)])) 2581 1;;
  publish "__test__" (fun _ => call_new lib (Call "PyDict_New" [])) 2591 0.

(** All statements up to its labels. *)
Definition exec_body (module : obj) : I () :=
  empty_objects;;
  own_module module;;
  dictionaries;;
  runtime_module;;
  set_builtins;;
  relocate (PYX_ERR 2532 0 1) InitGlobals;;
  exec_statements.

(** [__Pyx_AddTraceback] while some variables are not set: with a runtime module,
    the hash of the name [cline_in_traceback] is read. *)
Definition init_traceback (e : failure) (st : statics) : M () :=
  match var st "__pyx_cython_runtime", var st "__pyx_n_s_cline_in_traceback" with
  | Some _, None => lift (Undef null_deref)
  | _, _ => AddTraceback lib K (globals_of st) "init simple" (clineno e) (lineno e) (filename e)
  end.

(** The label [__pyx_L1_error]. *)
Definition exec_error (e : failure) (st : statics) : M statics :=
  xdecref_all (Some <$> temps e);;
  match module_ st with
  | Some m =>
      (match var st "__pyx_d" with Some _ => init_traceback e st | None => mret () end);;
      Py_DECREF m;;
      mret (set_module None st)
  | None =>
      occurred ← PyErr_Occurred;
      (if occurred : bool then mret () else PyErr_Set (PyExc "ImportError" "init simple"));;
      mret st
  end.

Definition pymod_exec (module : obj) (st : statics) : M (statics * Z) :=
  match module_ st with
  | Some m =>
      if decide (m = module) then mret (st, 0)
      else
        PyErr_Set (PyExc "RuntimeError" "Module 'simple' has already been imported. Re-initialisation is not supported.");;
        mret (st, -1)
  | None =>
      '(st, x) ← exec_body module st;
      st ← match x with inl e => exec_error e st | inr _ => mret st end;
      mret (st, match module_ st with Some _ => 0 | None => -1 end)
  end.
End Init.

(** ** The variables keep the books *)

(** What the static variables own. *)
Definition owned_vars (st : statics) : list obj := (map_to_list (vars st)).*2 ++ option_list (module_ st).

(** What the variables [xs] hold: lost when they are assigned. *)
Definition held_in (st : statics) (xs : list string) : list obj := omap (var st) xs.

Definition failed_at {A} (x : failure + A) : bool := match x with inl _ => true | inr _ => false end.
Definition temps_of {A} (x : failure + A) : list obj := match x with inl e => temps e | inr _ => [] end.

(** The position of an error fits into [int], as [__Pyx_AddTraceback] wants it. *)
Definition located {A} (x : failure + A) : Prop :=
  match x with inl e => int_min < clineno e ≤ int_max | inr _ => True end.

(** From [st] to [st'] the variables [ys] are assigned, of the variables [xs] in this
    order: all of them if there is no failure, and then all are set. *)
Record assigned (xs ys : list string) (st st' : statics) (failed : bool) : Prop := {
  as_sub : ys `sublist_of` xs;
  as_same v : v ∉ ys → var st' v = var st v;
  as_all : failed = false → ys = xs ∧ ∀ v, v ∈ xs → is_Some (var st' v) }.

(** [m] adds at most [k] tracebacks; it assigns the variables [xs] in this order, up
    to an error, and no others.  What is owned afterwards is what the variables hold,
    the temporaries of the error, and what the assigned variables held before. *)
Definition inited (k : Z) (xs : list string) (r : gmultiset obj) (n : Z) (L : list obj) (st : statics)
    {A} (y : statics * (failure + A)) (s : pystate) : Prop :=
  located y.2 ∧ module_ y.1 = module_ st ∧
  ∃ ys, holds r (n - k) (temps_of y.2 ++ owned_vars y.1 ++ held_in st ys ++ L) (failed_at y.2) s ∧
        assigned xs ys st y.1 (failed_at y.2).

Definition initialises (k : Z) (xs : list string) {A} (m : I A) : Prop :=
  ∀ r n es L b s st, local r n es (owned_vars st ++ L) b s → k ≤ n → wp (m st) (inited k xs r n L st) s.

Lemma var_set_eq x o st : var (set_var x o st) x = o.
Proof. apply lookup_partial_alter_eq. Qed.
Lemma var_set_ne x o st v : v ≠ x → var (set_var x o st) v = var st v.
Proof. intros H. by apply lookup_partial_alter_ne. Qed.

Lemma held_in_app st xs ys : held_in st (xs ++ ys) = held_in st xs ++ held_in st ys.
Proof. apply omap_app. Qed.

Lemma held_in_ext st st' xs : (∀ v, v ∈ xs → var st' v = var st v) → held_in st' xs = held_in st xs.
Proof.
  induction xs as [|x xs IH]; intros H; [done|]. unfold held_in in *. cbn.
  rewrite (H x) by left. rewrite IH; [done|]. intros v Hv. apply H. by right.
Qed.

(** An assignment swaps the new reference for the old one. *)
Lemma owned_set_var x o st :
  owned_vars (set_var x o st) ++ held_in st [x] ≡ₚ option_list o ++ owned_vars st.
Proof.
  unfold owned_vars, held_in, set_var, var. cbn [vars module_].
  assert (option_list (vars st !! x) ++ (map_to_list (delete x (vars st))).*2 ≡ₚ (map_to_list (vars st)).*2) as Hold.
  { destruct (vars st !! x) as [p|] eqn:E; cbn.
    - rewrite <- (map_to_list_delete _ _ _ E). done.
    - by rewrite delete_id. }
  assert ((map_to_list (partial_alter (fun _ => o) x (vars st))).*2
          ≡ₚ option_list o ++ (map_to_list (delete x (vars st))).*2) as Hnew.
  { destruct o as [p|]; cbn; [|done].
    change (partial_alter (fun _ => Some p) x (vars st)) with (<[x:=p]> (vars st)).
    rewrite <- insert_delete_eq, map_to_list_insert by apply lookup_delete_eq. done. }
  rewrite Hnew, <- Hold. unfold omap, list_omap. destruct (vars st !! x), o; cbn; rewrite ?app_nil_r; try done.
  all: rewrite <- ?Permutation_middle, <- ?Permutation_cons_append; try done; solve_Permutation.
Qed.

Lemma assigned_nil st st' b : (∀ v, var st' v = var st v) → assigned [] [] st st' b.
Proof. intros H. split; [done|auto|]. intros _. split; [done|]. by intros v ?%not_elem_of_nil. Qed.

Lemma assigned_one x o st b : (b = false → is_Some o) → assigned [x] [x] st (set_var x o st) b.
Proof.
  intros Ho. split; [done|intros v Hv; apply var_set_ne; set_solver|]. intros Hb. split; [done|].
  intros v ->%list_elem_of_singleton. rewrite var_set_eq. auto.
Qed.

Lemma assigned_stop xs zs ys st st' : assigned xs ys st st' true → assigned (xs ++ zs) ys st st' true.
Proof. intros [Hs Hv _]. split; [by apply sublist_inserts_r|done|done]. Qed.

Lemma assigned_app xs zs us st st1 st2 b :
  xs ## zs → assigned xs xs st st1 false → assigned zs us st1 st2 b →
  assigned (xs ++ zs) (xs ++ us) st st2 b ∧ held_in st1 us = held_in st us.
Proof.
  intros Hd [_ Hv1 Ha1] [Hs2 Hv2 Ha2]. destruct (Ha1 eq_refl) as [_ Hset]. split; [split|].
  - by apply sublist_app.
  - intros v [Hx Hu]%not_elem_of_app. by rewrite Hv2, Hv1.
  - intros Hb. destruct (Ha2 Hb) as [-> Hz]. split; [done|]. intros v [Hv|Hv]%elem_of_app; [|auto].
    rewrite Hv2; [auto|]. intros Hv'. by apply (Hd v).
  - apply held_in_ext. intros v Hv. apply Hv1. intros Hv'. apply (Hd v); [done|]. by apply (elem_of_sublist us).
Qed.

Lemma inited_stop {A B} k k' xs zs r n L st st1 e s :
  0 ≤ k' → inited k xs r n L st (st1, inl e : failure + A) s →
  inited (k + k') (xs ++ zs) r n L st (st1, inl e : failure + B) s.
Proof.
  intros Hk (Hl & Hm & ys & [es H] & Ha). split; [done|]. split; [done|]. exists ys. split; [|by apply assigned_stop].
  cbn in *. py_done.
Qed.

(** After a part that succeeded, what its variables held is owned like the rest. *)
Lemma inited_next {A} k xs r n L st st1 (a : A) s :
  inited k xs r n L st (st1, inr a) s →
  module_ st1 = module_ st ∧ assigned xs xs st st1 false ∧
  ∃ es, local r (n - k) es (owned_vars st1 ++ held_in st xs ++ L) false s.
Proof.
  intros (_ & Hm & ys & [es H] & Ha). destruct (as_all _ _ _ _ _ Ha eq_refl) as [-> _]. split; [done|]. split; [done|]. by exists es.
Qed.

Lemma inited_seq {A} k k' xs zs r n L st st1 (y : statics * (failure + A)) s :
  xs ## zs → module_ st1 = module_ st → assigned xs xs st st1 false →
  inited k' zs r (n - k) (held_in st xs ++ L) st1 y s → inited (k + k') (xs ++ zs) r n L st y s.
Proof.
  intros Hd Hm Ha (Hl & Hm' & us & [es H] & Ha'). split; [done|]. split; [congruence|].
  destruct (assigned_app _ _ _ _ _ _ _ Hd Ha Ha') as [Hall E]. rewrite E in H. exists (xs ++ us). split; [|done].
  exists es. apply (local_weaken _ (n - k - k') _ _ _ (failed_at y.2)); [lia|done|]. eapply local_perm; [|exact H].
  rewrite held_in_app, (Permutation_app_comm (held_in st xs)), <- !app_assoc. done.
Qed.

(** [I] inherits the rules of [M]. *)
Lemma wp_I_bind {A B} (m : I A) (g : A → I B) st s (Q : statics * (failure + B) → pystate → Prop) :
  wp (m st) (fun y s' => match y.2 with inl e => Q (y.1, inl e) s' | inr a => wp (g a y.1) Q s' end) s →
  wp ((m ≫= g) st) Q s.
Proof.
  intros H. apply wp_bind. eapply wp_mono; [exact H|]. intros [st' [e|a]] s'; [apply wp_ret|done].
Qed.
Lemma wp_run {A} (m : statics → M A) st s (Q : statics * (failure + A) → pystate → Prop) :
  wp (m st) (fun a => Q (st, inr a)) s → wp (run m st) Q s.
Proof. intros H. apply wp_bind. eapply wp_mono; [exact H|]. intros a s' Ha. by apply wp_ret. Qed.
Lemma wp_update f st s (Q : statics * (failure + ()) → pystate → Prop) : Q (f st, inr ()) s → wp (update f st) Q s.
Proof. intros H. by apply wp_ret. Qed.
Lemma wp_goto {A} e st s (Q : statics * (failure + A) → pystate → Prop) : Q (st, inl e) s → wp (goto_error e st) Q s.
Proof. intros H. by apply wp_ret. Qed.
Lemma wp_I_ret {A} (a : A) st s (Q : statics * (failure + A) → pystate → Prop) : Q (st, inr a) s → wp ((mret a : I A) st) Q s.
Proof. intros H. by apply wp_ret. Qed.

(** The next statement of an initialisation. *)
Ltac ini1 :=
  match goal with
  | |- wp (mbind _ _ _) _ _ => apply wp_I_bind
  | |- wp (run _ _) _ _ => apply wp_run
  | |- wp (update _ _) _ _ => apply wp_update
  | |- wp (goto_error _ _) _ _ => apply wp_goto
  | |- wp (mret _ _) _ _ => apply wp_I_ret
  end; cbn [fst snd].

(** The end of a path of an initialisation, without and with an assignment. *)
Lemma inited_none {A} k r n L st st' (x : failure + A) s :
  module_ st' = module_ st → vars st' = vars st → located x →
  holds r (n - k) (temps_of x ++ owned_vars st ++ L) (failed_at x) s → inited k [] r n L st (st', x) s.
Proof.
  intros Hm Hv Hl H. split; [done|]. split; [done|]. exists []. split; [|apply assigned_nil; intros v; unfold var; cbn; by rewrite Hv].
  cbn. unfold owned_vars in *. by rewrite Hm, Hv.
Qed.

Lemma inited_set {A} k x o r n es L b st (z : failure + A) s :
  located z → temps_of z = [] → (failed_at z = false → is_Some o) → 0 ≤ k →
  (failed_at z = true → b = true) → local r n es (option_list o ++ owned_vars st ++ L) b s → inited k [x] r n L st (set_var x o st, z) s.
Proof.
  intros Hl Ht Ho Hk Hb H. split; [done|]. split; [done|]. exists [x]. split; [|by apply assigned_one].
  cbn [fst snd] in *. rewrite Ht. exists es. apply (local_weaken _ n _ _ _ b); [lia|done|].
  eapply local_perm; [|exact H]. cbn [app]. by rewrite !app_assoc, owned_set_var.
Qed.

Ltac init_done :=
  first [ apply inited_none; cbn [temps_of failed_at app located] in *; [done|done|done|py_done]
        | eapply inited_set; [|done| |lia| |]; cbn [failed_at located option_list app]; [done|first [intros; discriminate|by intros; eexists]| |eassumption]; done ].

Lemma initialises_ret {A} (a : A) : initialises 0 [] (mret a).
Proof. intros r n es L b s st H Hk. ini1. init_done. Qed.

Lemma initialises_bind {A B} k1 k2 xs ys (m : I A) (g : A → I B) :
  0 ≤ k2 → xs ## ys → initialises k1 xs m → (∀ a, initialises k2 ys (g a)) →
  initialises (k1 + k2) (xs ++ ys) (m ≫= g).
Proof.
  intros Hk2 Hd Hm Hg r n es L b s st H Hk. apply wp_I_bind.
  eapply wp_mono; [eapply (Hm r n es L b s st H); lia|].
  intros [st1 [e|a]] s1 H1; cbn [fst snd]; [by eapply inited_stop|].
  destruct (inited_next _ _ _ _ _ _ _ _ _ H1) as (Hm1 & Ha & es1 & H2).
  eapply wp_mono; [eapply (Hg a _ _ _ _ _ _ _ H2); lia|]. intros y s2 H3. by eapply inited_seq.
Qed.

Lemma initialises_eq {A} k k' xs xs' (m : I A) : initialises k' xs' m → k' = k → xs' = xs → initialises k xs m.
Proof. by intros H <- <-. Qed.

(** A line of the C file. *)
Definition in_file (c : Z) : Prop := int_min < c ≤ int_max.

Lemma new_var_initialises x (m : statics → M (option obj)) c i l :
  in_file c → (∀ st, new_ref (m st)) → initialises 0 [x] (new_var x m (PYX_ERR c i l)).
Proof.
  intros Hc Hm r n es L b s st H Hk. unfold new_var. do 2 ini1.
  eapply (wp_new_ref _ _ _ _ _ _ _ _ (Hm st) H); clear H; [intros o s1 H|intros s1 H];
    cbn [fst snd]; repeat ini1; init_done.
Qed.

(** A call that answers with a number, negative with an exception. *)
Definition status_call (m : M Z) : Prop :=
  ∀ r n es L b s, local r n es L b s → wp m (fun a => local r n es L (a <? 0)) s.

Lemma check_initialises (m : statics → M Z) c i l :
  in_file c → (∀ st, status_call (m st)) → initialises 0 [] (check m (PYX_ERR c i l)).
Proof.
  intros Hc Hm r n es L b s st H Hk. unfold check. do 2 ini1.
  eapply wp_mono; [by eapply Hm|]. clear H. intros a s1 H. cbn [fst snd].
  destruct (a <? 0) eqn:E; ini1; init_done.
Qed.

Create HintDb pyinit discriminated.

Section InitSpecs.
Context (lib : list call → call → answer) (K : objects).
Context (None_ True_ False_ type_a_class : obj) (tp_dict : obj → obj).

Lemma call_int_status c : status_call (call_int lib c).
Proof. intros r n es L b s H. py. py_done. rewrite orb_comm. by intros ->. Qed.

Lemma wp_borrowed_or_raise r n es L b s c (Q : option obj → pystate → Prop) :
  local r n es L b s →
  (∀ o s', local r n es L b s' → Q (Some o) s') → (∀ s', local r n es L true s' → Q None s') →
  wp (call_borrowed_or_raise lib c) Q s.
Proof.
  intros H HS HN. unfold call_borrowed_or_raise, wp. destruct (a_obj _) as [o|]; eexists _, _; (split; [done|]).
  - apply HS. by destruct H.
  - apply HN. eapply local_same; [..|exact H]; try done. intros _. by eexists.
Qed.

Lemma borrowed_var_initialises x c0 c i l :
  in_file c → initialises 0 [x] (borrowed_var x (fun st => call_borrowed_or_raise lib (c0 st)) (PYX_ERR c i l)).
Proof.
  intros Hc r n es L b s st H Hk. unfold borrowed_var. do 2 ini1.
  apply (wp_borrowed_or_raise _ _ _ _ _ _ _ _ H); clear H; [intros o s1 H|intros s1 H]; cbn [fst snd]; repeat ini1.
  - py. ini1. init_done.
  - init_done.
Qed.

Lemma wp_hash r n es L b s o (Q : Z → pystate → Prop) :
  local r n es L b s → (∀ h s', local r n es L (h =? -1) s' → Q h s') → wp (PyObject_Hash lib o) Q s.
Proof.
  intros H HQ. eexists _, _. split; [done|]. apply HQ.
  eapply local_same; [..|exact H]; try (by destruct (_ =? -1)). intros Hb. rewrite Hb. by eexists.
Qed.

Lemma string_object_ref text intern : new_ref (string_object lib text intern).
Proof. destruct intern; apply call_new_ref. Qed.

(** The strings of the table, up to one that cannot be made. *)
Definition strings_made (t : list (string * string * bool)) r n es L st (y : statics * (failure + Z)) (s : pystate) : Prop :=
  ∃ z ys, y.2 = inr z ∧ local r n es (owned_vars y.1 ++ held_in st ys ++ L) (z <? 0) s ∧
          module_ y.1 = module_ st ∧ assigned t.*1.*1 ys st y.1 (z <? 0).

Lemma InitStrings_spec t r n es L b s st :
  NoDup t.*1.*1 → local r n es (owned_vars st ++ L) b s →
  wp (InitStrings lib t st) (strings_made t r n es L st) s.
Proof.
  revert L st b s. induction t as [|[[p text] intern] t IH]; intros L st b s Hnd H; cbn [InitStrings].
  { ini1. exists 0, []. split_and!; [done|by py_done|done|by apply assigned_nil]. }
  apply NoDup_cons in Hnd as [Hp Hnd]. change (p ∉ t.*1.*1) in Hp. change (NoDup t.*1.*1) in Hnd.
  assert (∀ o s1, local r n es (option_list o ++ owned_vars st ++ L) true s1 →
          strings_made ((p, text, intern) :: t) r n es L st (set_var p o st, inr (-1)) s1) as Hstop.
  { intros o s1 H1. exists (-1), [p]. split_and!; [done| |done|].
    - eapply local_perm; [|exact H1]. cbn [fst]. by rewrite !app_assoc, owned_set_var.
    - by apply (assigned_stop [p]), assigned_one. }
  do 2 ini1. eapply (wp_new_ref _ _ _ _ _ _ _ _ (string_object_ref text intern) H); clear H; [intros o s1 H|intros s1 H]; cbn [fst snd]; repeat ini1.
  2: by apply (Hstop None).
  eapply (wp_hash _ _ _ _ _ _ _ _ H). clear H. intros h s2 H. cbn [fst snd].
  destruct (h =? -1); [ini1; by apply (Hstop (Some o))|].
  apply (local_perm _ _ _ _ (owned_vars (set_var p (Some o) st) ++ held_in st [p] ++ L)) in H.
  2: by rewrite !app_assoc, owned_set_var.
  eapply wp_mono; [by eapply IH|]. intros [st2 x] s3 (z & us & Ex & H3 & Hm & Ha). cbn [fst snd] in Ex, H3, Hm, Ha. subst x.
  assert (assigned [p] [p] st (set_var p (Some o) st) false) as Hone by (by apply assigned_one).
  destruct (assigned_app [p] _ _ _ _ _ _ ltac:(intros v ->%list_elem_of_singleton; exact Hp) Hone Ha) as [Hall E]. rewrite E in H3.
  exists z, ([p] ++ us). split_and!; [done| |done|exact Hall].
  eapply local_perm; [|exact H3]. cbn [fst]. rewrite held_in_app, (Permutation_app_comm (held_in st [p])), <- !app_assoc. done.
Qed.

Definition string_vars : list string := string_tab.*1.*1.
Definition global_vars : list string := string_vars ++ ["__pyx_int_0"; "__pyx_int_100"; "__pyx_int_222419149"]%string.

(** Lists of variables that have none in common. *)
Lemma disjoint_forall (xs ys : list string) : xs ## ys ↔ Forall (.∉ ys) xs.
Proof. rewrite Forall_forall. done. Qed.
#[local] Instance disjoint_dec (xs ys : list string) : Decision (xs ## ys).
Proof. refine (cast_if (decide (Forall (.∉ ys) xs))); by rewrite disjoint_forall. Defined.
Ltac disjoint := apply (bool_decide_unpack _); by vm_compute.

(** A sequence of statements, one after the other. *)
Ltac init_parts :=
  lazymatch goal with
  | |- initialises _ _ (mbind _ _) =>
      eapply initialises_bind; [| |init_parts|intros _; init_parts]; [by vm_compute|disjoint]
  | |- initialises _ _ (new_var _ _ _) =>
      apply new_var_initialises; [by vm_compute|intros ?; eauto using call_new_ref, GetBuiltinName_ref]
  | |- initialises _ _ (check _ _) =>
      apply check_initialises; [by vm_compute|intros ?; eauto using call_int_status with pyinit]
  | |- initialises _ _ (mret _) => apply initialises_ret
  | |- initialises _ _ _ => eauto with pyinit
  end.
Ltac initialise := eapply initialises_eq; [init_parts|done|done].

Lemma init_string_tab_initialises : initialises 0 string_vars (init_string_tab lib).
Proof.
  intros r n es L b s st H Hk. unfold init_string_tab. ini1.
  eapply wp_mono; [eapply InitStrings_spec; [disjoint|exact H]|].
  intros [st' x] s' (z & ys & Ex & H' & Hm & Ha). cbn [fst snd] in *. subst x.
  destruct (z <? 0) eqn:E; ini1; (split; [done|split; [done|]]); exists ys; (split; [|done]);
    exists es; cbn [temps_of failed_at fst snd app]; (eapply local_weaken; [..|exact H']; [lia|done]).
Qed.

Hint Resolve init_string_tab_initialises : pyinit.

Lemma InitGlobals_initialises : initialises 0 global_vars (InitGlobals lib).
Proof. unfold InitGlobals. initialise. Qed.
Hint Resolve InitGlobals_initialises : pyinit.

Lemma relocate_initialises {A} k xs c i l (m : I A) :
  in_file c → initialises k xs m → initialises k xs (relocate (PYX_ERR c i l) m).
Proof.
  intros Hc Hm r n es L b s st H Hk. unfold relocate. apply wp_bind. eapply wp_mono; [by eapply Hm|].
  intros [st1 [e|a]] s1 (Hl & Hm1 & ys & H1 & Ha); apply wp_ret; (split; [done|split; [done|]]); by exists ys.
Qed.

Lemma InitCachedBuiltins_initialises :
  initialises 0 ["__pyx_builtin_print"; "__pyx_builtin_range"]%string (InitCachedBuiltins lib K None_ True_ False_).
Proof. unfold InitCachedBuiltins. initialise. Qed.

Lemma InitCachedConstants_initialises :
  initialises 0 ["__pyx_tuple_"; "__pyx_codeobj__2"]%string (InitCachedConstants lib None_ True_ False_).
Proof. unfold InitCachedConstants. initialise. Qed.

Lemma SetVtable_status d v : status_call (SetVtable lib d v).
Proof.
  intros r n es L b s H. unfold SetVtable. py; cbn; py_done. case_match; [by rewrite orb_true_r|done].
Qed.

Lemma is_named_spec G meth name r n es L b s (Q : Z → pystate → Prop) :
  local r n es L b s → (∀ a s', local r n es L false s' → Q a s') → wp (setup_reduce_is_named lib K G meth name) Q s.
Proof.
  intros H HQ. unfold setup_reduce_is_named, GetAttrStr, PyErr_Clear. py; apply HQ; py_done.
Qed.

Hint Resolve GetAttrStr_ref : pyref.

Ltac pyi :=
  repeat (first
    [ match goal with
      | H : local _ _ _ _ _ ?s |- wp (setup_reduce_is_named _ _ _ _ _) _ ?s =>
          let s' := fresh "s" in let a := fresh "a" in
          apply (is_named_spec _ _ _ _ _ _ _ _ _ _ H); clear H; intros a s' H
      end
    | pym1 ]; cbn beta iota; cbn [xdecref_all]).

Lemma setup_setstate_spec G ret t rd rx rc r n es L b s :
  0 ≤ ret → local r n es (rc :: rd :: rx :: L) b s →
  wp (setup_setstate lib K tp_dict G ret t rd rx rc) (fun a => local r n es L (a <? 0)) s.
Proof.
  intros Hret H. unfold setup_setstate, setup_bad, setup_good. pyi; py_done; lia.
Qed.

Lemma setup_reduce_method_spec G t rd rx r n es L b s :
  local r n es (rd :: rx :: L) b s →
  wp (setup_reduce_method lib K tp_dict G t rd rx) (fun a => local r n es L (a <? 0)) s.
Proof.
  intros H. unfold setup_reduce_method, setup_bad, setup_good. pyi; try py_done.
  eapply setup_setstate_spec; [by apply Z.ltb_ge|exact H].
Qed.

Lemma setup_reduce_status G t : status_call (setup_reduce lib K tp_dict G t).
Proof.
  intros r n es L b s H. unfold setup_reduce, setup_bad, setup_good. pyi; try py_done.
  all: by eapply setup_reduce_method_spec.
Qed.
Hint Resolve SetVtable_status setup_reduce_status : pyinit.
Hint Resolve InitCachedBuiltins_initialises InitCachedConstants_initialises : pyinit.

(** Assignments to the variables that are not references. *)
Lemma update_initialises (f : statics → statics) :
  (∀ st, vars (f st) = vars st ∧ module_ (f st) = module_ st) → initialises 0 [] (update f).
Proof.
  intros Hf r n es L b s st H Hk. destruct (Hf st) as [Ev Em]. ini1. init_done.
Qed.

Lemma modinit_type_initialises :
  initialises 0 [] (modinit_type_init_code lib K None_ True_ False_ type_a_class tp_dict).
Proof.
  unfold modinit_type_init_code. eapply initialises_eq; [|done|done].
  repeat (eapply (initialises_bind 0 0 [] []); [done|set_solver| |intros _]); try by apply update_initialises.
  all: init_parts.
Qed.
Hint Resolve modinit_type_initialises : pyinit.

Lemma version_status major minor version : status_call (check_binary_version lib major minor version).
Proof.
  intros r n es L b s H. unfold check_binary_version. case_decide; [exact (call_int_status _ _ _ _ _ _ _ H)|py; py_done].
Qed.
Hint Resolve version_status : pyinit.

Definition empty_vars : list string := ["__pyx_empty_tuple"; "__pyx_empty_bytes"; "__pyx_empty_unicode"]%string.

Lemma empty_objects_initialises major minor version :
  initialises 0 empty_vars
    (empty_objects lib major minor version).
Proof. unfold empty_objects. initialise. Qed.

Lemma dictionaries_initialises : initialises 0 ["__pyx_d"; "__pyx_b"]%string (dictionaries lib).
Proof.
  unfold dictionaries. apply (initialises_bind 0 0 ["__pyx_d"] ["__pyx_b"])%string; [done|disjoint| |intros _];
    by apply borrowed_var_initialises.
Qed.

Lemma runtime_initialises : initialises 0 ["__pyx_cython_runtime"]%string (runtime_module lib).
Proof. by apply borrowed_var_initialises. Qed.

Lemma exec_print_initialises : initialises 1 [] (exec_print lib K None_ True_ False_).
Proof.
  intros r n es L b s st H Hk. unfold exec_print. do 2 ini1.
  eapply wp_balanced; [apply second_function_balanced|exact H|done|clear H; intros o es' s' H|clear H; intros es' s' H];
    cbn [fst snd].
  - do 2 ini1. eapply wp_new_ref; [apply CallOneArg_ref|exact H|clear H; intros o2 s2 H|clear H; intros s2 H]; cbn [fst snd].
    + do 2 ini1. py. ini1. py. init_done.
    + ini1. init_done.
  - ini1. init_done.
Qed.

Lemma publish_initialises name m c i :
  in_file c → in_file (c + 2) → (∀ st, new_ref (m st)) → initialises 0 [] (publish lib None_ True_ False_ name m c i).
Proof.
  intros Hc Hc2 Hm r n es L b s st H Hk. unfold publish. do 2 ini1.
  eapply wp_new_ref; [apply Hm|exact H|clear H; intros o s1 H|clear H; intros s1 H]; cbn [fst snd].
  - do 2 ini1. py; cbn [fst snd]; rewrite ?orb_false_l in *.
    destruct (a <? 0) eqn:E; ini1; [init_done|]. py. init_done.
  - ini1. init_done.
Qed.

Hint Resolve exec_print_initialises : pyinit.
Hint Extern 1 (initialises _ _ (publish _ _ _ _ _ _ _ _)) =>
  apply publish_initialises; [by vm_compute|by vm_compute|intros; apply call_new_ref] : pyinit.

(** The dictionary of modules is always there. *)
Hypothesis modules_exist : ∀ tr, is_Some (a_obj (lib tr (Call "PyImport_GetModuleDict" []))).

Lemma register_initialises is_main : initialises 0 [] (register_module lib None_ True_ False_ is_main).
Proof.
  unfold register_module. apply (initialises_bind 0 0 [] []); [done|disjoint| |intros _].
  { destruct is_main; [init_parts|apply initialises_ret]. }
  intros r n es L b s st H Hk. do 2 ini1. destruct (modules_exist (trace s)) as [modules E].
  eexists _, _. split; [done|]. cbn [fst snd]. rewrite E. do 2 ini1. apply (local_same _ _ _ _ b b _ (log (Call "PyImport_GetModuleDict" []) s)) in H;
    [|done|done|intros ->; by apply (l_exc _ _ _ _ _ _ H)].
  py1. cbn [fst snd]. destruct a.
  - ini1. init_done.
  - exact (check_initialises _ 2543 0 1 ltac:(by vm_compute) (fun st => call_int_status _) r n es L b _ st H Hk).
Qed.
Hint Resolve register_initialises : pyinit.

(** The variables that are assigned after the constants. *)
Definition late_vars : list string :=
  ["__pyx_builtin_print"; "__pyx_builtin_range"; "__pyx_tuple_"; "__pyx_codeobj__2"]%string.

Lemma exec_statements_initialise is_main :
  initialises 1 late_vars (exec_statements lib K None_ True_ False_ type_a_class tp_dict is_main).
Proof.
  unfold exec_statements, modinit_global_init_code, modinit_variable_export_code, modinit_function_export_code,
    modinit_type_import_code, modinit_variable_import_code, modinit_function_import_code.
  initialise.
Qed.

Lemma wp_eq {A} (m : M A) Q s : wp m Q s → wp m (fun a s' => Q a s' ∧ m s = Done (Ok (a, s'))) s.
Proof. intros (a & s' & E & HQ). exists a, s'. auto. Qed.

(** A failed [check] and a failed [relocate] are where they say. *)
Lemma check_where m e st s st' e' s' : check m e st s = Done (Ok ((st', inl e'), s')) → e' = e.
Proof.
  cbv [check run goto_error mbind mret I_bind I_ret M_bind M_ret fuelled_bind fuelled_ret].
  destruct (m st s) as [[[a s1]| | |]|]; try discriminate. destruct (a <? 0); intros E; by inversion E.
Qed.
Lemma relocate_where {A} e (m : I A) st s st' e' s' :
  relocate e m st s = Done (Ok ((st', inl e'), s')) → clineno e' = clineno e.
Proof.
  cbv [relocate mbind mret M_bind M_ret fuelled_bind fuelled_ret].
  destruct (m st s) as [[[[st1 [x|x]] s1]| | |]|]; try discriminate; intros E; by inversion E.
Qed.

Lemma borrowed_where x (c : statics → call) e st s st' e' s' :
  borrowed_var x (fun st => call_borrowed_or_raise lib (c st)) e st s = Done (Ok ((st', inl e'), s')) → var st' x = None.
Proof.
  cbv [borrowed_var run update goto_error mbind mret I_bind I_ret M_bind M_ret fuelled_bind fuelled_ret
       call_borrowed_or_raise Py_INCREF modify].
  destruct (a_obj _); intros E; inversion E. apply var_set_eq.
Qed.

Lemma runtime_where st s st' e s' :
  runtime_module lib st s = Done (Ok ((st', inl e), s')) → var st' "__pyx_cython_runtime" = None.
Proof. apply borrowed_where. Qed.

(** A traceback that is added does not read a name that is not there yet. *)
Definition traceable (st : statics) : Prop :=
  is_Some (var st "__pyx_cython_runtime") → is_Some (var st "__pyx_n_s_cline_in_traceback").

(** Where an error of [exec_body] may be. *)
Definition traced {A} (y : statics * (failure + A)) : Prop :=
  match y.2 with inl e => clineno e = 2530 ∨ clineno e = 2532 ∨ traceable y.1 | inr _ => True end.

Section Exec.
Context (major minor : Z) (version : bytes) (is_main : bool) (module : obj).
Abbreviation builtins := (set_builtins lib).
Abbreviation constants := (relocate (PYX_ERR 2532 0 1) (InitGlobals lib)).
Abbreviation statements := (exec_statements lib K None_ True_ False_ type_a_class tp_dict is_main).

Lemma constants_and_statements r n es L b s st :
  local r n es (owned_vars st ++ L) b s → 1 ≤ n →
  wp ((builtins;; constants;; statements) st)
     (fun y s' => inited 1 (global_vars ++ late_vars) r n L st y s' ∧ traced y) s.
Proof.
  intros H Hn.
  assert (initialises 0 [] builtins) as Hb by (unfold set_builtins; init_parts).
  assert (initialises 0 global_vars constants) as Hc by (apply relocate_initialises; [by vm_compute|apply InitGlobals_initialises]).
  ini1. eapply wp_mono; [apply wp_eq, (Hb r n es L b s st H); lia|]. clear H.
  intros [st1 [e1|[]]] s1 [H1 E1]; cbn [fst snd].
  { apply check_where in E1. subst e1. split; [by apply (inited_stop (A := ()) 0 1 [] _)|by left]. }
  destruct (inited_next _ _ _ _ _ _ _ _ _ H1) as (Hm1 & Ha1 & es1 & H).
  ini1. eapply wp_mono; [apply wp_eq, (Hc _ _ _ _ _ _ _ H); lia|]. clear H.
  intros [st2 [e2|[]]] s2 [H2 E2]; cbn [fst snd].
  { apply relocate_where in E2. split; [|by right; left].
    apply (inited_seq 0 1 [] (global_vars ++ late_vars) _ _ _ _ _ _ _ ltac:(disjoint) Hm1 Ha1). exact (inited_stop (A := ()) 0 1 global_vars _ _ _ _ _ _ _ _ ltac:(done) H2). }
  destruct (inited_next _ _ _ _ _ _ _ _ _ H2) as (Hm2 & Ha2 & es2 & H).
  eapply wp_mono; [eapply (exec_statements_initialise is_main _ _ _ _ _ _ _ H); lia|]. clear H.
  intros y s3 H3. split.
  - apply (inited_seq 0 1 [] (global_vars ++ late_vars) _ _ _ _ _ _ _ ltac:(disjoint) Hm1 Ha1).
    apply (inited_seq 0 1 global_vars late_vars _ _ _ _ _ _ _ ltac:(disjoint) Hm2 Ha2). exact H3.
  - destruct y as [st3 [e3|[]]]; cbn; [|done]. right; right. intros _.
    destruct H3 as (_ & _ & ys & _ & Ha3). rewrite (as_same _ _ _ _ _ Ha3).
    + apply (as_all _ _ _ _ _ Ha2); [done|disjoint].
    + assert ("__pyx_n_s_cline_in_traceback"%string ∉ late_vars) as Hnl by disjoint. intros Hv.
      by apply Hnl, (elem_of_sublist ys), (as_sub _ _ _ _ _ Ha3).
Qed.

(** Two variables decide whether a traceback can be added. *)
Lemma traceable_ext st st' :
  var st' "__pyx_cython_runtime" = var st "__pyx_cython_runtime" →
  var st' "__pyx_n_s_cline_in_traceback" = var st "__pyx_n_s_cline_in_traceback" → traceable st → traceable st'.
Proof. unfold traceable. by intros -> ->. Qed.

Definition early_vars : list string := ["__pyx_d"; "__pyx_b"; "__pyx_cython_runtime"]%string.
Definition all_vars : list string :=
  empty_vars ++ early_vars ++ global_vars ++ late_vars.

Lemma traceable_assigned xs ys st st1 b :
  bool_decide ("__pyx_cython_runtime"%string ∈ xs) = false → bool_decide ("__pyx_n_s_cline_in_traceback"%string ∈ xs) = false →
  assigned xs ys st st1 b → traceable st → traceable st1.
Proof.
  intros Hr%bool_decide_eq_false Hc%bool_decide_eq_false [Hs Hv _].
  apply traceable_ext; apply Hv; intros Hy; by apply (elem_of_sublist _ _ _ Hy) in Hs.
Qed.

Lemma dictionaries_and_rest r n es L b s st :
  local r n es (owned_vars st ++ L) b s → 1 ≤ n → traceable st →
  wp ((dictionaries lib;; runtime_module lib;; builtins;; constants;; statements) st)
     (fun y s' => inited 1 (early_vars ++ global_vars ++ late_vars) r n L st y s' ∧ traced y) s.
Proof.
  intros H Hn Ht. ini1. eapply wp_mono; [eapply (dictionaries_initialises _ _ _ _ _ _ _ H); lia|]. clear H.
  intros [st1 [e1|[]]] s1 H1; cbn [fst snd].
  { split; [exact (inited_stop (A := ()) 0 1 ["__pyx_d"; "__pyx_b"]%string _ _ _ _ _ _ _ _ ltac:(done) H1)|]. right; right. destruct H1 as (_ & _ & ys & _ & Ha).
    by eapply traceable_assigned; [..|exact Ha|]. }
  destruct (inited_next _ _ _ _ _ _ _ _ _ H1) as (Hm1 & Ha1 & es1 & H).
  ini1. eapply wp_mono; [apply wp_eq, (runtime_initialises _ _ _ _ _ _ _ H); lia|]. clear H.
  intros [st2 [e2|[]]] s2 [H2 E2]; cbn [fst snd].
  { split.
    - apply (inited_seq 0 1 ["__pyx_d"; "__pyx_b"]%string (["__pyx_cython_runtime"]%string ++ global_vars ++ late_vars) _ _ _ _ _ _ _ ltac:(disjoint) Hm1 Ha1).
      exact (inited_stop (A := ()) 0 1 ["__pyx_cython_runtime"]%string _ _ _ _ _ _ _ _ ltac:(done) H2).
    - right; right. unfold traceable. apply runtime_where in E2. cbn. rewrite E2. by intros [? ?]. }
  destruct (inited_next _ _ _ _ _ _ _ _ _ H2) as (Hm2 & Ha2 & es2 & H).
  eapply wp_mono; [eapply (constants_and_statements _ _ _ _ _ _ _ H); lia|]. clear H.
  intros y s3 [H3 Hw]. split; [|done].
  apply (inited_seq 0 1 ["__pyx_d"; "__pyx_b"]%string (["__pyx_cython_runtime"]%string ++ global_vars ++ late_vars) _ _ _ _ _ _ _ ltac:(disjoint) Hm1 Ha1).
  apply (inited_seq 0 1 ["__pyx_cython_runtime"]%string (global_vars ++ late_vars) _ _ _ _ _ _ _ ltac:(disjoint) Hm2 Ha2). exact H3.
Qed.

Abbreviation body := (exec_body lib K None_ True_ False_ type_a_class tp_dict major minor version is_main module).
Abbreviation exec := (pymod_exec lib K None_ True_ False_ type_a_class tp_dict major minor version is_main module).

(** What [exec_body] leaves. *)
Definition body_left r n L (st : statics) (y : statics * (failure + ())) (s : pystate) : Prop :=
  located y.2 ∧ traced y ∧ (failed_at y.2 = false → module_ y.1 = Some module) ∧
  ∃ ys, holds r (n - 1) (temps_of y.2 ++ owned_vars y.1 ++ held_in st ys ++ L) (failed_at y.2) s ∧
        assigned all_vars ys st y.1 (failed_at y.2).

Lemma exec_body_spec r n es L b s st :
  local r n es (owned_vars st ++ L) b s → 1 ≤ n → module_ st = None → traceable st →
  wp (body st) (body_left r n L st) s.
Proof.
  intros H Hn Hm Ht. unfold exec_body. ini1.
  eapply wp_mono; [eapply (empty_objects_initialises _ _ _ _ _ _ _ _ _ _ H); lia|]. clear H.
  intros [st1 [e1|[]]] s1 H1; cbn [fst snd].
  { destruct (inited_stop (A := ()) (B := ()) 0 1 _ (early_vars ++ global_vars ++ late_vars) _ _ _ _ _ _ _ ltac:(done) H1) as (Hl & _ & ys & H & Ha).
    split; [done|]. split; [|split; [done|by exists ys]].
    right; right. destruct H1 as (_ & _ & zs & _ & Ha1). by eapply traceable_assigned; [..|exact Ha1|]. }
  destruct (inited_next _ _ _ _ _ _ _ _ _ H1) as (Hm1 & Ha1 & es1 & H).
  unfold own_module. do 4 ini1. py. cbn [fst snd]. set (st1' := set_module (Some module) st1).
  assert (assigned empty_vars
    empty_vars st st1' false) as Ha1'.
  { by destruct Ha1 as [? ? ?]. }
  apply (local_perm _ _ _ _ (owned_vars st1' ++ held_in st empty_vars ++ L)) in H.
  2:{ unfold owned_vars, st1'. rewrite Hm1, Hm. cbn [module_ set_module option_list]. rewrite app_nil_r.
      cbn [vars set_module]. rewrite <- (app_assoc _ [module]). symmetry. apply Permutation_middle. }
  eapply wp_mono; [eapply (dictionaries_and_rest _ _ _ _ _ _ _ H); [lia|]|].
  { by eapply traceable_assigned; [..|exact Ha1'|]. }
  clear H. intros [st2 x] s2 [(Hl2 & Hm2 & us & [es2 H] & Ha2) Hw]. cbn [fst snd] in *. split; [done|]. split; [done|].
  split; [cbn [fst snd]; by rewrite Hm2|]. destruct (assigned_app empty_vars (early_vars ++ global_vars ++ late_vars) _ _ _ _ _ ltac:(disjoint) Ha1' Ha2) as [Hall E].
  eexists. split; [|exact Hall]. rewrite E in H. exists es2.
  apply (local_weaken _ (n - 0 - 1) _ _ _ (failed_at x)); [lia|done|]. eapply local_perm; [|exact H].
  cbn [fst snd]. rewrite held_in_app, (Permutation_app_comm (held_in st empty_vars)), <- !app_assoc. done.
Qed.

Lemma xdecref_temps os r n es L b s (Q : () → pystate → Prop) :
  local r n es (os ++ L) b s → (∀ s', local r n es L b s' → Q () s') → wp (xdecref_all (Some <$> os)) Q s.
Proof.
  revert s. induction os as [|o os IH]; intros s H HQ; cbn.
  - apply wp_ret. auto.
  - apply wp_bind. apply (wp_decref_local _ _ _ [] (os ++ L) _ _ _ _ H). intros s' H'. by apply IH.
Qed.

(** What the label of errors leaves: the variables keep what they own, but for the
    module. *)
Definition cleaned (r : gmultiset obj) (n : Z) (L : list obj) (st st' : statics) (s : pystate) : Prop :=
  holds r n (owned_vars st' ++ L) true s ∧ st' = set_module None st.

Lemma clear_module_spec m r n n' es L s st :
  local r n' es (owned_vars st ++ L) true s → n ≤ n' → module_ st = Some m →
  wp (Py_DECREF m;; mret (set_module None st)) (cleaned r n L st) s.
Proof.
  intros H Hn Em. unfold cleaned, owned_vars in *. rewrite Em, <- app_assoc in H. apply wp_bind.
  apply (wp_decref_local _ _ _ _ _ _ _ _ _ H). clear H. intros s2 H. cbn [app] in H. apply wp_ret. split; [|done].
  cbn. rewrite app_nil_r. py_done.
Qed.

Lemma exec_error_spec e r n es L s st :
  local r n es (temps e ++ owned_vars st ++ L) true s → 1 ≤ n → int_min < clineno e ≤ int_max →
  wp (exec_error lib K None_ True_ False_ e st) (cleaned r (n - 1) L st) s ∨
  exec_error lib K None_ True_ False_ e st s = Done (Undef null_deref) ∧ ¬ traceable st.
Proof.
  intros H Hn Hc. unfold exec_error.
  destruct (xdecref_temps _ r n es _ true s (fun _ => local r n es (owned_vars st ++ L) true) H ltac:(done)) as ([] & s1 & E & H1).
  assert (∀ (k : M statics) Q, wp k Q s1 → wp (xdecref_all (Some <$> temps e);; k) Q s) as Hx.
  { intros k Q Hk. apply wp_bind. by exists (), s1. }
  destruct (module_ st) as [m|] eqn:Em.
  2:{ left. apply Hx. py; (split; [py_done|by destruct st; cbn in *; subst]). }
  destruct (var st "__pyx_d") as [d|].
  2:{ left. apply Hx. py1; py1. eapply clear_module_spec; [exact H1|lia|done]. }
  unfold init_traceback. destruct (var st "__pyx_cython_runtime") as [rt|] eqn:Er.
  1: destruct (var st "__pyx_n_s_cline_in_traceback") as [cl|] eqn:Ec.
  2:{ right. split.
      - unfold mbind at 1, M_bind. by rewrite E.
      - intros Ht. destruct (Ht ltac:(by rewrite Er)) as [? ?]. congruence. }
  all: left; apply Hx, wp_bind; eapply wp_traceback; [exact H1|done|done|]; clear H1; intros es' s' H1.
  all: eapply clear_module_spec; [exact H1|done|done].
Qed.

End Exec.

(** ** The first phase *)

Lemma copy_spec_status spec d f t a : status_call (copy_spec_to_module lib None_ spec d f t a).
Proof.
  intros r n es L b s H. unfold copy_spec_to_module, ExceptionMatches. py; py_done. intros ->. by rewrite orb_true_r.
Qed.

Lemma copy_all_spec spec d l r n es L b s :
  local r n es L b s → wp (copy_spec_attributes lib None_ spec d l) (fun ok => local r n es L (negb ok)) s.
Proof.
  revert b s. induction l as [|[[f t] a] l IH]; intros b s H; cbn [copy_spec_attributes]; [py; py_done|].
  py1. eapply wp_mono; [exact (copy_spec_status _ _ _ _ _ _ _ _ _ _ _ H)|]. clear H. intros z s1 H. cbn beta in H.
  destruct (z <? 0); [py; py_done|by eapply IH].
Qed.

Lemma create_module_ref spec : new_ref (create_module lib None_ spec).
Proof.
  intros r n es L b s H. unfold create_module. py; try py_done.
  apply (wp_borrowed_or_raise _ _ _ _ _ _ _ _ H); clear H; [intros d s' H|intros s' H]; apply wp_bind.
  - eapply wp_mono; [by eapply copy_all_spec|]. clear H. intros [] s'' H; py; py_done.
  - py. py_done.
Qed.

Lemma tp_new_ref st abstract t : new_ref (tp_new lib None_ True_ False_ st abstract t).
Proof. intros r n es L b s H. unfold tp_new. destruct abstract; py; py_done. Qed.

Lemma single_interpreter_spec st r n es L b s :
  local r n es L b s →
  wp (check_single_interpreter lib st) (fun '(st', z) s' =>
    local r n es L (negb (z =? 0)) s' ∧ vars st' = vars st ∧ module_ st' = module_ st) s.
Proof.
  intros H. unfold check_single_interpreter. do 2 py1.
  destruct (main_interpreter_id st =? -1); [|py; (split; [py_done|done])].
  py1. split; [|done]. py_done. destruct (a =? -1) eqn:E; [|done]. intros _. apply Z.eqb_eq in E as ->. by rewrite orb_true_r.
Qed.

(** The first phase owns nothing but the module it returns, and changes no variable
    but the one that remembers the interpreter. *)
Lemma pymod_create_spec spec st r n es L b s :
  local r n es L b s →
  wp (pymod_create lib None_ spec st) (fun '(st', o) s' =>
    local r n es (held o L) (failed o false) s' ∧ vars st' = vars st ∧ module_ st' = module_ st) s.
Proof.
  intros H. unfold pymod_create, NewRef. apply wp_bind. eapply wp_mono; [by eapply single_interpreter_spec|].
  clear H. intros [st' z] s' (H & Hv & Hm). destruct (z =? 0); cbn [negb] in *; [|py; (split; [py_done|done])].
  pose proof (create_module_ref spec) as Hc. destruct (module_ st') eqn:Em; [py; (split_and!; [py_done|done|congruence])|].
  apply wp_bind. eapply wp_new_ref; [exact Hc|exact H|..]; clear H; [intros o s1 H|intros s1 H]; py;
    (split_and!; [py_done|done|congruence]).
Qed.
End InitSpecs.

(** C17: a module that is loaded is not loaded again: in its interpreter the first phase
    returns the module with a new reference, and the second one does nothing; in
    another interpreter the first phase fails, and for another module object the
    second; nothing else is owned after any of them and no variable changes. *)
Theorem module_loaded_once lib K None_ True_ False_ t tp_dict major minor version is_main spec m st s :
  module_ st = Some m → 0 ≤ main_interpreter_id st →
  let id := a_int (lib (trace s) (Call "PyInterpreterState_GetID" [])) in
  let exec o := pymod_exec lib K None_ True_ False_ t tp_dict major minor version is_main o st s in
  (id = main_interpreter_id st →
   ∃ s', pymod_create lib None_ spec st s = Done (Ok ((st, Some m), s')) ∧
         refs s' = {[+ m +]} ⊎ refs s ∧ err s' = err s ∧ cache s' = cache s) ∧
  (id ≠ main_interpreter_id st →
   ∃ s' what, pymod_create lib None_ spec st s = Done (Ok ((st, None), s')) ∧
         refs s' = refs s ∧ err s' = Some (PyExc "ImportError" what) ∧ cache s' = cache s) ∧
  exec m = Done (Ok ((st, 0), s)) ∧
  (∀ m', m' ≠ m → ∃ what, exec m' = Done (Ok ((st, -1), set_err (Some (PyExc "RuntimeError" what)) s))).
Proof.
  intros Hm Hid id exec.
  assert ((main_interpreter_id st =? -1) = false) as E1 by (apply Z.eqb_neq; lia).
  split_and!.
  - intros Eid. unfold pymod_create, check_single_interpreter. rewrite E1.
    cbv [mbind mret M_bind M_ret fuelled_bind fuelled_ret call_int]. fold id. rewrite Eid, Z.eqb_refl. cbn [negb]. rewrite Hm.
    rewrite (proj2 (Z.ltb_ge _ 0) Hid). eexists. split; [reflexivity|done].
  - intros Eid. unfold pymod_create, check_single_interpreter. rewrite E1.
    cbv [mbind mret M_bind M_ret fuelled_bind fuelled_ret call_int]. fold id.
    rewrite (proj2 (Z.eqb_neq _ _) (not_eq_sym Eid)). cbn [negb].
    eexists _, _. split; [reflexivity|]. by destruct (id <? 0).
  - unfold exec, pymod_exec. by rewrite Hm, decide_True.
  - intros m' Hne. unfold exec, pymod_exec. rewrite Hm, decide_False by done. eexists. reflexivity.
Qed.

(** ** Versions *)

Lemma to_string_digit n : 0 ≤ n < 10 → to_string_int n = [digit_chr n].
Proof.
  intros Hn. assert (n = 0 ∨ n = 1 ∨ n = 2 ∨ n = 3 ∨ n = 4 ∨ n = 5 ∨ n = 6 ∨ n = 7 ∨ n = 8 ∨ n = 9) as H by lia.
  by repeat destruct H as [->|H]; subst.
Qed.

Lemma to_string_first n : 0 ≤ n → ∃ c l, to_string_int n = c :: l.
Proof.
  intros Hn. unfold to_string_int. rewrite (proj2 (Z.ltb_ge n 0) Hn).
  destruct (digits_spec n Hn) as (_ & _ & Hne). destruct (digits n); [done|eauto].
Qed.

Lemma digit_chr_inj a b : 0 ≤ a < 10 → 0 ≤ b < 10 → digit_chr a = digit_chr b → a = b.
Proof. intros Ha Hb E. by rewrite <- (digit_chr_val a Ha), E, digit_chr_val. Qed.

(** The check tells two versions apart exactly by the major number and the first
    digit of the minor one. *)
Theorem version_check_first_digit lib major minor major' minor' rest s :
  0 ≤ major < 10 → 0 ≤ major' < 10 → 0 ≤ minor → 0 ≤ minor' →
  let version := to_string_int major' ++ #"." ++ to_string_int minor' ++ rest in
  check_binary_version lib major minor version s
  = (if decide (major = major' ∧ head (to_string_int minor) = head (to_string_int minor')) then mret (0, s)
     else call_int lib (Call "PyErr_WarnEx" []) s).
Proof.
  intros HM HM' Hm Hm' version. unfold check_binary_version, version, ctversion, rtversion, char_at.
  rewrite (to_string_digit major), (to_string_digit major') by done.
  destruct (to_string_first minor Hm) as (c & l & ->). destruct (to_string_first minor' Hm') as (c' & l' & ->).
  cbn [app take lit String.list_ascii_of_string lookup list_lookup default head id]. case_decide as H1; case_decide as H2; try done.
  - destruct H2 as [-> [= ->]]. destruct H1 as [H1|H1]; by destruct H1.
  - destruct H2. split.
    + destruct (decide (major = major')) as [|Hne]; [done|]. destruct H1. left. intros E. by apply Hne, digit_chr_inj.
    + destruct (decide (c = c')) as [->|Hne]; [done|]. destruct H1. by right.
Qed.

(** ** Concrete libraries *)

(** Every call succeeds, with an object of its own, but the first one of
    [bad]. *)
Definition library (bad : string) : list call → call → answer := fun tr c =>
  if String.eqb (callee c) bad && negb (existsb (fun c' => String.eqb (callee c') bad) tr) then Answer None (-1)
  else Answer (Some (100 + length tr)%nat) (if String.eqb (callee c) "PyMem_Realloc" then 1 else 0).

Definition start : pystate := PyState None ∅ [] empty_cache.

Definition load (bad : string) (st : statics) (s : pystate) : fuelled ((statics * Z) * pystate) :=
  pymod_exec (library bad) some_objects 2%nat 3%nat 4%nat 5%nat (fun o => o) 3 7 #"3.7.9" false 6%nat st s.

Lemma start_local n : n ≤ 1000 → local ∅ n [] (owned_vars loaded ++ []) false start.
Proof. intros Hn. split; [apply rep_empty|unfold int_max; cbn; lia|by vm_compute|done]. Qed.

(** What a load returns, the exception it leaves, and how many references it owns. *)
Definition summary (r : fuelled ((statics * Z) * pystate)) : option (Z * option pyexc * nat) :=
  match r with Done (Ok ((_, ret), s)) => Some (ret, err s, size (refs s)) | _ => None end.

(** The variables and the state after a load. *)
Definition left_by (r : fuelled ((statics * Z) * pystate)) : statics * pystate :=
  match r with Done (Ok ((st, _), s)) => (st, s) | _ => (loaded, start) end.

Lemma loads (m : M (statics * Z)) Q s P ret e k :
  summary (m s) = Some (ret, e, k) → wp m Q s ∨ m s = Done (Undef null_deref) ∧ P →
  m s = Done (Ok (((left_by (m s)).1, ret), (left_by (m s)).2)) ∧ Q ((left_by (m s)).1, ret) (left_by (m s)).2.
Proof.
  intros Hs [([st ret'] & s' & E & H)|[E _]]; rewrite E in *; [|discriminate]. by injection Hs as -> _ _.
Qed.

Lemma held_in_loaded ys : held_in loaded ys = [].
Proof. by induction ys. Qed.


(** The module that a first load made: asked for again in its interpreter 0 and in
    another one, and executed again. *)
Lemma module_loaded_once_witness :
  let st := set_interpreter 0 (left_by (load "" loaded start)).1 in let s := (left_by (load "" loaded start)).2 in
  module_ st = Some 6%nat ∧
  (∃ s', pymod_create (library "") 2%nat 9%nat st s = Done (Ok ((st, Some 6%nat), s')) ∧
         refs s' = {[+ 6%nat +]} ⊎ refs s ∧ err s' = err s ∧ cache s' = cache s) ∧
  pymod_exec (library "") some_objects 2%nat 3%nat 4%nat 5%nat (fun o => o) 3 7 #"3.7.9" false 6%nat st s = Done (Ok ((st, 0), s)).
Proof.
  intros st s. assert (module_ st = Some 6%nat) as Hm by (vm_compute; reflexivity).
  destruct (module_loaded_once (library "") some_objects 2%nat 3%nat 4%nat 5%nat (fun o => o) 3 7 #"3.7.9" false 9%nat 6%nat st s
    Hm ltac:(vm_compute; discriminate)) as (Hsame & _ & Hexec & _).
  split; [exact Hm|]. split; [|exact Hexec]. apply Hsame. vm_compute. reflexivity.
Defined.

(** If the builtins cannot be attached to the module, the error label dereferences a
    null pointer instead of reporting the exception. *)
Example exec_null_deref : load "PyObject_SetAttrString" loaded start = Done (Undef null_deref).
Proof. vm_compute. reflexivity. Qed.

(** A load that fails late keeps its variables; a second one succeeds and overwrites
    them without releasing what they hold. *)
Example second_load_leaks :
  match load "PyCFunction_NewEx" loaded start with
  | Done (Ok ((st, ret), s)) =>
      ret = -1 ∧ module_ st = None ∧ size (refs s) = 43%nat ∧
      summary (load "PyCFunction_NewEx" st s) = Some (0, err s, 86%nat)
  | _ => False
  end.
Proof. vm_compute. done. Qed.

(** A module compiled for 3.10 is taken to fit 3.11. *)
Example version_check_misses s : check_binary_version (library "") 3 10 #"3.11.4" s = mret (0, s).
Proof. apply (version_check_first_digit (library "") 3 10 3 11 #".4" s); lia. Qed.
