(* ===== verification/PyTables.v ===== *)
(** * The static tables of the module (cjunk/cython/simple.cpp)

    The method table and the slots of the type [a_class], and the definition of the
    module.  Which slots a type object has, and where, depends on the version of
    Python; a slot holds zero or the name of what it points to.  [PyInit] looks up the
    methods of the table by name and runs the slots of the module. *)

From Stdlib Require Import ZArith Lia String.
From stdpp Require Import base list sets strings.
From S2P Require Import Prelude PyInit.
Local Open Scope string_scope.
Local Open Scope list_scope.
Local Open Scope Z_scope.

Inductive call_convention := METH_NOARGS | METH_O.
Record method_def := MethodDef { ml_name : string; ml_meth : string; ml_flags : call_convention }.

(** Both tables without the zeros at their end. *)
Definition pyx_methods_a_class : list method_def :=
  [MethodDef "__reduce_cython__" "__pyx_pw_6simple_7a_class_1__reduce_cython__" METH_NOARGS;
   MethodDef "__setstate_cython__" "__pyx_pw_6simple_7a_class_3__setstate_cython__" METH_O].
Definition pyx_methods : list method_def := [].

Section Type_.
(** [PY_VERSION_HEX] *)
Context (version : Z).
Definition major3 : bool := 0x03000000 <=? version.

Definition when (c : bool) (slots : list (string * option string)) : list (string * option string) :=
  if c then slots else [].
Definition zeros (names : list string) : list (string * option string) := (fun n => (n, None)) <$> names.

Definition type_a_class_slots : list (string * option string) :=
  [("tp_name", Some "simple.a_class"); ("tp_basicsize", Some "sizeof(struct __pyx_obj_6simple_a_class)");
   ("tp_itemsize", None); ("tp_dealloc", Some "__pyx_tp_dealloc_6simple_a_class")] ++
  when (version <? 0x030800b4) (zeros ["tp_print"]) ++
  when (0x030800b4 <=? version) (zeros ["tp_vectorcall_offset"]) ++
  zeros ["tp_getattr"; "tp_setattr"] ++
  when (negb major3) (zeros ["tp_compare"]) ++
  when major3 (zeros ["tp_as_async"]) ++
  zeros ["tp_repr"; "tp_as_number"; "tp_as_sequence"; "tp_as_mapping"; "tp_hash"; "tp_call"; "tp_str";
         "tp_getattro"; "tp_setattro"; "tp_as_buffer"] ++
  [("tp_flags", Some "Py_TPFLAGS_DEFAULT|Py_TPFLAGS_HAVE_VERSION_TAG|Py_TPFLAGS_CHECKTYPES|Py_TPFLAGS_HAVE_NEWBUFFER|Py_TPFLAGS_BASETYPE")] ++
  zeros ["tp_doc"; "tp_traverse"; "tp_clear"; "tp_richcompare"; "tp_weaklistoffset"; "tp_iter"; "tp_iternext"] ++
  [("tp_methods", Some "__pyx_methods_6simple_a_class")] ++
  zeros ["tp_members"; "tp_getset"; "tp_base"; "tp_dict"; "tp_descr_get"; "tp_descr_set"; "tp_dictoffset";
         "tp_init"; "tp_alloc"] ++
  [("tp_new", Some "__pyx_tp_new_6simple_a_class")] ++
  zeros ["tp_free"; "tp_is_gc"; "tp_bases"; "tp_mro"; "tp_cache"; "tp_subclasses"; "tp_weaklist"; "tp_del";
         "tp_version_tag"] ++
  when (0x030400a1 <=? version) (zeros ["tp_finalize"]) ++
  when (0x030800b1 <=? version) (zeros ["tp_vectorcall"]) ++
  when ((0x030800b4 <=? version) && (version <? 0x03090000)) (zeros ["tp_print"]).
End Type_.

(** [__pyx_moduledef] and its slots, for loading in two phases and otherwise. *)
Inductive module_slot := Py_mod_create (f : string) | Py_mod_exec (f : string).
Definition pyx_moduledef_slots : list module_slot :=
  [Py_mod_create "__pyx_pymod_create"; Py_mod_exec "__pyx_pymod_exec_simple"].
Record module_def := ModuleDef {
  m_name : string; m_size : Z; m_methods : list method_def; m_slots : option (list module_slot) }.
Definition pyx_moduledef (multi_phase : bool) : module_def :=
  ModuleDef "simple" (if multi_phase then 0 else -1) pyx_methods
    (if multi_phase then Some pyx_moduledef_slots else None).

(** ** What does not depend on the version *)

Definition filled (slots : list (string * option string)) : list (string * string) :=
  omap (fun '(n, v) => pair n <$> v) slots.

Lemma filled_app a b : filled (a ++ b) = filled a ++ filled b.
Proof. apply omap_app. Qed.

Lemma filled_when c names : filled (when c (zeros names)) = [].
Proof. destruct c; [|done]. cbn [when]. by induction names. Qed.

(** The slots that are not zero are the same six for every version, and since
    [tp_dictoffset] and [tp_getattro] are zero, [__Pyx_modinit_type_init_code] may set
    the attribute lookup of the type; the methods are those that the pickling set-up
    renames, and a module loaded in two phases has no state of its own. *)
Theorem tables_correct (version : Z) :
  (filled (type_a_class_slots version)).*1
  = ["tp_name"; "tp_basicsize"; "tp_dealloc"; "tp_flags"; "tp_methods"; "tp_new"] ∧
  ("tp_dictoffset", None) ∈ type_a_class_slots version ∧ ("tp_getattro", None) ∈ type_a_class_slots version ∧
  Forall (fun m => ∃ x b, (x, ml_name m, b) ∈ string_tab) pyx_methods_a_class ∧
  m_size (pyx_moduledef true) = 0 ∧ m_slots (pyx_moduledef true) = Some pyx_moduledef_slots.
Proof.
  split; [|split; [|split; [|split; [|by split]]]].
  - unfold type_a_class_slots. rewrite !filled_app, !filled_when. reflexivity.
  - unfold type_a_class_slots. do 10 (apply elem_of_app; right). apply elem_of_app; left. apply (bool_decide_unpack _). by vm_compute.
  - unfold type_a_class_slots. do 6 (apply elem_of_app; right). apply elem_of_app; left. apply (bool_decide_unpack _). by vm_compute.
  - repeat constructor; eexists ("__pyx_n_s_" ++ _)%string, true.
    + instantiate (1 := "reduce_cython"). apply (bool_decide_unpack _). by vm_compute.
    + instantiate (1 := "setstate_cython"). apply (bool_decide_unpack _). by vm_compute.
Qed.
