(* ===== verification/AsyncIO.v ===== *)
(** * Reading keys on another thread (cjunk/practice/asyncio.cc)

    The helpers that read from [std::cin], and [main] with the task [io] as steps of
    two threads.  [std::async] is called without a policy: the implementation may run
    the task on a new thread, or defer it until its result is waited for.  [raw] and
    [normal] are not declared in the file; they are read as the two switches of the
    terminal's mode, and are events of the output.  ([kbhit] is in [AsyncInput].) *)

From Stdlib Require Import ZArith Lia Ascii.
From stdpp Require Import base list sets strings relations.
From S2P Require Import Prelude.

(** ** [std::cin] *)

(** The characters that have arrived, whether the input is closed, and the fail bit. *)
Record stream := Stream { arrived : bytes; closed : bool; failed : bool }.

(** [std::cin.get(buf)] with [buf = 0]; [None] blocks. *)
Definition getch (s : stream) : option (ascii * stream) :=
  if failed s then Some (nul, s)
  else match arrived s with
  | c :: l => Some (c, Stream l (closed s) false)
  | [] => if closed s then Some (nul, Stream [] true true) else None
  end.

(** The same, and the character that is written to [std::cout]. *)
Definition getche (s : stream) : option (ascii * stream * bytes) :=
  match getch s with Some (buf, s) => Some (buf, s, [buf]) | None => None end.

(** The characters before the first line end, and those after it. *)
Fixpoint split_line (l : bytes) : option (bytes * bytes) :=
  match l with
  | [] => None
  | c :: l =>
      if decide (c = newline) then Some ([], l)
      else match split_line l with Some (a, b) => Some (c :: a, b) | None => None end
  end.

(** A last line without a line end sets the fail bit only if it is empty; the next
    read finds the end of the input and sets it. *)
Definition getline (s : stream) : option (bytes * stream) :=
  if failed s then Some ([], s)
  else match split_line (arrived s) with
  | Some (line, l) => Some (line, Stream l (closed s) false)
  | None => if closed s then Some (arrived s, Stream [] true (bool_decide (arrived s = []))) else None
  end.

(** ** The two threads *)

Inductive io_event := ERaw | ENormal | EGotInput | EWaiting | EComplete.

Inductive io_pc := INotStarted | IRaw | ILoop | IRead | IPrint | INormal | IDone.
Inductive io_main_pc := MWaitFor | MStop | MPrint | MWait | MComplete | MDone.

#[export] Instance io_event_eq_dec : EqDecision io_event.
Proof. solve_decision. Defined.
#[export] Instance io_pc_eq_dec : EqDecision io_pc.
Proof. solve_decision. Defined.

Record io_state := State {
  deferred : bool;        (* the policy [std::async] chose *)
  cin : stream;
  running : bool;
  io_at : io_pc;
  main_at : io_main_pc;
  out : list io_event }.

Definition io_init (deferred : bool) (s : stream) : io_state :=
  State deferred s true (if deferred then INotStarted else IRaw) MWaitFor [].

(** [io] *)
Definition io_step (s : io_state) : option io_state :=
  let at_ p := State (deferred s) (cin s) (running s) p (main_at s) (out s) in
  let print p e := State (deferred s) (cin s) (running s) p (main_at s) (out s ++ [e]) in
  match io_at s with
  | INotStarted | IDone => None
  | IRaw => Some (print ILoop ERaw)
  | ILoop => Some (at_ (if running s then IRead else INormal))
  | IRead =>
      match getch (cin s) with
      | Some (_, c) => Some (State (deferred s) c (running s) IPrint (main_at s) (out s))
      | None => None
      end
  | IPrint => Some (print ILoop EGotInput)
  | INormal => Some (print IDone ENormal)
  end.

(** [main]: the wait of five seconds ends at once for a deferred task, and may end at
    any time for a running one; the second wait starts a deferred task. *)
Definition io_main_step (s : io_state) : option io_state :=
  let at_ p := State (deferred s) (cin s) (running s) (io_at s) p (out s) in
  let print p e := State (deferred s) (cin s) (running s) (io_at s) p (out s ++ [e]) in
  match main_at s with
  | MWaitFor => Some (at_ MStop)
  | MStop => Some (State (deferred s) (cin s) false (io_at s) MPrint (out s))
  | MPrint => Some (print MWait EWaiting)
  | MWait =>
      match io_at s with
      | INotStarted => Some (State (deferred s) (cin s) (running s) IRaw MWait (out s))
      | IDone => Some (at_ MComplete)
      | _ => None
      end
  | MComplete => Some (print MDone EComplete)
  | MDone => None
  end.

Definition with_cin (c : stream) (s : io_state) : io_state :=
  State (deferred s) c (running s) (io_at s) (main_at s) (out s).

(** A step of a thread, a key, or the end of the input. *)
Inductive step : io_state → io_state → Prop :=
| step_io s s' : io_step s = Some s' → step s s'
| step_main s s' : io_main_step s = Some s' → step s s'
| step_key s c : closed (cin s) = false →
    step s (with_cin (Stream (arrived (cin s) ++ [c]) false (failed (cin s))) s)
| step_close s : step s (with_cin (Stream (arrived (cin s)) true (failed (cin s))) s).

(** ** The helpers *)

Lemma split_line_spec l a b : split_line l = Some (a, b) ↔ l = a ++ newline :: b ∧ newline ∉ a.
Proof.
  revert a b. induction l as [|c l IH]; intros a b; cbn [split_line].
  { split; [done|]. intros [E _]. by destruct a. }
  destruct (decide (c = newline)) as [->|Hc].
  - split; [intros [= <- <-]; split; [done|apply not_elem_of_nil]|].
    intros [E Ha]. destruct a as [|x a]; cbn in E; injection E; [by intros ->|].
    intros _ <-. destruct Ha. by left.
  - split.
    + destruct (split_line l) as [[a' b']|]; [|done]. intros [= <- <-].
      destruct (proj1 (IH a' b') eq_refl) as [-> Ha']. split; [done|]. by apply not_elem_of_cons.
    + intros [E Ha]. destruct a as [|x a]; cbn in E; injection E; [by intros _ ?|].
      intros E' <-. apply not_elem_of_cons in Ha as [_ Ha]. by rewrite (proj2 (IH a b) (conj E' Ha)).
Qed.

(** [getline] returns the next line and leaves what follows it; only input without a
    line end that is not closed blocks it. *)
Lemma getline_spec s :
  failed s = false →
  match getline s with
  | Some (line, s') =>
      (newline ∉ line) ∧
      (arrived s = line ++ newline :: arrived s' ∨ closed s = true ∧ arrived s = line ∧ arrived s' = [])
  | None => closed s = false ∧ newline ∉ arrived s
  end.
Proof.
  intros Hf. unfold getline. rewrite Hf. destruct (split_line (arrived s)) as [[a b]|] eqn:E.
  - apply split_line_spec in E as [-> Ha]. auto.
  - assert (newline ∉ arrived s) as Hn.
    { intros Hin. destruct (list_elem_of_split_l _ _ Hin) as (a & b & Eab & Ha). rewrite (proj2 (split_line_spec _ a b)) in E; [done|]. done. }
    destruct (closed s) eqn:Ec; cbn; auto.
Qed.

(** ** Invariants *)

(** After the flag was cleared. *)
Definition stopping (m : io_main_pc) : bool := match m with MWaitFor | MStop => false | _ => true end.

(** Every run: the flag, and the order of the last events. *)
Record safe (s : io_state) : Prop := {
  s_running : stopping (main_at s) = true → running s = false;
  s_waited : main_at s = MComplete ∨ main_at s = MDone → io_at s = IDone;
  s_normal : io_at s = IDone → ENormal ∈ out s;
  s_complete : EComplete ∈ out s → main_at s = MDone }.

Lemma elem_of_snoc {A} (l : list A) x y : y ∈ l ++ [x] ↔ y ∈ l ∨ y = x.
Proof. by rewrite elem_of_app, list_elem_of_singleton. Qed.

Ltac safe_step := split; cbn in *; rewrite ?elem_of_snoc in *; intuition (try congruence).

Lemma step_safe s s' : step s s' → safe s → safe s'.
Proof.
  intros Hst [Hr Hw Hn Hc]. destruct Hst as [s s' E|s s' E|s k Ek|s].
  3-4: by split.
  - unfold io_step in E. destruct s as [d c r i m o], i; cbn in *; try discriminate.
    3: destruct (getch c) as [[? ?]|]; [|discriminate].
    2: destruct r.
    all: injection E as <-; safe_step.
  - unfold io_main_step in E. destruct s as [d c r i m o], m; cbn in *; [| | |destruct i; try discriminate| |discriminate].
    all: injection E as <-; safe_step.
Qed.

Lemma init_safe d c : safe (io_init d c).
Proof. split; cbn; try done; [by intros [?|?]|by destruct d|by intros ?%not_elem_of_nil]. Qed.

Lemma reachable_safe d c s : rtc step (io_init d c) s → safe s.
Proof. intros Hr. eapply (rtc_preserve step safe); eauto using init_safe, step_safe. Qed.

(** A deferred task: where the threads are and what was printed; no key was taken. *)
Definition deferred_shape (s : io_state) : Prop :=
  match main_at s with
  | MWaitFor | MStop | MPrint => io_at s = INotStarted ∧ out s = []
  | MWait =>
      match io_at s with
      | INotStarted | IRaw => out s = [EWaiting]
      | ILoop | INormal => out s = [EWaiting; ERaw]
      | IDone => out s = [EWaiting; ERaw; ENormal]
      | IRead | IPrint => False
      end
  | MComplete => io_at s = IDone ∧ out s = [EWaiting; ERaw; ENormal]
  | MDone => io_at s = IDone ∧ out s = [EWaiting; ERaw; ENormal; EComplete]
  end.

Record deferred_inv (keys : bytes) (s : io_state) : Prop := {
  d_safe : safe s; d_shape : deferred_shape s; d_keys : keys `prefix_of` arrived (cin s) }.

Lemma step_deferred keys s s' : step s s' → deferred_inv keys s → deferred_inv keys s'.
Proof.
  intros Hst [Hs Hd Hk]. assert (Hs' := step_safe _ _ Hst Hs). destruct Hst as [s s' E|s s' E|s k Ek|s].
  - pose proof (s_running _ Hs) as Hr. unfold io_step in E. unfold deferred_shape in Hd.
    destruct s as [d c r i m o], i; cbn in *; try discriminate; destruct m; cbn in *;
      try (destruct Hd; discriminate); try contradiction.
    all: try rewrite Hr in E by done; injection E as <-; split; cbn; [done| |done]; unfold deferred_shape; cbn; by subst.
  - unfold io_main_step in E. unfold deferred_shape in Hd.
    destruct s as [d c r i m o], m; cbn in *; [| | |destruct i; try discriminate| |discriminate]; injection E as <-;
      split; try done; unfold deferred_shape; cbn; try tauto; try (destruct Hd; by subst); by subst.
  - split; [done|done|]. cbn. by apply prefix_app_r.
  - by split.
Qed.

(** ** Progress *)

(** The task can end without a step of [main]. *)
Definition io_can_end (s : io_state) : Prop := ∃ s', rtc step s s' ∧ io_at s' = IDone ∧ main_at s' = main_at s.

Lemma io_can_end_step s s1 : step s s1 → main_at s1 = main_at s → io_can_end s1 → io_can_end s.
Proof. intros H1 Hm (s' & Hs & Hi & Hm'). exists s'. split; [by eapply rtc_l|]. split; [done|congruence]. Qed.

Lemma io_can_end_io s s1 : io_step s = Some s1 → main_at s1 = main_at s → io_can_end s1 → io_can_end s.
Proof. intros H. by apply io_can_end_step, step_io. Qed.

(** With the flag cleared the task ends, after at most one more key. *)
Lemma io_ends s : running s = false → io_at s ≠ INotStarted → io_can_end s.
Proof.
  destruct s as [d c r i m o]. cbn. intros -> Hi.
  assert (∀ c o, io_can_end (State d c false ILoop m o)) as Hl.
  { intros c' o'. do 2 (eapply io_can_end_io; [reflexivity|done|]). eexists. split; [apply rtc_refl|done]. }
  assert (∀ c o b c', getch c = Some (b, c') → io_can_end (State d c false IRead m o)) as Hg.
  { intros c1 o1 b c' G. eapply io_can_end_io; [unfold io_step; cbn; rewrite G; reflexivity|done|].
    eapply io_can_end_io; [reflexivity|done|apply Hl]. }
  destruct i; [done|by eapply io_can_end_io; [reflexivity|done|apply Hl]|apply Hl| | | |].
  - destruct (getch c) as [[b c']|] eqn:G; [by eapply Hg|]. unfold getch in G.
    destruct c as [a cl f]; cbn in G. destruct f; [discriminate|]. destruct a; [|discriminate]. destruct cl; [discriminate|].
    eapply io_can_end_step; [by apply (step_key _ newline)|done|]. by eapply Hg.
  - eapply io_can_end_io; [reflexivity|done|apply Hl].
  - eapply io_can_end_io; [reflexivity|done|]. eexists. split; [apply rtc_refl|done].
  - eexists. split; [apply rtc_refl|done].
Qed.

Definition can_end (s : io_state) : Prop := ∃ s', rtc step s s' ∧ main_at s' = MDone.

Lemma can_end_main s s1 : io_main_step s = Some s1 → can_end s1 → can_end s.
Proof. intros H%step_main (s' & Hs & Hm). exists s'. split; [by eapply rtc_l|done]. Qed.

Lemma done_can_end s : main_at s = MDone → can_end s.
Proof. intros H. by exists s. Qed.

Lemma wait_can_end s : running s = false → main_at s = MWait → can_end s.
Proof.
  assert (∀ s, running s = false → io_at s ≠ INotStarted → main_at s = MWait → can_end s) as H.
  { intros s1 R1 I1 E1. destruct (io_ends s1 R1 I1) as ([d c r i m o] & Hr & Ei & Em). cbn in Ei, Em. rewrite E1 in Em. subst.
    assert (can_end (State d c r IDone MWait o)) as (s' & Hs & Hm).
    { do 2 (eapply can_end_main; [reflexivity|]). by apply done_can_end. }
    exists s'. split; [by etrans|done]. }
  intros R E. destruct s as [d c r i m o]; cbn in *; subst.
  destruct (decide (i = INotStarted)) as [->|Hi]; [|by apply H].
  eapply can_end_main; [reflexivity|]. by apply H.
Qed.

Lemma main_ends s : safe s → can_end s.
Proof.
  intros Hs. pose proof (s_running _ Hs) as Hr. destruct s as [d c r i m o]; cbn in *.
  assert (∀ o, can_end (State d c false i MWait o)) as Hw by (intros; by apply wait_can_end).
  destruct m; cbn in *.
  - do 3 (eapply can_end_main; [reflexivity|]). apply Hw.
  - do 2 (eapply can_end_main; [reflexivity|]). apply Hw.
  - rewrite Hr by done. eapply can_end_main; [reflexivity|]. apply Hw.
  - rewrite Hr by done. apply Hw.
  - eapply can_end_main; [reflexivity|]. by apply done_can_end.
  - by apply done_can_end.
Qed.

(** ** Theorems *)

(** [main] can always end, whatever happened so far, but for one more key at most;
    it says that it is complete only after the terminal is back in its normal mode.
    A deferred task takes no key at all: the terminal is switched to raw mode and
    back, and the program prints its two lines.  A task on a thread of its own can keep
    [main] waiting after the five seconds: when no key arrives, neither thread has a
    step. *)
Theorem keyboard_task (keys : bytes) (eof : bool) :
  (∀ d s, rtc step (io_init d (Stream keys eof false)) s →
     can_end s ∧ (EComplete ∈ out s → ENormal ∈ out s)) ∧
  (∀ s, rtc step (io_init true (Stream keys eof false)) s →
     out s `prefix_of` [EWaiting; ERaw; ENormal; EComplete] ∧ keys `prefix_of` arrived (cin s)) ∧
  (∃ s, rtc step (io_init false (Stream [] false false)) s ∧
     running s = false ∧ main_at s = MWait ∧ io_step s = None ∧ io_main_step s = None).
Proof.
  split_and!.
  - intros d s Hr. pose proof (reachable_safe _ _ _ Hr) as Hs. split; [by apply main_ends|].
    intros Hc. apply (s_normal _ Hs), (s_waited _ Hs). right. by apply (s_complete _ Hs).
  - intros s Hr. assert (deferred_inv keys s) as [_ Hd Hk].
    { eapply (rtc_preserve step (deferred_inv keys)); [intros; by eapply step_deferred| |exact Hr].
      split; [apply init_safe|done|done]. }
    split; [|done]. unfold deferred_shape in Hd.
    destruct (main_at s); [..|destruct (io_at s)| |]; try contradiction; try (apply proj2 in Hd); rewrite Hd;
      by apply (bool_decide_unpack _); vm_compute.
  - eexists. split; [|split; [|split; [|split]]]; [eapply rtc_l; [by apply step_io|]; eapply rtc_l; [by apply step_io|];
      do 3 (eapply rtc_l; [by apply step_main|]); apply rtc_refl|reflexivity..].
Qed.

(** At the end of the input the task does not wait: until the flag is cleared it
    prints its line again and again, though nobody pressed a key. *)
Theorem eof_spins (n : nat) :
  ∃ s, rtc step (io_init false (Stream [] true false)) s ∧ out s = ERaw :: replicate n EGotInput ∧ running s = true.
Proof.
  assert (∃ f, rtc step (io_init false (Stream [] true false)) (State false (Stream [] true f) true ILoop MWaitFor (ERaw :: replicate n EGotInput))) as [f Hf].
  { induction n as [|n [f IH]]; [exists false; by apply rtc_once, step_io|]. exists true. etrans; [exact IH|].
    eapply rtc_l; [apply step_io; reflexivity|]. eapply rtc_l; [apply step_io; destruct f; reflexivity|].
    eapply rtc_once, step_io. unfold io_step. cbn. rewrite <- replicate_S_end. reflexivity. }
  eexists. split; [exact Hf|done].
Qed.

(** ** Which standard streams are terminals (isatty.cc) *)

Definition terminal_line (name : bytes) (tty : bool) : bytes :=
  name ++ (if tty then #" is a terminal" else #" is not a terminal") ++ [newline].
(** [main], by the answers of [isatty] for the descriptors 0, 1 and 2. *)
Definition isatty_main (tty0 tty1 tty2 : bool) : bytes * Z :=
  (terminal_line #"stdin" tty0 ++ terminal_line #"stdout" tty1 ++ terminal_line #"stderr" tty2, 0%Z).

(** The output tells the eight cases apart. *)
Lemma isatty_main_injective a b c a' b' c' : isatty_main a b c = isatty_main a' b' c' → (a, b, c) = (a', b', c').
Proof. by destruct a, b, c, a', b', c'. Qed.
