(* ===== verification/NodeShared.v ===== *)
(** * Nodes that share their lists (cjunk/practice/json-node2.hpp, trivialJson/json.hpp)

    The storage of a [Node] as the two headers build and compare it: lists are
    behind [std::shared_ptr], so that a copy of a node shares its list, and the
    [generator] functions of json-node2.hpp copy a string into an array that is not
    initialised.  ([NodeJson] has the trees that json.cpp prints.)  json-node2.hpp
    does not compile as it stands, because its member templates redeclare the
    parameter of the class; they are read as templates of their own. *)

From Stdlib Require Import ZArith Lia Ascii Floats.SpecFloat.
From stdpp Require Import base list gmap sets strings.
From S2P Require Import Prelude Double JsonValue NodeJson.

Abbreviation loc := nat (only parsing).

(** A character of an array; [None] is not initialised. *)
Definition cells : Type := list (option ascii).

Inductive storage :=
| SSmall (s : cells)
| SInt (i : Z)
| SDouble (d : double)
| SList (p : option loc).

(** The lists behind the shared pointers. *)
Abbreviation heap := (gmap loc (list storage)).

(** ** Building nodes *)

(** [static_cast<int64_t>(i)] of an integer of any width. *)
Definition to_int64 (i : Z) : Z := (i + 2 ^ 63) mod 2 ^ 64 - 2 ^ 63.

(** The arguments of the constructor templates, by the overload they select. *)
Inductive argument :=
| AInteger (i : Z)
| AStorage (s : storage)          (* convertible to [Storage] *)
| AText (s : bytes).              (* a C string, by its characters before the NUL *)

(** [std::copy_n(temp.c_str(), min(size + 1, sizeof(thingy)), s.begin())]; [thingy] is
    a pointer, of 8 bytes like the array. *)
Definition small_string (temp : bytes) : cells :=
  let len := (length temp + 1) `min` 8 in
  take 8 ((Some <$> take len (temp ++ [nul])) ++ replicate 8 None).

(** The overloads of [generator], and the constructors that use them. *)
Definition generator (a : argument) : storage :=
  match a with
  | AInteger i => SInt (to_int64 i)
  | AStorage s => s
  | AText t => SSmall (small_string t)
  end.

(** [Node()]: the first alternative, value-initialised. *)
Definition Node_empty : storage := SSmall (replicate 8 (Some nul)).

(** The variadic constructor: a new list of the generated nodes. *)
Definition Node_list (h : heap) (args : list argument) : heap * storage :=
  let p := fresh (dom h) in
  (<[p := generator <$> args]> h, SList (Some p)).

(** What these functions write, in the order of the arguments. *)
Definition generator_log (a : argument) : list bytes :=
  match a with AText _ => [lit "constructing small string"] | _ => [] end.
Definition Node_list_log (args : list argument) : list bytes :=
  #"variadic template constructor" :: concat (generator_log <$> args).

(** The constructor templates and [generator] overloads of json.hpp, which has none for
    C strings; its variadic constructor asserts that a vector is trivially
    constructible, which holds for no argument list.  [generator] assigns to the
    storage of a default-constructed node. *)
Definition json_Node_of_integer (i : Z) : storage := SInt (to_int64 i).
Definition json_Node_of_storage (obj : storage) : storage := obj.
Definition assign_storage (j obj : storage) : storage := obj.
Definition json_generator_integer (i : Z) : storage := assign_storage Node_empty (SInt (to_int64 i)).
Definition json_generator_storage (thingy : storage) : storage := assign_storage Node_empty thingy.

(** [std::visit(v, _storage)]: the visitor's function for the alternative that is held. *)
Definition Node_visit {A} (on_small : cells → A) (on_int : Z → A) (on_double : double → A)
    (on_list : option loc → A) (s : storage) : A :=
  match s with
  | SSmall c => on_small c
  | SInt i => on_int i
  | SDouble d => on_double d
  | SList p => on_list p
  end.

(** ** json.hpp *)

(** The constructor from a C string starts from an array of NULs. *)
Definition Node_from_cstr (s : bytes) : storage := SSmall (Some <$> Node_chars s).

(** [std::array] compares element by element, up to the first difference. *)
Fixpoint cells_ne (a b : cells) : outcome bool :=
  match a, b with
  | Some x :: a, Some y :: b => if decide (x = y) then cells_ne a b else Ok true
  | None :: _, _ | _, None :: _ => Undef uninit_read
  | _, _ => Ok false
  end.

(** [operator!=]: variants differ in their alternative or in its value; shared
    pointers compare as addresses. *)
Definition Node_ne (a b : storage) : outcome bool :=
  match a, b with
  | SSmall x, SSmall y => cells_ne x y
  | SInt x, SInt y => Ok (negb (x =? y)%Z)
  | SDouble x, SDouble y => Ok (negb (SFeqb x y))
  | SList x, SList y => Ok (negb (bool_decide (x = y)))
  | _, _ => Ok true
  end.

(** ** Strings *)

(** A C string in an array: the characters up to a NUL. *)
Fixpoint read_cstr (c : cells) : outcome bytes :=
  match c with
  | [] => Undef oob_access
  | None :: _ => Undef uninit_read
  | Some x :: c => if decide (x = nul) then Ok [] else l ← read_cstr c; Ok (x :: l)
  end.

Lemma read_cstr_app s c : no_nul s → read_cstr ((Some <$> s) ++ c) = (l ← read_cstr c; Ok (s ++ l)).
Proof.
  induction 1 as [|x s Hx Hs IH]; cbn; [by destruct (read_cstr c)|].
  rewrite decide_False, IH by done. by destruct (read_cstr c).
Qed.

(** A string of json-node2.hpp can be read back if and only if it has at most seven
    characters: the terminator of a longer one is not copied. *)
Theorem small_string_read (s : bytes) :
  no_nul s →
  length (small_string s) = 8 ∧
  read_cstr (small_string s) = if decide (length s ≤ 7) then Ok s else Undef oob_access.
Proof.
  intros Hs. split.
  { unfold small_string. rewrite length_take, length_app, length_replicate. lia. }
  unfold small_string. case_decide as Hl.
  - rewrite (take_ge (s ++ [nul])) by (rewrite length_app; simpl; lia).
    rewrite fmap_app, <- app_assoc, take_app_ge by (rewrite length_fmap; lia).
    rewrite read_cstr_app by done. rewrite length_fmap.
    destruct (8 - length s) as [|k] eqn:E; [lia|]. cbn. rewrite decide_True by done. cbn. by rewrite app_nil_r.
  - rewrite Nat.min_r by lia. rewrite (take_app_le s) by lia.
    assert (length (Some <$> take 8 s) = 8) as El by (rewrite length_fmap, length_take; lia).
    rewrite take_app_le, take_ge by lia.
    rewrite <- (app_nil_r (Some <$> _)), read_cstr_app by (by apply Forall_take). done.
Qed.

(** ** Comparison *)

Lemma cells_ne_spec a b : length a = length b →
  cells_ne (Some <$> a) (Some <$> b) = Ok (negb (bool_decide (a = b))).
Proof.
  revert b. induction a as [|x a IH]; intros [|y b] Hl; cbn in *; try done.
  destruct (decide (x = y)) as [->|Hne].
  - rewrite IH by congruence. do 2 f_equal. apply bool_decide_ext. naive_solver.
  - by rewrite bool_decide_eq_false_2 by naive_solver.
Qed.

Lemma Node_chars_take s : no_nul s → Node_chars s = take 8 s ++ replicate (8 - length s) nul.
Proof.
  intros Hs. unfold Node_chars, array8_copy. rewrite Node_length_no_nul by done.
  destruct (decide (length s < 8)).
  - rewrite Nat.min_l, take_ge, take_ge by (rewrite ?length_app; simpl; lia).
    rewrite <- app_assoc. f_equal. replace (8 - length s) with (S (8 - S (length s))) by lia. done.
  - rewrite Nat.min_r, take_app_le by lia. by replace (8 - length s) with (8 - 8) by lia.
Qed.

Lemma Node_chars_eq s t : no_nul s → no_nul t → Node_chars s = Node_chars t ↔ take 8 s = take 8 t.
Proof.
  intros Hs Ht. split; [intros E; by rewrite <- Node_chars_until, E, Node_chars_until|].
  intros E. rewrite !Node_chars_take, E by done. f_equal. f_equal.
  apply (f_equal length) in E. rewrite !length_take in E. lia.
Qed.

(** [!=] on nodes: strings compare by their first eight characters, integers by their
    64 bits, and lists by identity: a copy of a list node is equal to it, a node built
    again from the same arguments is not. *)
Theorem node_comparison :
  (∀ s t, no_nul s → no_nul t →
     Node_ne (Node_from_cstr s) (Node_from_cstr t) = Ok (negb (bool_decide (take 8 s = take 8 t)))) ∧
  (∀ i j, Node_ne (generator (AInteger i)) (generator (AInteger j)) = Ok (negb (i mod 2 ^ 64 =? j mod 2 ^ 64)%Z)) ∧
  (∀ h args, let '(h1, a) := Node_list h args in let '(h2, b) := Node_list h1 args in
     Node_ne a a = Ok false ∧ Node_ne a b = Ok true ∧
     Node_visit (fun _ => None) (fun _ => None) (fun _ => None) (fun p => p ≫= (h2 !!.)) a
     = Node_visit (fun _ => None) (fun _ => None) (fun _ => None) (fun p => p ≫= (h2 !!.)) b).
Proof.
  split_and!.
  - intros s t Hs Ht. cbn. rewrite cells_ne_spec.
    + do 2 f_equal. apply bool_decide_ext. by apply Node_chars_eq.
    + rewrite !Node_chars_take, !length_app, !length_take, !length_replicate by done. lia.
  - intros i j. cbn. do 2 f_equal. unfold to_int64.
    destruct (Z.eqb_spec (i mod 2 ^ 64) (j mod 2 ^ 64)) as [E|E].
    + apply Z.eqb_eq. f_equal. by rewrite (Z.add_mod i), E, <- Z.add_mod.
    + apply Z.eqb_neq. intros E'. apply E. assert ((i + 2 ^ 63) mod 2 ^ 64 = (j + 2 ^ 63) mod 2 ^ 64)%Z as E'' by lia.
      replace i with (i + 2 ^ 63 - 2 ^ 63)%Z by lia. replace j with (j + 2 ^ 63 - 2 ^ 63)%Z by lia.
      by rewrite (Zminus_mod (i + _)), E'', <- Zminus_mod.
  - intros h args. unfold Node_list. cbn. set (p := fresh (dom h)). set (q := fresh _).
    assert (q ≠ p) as Hq.
    { intros E. apply (is_fresh (dom (<[p:=generator <$> args]> h))). fold q. rewrite E. apply elem_of_dom. rewrite lookup_insert_eq. by eexists. }
    split_and!; [by rewrite bool_decide_eq_true_2|by rewrite bool_decide_eq_false_2 by congruence|].
    by rewrite lookup_insert_ne, !lookup_insert_eq.
Qed.

(** Integers that fit are stored as they are. *)
Lemma to_int64_fits i : (- 2 ^ 63 ≤ i < 2 ^ 63)%Z → to_int64 i = i.
Proof. intros Hi. unfold to_int64. rewrite Z.mod_small; lia. Qed.
