(* ===== verification/ContainerSource.v ===== *)
(** * A container as a stream source (cjunk/tests.cpp)

    [container_source] is the device behind a [boost::iostreams::stream]: [read]
    copies the next characters of the container into a buffer of the caller.  The
    container is a reference; the device only keeps a position. *)

From Stdlib Require Import ZArith Lia Ascii.
From stdpp Require Import base list gmap strings.
From S2P Require Import Prelude Memory.
Local Open Scope Z_scope.

Record container_source := Source { container_ : bytes; pos_ : Z }.

Definition source_init (container : bytes) : container_source := Source container 0.

(** [static_cast<streamsize>] of a [size_type]. *)
Definition to_streamsize (n : Z) : Z := if 2 ^ 63 <=? n then n - 2 ^ 64 else n.

(** [read]: the number of characters, or [-1]; the device and the buffer after.
    [std::copy] of a range whose end is before its start is undefined. *)
Definition read (src : container_source) (s : block) (n : Z) : outcome (Z * container_source * block) :=
  let amt := to_streamsize (u64 (Z.of_nat (length (container_ src)) - pos_ src)) in
  let result := Z.min n amt in
  if result =? 0 then Ok (-1, src, s)
  else if result <? 0 then Undef bad_precondition
  else
    chunk ← load (Some <$> container_ src) (pos_ src) result;
    s ← store s 0 chunk;
    Ok (result, Source (container_ src) (u64 (pos_ src + result)), s).

(** A reader that asks for [n] characters at a time, with a buffer of its own for
    each request, until it is told that there are no more. *)
Fixpoint read_all (sizes : list Z) (src : container_source) : outcome (block * bool) :=
  match sizes with
  | [] => Ok ([], false)
  | n :: sizes =>
      '(r, src, s) ← read src (fresh_block n) n;
      if r =? -1 then Ok ([], true)
      else '(rest, eof) ← read_all sizes src; Ok (take (Z.to_nat r) s ++ rest, eof)
  end.

Fixpoint total (sizes : list Z) : Z := match sizes with [] => 0 | n :: sizes => n + total sizes end.

(** The device is at [pos_] of a container that fits into memory. *)
Definition source_ok (src : container_source) : Prop :=
  0 ≤ pos_ src ≤ Z.of_nat (length (container_ src)) ∧ Z.of_nat (length (container_ src)) < 2 ^ 63.

Definition remaining (src : container_source) : bytes := drop (Z.to_nat (pos_ src)) (container_ src).

Lemma remaining_length src : source_ok src → Z.of_nat (length (remaining src)) = Z.of_nat (length (container_ src)) - pos_ src.
Proof. intros [H _]. unfold remaining. rewrite length_drop. lia. Qed.

(** One read: the next characters, as many as asked for or as there are; the end is
    reported if and only if nothing was asked for or nothing is left. *)
Lemma read_spec src s n :
  source_ok src → 0 ≤ n ≤ Z.of_nat (length s) →
  let k := Z.min n (Z.of_nat (length (remaining src))) in
  if k =? 0 then read src s n = Ok (-1, src, s)
  else ∃ s', read src s n = Ok (k, Source (container_ src) (pos_ src + k), s') ∧
       take (Z.to_nat k) s' = Some <$> take (Z.to_nat k) (remaining src) ∧ length s' = length s.
Proof.
  intros Hs Hn k. pose proof Hs as [Hp Hm]. pose proof (remaining_length src Hs) as Hr.
  unfold read. rewrite u64_small by lia. unfold to_streamsize. rewrite (proj2 (Z.leb_gt _ _)) by lia.
  rewrite <- Hr. fold k. destruct (Z.eqb_spec k 0) as [|Hk]; [done|].
  rewrite (proj2 (Z.ltb_ge k 0)) by lia.
  rewrite load_ok by (rewrite ?length_fmap; lia). cbn [mbind outcome_bind].
  set (chunk := take _ _).
  assert (Z.of_nat (length chunk) = k) as Hc by (unfold chunk; rewrite length_take, length_drop, length_fmap; lia).
  destruct (store_ok s 0 chunk) as (s' & -> & Hl & Hload & _); [lia|lia|]. cbn [mbind outcome_bind].
  exists s'. rewrite u64_small by lia. split; [done|]. split; [|done].
  rewrite Hc, load_ok in Hload by lia. injection Hload as Hload. cbn in Hload. rewrite drop_0 in Hload. rewrite Hload.
  unfold chunk, remaining. by rewrite <- fmap_drop, <- fmap_take.
Qed.

(** Some request finds nothing left of [len] characters. *)
Fixpoint finds_end (sizes : list Z) (len : Z) : bool :=
  match sizes with [] => false | n :: sizes => (len <=? 0) || finds_end sizes (len - n) end.

Lemma total_nonneg sizes : Forall (fun n => 0 < n) sizes → 0 ≤ total sizes.
Proof. induction 1; cbn; lia. Qed.

Lemma finds_end_spec sizes len :
  Forall (fun n => 0 < n) sizes → finds_end sizes len = true ↔ sizes ≠ [] ∧ len ≤ total (removelast sizes).
Proof.
  intros Hs. revert len. induction Hs as [|n sizes Hn Hs IH]; intros len; cbn [finds_end]; [naive_solver|].
  rewrite orb_true_iff, Z.leb_le, IH. destruct sizes as [|m sizes]; [cbn; naive_solver|].
  change (removelast (n :: m :: sizes)) with (n :: removelast (m :: sizes)). cbn [total].
  assert (0 ≤ total (removelast (m :: sizes))).
  { apply total_nonneg. rewrite Forall_forall in *. intros x Hx. apply Hs.
    rewrite (app_removelast_last 0 (l := m :: sizes)) by done. apply elem_of_app. by left. }
  split; [intros [?|[_ ?]]; split; [done|lia|done|lia]|]. intros [_ ?]. right. split; [done|lia].
Qed.

(** What a reader gets, by induction on its requests. *)
Lemma read_all_spec (src : container_source) (sizes : list Z) :
  source_ok src → Forall (fun n => 0 < n) sizes →
  read_all sizes src
  = Ok (Some <$> take (Z.to_nat (total sizes)) (remaining src), finds_end sizes (Z.of_nat (length (remaining src)))).
Proof.
  intros Hsrc Hsizes. revert src Hsrc. induction Hsizes as [|n sizes Hn Hsizes IH]; intros src Hsrc; [done|].
  cbn [read_all finds_end total].
  pose proof (read_spec src (fresh_block n) n Hsrc) as Hread. cbv zeta in Hread.
  unfold fresh_block in Hread at 1. rewrite length_replicate in Hread. specialize (Hread ltac:(lia)).
  pose proof (remaining_length src Hsrc) as Hr. pose proof (total_nonneg sizes Hsizes) as Ht.
  set (k := Z.min n _) in Hread. destruct (Z.eqb_spec k 0) as [Hk|Hk].
  + rewrite Hread. cbn. assert (remaining src = []) as -> by (apply nil_length_inv; lia). cbn. by rewrite take_nil.
  + destruct Hread as (s' & -> & Es & _). cbn [mbind outcome_bind].
    rewrite (proj2 (Z.eqb_neq k (-1))) by lia. rewrite (proj2 (Z.leb_gt _ 0)) by lia. cbn [orb].
    destruct Hsrc as [Hp Hm]. assert (source_ok (Source (container_ src) (pos_ src + k))) as Hok by (split; cbn; lia).
    rewrite (IH _ Hok), Es. cbn [mbind outcome_bind]. pose proof (remaining_length _ Hok) as Hr'. cbn in Hr'.
    assert (remaining (Source (container_ src) (pos_ src + k)) = drop (Z.to_nat k) (remaining src)) as Ed.
    { unfold remaining. cbn. rewrite drop_drop. f_equal. lia. }
    rewrite Ed in *. rewrite length_drop in *. do 2 f_equal.
    * rewrite <- fmap_app. f_equal. destruct (decide (k = n)) as [->|].
      -- rewrite Z2Nat.inj_add by lia. by rewrite take_take_drop.
      -- assert (Z.of_nat (length (remaining src)) = k) as E by lia.
         rewrite (drop_ge (remaining src)), take_nil, app_nil_r, !take_ge by lia. done.
    * destruct (decide (k = n)) as [->|]; [f_equal; lia|].
      assert (Z.of_nat (length (remaining src)) = k) as E by lia.
      destruct sizes as [|m sizes]; [done|]. cbn [finds_end]. by rewrite !(proj2 (Z.leb_le _ 0)) by lia.
Qed.

(** A request for no characters looks like the end. *)
Lemma empty_request src s : source_ok src → read src s 0 = Ok (-1, src, s).
Proof.
  intros H. pose proof (read_spec src s 0 H) as Hr. cbv zeta in Hr. rewrite Z.min_l in Hr by lia. apply Hr. lia.
Qed.

(** C26: reading with any positive sizes delivers the container from its position on, in
    order and without loss, and never leaves a buffer; the end is reported if and only
    if the requests before the last one have taken everything.  A request for nothing
    looks like the end, and a container that is shorter than what was read makes the
    next read undefined. *)
Theorem container_source_delivers (src : container_source) (sizes : list Z)
    (Hsrc : source_ok src) (Hsizes : Forall (fun n => 0 < n) sizes) :
  (∃ eof, read_all sizes src = Ok (Some <$> take (Z.to_nat (total sizes)) (remaining src), eof) ∧
          (eof = true ↔ sizes ≠ [] ∧ Z.of_nat (length (remaining src)) ≤ total (removelast sizes))) ∧
  (∀ s, read src s 0 = Ok (-1, src, s)) ∧
  (∀ shorter s n, Z.of_nat (length shorter) < pos_ src → 0 < n →
     read (Source shorter (pos_ src)) s n = Undef bad_precondition).
Proof.
  split; [|split; [intros s; by apply empty_request|]].
  - eexists. split; [by apply read_all_spec|by apply finds_end_spec].
  - intros shorter s n Hlt Hn. destruct Hsrc as [Hp Hm]. unfold read, u64, to_streamsize. cbn [container_ pos_].
    assert ((Z.of_nat (length shorter) - pos_ src) mod 2 ^ 64 = Z.of_nat (length shorter) - pos_ src + 2 ^ 64) as ->.
    { symmetry. apply (Z.mod_unique _ _ (-1)); lia. }
    rewrite (proj2 (Z.leb_le _ _)) by lia. rewrite (proj2 (Z.eqb_neq _ 0)), (proj2 (Z.ltb_lt _ 0)) by lia. done.
Qed.

(** Four requests of five characters take the thirteen of the test. *)
Lemma container_source_delivers_witness :
  ∃ eof, read_all [5; 5; 5; 5] (source_init #"test string 1") = Ok (Some <$> #"test string 1", eof).
Proof.
  destruct (container_source_delivers (source_init #"test string 1") [5; 5; 5; 5]) as [(eof & E & _) _].
  - split; vm_compute; [split; discriminate|reflexivity].
  - repeat constructor; lia.
  - exists eof. exact E.
Defined.

(** ** The tests *)

(** [CombinerDevice::read] is unfinished: it reports the end and copies nothing. *)
Definition Combiner_read (s : block) (n : Z) : Z * block := (-1, s).

(** [getline] on what a source delivers. *)
Fixpoint first_line (b : block) : bytes :=
  match b with
  | Some c :: b => if decide (c = newline) then [] else c :: first_line b
  | _ => []
  end.

(** [iostreamContainer]: the stream asks for [buffer_size] characters at a time, here
    often enough to see the end; whether the assertion holds. *)
Definition iostreamContainer (buffer_size : Z) : outcome bool :=
  let input := #"test string 1" in
  '(b, _) ← read_all (replicate (S (length input)) buffer_size) (source_init input);
  Ok (bool_decide (first_line b = input)).

Lemma total_replicate n k : total (replicate n k) = Z.of_nat n * k.
Proof. induction n as [|n IH]; cbn [replicate total]; [lia|]. rewrite IH. lia. Qed.

Lemma iostreamContainer_passes buffer_size : 0 < buffer_size → iostreamContainer buffer_size = Ok true.
Proof.
  intros Hb. unfold iostreamContainer. set (input := #"test string 1").
  rewrite read_all_spec, total_replicate.
  - unfold remaining. cbn [pos_ container_ source_init].
    change (drop (Z.to_nat 0) input) with input. rewrite take_ge; [reflexivity|].
    change (length input) with 13%nat. lia.
  - unfold source_ok, source_init. simpl. lia.
  - by apply Forall_replicate.
Qed.

(** [multipleFiles]: the files after the first block, which closes its streams, the text
    that is copied, and whether it is the expected one.  Only the second stream is
    copied. *)
Definition multipleFiles (files : gmap bytes bytes) : gmap bytes bytes * bytes * bool :=
  let files := <[ #"/tmp/file2" := #"file2" ]> (<[ #"/tmp/file1" := #"file1" ]> files) in
  let result := default [] (files !! #"/tmp/file2") in
  (files, result, bool_decide (result = #"file1file2")).

(** The test fails on every file system. *)
Lemma multipleFiles_fails files : (multipleFiles files).1.2 = #"file2" ∧ (multipleFiles files).2 = false.
Proof. unfold multipleFiles. by rewrite lookup_insert_eq. Qed.
