(* ===== verification/HttpClient.v ===== *)
(** * The client of cjunk/parser.cpp

    [http_client] resolves a host, connects, and then reads and prints whatever
    arrives; each operation is started by the handler of the one before.  The first
    two handlers hold the bare pointer [this], those of [do_read] a shared pointer.  (The class is read as deriving from
    [std::enable_shared_from_this] and as having the members it uses.)
    [parse_json] wraps a reader of a library. *)

From Stdlib Require Import ZArith Lia Ascii.
From stdpp Require Import base list strings.
From S2P Require Import Prelude.

(** ** [parse_json] *)

Section ParseJson.
(** [Json::Reader::parse]: the value, or the messages of the errors. *)
Context {value : Type} (reader_parse : bytes → value + bytes).

Definition parse_json (json_string : bytes) : outcome value :=
  match reader_parse json_string with
  | inl root => Ok root
  | inr messages => Throw (runtime_error (lit "Failed to parse JSON: " ++ messages))
  end.
End ParseJson.

(** ** [http_client] *)

Inductive operation := Resolve | Connect | ReadSome.
#[export] Instance operation_eq_dec : EqDecision operation.
Proof. solve_decision. Defined.

(** The operation that is under way, whether the object belongs to a shared pointer,
    whether its owner still has it, and what was printed. *)
Record http_client := Client { pending : option operation; shared : bool; owned : bool; printed : bytes }.

Definition http_client_init (shared : bool) : http_client := Client (Some Resolve) shared true [].

(** [do_read]; [shared_from_this] throws if no shared pointer owns the object. *)
Definition client_do_read (c : http_client) : outcome http_client :=
  if shared c then Ok (Client (Some ReadSome) true (owned c) (printed c)) else Throw bad_weak_ptr.

(** The completion of the pending operation, with an error or with characters. *)
Definition complete (answer : option bytes) (c : http_client) : outcome http_client :=
  let stop := Client None (shared c) (owned c) (printed c) in
  match pending c, answer with
  | None, _ => Ok c
  | Some ReadSome, Some data => client_do_read (Client None (shared c) (owned c) (printed c ++ data))
  | _, None => Ok stop
  | Some Resolve, Some _ =>
      if owned c then Ok (Client (Some Connect) (shared c) (owned c) (printed c)) else Undef dangling
  | Some Connect, Some _ => if owned c then client_do_read c else Undef dangling
  end.

Inductive happening := Completes (answer : option bytes) | OwnerLeaves.

Definition happens (c : http_client) (e : happening) : outcome http_client :=
  match e with
  | Completes answer => complete answer c
  | OwnerLeaves => Ok (Client (pending c) (shared c) false (printed c))
  end.

Fixpoint run (c : http_client) (es : list happening) : outcome http_client :=
  match es with [] => Ok c | e :: es => c ← happens c e; run c es end.

(** The characters of the reads before the first error. *)
Fixpoint received (es : list happening) : bytes :=
  match es with
  | [] => []
  | Completes (Some data) :: es => data ++ received es
  | Completes None :: _ => []
  | OwnerLeaves :: es => received es
  end.

Definition reading_ends (es : list happening) : bool :=
  existsb (fun e => match e with Completes None => true | _ => false end) es.
Definition owner_leaves (es : list happening) : bool :=
  existsb (fun e => match e with OwnerLeaves => true | _ => false end) es.

Lemma run_stopped es : ∀ s o p, run (Client None s o p) es = Ok (Client None s (o && negb (owner_leaves es)) p).
Proof.
  induction es as [|[a|] es IH]; intros s o p; cbn.
  - by rewrite andb_true_r.
  - destruct a; apply IH.
  - rewrite IH. by rewrite !andb_false_r.
Qed.

Lemma run_reading es : ∀ o p, run (Client (Some ReadSome) true o p) es
  = Ok (Client (if reading_ends es then None else Some ReadSome) true (o && negb (owner_leaves es)) (p ++ received es)).
Proof.
  induction es as [|[[data|]|] es IH]; intros o p; cbn.
  - by rewrite andb_true_r, app_nil_r.
  - rewrite IH. by rewrite <- app_assoc.
  - rewrite run_stopped. by rewrite app_nil_r.
  - rewrite IH. by rewrite !andb_false_r.
Qed.

(** Once it is connected, the client of a shared pointer prints what arrives, in order,
    until the first error, even if its owner leaves; as it never writes, a server that
    waits for a request sends nothing.  An owner that leaves earlier lets the handler use
    a destroyed object, and a client that no shared pointer owns cannot read. *)
Theorem http_client_prints (es : list happening) (a b : bytes) (answer : bytes) :
  run (http_client_init true) (Completes (Some a) :: Completes (Some b) :: es)
  = Ok (Client (if reading_ends es then None else Some ReadSome) true (negb (owner_leaves es)) (received es)) ∧
  run (http_client_init true) (OwnerLeaves :: Completes (Some answer) :: es) = Undef dangling ∧
  run (http_client_init true) (Completes (Some a) :: OwnerLeaves :: Completes (Some answer) :: es) = Undef dangling ∧
  run (http_client_init false) (Completes (Some a) :: Completes (Some b) :: es) = Throw bad_weak_ptr.
Proof. split_and!; [|done..]. cbn. apply run_reading. Qed.
